(* ===== verification/_CoqProject ===== *)
-Q . S2P
Prelude.v
GoStrings.v
GoText.v
GoUrl.v
GoNet.v
GoNet6.v
ConnectionContext.v
Apis.v
Vni.v
Selector.v
Model.v
NsmState.v
Nsm.v
NsmHeal.v
Nsmd.v
NsmLemmas.v
NsmInv.v
NsmFind.v
NsmRequest.v
NsmProps.v
NsmdProps.v
NsmStreams.v
Monitor.v
InodeMonitor.v
Cidr.v
PrefixPool.v
PrefixPoolLemmas.v
PrefixPoolMerge.v
PrefixPoolInv.v
PrefixPoolProps.v
Converter.v
ConverterProps.v
Mesh.v
VppAgent.v
VppAgentProps.v
Node.v
RegistrarClient.v
Registration.v
DeepCopy.v
K8sClient.v
K8sClientset.v
K8sInformers.v
RegistryServer.v
RegistryProps.v
Cluster.v
Sdk.v
SdkProps.v
SriovConfigmap.v
SriovController.v
SriovProps.v
DevicePlugin.v
Tools.v
Webhook.v
WebhookProps.v
Utils.v
Daemon.v
Startup.v
K8sRegistry.v
Examples.v
Commands.v
ExamplesProps.v
