(* ===== verification/Prelude.v ===== *)
(** * Network Service Mesh: a verification development

    Network Service Mesh connects pods of a Kubernetes cluster to network
    services.  This library is a model of its Go code with the theorems that
    make it correct.  Paths are relative to src/.

    ** The program and how its parts interact

    On every node runs a manager (nsmd).  A pod gets a workspace, a directory
    with two sockets, from the device plugin (nsmdp), because the admission
    webhook added an init container to it, or asks for one itself.  Through
    its workspace a client requests a network service.  The manager looks the
    service up in the registry (a server in front of the Kubernetes API),
    selects one of its endpoints, asks the endpoint, or the manager of the
    node where the endpoint runs, for a connection, and has the dataplane of
    its node cross connect the two.  Endpoints are chains of composites; one
    of them hands out addresses from a prefix pool.  The dataplane converts a
    cross connect into configuration of vpp, or joins two shared memory
    sockets by a proxy.  Monitors carry the state of connections from the
    dataplane to the managers and between managers, and a manager heals the
    connections that went down.  Next to this, a controller offers virtual
    functions of network cards (SR-IOV) to the kubelet.

    ** Conventions of the model

    - A Go function is a function of the same name where names allow; a
      prefix tells methods of different types apart ([lc_], [rc_], [xcon_],
      [va_], ...).  Errors are values of [error]: the format text, and the
      cause; operands of the text are not kept.  [(value, error)] is
      [result]; a call that can panic returns [outcome]; leaving the process
      with [logrus.Fatal] is [Panic "exit"].  A pointer that may be nil is an
      [option], reading through nil is a panic.
    - Objects that several parts of the code write through (client
      connections, dataplanes, outgoing connections of a client, proxies)
      live in heaps, and tables hold their addresses.  Messages are values.
    - The manager runs in a state monad [M] (NsmState.v).  What is outside
      the process is the class [Environment], whose answers may depend on the
      whole history of calls; the log records every call that leaves.
    - The order in which Go visits a map is an argument, and theorems hold
      for every order.  Integers keep their width where the code depends on
      it (identifiers of tunnels, address arithmetic, ports).
    - Goroutines are steps of a transition system, or turns of a loop whose
      inputs are arguments; bounded channels are modelled where their bound
      matters (Monitor.v, SriovController.v).
    - Code outside src/ (gRPC, Kubernetes, vpp-agent, the kernel, JSON and
      YAML decoders) is an argument of the definitions that call it.

    ** Files

    - Prelude: errors, results, outcomes and shared lemmas and tactics.
    - GoStrings, GoText, GoUrl, GoNet, GoNet6: what the code uses of Go's
      strings, strconv, path, net/url and net; the texts of IPv4 and IPv6
      networks read back.
    - ConnectionContext, Apis: controlplane/pkg/apis, the messages with their
      validity checks, and the interfaces over local and remote ones.
    - Vni, Selector, Model: controlplane/pkg/vni, .../selector, .../model.
      The selectors implement the class [Selector] that the manager uses.
    - NsmState, Nsm, NsmHeal, Nsmd: controlplane/pkg/nsm (Request, Close,
      Heal with all they call), .../services, and the servers, workspaces and
      monitor client of .../nsmd and .../remote.
    - NsmLemmas, NsmInv, NsmFind, NsmRequest: weakest preconditions and
      preservation of a preorder by every operation; the daemon as a
      transition system [nsm_step] with its reachable states; the search for
      an endpoint; the effect of requests on the tables.
    - NsmProps, NsmdProps, NsmStreams, Mesh: theorems of the manager, of its
      servers, of the two loops that receive events, and of two managers.
    - Daemon: the client wrappers, the connection to the registry, and the
      start of controlplane/cmd/nsmd; k8s/cmd/crossconnect-monitor.
    - Monitor, InodeMonitor: controlplane/pkg/monitor and
      .../monitor_crossconnect_server, servers and one recipient together.
    - Cidr, PrefixPool, PrefixPoolLemmas, PrefixPoolMerge, PrefixPoolInv,
      PrefixPoolProps: controlplane/pkg/prefix_pool.  Cidr has the abstract
      view, blocks of addresses, that the pool is proved against.
    - Converter, ConverterProps, VppAgent, VppAgentProps: dataplane/vppagent
      and dataplane/pkg/memifproxy.  Node: the process of the dataplane
      (.../vppagent/server.go) with the stream to its manager, and the manager
      at the other end of it.  RegistrarClient:
      dataplane/impl/dataplaneregistrarclient.  Registration: the liveness
      stream, and a dataplane and its manager as one transition system.
    - DeepCopy, K8sClient, K8sClientset, K8sInformers: k8s/pkg/apis and
      k8s/pkg/networkservice, the generated deep copies (over a heap), typed
      clients and fake clients, clientset, scheme and listers, and the shared
      informer factory.  K8sRegistry: the start of the caches on top of the
      informers, and k8s/cmd/nsmd-k8s.
    - RegistryServer, RegistryProps: k8s/pkg/registryserver.  Cluster:
      the registry servers of several nodes in front of one Kubernetes API.
    - Sdk, SdkProps: sdk.  Examples, ExamplesProps: examples/cmd.
    - SriovConfigmap: examples/cmd/nsm-generate-sriov-configmap;
      SriovController: controllers/sriov-controller; SriovProps: theorems
      about the two and their composition.
    - DevicePlugin: k8s/cmd/nsmdp.  Tools, Webhook, WebhookProps: pkg/tools
      and k8s/cmd/admission-webhook.  Utils: utils.
    - Startup: the start of the dataplane, of the caches of the registry, of
      a connection of the SDK and of the controller of virtual functions.
    - Commands: the main functions of the example endpoints, of nsmdp, of the
      webhook and of the cross connect monitor, and the sockets that managers
      and clients use.

    ** What the theorems show

    - NsmProps, NsmdProps, NsmStreams: what a successful and a failed request
      leave in the tables; the search for an endpoint ends; what closing
      removes; in every reachable state the tables are consistent and exactly
      the peers with connections are watched, whatever the loops receive;
      negotiated cross connects and mechanisms are valid; what a failure of
      the dataplane leaves behind; registration and removal of an endpoint
      cancel out.
    - Mesh: two managers together.  After a request at one of them the other
      holds a connection whose source is the destination of the first, so
      that the dataplanes set up the two ends of one tunnel; a close reaches
      both tables.
    - Model, Selector, Vni: listings are exact, the selector takes turns, the
      tunnel identifiers of two managers are disjoint.
    - PrefixPoolProps: no two connections share an address and nothing is
      lost; releasing computes the canonical merged list for every order of
      visits; a prefix is found whenever one exists.  The theorems hold for
      both address families.
    - InodeMonitor: a recipient's copy is the server's table once the messages
      are read; the check of namespaces marks what is gone, and can deadlock
      with its own server.  Node: when the namespace of a client is gone, every
      inode parses and the check has fewer than 22 updates, the update reaches
      the manager of a quiet node after a bounded number of steps in whatever
      order they are taken, and the manager closes the connection; it then puts
      the closed entry back into its table.
    - ConverterProps, VppAgentProps, RegistrarClient: a request contains what
      a cross connect needs unless the host refuses the conversion, with the
      error of the host; closing names the same things while /dev/vhost-net
      stays as it is; the ends of a tunnel mirror each other and have the
      parameters of the mechanism; access lists are complete; the connector
      holds exactly the proxies that were started and not told to stop; the
      callbacks of the registration alternate.
    - Registration: a dataplane whose manager is replaced registers again with
      the new one; one that the manager dropped while its stream lives stays
      unknown.
    - DeepCopy, K8sClient, K8sClientset, K8sInformers, K8sRegistry: a deep
      copy has the same value and shares no cell with the original; on a fake
      client any sequence of calls behaves as on the typed client of a server
      with the same objects; informers are shared and are run once, however
      often the factory is started.
    - RegistryProps: the cache refines a map as long as no endpoint moves to
      another service, what is registered is found, and a found service comes
      with its managers.  Cluster: a node
      that has read the events of the API answers with exactly what the API
      holds, whichever node registered it.
    - SdkProps, ExamplesProps: an endpoint with addresses gives back what it
      took; the firewall's chain and its tear-down.
    - WebhookProps, DevicePlugin, SriovProps, Utils: annotations reach the
      clients of the init container; the sockets of a workspace are reachable
      from the pod, and devices that are offered are free; what the kubelet
      sees of virtual functions is what the config map says, a generated config
      map has exactly the functions of the host that are bound, and allocation
      is exact; plugins run once.

    Lemmas named in the findings of the manifest prove behaviours of the code
    that its comments do not promise or that look unintended.

    ** Fuel and bounds

    - [findConnectNSE] takes fuel.  More fuel than there are endpoint names is
      enough, because a failed endpoint is ignored (NsmFind, NsmProps).
    - [split_fuel] (130) exceeds the bits of an IPv6 address, and every
      splitting adds a bit.  [merge_rounds] is started with the number of
      prefixes; every round but the last removes one ([merge_rounds_total]).
    - [free_ids] of the device plugin takes fuel: the number of workspaces and
      ten more is enough (DevicePlugin).
    - Formatting and parsing of numbers and addresses have fuel for the
      longest text of their width.
    - Loops that wait (redialling, retrying, receiving) are functions of the
      list of what they meet, or of one turn.

    ** Not modelled

    - Generated messages and stubs (the .pb.go files): the model has records
      with the fields that are used.  The libraries under the Kubernetes
      clients (REST, object trackers, informers' own loops, indexers) are
      outside src/ and are arguments with their documented laws.
    - Transport and tracing: sockets, gRPC servers, HTTP servers of probes
      and of the webhook, Jaeger, signals.  The errors they may give are
      arguments.  Real time is left out: a timeout is one of the answers.
    - Handlers of one manager interleave in the code; in the model a handler
      runs to its end before the next step.  The tables are protected by a
      mutex in the code, but client connections are written without one.
      The invariants of the tables do not depend on this: they hold for every
      sequence of the single writes of the handlers (NsmInv,
      [interleaved_writes_ok]); what a handler leaves is shown for handlers
      that are not interrupted.
      Between two managers, calls and the steps of the callee interleave.
    - The pool theorems are about the prefixes of one address family, and
      about IPv6 prefixes without IPv4-mapped addresses; what happens to those
      is shown by [ExtractPrefix_mapped_escapes].
    - The cross connects in the messages of a monitor are values: that the
      monitor and its recipients share the objects is left out.
    - Test kits (test, controlplane/pkg/tests), docker/debug and
      logging helpers. *)
From stdpp Require Export base tactics option numbers strings gmap fin_maps list.
From stdpp Require Import options.

Declare Scope go_scope.
Delimit Scope go_scope with go.
Global Open Scope Z_scope.

(** ** Go errors

    A Go [error] value carries a format string and, when it was built from
    another error, its cause.  The formatted operands are not kept: no code
    of the program reads them back. *)
Inductive error : Type :=
  | Errorf (fmt : string)
  | Wrapf (fmt : string) (cause : error).

#[global] Instance error_eq_dec : EqDecision error.
Proof. solve_decision. Defined.

(** ** Results: a pair [(value, error)] of which the caller reads one side. *)
Inductive result (A : Type) : Type :=
  | Ok (a : A)
  | Err (e : error).
Arguments Ok {A} _.
Arguments Err {A} _.

#[global] Instance result_ret : MRet result := @Ok.
#[global] Instance result_bind : MBind result := λ A B f m,
  match m with Ok a => f a | Err e => Err e end.

(** ** Outcomes: a call returns, or it panics (nil dereference, index out of
    range, failed type assertion, write to a nil map). *)
Inductive outcome (A : Type) : Type :=
  | Ret (a : A)
  | Panic (why : string).
Arguments Ret {A} _.
Arguments Panic {A} _.

#[global] Instance outcome_ret : MRet outcome := @Ret.
#[global] Instance outcome_bind : MBind outcome := λ A B f m,
  match m with Ret a => f a | Panic w => Panic w end.

(** A call that may panic and otherwise returns a value or an error; the
    caller returns on error. *)
Definition bind_or {A B} (m : outcome (result A)) (k : A → outcome (result B)) :
    outcome (result B) :=
  match m with
  | Ret (Ok a) => k a
  | Ret (Err e) => Ret (Err e)
  | Panic w => Panic w
  end.
Notation "x ⇐ m ; k" := (bind_or m (λ x, k))
  (at level 20, m at level 100, k at level 200, right associativity) : go_scope.
Notation "' p ⇐ m ; k" := (bind_or m (λ x, match x with p => k end))
  (at level 20, p pattern, m at level 100, k at level 200, right associativity) : go_scope.

(** A loop over a slice whose body may panic. *)
Fixpoint foldM {A B} (f : B → A → outcome B) (b : B) (l : list A) : outcome B :=
  match l with
  | [] => Ret b
  | a :: l => b' ← f b a; foldM f b' l
  end.

(** ** The iteration order of a Go map

    [range m] visits every key once, in an order the language leaves
    unspecified.  Loops over maps take the order as an argument. *)
Definition is_range_of `{Countable K} {A} (order : list (K * A)) (m : gmap K A) : Prop :=
  order ≡ₚ map_to_list m.

(** Reading a missing key of a [map[string]string] yields the empty string. *)
Definition map_get (m : gmap string string) (k : string) : string := default "" (m !! k).

(** ** Machine integers: Go's int is 64 bits wide and wraps around. *)
Definition wrap_u64 (x : Z) : Z := x `mod` 2 ^ 64.
Definition wrap_i64 (x : Z) : Z := (x + 2 ^ 63) `mod` 2 ^ 64 - 2 ^ 63.

Lemma wrap_u64_small x : 0 ≤ x < 2 ^ 64 → wrap_u64 x = x.
Proof. apply Z.mod_small. Qed.
Lemma wrap_i64_small x : - 2 ^ 63 ≤ x < 2 ^ 63 → wrap_i64 x = x.
Proof. intros. unfold wrap_i64. rewrite Z.mod_small by lia. lia. Qed.

(** ** Automation *)
Create HintDb nsm discriminated.

Ltac destruct_matches :=
  repeat match goal with
  | H : context [match ?x with _ => _ end] |- _ =>
      lazymatch x with context [match _ with _ => _ end] => fail | _ => destruct x eqn:? end
  | |- context [match ?x with _ => _ end] =>
      lazymatch x with context [match _ with _ => _ end] => fail | _ => destruct x eqn:? end
  end.

(** [inv_ret] resolves equations between results and outcomes. *)
Ltac inv_ret :=
  repeat match goal with
  | H : Ret _ = Ret _ |- _ => injection H as H
  | H : Ok _ = Ok _ |- _ => injection H as H
  | H : Err _ = Err _ |- _ => injection H as H
  | H : Some _ = Some _ |- _ => injection H as H
  | H : (_, _) = (_, _) |- _ => injection H as H
  | H : Ret _ = Panic _ |- _ => discriminate H
  | H : Panic _ = Ret _ |- _ => discriminate H
  | H : Ok _ = Err _ |- _ => discriminate H
  | H : Err _ = Ok _ |- _ => discriminate H
  end; simplify_eq.

(** ** Generic lemmas *)
Section foldM.
Context {A B : Type} (f : B → A → outcome B).

Lemma foldM_app b l1 l2 :
  foldM f b (l1 ++ l2) = (b' ← foldM f b l1; foldM f b' l2).
Proof.
  revert b; induction l1 as [|a l1 IH]; intros b; [done|]; simpl.
  destruct (f b a); simpl; [apply IH|done].
Qed.

(** An invariant of the loop body, over the elements visited so far. *)
Lemma foldM_inv (I : list A → B → Prop) b l :
  I [] b →
  (∀ done a rest b, l = done ++ a :: rest → I done b →
     ∃ b', f b a = Ret b' ∧ I (done ++ [a]) b') →
  ∃ b', foldM f b l = Ret b' ∧ I l b'.
Proof.
  intros H0 Hstep.
  assert (∀ pre l' b, l = pre ++ l' → I pre b →
            ∃ b', foldM f b l' = Ret b' ∧ I l b') as Hgo.
  { intros pre l'; revert pre; induction l' as [|a l' IH]; intros pre b' -> Hpre; simpl.
    - exists b'; split; [done|]. by rewrite app_nil_r.
    - destruct (Hstep pre a l' b') as (b'' & -> & Hb''); [done|done|]; simpl.
      apply (IH (pre ++ [a])); [by rewrite <-app_assoc|done]. }
  by apply (Hgo []).
Qed.
End foldM.

Lemma Permutation_sum_list_with {A} (f : A → nat) l1 l2 :
  l1 ≡ₚ l2 → sum_list_with f l1 = sum_list_with f l2.
Proof. induction 1; simpl; lia. Qed.

Lemma sum_list_with_app' {A} (f : A → nat) l1 l2 :
  sum_list_with f (l1 ++ l2) = (sum_list_with f l1 + sum_list_with f l2)%nat.
Proof. induction l1; simpl; lia. Qed.

Lemma mapM_app_Some {A B} (f : A → option B) l1 l2 k1 k2 :
  mapM f l1 = Some k1 → mapM f l2 = Some k2 → mapM f (l1 ++ l2) = Some (k1 ++ k2).
Proof. rewrite !mapM_Some. apply Forall2_app. Qed.
