(* ===== verification/GoStrings.v ===== *)
(** * The parts of Go's [strconv] and [strings] the program uses

    [FormatUint]/[ParseUint] on 64-bit values and the splitting and trimming
    functions, over byte strings. *)
From S2P Require Import Prelude.
From Stdlib Require Import Ascii.

(** ** Digits *)
Definition digit_char (d : Z) : ascii :=
  ascii_of_nat (Z.to_nat (if d <? 10 then 48 + d else 87 + d)).

(** The value of a decimal digit, as [c - '0'] after the range test. *)
Definition dec_val (c : ascii) : option Z :=
  let n := Z.of_nat (nat_of_ascii c) in
  if (48 <=? n) && (n <=? 57) then Some (n - 48) else None.

(** The value of a hexadecimal digit, either case. *)
Definition hex_val (c : ascii) : option Z :=
  let n := Z.of_nat (nat_of_ascii c) in
  if (48 <=? n) && (n <=? 57) then Some (n - 48)
  else if (97 <=? n) && (n <=? 102) then Some (n - 97 + 10)
  else if (65 <=? n) && (n <=? 70) then Some (n - 65 + 10)
  else None.

(** ** [strconv.FormatUint(n, base)]: least significant digit first, in front
    of the digits already produced. *)
Fixpoint format_go (fuel : nat) (base n : Z) (acc : string) : string :=
  match fuel with
  | O => acc
  | S fuel =>
      let acc := String (digit_char (n `mod` base)) acc in
      if n `div` base =? 0 then acc else format_go fuel base (n `div` base) acc
  end.

Definition FormatUint (n base : Z) : string :=
  format_go (S (Z.to_nat (Z.log2 n))) base n "".

(** ** [strconv.ParseUint(s, 10, bitSize)]: [None] is a syntax or range error. *)
Fixpoint parse_uint_go (max n : Z) (s : string) : option Z :=
  match s with
  | EmptyString => Some n
  | String c s =>
      match dec_val c with
      | None => None
      | Some d =>
          let n1 := n * 10 + d in
          if max <? n1 then None else parse_uint_go max n1 s
      end
  end.

Definition ParseUint (s : string) (bitSize : Z) : option Z :=
  match s with
  | EmptyString => None
  | _ => parse_uint_go (2 ^ bitSize - 1) 0 s
  end.

(** ** [strings.Split], [strings.Trim], [strings.ToUpper], [strings.Replace] *)

(** [sep] is one byte wherever the program calls [Split]. *)
Fixpoint split_go (sep : ascii) (cur : string) (s : string) : list string :=
  match s with
  | EmptyString => [cur]
  | String c s =>
      if Ascii.eqb c sep then cur :: split_go sep "" s
      else split_go sep (cur +:+ String c "") s
  end.
Definition Split (s : string) (sep : ascii) : list string := split_go sep "" s.

Fixpoint trim_left (p : ascii → bool) (s : string) : string :=
  match s with
  | EmptyString => EmptyString
  | String c s' => if p c then trim_left p s' else s
  end.

Fixpoint trim_right (p : ascii → bool) (s : string) : string :=
  match s with
  | EmptyString => EmptyString
  | String c s' =>
      match trim_right p s' with
      | EmptyString => if p c then EmptyString else String c EmptyString
      | r => String c r
      end
  end.

Definition is_blank (c : ascii) : bool := Ascii.eqb c " "%char.
Definition Trim (s : string) : string := trim_left is_blank (trim_right is_blank s).
Definition TrimSpace (s : string) : string :=
  trim_left Ascii.is_space (trim_right Ascii.is_space s).

Definition upper_char (c : ascii) : ascii :=
  let n := nat_of_ascii c in
  if (97 <=? n)%nat && (n <=? 122)%nat then ascii_of_nat (n - 32) else c.
Fixpoint ToUpper (s : string) : string :=
  match s with
  | EmptyString => EmptyString
  | String c s => String (upper_char c) (ToUpper s)
  end.

(** [strings.Replace(s, old, "", -1)] for a one-byte [old]. *)
Fixpoint remove_char (old : ascii) (s : string) : string :=
  match s with
  | EmptyString => EmptyString
  | String c s => if Ascii.eqb c old then remove_char old s else String c (remove_char old s)
  end.

Fixpoint joined (sep : ascii) (l : list string) : string :=
  match l with
  | [] => ""
  | [s] => s
  | s :: l => s +:+ String sep (joined sep l)
  end.

(** ** [path.Clean], [path.Join] and [path.Dir] *)
Fixpoint clean_go (rooted : bool) (out : list string) (elems : list string) : list string :=
  match elems with
  | [] => reverse out
  | e :: elems =>
      if decide (e = "" ∨ e = ".") then clean_go rooted out elems
      else if decide (e = "..") then
        match out with
        | top :: out' =>
            if decide (top = "..") then clean_go rooted (".." :: out) elems
            else clean_go rooted out' elems
        | [] => clean_go rooted (if rooted then [] else [".."]) elems
        end
      else clean_go rooted (e :: out) elems
  end.
Definition path_Clean (p : string) : string :=
  let rooted := match p with String "/" _ => true | _ => false end in
  let body := joined "/" (clean_go rooted [] (Split p "/")) in
  if rooted then String "/" body
  else match body with EmptyString => "." | _ => body end.
Definition path_Join (elems : list string) : string :=
  match filter (λ e, e ≠ "") elems with
  | [] => ""
  | elems => path_Clean (joined "/" elems)
  end.

(** The part of a path up to its last slash, and [path.Dir]. *)
Fixpoint dir_part (p : string) : string :=
  match p with
  | EmptyString => ""
  | String c p =>
      match dir_part p with
      | EmptyString => if Ascii.eqb c "/" then "/" else ""
      | d => String c d
      end
  end.
Definition path_Dir (p : string) : string := path_Clean (dir_part p).

(** ** Lemmas on digits *)
Lemma nat_of_digit_char d : 0 ≤ d < 16 →
  Z.of_nat (nat_of_ascii (digit_char d)) = if d <? 10 then 48 + d else 87 + d.
Proof.
  intros ?. unfold digit_char. rewrite nat_ascii_embedding; destruct (d <? 10) eqn:?; lia.
Qed.

Lemma dec_val_digit d : 0 ≤ d < 10 → dec_val (digit_char d) = Some d.
Proof.
  intros ?. unfold dec_val. rewrite nat_of_digit_char by lia.
  assert ((d <? 10) = true) as -> by lia.
  assert ((48 <=? 48 + d) && (48 + d <=? 57) = true) as -> by lia. f_equal; lia.
Qed.

Lemma hex_val_digit d : 0 ≤ d < 16 → hex_val (digit_char d) = Some d.
Proof.
  intros ?. unfold hex_val. rewrite nat_of_digit_char by lia.
  destruct (d <? 10) eqn:Hd.
  - assert ((48 <=? 48 + d) && (48 + d <=? 57) = true) as -> by lia. f_equal; lia.
  - assert ((48 <=? 87 + d) && (87 + d <=? 57) = false) as -> by lia.
    assert ((97 <=? 87 + d) && (87 + d <=? 102) = true) as -> by lia. f_equal; lia.
Qed.

(** Scanning the digits [FormatUint] produces with any digit-by-digit reader
    [scan] (an accumulator, the rest of the text) recovers the number. *)
Section scan.
Context {R : Type} (scan : Z → string → R) (base bound : Z).
Hypothesis base_ge : 2 ≤ base.
Hypothesis scan_digit : ∀ acc d s,
  0 ≤ acc → 0 ≤ d < base → acc * base + d < bound →
  scan acc (String (digit_char d) s) = scan (acc * base + d) s.

Lemma scan_format_go fuel n s :
  0 ≤ n < 2 ^ Z.of_nat fuel → n < bound → (0 < fuel)%nat →
  scan 0 (format_go fuel base n s) = scan n s.
Proof.
  revert n s; induction fuel as [|fuel IH]; intros n s Hn Hb Hf; [lia|]; simpl.
  pose proof (Z.mod_pos_bound n base ltac:(lia)) as Hm.
  pose proof (Z.div_mod n base ltac:(lia)) as Hdm.
  destruct (n `div` base =? 0) eqn:E.
  - rewrite scan_digit by nia. f_equal; nia.
  - assert (0 ≤ n `div` base) by (apply Z.div_pos; lia).
    assert (n `div` base < 2 ^ Z.of_nat fuel).
    { apply Z.div_lt_upper_bound; [lia|].
      rewrite Nat2Z.inj_succ, Z.pow_succ_r in Hn by lia.
      assert (0 ≤ 2 ^ Z.of_nat fuel) by (apply Z.pow_nonneg; lia). nia. }
    assert (0 < fuel)%nat.
    { destruct fuel; [|lia]. simpl in *. lia. }
    rewrite IH by (try lia; nia). rewrite scan_digit by nia. f_equal; nia.
Qed.

Lemma scan_FormatUint_acc n s :
  0 ≤ n < bound →
  scan 0 (format_go (S (Z.to_nat (Z.log2 n))) base n s) = scan n s.
Proof.
  intros Hn. apply scan_format_go; [|lia|lia]. split; [lia|].
  rewrite Nat2Z.inj_succ, Z2Nat.id by apply Z.log2_nonneg.
  destruct (decide (n = 0)) as [->|]; [done|]. apply Z.log2_spec; lia.
Qed.
End scan.

Lemma format_go_app fuel base n acc s :
  format_go fuel base n (acc +:+ s) = format_go fuel base n acc +:+ s.
Proof.
  revert n acc; induction fuel as [|fuel IH]; intros n acc; [done|]; simpl.
  destruct (n `div` base =? 0); [done|].
  by rewrite <-IH.
Qed.

Lemma FormatUint_app n base s :
  FormatUint n base +:+ s = format_go (S (Z.to_nat (Z.log2 n))) base n s.
Proof. unfold FormatUint. by rewrite <-format_go_app. Qed.

Lemma app_empty_r (s : string) : s +:+ "" = s.
Proof. induction s as [|c s IH]; [done|]. change (String c (s +:+ "") = String c s). by rewrite IH. Qed.

Lemma string_app_assoc (s1 s2 s3 : string) : s1 +:+ (s2 +:+ s3) = (s1 +:+ s2) +:+ s3.
Proof.
  induction s1 as [|c s IH]; [done|].
  change (String c (s +:+ (s2 +:+ s3)) = String c ((s +:+ s2) +:+ s3)). by rewrite IH.
Qed.
Lemma string_app_length (s t : string) : String.length (s +:+ t) = (String.length s + String.length t)%nat.
Proof. induction s as [|c s IH]; simpl; [done|by rewrite IH]. Qed.
Lemma string_app_inj_r (a b c : string) : a +:+ c = b +:+ c → a = b.
Proof.
  revert b; induction a as [|x a IH]; intros [|y b] E; simpl in E; [done| | |].
  - apply (f_equal String.length) in E. cbn in E. rewrite ?string_app_length in E. cbn in E. lia.
  - apply (f_equal String.length) in E. cbn in E. rewrite ?string_app_length in E. cbn in E. lia.
  - injection E as -> E. f_equal. by apply IH.
Qed.

Lemma parse_uint_go_digit max acc d s :
  0 ≤ acc → 0 ≤ d < 10 → acc * 10 + d < max + 1 →
  parse_uint_go max acc (String (digit_char d) s) = parse_uint_go max (acc * 10 + d) s.
Proof.
  intros ? ? ?. simpl. rewrite dec_val_digit by done.
  assert ((max <? acc * 10 + d) = false) as -> by lia. done.
Qed.

Lemma format_go_nonempty fuel base n acc : acc ≠ "" → format_go fuel base n acc ≠ "".
Proof.
  revert n acc; induction fuel as [|fuel IH]; intros n acc Hacc; [done|]; simpl.
  destruct (_ =? _); [done|]. by apply IH.
Qed.

Lemma FormatUint_nonempty n base : FormatUint n base ≠ "".
Proof.
  unfold FormatUint. simpl. destruct (_ =? _); [done|]. by apply format_go_nonempty.
Qed.

(** Printing a value in base 10 and parsing it at a width that holds it. *)
Lemma ParseUint_FormatUint n bits :
  0 ≤ n < 2 ^ bits → ParseUint (FormatUint n 10) bits = Some n.
Proof.
  intros Hn. unfold ParseUint.
  destruct (FormatUint n 10) as [|c s] eqn:E; [by apply FormatUint_nonempty in E|].
  rewrite <-E, <-(app_empty_r (FormatUint n 10)), FormatUint_app.
  rewrite (scan_FormatUint_acc (parse_uint_go (2 ^ bits - 1)) 10 (2 ^ bits)); [done|lia| |lia].
  intros acc d s' ???. apply parse_uint_go_digit; lia.
Qed.

(** Two numbers with the same text are equal: identifiers printed from a
    counter are distinct. *)
Lemma FormatUint_inj base n m :
  2 ≤ base ≤ 16 → 0 ≤ n → 0 ≤ m → FormatUint n base = FormatUint m base → n = m.
Proof.
  intros Hb Hn Hm Heq.
  pose (scan := fix scan (acc : Z) (s : string) : Z :=
    match s with
    | EmptyString => acc
    | String c s => match hex_val c with Some d => scan (acc * base + d) s | None => acc end
    end).
  assert (∀ k, 0 ≤ k → scan 0 (FormatUint k base) = k) as Hscan.
  { intros k Hk. rewrite <-(app_empty_r (FormatUint k base)), FormatUint_app.
    rewrite (scan_FormatUint_acc scan base (k + 1)); [done|lia| |lia].
    intros acc d s ???. simpl. by rewrite hex_val_digit by lia. }
  rewrite <-(Hscan n), <-(Hscan m) by done. by rewrite Heq.
Qed.

Lemma joined_split_go sep cur s : joined sep (split_go sep cur s) = cur +:+ s.
Proof.
  revert cur; induction s as [|c s IH]; intros cur; simpl; [by rewrite app_empty_r|].
  destruct (Ascii.eqb_spec c sep) as [->|].
  - assert (∃ x l, split_go sep "" s = x :: l) as (x & l & E).
    { clear. generalize "" at 1. induction s as [|c s IH]; intros t; simpl; eauto.
      destruct (Ascii.eqb c sep); eauto. }
    specialize (IH ""). rewrite E in *. simpl in IH |- *. by rewrite IH.
  - rewrite IH, <-string_app_assoc. done.
Qed.

(** [Split] loses nothing. *)
Lemma joined_Split sep s : joined sep (Split s sep) = s.
Proof. apply joined_split_go. Qed.

#[export] Hint Resolve FormatUint_nonempty : nsm.

(** ** Character classes of printed numbers *)
Fixpoint str_all (p : ascii → bool) (s : string) : bool :=
  match s with
  | EmptyString => true
  | String c s => p c && str_all p s
  end.

Lemma str_all_app p s1 s2 : str_all p (s1 +:+ s2) = str_all p s1 && str_all p s2.
Proof.
  induction s1 as [|c s1 IH]; [done|].
  change (p c && str_all p (s1 +:+ s2) = p c && str_all p s1 && str_all p s2).
  by rewrite IH, andb_assoc.
Qed.

Lemma str_all_impl (p q : ascii → bool) s :
  (∀ c, p c = true → q c = true) → str_all p s = true → str_all q s = true.
Proof.
  intros H. induction s as [|c s IH]; [done|]. simpl. rewrite !andb_true_iff.
  intros [? ?]. auto.
Qed.

Definition is_digit (c : ascii) : bool := if dec_val c is Some _ then true else false.
Definition is_hex (c : ascii) : bool := if hex_val c is Some _ then true else false.

Lemma format_go_all p fuel base n acc :
  2 ≤ base → 0 ≤ n → (∀ d, 0 ≤ d < base → p (digit_char d) = true) →
  str_all p acc = true → str_all p (format_go fuel base n acc) = true.
Proof.
  intros Hb Hn Hp; revert n Hn acc; induction fuel as [|fuel IH]; intros n Hn acc Hacc; [done|].
  simpl. pose proof (Z.mod_pos_bound n base ltac:(lia)).
  assert (str_all p (String (digit_char (n `mod` base)) acc) = true).
  { simpl. by rewrite Hp, Hacc by lia. }
  destruct (_ =? _); [done|]. apply IH; [apply Z.div_pos; lia|done].
Qed.

Lemma FormatUint_all p base n :
  2 ≤ base → 0 ≤ n → (∀ d, 0 ≤ d < base → p (digit_char d) = true) →
  str_all p (FormatUint n base) = true.
Proof. intros. by apply format_go_all. Qed.

Lemma FormatUint_digits n : 0 ≤ n → str_all is_digit (FormatUint n 10) = true.
Proof.
  intros Hn. apply FormatUint_all; [lia|done|]. intros d Hd.
  unfold is_digit. by rewrite dec_val_digit.
Qed.

(** ** Parsing and splitting *)
Lemma dec_val_range c d : dec_val c = Some d → 0 ≤ d < 10.
Proof. unfold dec_val. case_match; [|done]. intros [= <-]. repeat case_match; lia. Qed.
Lemma ParseUint_range s bits n : 0 ≤ bits → ParseUint s bits = Some n → 0 ≤ n < 2 ^ bits.
Proof.
  intros Hb. assert (∀ s k, 0 ≤ k < 2 ^ bits → parse_uint_go (2 ^ bits - 1) k s = Some n → 0 ≤ n < 2 ^ bits) as Hgo.
  { clear s. induction s as [|c s IH]; intros k Hk; cbn [parse_uint_go]; [intros [= <-]; done|].
    destruct (dec_val c) as [d|] eqn:Ed; [|done]. apply dec_val_range in Ed.
    destruct (Z.ltb_spec (2 ^ bits - 1) (k * 10 + d)); [done|]. apply IH. lia. }
  unfold ParseUint. destruct s; [done|]. apply Hgo. lia.
Qed.

Definition lacks (c : ascii) (s : string) : bool := str_all (λ x, negb (Ascii.eqb x c)) s.
Lemma split_go_app sep cur s t : lacks sep s = true → split_go sep cur (s +:+ t) = split_go sep (cur +:+ s) t.
Proof.
  revert cur. induction s as [|c s IH]; intros cur; simpl; [by rewrite app_empty_r|].
  intros [Hc Hs]%andb_true_iff. destruct (Ascii.eqb c sep); [done|].
  rewrite IH by done. by rewrite <- string_app_assoc.
Qed.
(** Joining parts without the separator loses nothing. *)
Lemma Split_joined sep l : l ≠ [] → Forall (λ s, lacks sep s = true) l → Split (joined sep l) sep = l.
Proof.
  unfold Split. intros Hl HF. induction HF as [|s l Hs HF IH]; [done|].
  destruct l as [|s' l].
  - cbn. rewrite <- (app_empty_r s) at 1. by rewrite split_go_app.
  - change (joined sep (s :: s' :: l)) with (s +:+ String sep (joined sep (s' :: l))).
    rewrite split_go_app by done. cbn [split_go]. rewrite Ascii.eqb_refl, IH by done. done.
Qed.
