(* ===== verification/GoText.v ===== *)
(** * More of Go's [strings], [bytes], [path] and [strconv]

    Searching for and splitting at a text of several bytes, replacing a byte,
    the last element of a path, and decimal integers with a sign. *)
From S2P Require Import Prelude GoStrings.
From Stdlib Require Import Ascii.

(** ** Searching *)
Fixpoint HasPrefix (s p : string) : bool :=
  match p, s with
  | EmptyString, _ => true
  | String _ _, EmptyString => false
  | String d p, String c s => Ascii.eqb c d && HasPrefix s p
  end.
Fixpoint str_Contains (s sub : string) : bool :=
  HasPrefix s sub || match s with EmptyString => false | String _ s => str_Contains s sub end.

(** ** [strings.Split] at a separator that is not empty: [skip] bytes of the
    separator are still to be passed over. *)
Fixpoint split_on (sep : string) (skip : nat) (cur s : string) : list string :=
  match s with
  | EmptyString => [cur]
  | String c s' =>
      match skip with
      | S skip => split_on sep skip cur s'
      | O =>
          if HasPrefix s sep then cur :: split_on sep (String.length sep - 1) "" s'
          else split_on sep 0 (cur +:+ String c "") s'
      end
  end.
Definition SplitOn (s sep : string) : list string := split_on sep 0 "" s.

(** ** Replacing and trimming *)
Definition replace_byte (old new c : ascii) : ascii := if Ascii.eqb c old then new else c.
Fixpoint replace_char (old new : ascii) (s : string) : string :=
  match s with
  | EmptyString => EmptyString
  | String c s => String (replace_byte old new c) (replace_char old new s)
  end.
Definition lower_char (c : ascii) : ascii :=
  let n := nat_of_ascii c in
  if (65 <=? n)%nat && (n <=? 90)%nat then ascii_of_nat (n + 32) else c.
Fixpoint ToLower (s : string) : string :=
  match s with
  | EmptyString => EmptyString
  | String c s => String (lower_char c) (ToLower s)
  end.
Definition newline : ascii := ascii_of_nat 10.
(** [bytes.Trim(data, "\n")] *)
Definition trim_newlines (s : string) : string :=
  trim_left (Ascii.eqb newline) (trim_right (Ascii.eqb newline) s).
(** [s[n:]] of a text with at least [n] bytes. *)
Fixpoint str_drop (n : nat) (s : string) : option string :=
  match n, s with
  | O, _ => Some s
  | S n, String _ s => str_drop n s
  | S _, EmptyString => None
  end.

(** ** The file of [path.Split], and [path.Base] *)
Definition path_file (p : string) : string := List.last (Split p "/") "".
Definition is_slash (c : ascii) : bool := Ascii.eqb c "/".
Definition path_Base (p : string) : string :=
  match p with
  | EmptyString => "."
  | _ =>
      match path_file (trim_right is_slash p) with
      | EmptyString => "/"
      | f => f
      end
  end.

(** ** Integers with a sign: [strconv.Atoi] and the verb [%d] *)
Definition Atoi (s : string) : option Z :=
  match s with
  | String "-" s => n ← ParseUint s 64; if n <=? 2 ^ 63 then Some (- n) else None
  | String "+" s => n ← ParseUint s 64; if n <? 2 ^ 63 then Some n else None
  | s => n ← ParseUint s 64; if n <? 2 ^ 63 then Some n else None
  end.
Definition Itoa (n : Z) : string :=
  if n <? 0 then String "-" (FormatUint (- n) 10) else FormatUint n 10.
(** [int32(n)] *)
Definition wrap_i32 (n : Z) : Z := (n + 2 ^ 31) `mod` 2 ^ 32 - 2 ^ 31.

(** ** Facts *)
Lemma replace_char_id old new s : lacks old s = true → replace_char old new s = s.
Proof.
  induction s as [|c s IH]; [done|]. unfold lacks. cbn. intros [Hc Hs]%andb_true_iff.
  unfold replace_byte. destruct (Ascii.eqb c old); [done|]. f_equal. by apply IH.
Qed.
Lemma replace_char_lacks old new s : old ≠ new → lacks old (replace_char old new s) = true.
Proof.
  intros Hne. induction s as [|c s IH]; [done|]. unfold lacks in *. cbn. rewrite IH, andb_true_r.
  unfold replace_byte. destruct (Ascii.eqb_spec c old) as [->|Hc].
  - by destruct (Ascii.eqb_spec new old).
  - by destruct (Ascii.eqb_spec c old).
Qed.
Lemma replace_char_inverse a b s : lacks b s = true → replace_char b a (replace_char a b s) = s.
Proof.
  induction s as [|c s IH]; [done|]. unfold lacks. cbn. intros [Hc Hs]%andb_true_iff.
  rewrite IH by done. f_equal. unfold replace_byte.
  destruct (Ascii.eqb_spec c a) as [->|Ha]; [by rewrite Ascii.eqb_refl|].
  by destruct (Ascii.eqb c b).
Qed.

Lemma HasPrefix_app p s : HasPrefix (p +:+ s) p = true.
Proof.
  induction p as [|c p IH]; [by destruct s|]. change (String c p +:+ s) with (String c (p +:+ s)). cbn.
  by rewrite Ascii.eqb_refl.
Qed.
Lemma HasPrefix_spec s p : HasPrefix s p = true ↔ ∃ t, s = p +:+ t.
Proof.
  split; [|intros [t ->]; apply HasPrefix_app].
  revert s. induction p as [|c p IH]; intros s; [by exists s|].
  destruct s as [|d s]; [done|]. cbn. intros [E%Ascii.eqb_eq [t ->]%IH]%andb_true_iff.
  exists t. by rewrite E.
Qed.
Lemma str_Contains_spec s sub : str_Contains s sub = true ↔ ∃ t u, s = t +:+ sub +:+ u.
Proof.
  induction s as [|c s IH]; cbn [str_Contains]; rewrite orb_true_iff, HasPrefix_spec.
  - split; [intros [[u ->]|]; [by exists "", u|done]|].
    intros (t & u & E). left. exists u. by destruct t.
  - rewrite IH. split.
    + intros [[u ->]|(t & u & ->)]; [by exists "", u|by exists (String c t), u].
    + intros (t & u & E). destruct t as [|d t]; [left; by exists u|]. right.
      injection E as -> ->. by exists t, u.
Qed.

Lemma ParseUint_Itoa n : 0 ≤ n < 2 ^ 63 → Atoi (Itoa n) = Some n.
Proof.
  intros Hn. unfold Itoa. destruct (Z.ltb_spec n 0); [lia|].
  assert (ParseUint (FormatUint n 10) 64 = Some n) as Hp by (apply ParseUint_FormatUint; lia).
  pose proof (FormatUint_digits n ltac:(lia)) as Hd. pose proof (FormatUint_nonempty n 10) as Hne.
  unfold Atoi. destruct (FormatUint n 10) as [|c s] eqn:E; [done|].
  cbn in Hd. apply andb_true_iff in Hd as [Hc _].
  assert (c ≠ "-"%char ∧ c ≠ "+"%char) as [H1 H2] by (split; intros ->; done).
  transitivity (n ← ParseUint (String c s) 64; if n <? 2 ^ 63 then Some n else None).
  - destruct c as [[] [] [] [] [] [] [] []]; done.
  - rewrite Hp. cbn. by destruct (Z.ltb_spec n (2 ^ 63)); [|lia].
Qed.
