(* ===== verification/GoUrl.v ===== *)
(** * URLs as Go 1.11's [net/url] parses them

    [Parse] and [Query], with what the program reads of a URL: its path and
    its query.  The scheme, user and host are parsed for their errors. *)
From S2P Require Import Prelude GoStrings GoText.
From Stdlib Require Import Ascii.

Definition in_range (lo hi c : ascii) : bool := (nat_of_ascii lo <=? nat_of_ascii c)%nat && (nat_of_ascii c <=? nat_of_ascii hi)%nat.
Definition is_letter (c : ascii) : bool := in_range "a" "z" c || in_range "A" "Z" c.
Definition is_alnum (c : ascii) : bool := is_letter c || in_range "0" "9" c.
Definition one_of (s : string) (c : ascii) : bool := negb (lacks c s).
Definition dquote : string := String (ascii_of_nat 34) "".

(** ** Escapes *)
Inductive encoding := encodePath | encodeHost | encodeZone | encodeUserPassword | encodeQueryComponent | encodeFragment.
#[global] Instance encoding_eq_dec : EqDecision encoding.
Proof. solve_decision. Defined.
Definition host_mode (mode : encoding) : bool := match mode with encodeHost | encodeZone => true | _ => false end.

Definition shouldEscape (c : ascii) (mode : encoding) : bool :=
  if is_alnum c then false
  else if host_mode mode && one_of ("!$&'()*+,;=:[]<>" +:+ dquote) c then false
  else if one_of "-_.~" c then false
  else if one_of "$&+,/:;=?@" c then
    match mode with
    | encodePath => Ascii.eqb c "?"
    | encodeUserPassword => one_of "@/?:" c
    | encodeFragment => false
    | _ => true
    end
  else true.

Definition escape_error : error := Errorf "invalid URL escape ".
Fixpoint unescape (s : string) (mode : encoding) : result string :=
  match s with
  | EmptyString => Ok ""
  | String "%" rest =>
      match rest with
      | String a (String b rest) =>
          match hex_val a, hex_val b with
          | Some x, Some z =>
              let v := ascii_of_nat (Z.to_nat (x * 16 + z)) in
              let percent := Ascii.eqb v "%" in
              if bool_decide (mode = encodeHost) && (x <? 8) && negb percent then Err escape_error
              else if bool_decide (mode = encodeZone) && negb percent && negb (Ascii.eqb v " ") && shouldEscape v encodeHost
              then Err escape_error
              else match unescape rest mode with Ok t => Ok (String v t) | Err e => Err e end
          | _, _ => Err escape_error
          end
      | _ => Err escape_error
      end
  | String c rest =>
      if host_mode mode && (nat_of_ascii c <? 128)%nat && shouldEscape c mode then
        Err (Errorf "invalid character in host name")
      else
        let c := if bool_decide (mode = encodeQueryComponent) && Ascii.eqb c "+" then " "%char else c in
        match unescape rest mode with Ok t => Ok (String c t) | Err e => Err e end
  end.

(** ** Cutting at a byte: what is before its first occurrence, and what is
    after it if there is one. *)
Fixpoint cut (c : ascii) (s : string) : string * option string :=
  match s with
  | EmptyString => ("", None)
  | String d s => if Ascii.eqb d c then ("", Some s) else let (l, r) := cut c s in (String d l, r)
  end.
(** [split(s, c, true)] *)
Definition cut_off (c : ascii) (s : string) : string * string := let (l, r) := cut c s in (l, default "" r).
(** At the last occurrence. *)
Fixpoint cut_last (c : ascii) (s : string) : option (string * string) :=
  match s with
  | EmptyString => None
  | String d s =>
      match cut_last c s with
      | Some (l, r) => Some (String d l, r)
      | None => if Ascii.eqb d c then Some ("", s) else None
      end
  end.
(** At the first occurrence of a text, which starts the second part. *)
Fixpoint cut_before (sub s : string) : option (string * string) :=
  if HasPrefix s sub then Some ("", s)
  else match s with
       | EmptyString => None
       | String d s => match cut_before sub s with Some (l, r) => Some (String d l, r) | None => None end
       end.

(** ** Scheme and authority *)
Fixpoint getscheme_go (first : bool) (s : string) : option (option (string * string)) :=
  match s with
  | EmptyString => Some None
  | String c s =>
      if is_letter c || (negb first && (in_range "0" "9" c || one_of "+-." c)) then
        match getscheme_go false s with
        | Some (Some (l, r)) => Some (Some (String c l, r))
        | other => other
        end
      else if Ascii.eqb c ":" then if first then None else Some (Some ("", s))
      else Some None
  end.
(** The scheme and the rest. *)
Definition getscheme (rawurl : string) : result (string * string) :=
  match getscheme_go true rawurl with
  | None => Err (Errorf "missing protocol scheme")
  | Some None => Ok ("", rawurl)
  | Some (Some (scheme, rest)) => Ok (scheme, rest)
  end.
Definition validOptionalPort (port : string) : bool :=
  match port with
  | EmptyString => true
  | String c port => Ascii.eqb c ":" && str_all (in_range "0" "9") port
  end.
Definition validUserinfo (s : string) : bool := str_all (λ c, is_alnum c || one_of "-._:~!$&'()*+,;=%@" c) s.
Definition unescape_all (parts : list (string * encoding)) : result () :=
  foldr (λ p r, match unescape p.1 p.2 with Ok _ => r | Err e => Err e end) (Ok ()) parts.
Definition parseHost (host : string) : result () :=
  match host with
  | String "[" _ =>
      match cut_last "]" host with
      | None => Err (Errorf "missing ']' in host")
      | Some (inside, colonPort) =>
          if validOptionalPort colonPort then
            match cut_before "%25" inside with
            | Some (l, zone) => unescape_all [(l, encodeHost); (zone, encodeZone); (String "]" colonPort, encodeHost)]
            | None => unescape_all [(host, encodeHost)]
            end
          else Err (Errorf "invalid port %q after host")
      end
  | _ => unescape_all [(host, encodeHost)]
  end.
Definition parseAuthority (authority : string) : result () :=
  match cut_last "@" authority with
  | None => parseHost authority
  | Some (userinfo, host) =>
      match parseHost host with
      | Err e => Err e
      | Ok _ =>
          if validUserinfo userinfo then
            let (username, password) := cut ":" userinfo in
            unescape_all ((username, encodeUserPassword) ::
                          match password with None => [] | Some p => [(p, encodeUserPassword)] end)
          else Err (Errorf "net/url: invalid userinfo")
      end
  end.

(** ** [Parse] *)
Record URL := mkURL { url_Path : string; url_RawQuery : string }.
(** [colon >= 0 && (slash < 0 || colon < slash)] *)
Definition colon_in_first_segment (rest : string) : bool := negb (lacks ":" (cut "/" rest).1).
(** The rest of a hierarchical URL without its authority. *)
Definition skip_authority (rest : string) (scheme : string) : result string :=
  match rest with
  | String "/" (String "/" after) =>
      if bool_decide (scheme = "") && HasPrefix rest "///" then Ok rest
      else
        let (authority, path) := cut "/" after in
        match parseAuthority authority with
        | Err e => Err e
        | Ok _ => Ok (match path with None => "" | Some p => String "/" p end)
        end
  | _ => Ok rest
  end.
Definition parse (rawurl : string) : result URL :=
  if decide (rawurl = "*") then Ok (mkURL "*" "")
  else
    match getscheme rawurl with
    | Err e => Err e
    | Ok (scheme, rest) =>
        let (rest, query) := cut_off "?" rest in
        let rooted := HasPrefix rest "/" in
        if negb rooted && negb (bool_decide (scheme = "")) then Ok (mkURL "" query)
        else if negb rooted && colon_in_first_segment rest then
          Err (Errorf "first path segment in URL cannot contain colon")
        else
          match skip_authority rest scheme with
          | Err e => Err e
          | Ok rest => match unescape rest encodePath with Err e => Err e | Ok path => Ok (mkURL path query) end
          end
    end.
Definition url_Parse (rawurl : string) : result URL :=
  let (u, frag) := cut_off "#" rawurl in
  match parse u with
  | Err e => Err (Wrapf "parse" e)
  | Ok url => match unescape frag encodeFragment with Err e => Err (Wrapf "parse" e) | Ok _ => Ok url end
  end.

(** ** [Query]: the pairs that can be unescaped *)
Notation Values := (gmap string (list string)).
(** The pieces between the separators [&] and [;]. *)
Definition query_pieces (query : string) : list string :=
  mjoin ((λ p, Split p ";"%char) <$> Split query "&"%char).
Definition add_value (m : Values) (k v : string) : Values := <[k := default [] (m !! k) ++ [v]]> m.
Definition query_turn (m : Values) (piece : string) : Values :=
  match piece with
  | EmptyString => m
  | _ =>
      let (key, value) := cut_off "=" piece in
      match unescape key encodeQueryComponent, unescape value encodeQueryComponent with
      | Ok key, Ok value => add_value m key value
      | _, _ => m
      end
  end.
Definition url_Query (u : URL) : Values := foldl query_turn ∅ (query_pieces (url_RawQuery u)).
