(* ===== verification/GoNet.v ===== *)
(** * The parts of Go's [net] package the program uses

    Addresses are byte slices of length 4 or 16, masks are byte slices, and
    the textual forms are those of [net.ParseIP], [net.ParseCIDR],
    [IP.String] and [IPNet.String] (Go 1.11, the version the repository
    builds with: a decimal octet may have leading zeros). *)
From S2P Require Import Prelude GoStrings.
From Stdlib Require Import Ascii.

Definition IPv4len : nat := 4.
Definition IPv6len : nat := 16.

(** A nil [net.IP] is the empty slice. *)
Abbreviation IP := (list Z).
Abbreviation IPMask := (list Z).

Record IPNet := mkIPNet { net_IP : IP; net_Mask : IPMask }.

#[global] Instance IPNet_eq_dec : EqDecision IPNet.
Proof. solve_decision. Defined.

(** ** Big-endian integers: [big.Int.SetBytes] and the padded [Bytes]. *)
Fixpoint be_val (l : list Z) : Z :=
  match l with
  | [] => 0
  | b :: l => b * 256 ^ Z.of_nat (length l) + be_val l
  end.

Fixpoint be_bytes (n : nat) (v : Z) : list Z :=
  match n with
  | O => []
  | S n => (v `div` 256 ^ Z.of_nat n) `mod` 256 :: be_bytes n v
  end.

Definition is_byte (b : Z) : Prop := 0 ≤ b < 256.

(** ** Addresses *)
Definition v4InV6Prefix : list Z := [0;0;0;0;0;0;0;0;0;0;255;255].

Definition IPv4 (a b c d : Z) : IP := v4InV6Prefix ++ [a; b; c; d].

(** [IP.To4]: nil for an address that is not an IPv4 address. *)
Definition To4 (ip : IP) : IP :=
  if decide (length ip = IPv4len) then ip
  else if decide (length ip = IPv6len ∧ take 12 ip = v4InV6Prefix) then drop 12 ip
  else [].

(** ** Masks *)
Fixpoint cidr_mask_go (l : nat) (n : Z) : IPMask :=
  match l with
  | O => []
  | S l =>
      if 8 <=? n then 255 :: cidr_mask_go l (n - 8)
      else (255 - Z.shiftr 255 n) :: cidr_mask_go l 0
  end.

Definition CIDRMask (ones bits : Z) : IPMask :=
  if negb ((bits =? 32) || (bits =? 128)) then []
  else if (ones <? 0) || (bits <? ones) then []
  else cidr_mask_go (Z.to_nat (bits `div` 8)) ones.

(** The number of leading one bits of a byte and what is left of it. *)
Fixpoint leading_ones (fuel : nat) (v : Z) : Z * Z :=
  match fuel with
  | O => (0, v)
  | S fuel =>
      if Z.land v 128 =? 0 then (0, v)
      else let '(n, v') := leading_ones fuel (Z.land (Z.shiftl v 1) 255) in (1 + n, v')
  end.

Fixpoint simpleMaskLength (mask : IPMask) : Z :=
  match mask with
  | [] => 0
  | v :: mask =>
      if v =? 255 then
        let n := simpleMaskLength mask in if n =? -1 then -1 else 8 + n
      else
        let '(n, v') := leading_ones 8 v in
        if (v' =? 0) && forallb (Z.eqb 0) mask then n else -1
  end.

(** [IPMask.Size]: ones and bits, (0, 0) for a non-canonical mask. *)
Definition mask_Size (m : IPMask) : Z * Z :=
  let ones := simpleMaskLength m in
  if ones =? -1 then (0, 0) else (ones, 8 * Z.of_nat (length m)).

(** [IP.Mask] *)
Definition ip_Mask (ip : IP) (mask : IPMask) : IP :=
  let mask :=
    if decide (length mask = IPv6len ∧ length ip = IPv4len ∧ take 12 mask = replicate 12 255)
    then drop 12 mask else mask in
  let ip :=
    if decide (length mask = IPv4len ∧ length ip = IPv6len ∧ take 12 ip = v4InV6Prefix)
    then drop 12 ip else ip in
  if decide (length ip = length mask) then zip_with Z.land ip mask else [].

(** ** Printing *)
Definition dotted (a b c d : Z) : string :=
  FormatUint a 10 +:+ String "." (FormatUint b 10 +:+ String "."
    (FormatUint c 10 +:+ String "." (FormatUint d 10))).

(** The eight 16-bit groups of a 16-byte address. *)
Fixpoint groups (p : list Z) : list Z :=
  match p with
  | a :: b :: p => (a * 256 + b) :: groups p
  | _ => []
  end.

Fixpoint zero_run (l : list Z) : nat :=
  match l with
  | g :: l => if g =? 0 then S (zero_run l) else O
  | [] => O
  end.

(** The first longest run of zero groups: start and length.  As in the source,
    a run that is taken makes the scan resume after it, one group later. *)
Fixpoint longest_zeros (fuel i : nat) (l : list Z) (best : nat * nat) : nat * nat :=
  match fuel with
  | O => best
  | S fuel =>
      match l with
      | [] => best
      | _ :: l' =>
          let r := zero_run l in
          if (best.2 <? r)%nat
          then longest_zeros fuel (i + r + 1) (drop (r + 1) l) (i, r)
          else longest_zeros fuel (S i) l' best
      end
  end.

Fixpoint colon_groups (first : bool) (l : list Z) : string :=
  match l with
  | [] => ""
  | g :: l =>
      (if first then "" else ":") +:+ FormatUint g 16 +:+ colon_groups false l
  end.

Definition v6_string (p : IP) : string :=
  let gs := groups p in
  let '(e0, len) := longest_zeros 8 0 gs (0%nat, 0%nat) in
  if (len <=? 1)%nat then colon_groups true gs
  else colon_groups true (take e0 gs) +:+ "::" +:+ colon_groups true (drop (e0 + len) gs).

Definition ip_String (ip : IP) : string :=
  match ip with
  | [] => "<nil>"
  | _ =>
      match To4 ip with
      | [a; b; c; d] => dotted a b c d
      | _ =>
          if decide (length ip = IPv6len) then v6_string ip
          else "?" +:+ foldr (λ b s, String (digit_char (b `div` 16))
                                     (String (digit_char (b `mod` 16)) s)) "" ip
      end
  end.

(** [networkNumberAndMask] *)
Definition networkNumberAndMask (n : IPNet) : IP * IPMask :=
  let ip := match To4 (net_IP n) with [] => net_IP n | ip4 => ip4 end in
  if decide (length ip ≠ IPv4len ∧ length ip ≠ IPv6len) then ([], [])
  else if decide (length (net_Mask n) = IPv4len) then
    if decide (length ip = IPv4len) then (ip, net_Mask n) else ([], [])
  else if decide (length (net_Mask n) = IPv6len) then
    if decide (length ip = IPv4len) then (ip, drop 12 (net_Mask n)) else (ip, net_Mask n)
  else ([], []).

Definition hex_bytes (l : list Z) : string :=
  foldr (λ b s, String (digit_char (b `div` 16)) (String (digit_char (b `mod` 16)) s)) "" l.

Definition net_String (n : IPNet) : string :=
  match networkNumberAndMask n with
  | ([], _) | (_, []) => "<nil>"
  | (nn, m) =>
      let l := simpleMaskLength m in
      if l =? -1 then ip_String nn +:+ "/" +:+ hex_bytes m
      else ip_String nn +:+ String "/" (FormatUint l 10)
  end.

(** [IPNet.Contains] *)
Definition net_Contains (n : IPNet) (ip : IP) : bool :=
  let '(nn, m) := networkNumberAndMask n in
  let ip := match To4 ip with [] => ip | ip4 => ip4 end in
  if decide (length ip = length nn) then
    bool_decide (zip_with Z.land nn m = zip_with Z.land ip m)
  else false.

(** ** Parsing *)

(** [dtoi]: digits up to the first other byte; the value, the rest of the
    text and whether there was a number below [big]. *)
Definition big : Z := 16777215.

Fixpoint dtoi_go (n : Z) (s : string) : Z * string * bool :=
  match s with
  | String c s' =>
      match dec_val c with
      | Some d =>
          let n := n * 10 + d in
          if big <=? n then (big, s, false) else dtoi_go n s'
      | None => (n, s, true)
      end
  | EmptyString => (n, s, true)
  end.

Definition dtoi (s : string) : Z * string * bool :=
  match s with
  | String c _ => if dec_val c is Some _ then dtoi_go 0 s else (0, s, false)
  | EmptyString => (0, s, false)
  end.

Fixpoint xtoi_go (n : Z) (s : string) : Z * string * bool :=
  match s with
  | String c s' =>
      match hex_val c with
      | Some d =>
          let n := n * 16 + d in
          if big <=? n then (0, s, false) else xtoi_go n s'
      | None => (n, s, true)
      end
  | EmptyString => (n, s, true)
  end.

Definition xtoi (s : string) : Z * string * bool :=
  match s with
  | String c _ => if hex_val c is Some _ then xtoi_go 0 s else (0, s, false)
  | EmptyString => (0, s, false)
  end.

(** [parseIPv4]: the octets in order, each after the first behind a dot. *)
Fixpoint parse_octets (k : nat) (first : bool) (s : string) : option (list Z) :=
  match k with
  | O => match s with EmptyString => Some [] | _ => None end
  | S k =>
      match s with
      | EmptyString => None
      | String c s' =>
          if negb first && negb (Ascii.eqb c ".") then None
          else
            let '(n, rest, ok) := dtoi (if first then s else s') in
            if negb ok || (255 <? n) then None
            else octets ← parse_octets k false rest; Some (n :: octets)
      end
  end.

Definition parseIPv4 (s : string) : IP :=
  match parse_octets 4 true s with
  | Some [a; b; c; d] => IPv4 a b c d
  | _ => []
  end.

(** [parseIPv6] with no zone: the loop over groups.  [i] is the number of
    bytes already written, [ip] those bytes, [ellipsis] the position of "::". *)
Fixpoint parse_groups (fuel : nat) (s : string) (ip : list Z) (ellipsis : option nat)
    : option (list Z * option nat * string) :=
  match fuel with
  | O => Some (ip, ellipsis, s)
  | S fuel =>
      if (IPv6len <=? length ip)%nat then Some (ip, ellipsis, s) else
      let '(n, rest, ok) := xtoi s in
      if negb ok || (65535 <? n) then None
      else
        let chunk (_ : unit) :=
          let ip := ip ++ [Z.shiftr n 8; Z.land n 255] in
          match rest with
          | EmptyString => Some (ip, ellipsis, rest)
          | String c rest1 =>
              if negb (Ascii.eqb c ":") then None
              else match rest1 with
              | EmptyString => None
              | String c2 rest2 =>
                  if Ascii.eqb c2 ":" then
                    match ellipsis with
                    | Some _ => None
                    | None =>
                        match rest2 with
                        | EmptyString => Some (ip, Some (length ip), rest2)
                        | _ => parse_groups fuel rest2 ip (Some (length ip))
                        end
                    end
                  else parse_groups fuel rest1 ip ellipsis
              end
          end in
        match rest with
        | String c _ =>
            if Ascii.eqb c "." then
              if (bool_decide (ellipsis = None) && negb (length ip =? 12)%nat)
                 || (16 <? length ip + 4)%nat then None
              else match parseIPv4 s with
                   | [] => None
                   | ip4 => Some (ip ++ drop 12 ip4, ellipsis, EmptyString)
                   end
            else chunk ()
        | EmptyString => chunk ()
        end
  end.

Definition parseIPv6 (s : string) : IP :=
  let finish (r : option (list Z * option nat * string)) : IP :=
    match r with
    | Some (ip, ellipsis, EmptyString) =>
        let i := length ip in
        if (i <? IPv6len)%nat then
          match ellipsis with
          | None => []
          | Some e => take e ip ++ replicate (IPv6len - i) 0 ++ drop e ip
          end
        else match ellipsis with Some _ => [] | None => ip end
    | _ => []
    end in
  match s with
  | String ":" (String ":" EmptyString) => replicate IPv6len 0
  | String ":" (String ":" s') => finish (parse_groups 9 s' [] (Some 0%nat))
  | _ => finish (parse_groups 9 s [] None)
  end.

(** [net.ParseIP]: the first dot or colon decides the family. *)
Fixpoint first_dot_or_colon (s : string) : option ascii :=
  match s with
  | EmptyString => None
  | String c s => if Ascii.eqb c "." || Ascii.eqb c ":" then Some c else first_dot_or_colon s
  end.

Definition ParseIP (s : string) : IP :=
  match first_dot_or_colon s with
  | Some "."%char => parseIPv4 s
  | Some _ => parseIPv6 s
  | None => []
  end.

(** The text before and after the first slash. *)
Fixpoint cut_slash (s : string) : option (string * string) :=
  match s with
  | EmptyString => None
  | String c s =>
      if Ascii.eqb c "/" then Some ("", s)
      else '(a, b) ← cut_slash s; Some (String c a, b)
  end.

(** [net.ParseCIDR]: the address as written and its network. *)
Definition ParseCIDR (s : string) : option (IP * IPNet) :=
  '(addr, mask) ← cut_slash s;
  let ip4 := parseIPv4 addr in
  let '(ip, iplen) :=
    match ip4 with [] => (parseIPv6 addr, IPv6len) | _ => (ip4, IPv4len) end in
  let '(n, rest, ok) := dtoi mask in
  if bool_decide (ip = []) || negb ok || negb (bool_decide (rest = "")) || (n <? 0)
     || (8 * Z.of_nat iplen <? n) then None
  else
    let m := CIDRMask n (8 * Z.of_nat iplen) in
    Some (ip, mkIPNet (ip_Mask ip m) m).

(** ** Lemmas: bytes *)
Lemma length_be_bytes n v : length (be_bytes n v) = n.
Proof. induction n; simpl; [done|]. by f_equal. Qed.

Lemma be_bytes_is_byte n v : Forall is_byte (be_bytes n v).
Proof.
  induction n; simpl; constructor; [|done]. apply Z.mod_pos_bound; lia.
Qed.

Lemma be_val_bound l : Forall is_byte l → 0 ≤ be_val l < 256 ^ Z.of_nat (length l).
Proof.
  induction 1 as [|b l Hb _ IH]; simpl be_val; [done|]. unfold is_byte in Hb.
  rewrite length_cons, Nat2Z.inj_succ, Z.pow_succ_r by lia.
  set (P := 256 ^ Z.of_nat (length l)) in *. nia.
Qed.

Lemma be_val_bytes n v : be_val (be_bytes n v) = v `mod` 256 ^ Z.of_nat n.
Proof.
  induction n as [|n IH]; simpl be_bytes; simpl be_val; [by rewrite Z.mod_1_r|].
  rewrite length_be_bytes, IH, Nat2Z.inj_succ, Z.pow_succ_r by lia.
  set (P := 256 ^ Z.of_nat n).
  assert (0 < P) by (apply Z.pow_pos_nonneg; lia).
  rewrite (Z.mul_comm 256 P), Z.rem_mul_r by lia. lia.
Qed.

Lemma be_bytes_mod n v : be_bytes n (v `mod` 256 ^ Z.of_nat n) = be_bytes n v.
Proof.
  assert (∀ m, (n ≤ m)%nat → be_bytes n (v `mod` 256 ^ Z.of_nat m) = be_bytes n v) as H;
    [|by apply H].
  induction n as [|n IH]; intros m Hm; simpl; [done|].
  f_equal; [|apply IH; lia].
  replace (Z.of_nat m) with (Z.of_nat n + Z.of_nat (m - n)) by lia.
  rewrite Z.pow_add_r by lia.
  set (P := 256 ^ Z.of_nat n). set (Q := 256 ^ Z.of_nat (m - n)).
  assert (0 < P) by (apply Z.pow_pos_nonneg; lia).
  assert (0 < Q) by (apply Z.pow_pos_nonneg; lia).
  rewrite Z.rem_mul_r by lia.
  rewrite (Z.add_comm (v `mod` P)), (Z.mul_comm P), Z.div_add_l by lia.
  rewrite (Z.div_small (v `mod` P)) by (apply Z.mod_pos_bound; lia). rewrite Z.add_0_r.
  assert (∃ k, Q = 256 * k) as [k ->].
  { unfold Q. exists (256 ^ Z.of_nat (m - n - 1)).
    rewrite <-Z.pow_succ_r by lia. f_equal; lia. }
  assert (0 < k) by nia.
  rewrite (Z.rem_mul_r (v `div` P) 256 k) by lia.
  rewrite (Z.mul_comm 256), Z.mod_add by lia. by rewrite Z.mod_mod by lia.
Qed.

Lemma be_bytes_val l : Forall is_byte l → be_bytes (length l) (be_val l) = l.
Proof.
  induction 1 as [|b l Hb Hl IH]; simpl be_bytes; simpl be_val; [done|].
  pose proof (be_val_bound _ Hl). unfold is_byte in Hb.
  set (P := 256 ^ Z.of_nat (length l)) in *. f_equal.
  - rewrite Z.div_add_l by lia. rewrite Z.div_small by lia. rewrite Z.add_0_r.
    apply Z.mod_small; lia.
  - transitivity (be_bytes (length l) (be_val l)); [|done].
    rewrite <-(be_bytes_mod _ (b * P + be_val l)), <-(be_bytes_mod _ (be_val l)).
    f_equal. fold P. rewrite Z.add_comm, Z.mod_add by lia. done.
Qed.

Lemma be_bytes_inj n v w :
  0 ≤ v < 256 ^ Z.of_nat n → 0 ≤ w < 256 ^ Z.of_nat n →
  be_bytes n v = be_bytes n w → v = w.
Proof.
  intros Hv Hw E. apply (f_equal be_val) in E.
  by rewrite !be_val_bytes, !Z.mod_small in E.
Qed.

Lemma be_val_inj l1 l2 :
  length l1 = length l2 → Forall is_byte l1 → Forall is_byte l2 →
  be_val l1 = be_val l2 → l1 = l2.
Proof.
  intros Hl H1 H2 E. by rewrite <-(be_bytes_val l1), <-(be_bytes_val l2), Hl, E.
Qed.

(** ** Lemmas: masks *)
Lemma length_cidr_mask_go l n : length (cidr_mask_go l n) = l.
Proof. revert n; induction l; intros n; simpl; [done|]; destruct (8 <=? n); simpl; auto. Qed.

Lemma CIDRMask_eq ones bits :
  bits = 32 ∨ bits = 128 → 0 ≤ ones ≤ bits →
  CIDRMask ones bits = cidr_mask_go (Z.to_nat (bits `div` 8)) ones.
Proof.
  intros Hb Ho. unfold CIDRMask.
  assert (negb ((bits =? 32) || (bits =? 128)) = false) as -> by lia.
  by assert ((ones <? 0) || (bits <? ones) = false) as -> by lia.
Qed.

Lemma length_CIDRMask ones bits :
  bits = 32 ∨ bits = 128 → 0 ≤ ones ≤ bits →
  Z.of_nat (length (CIDRMask ones bits)) = bits `div` 8.
Proof.
  intros Hb Ho. rewrite CIDRMask_eq, length_cidr_mask_go by done.
  destruct Hb as [-> | ->]; done.
Qed.

(** Reading the size of a mask that [CIDRMask] built: checked for every prefix
    length of both families. *)
Lemma simpleMaskLength_CIDRMask ones bits :
  bits = 32 ∨ bits = 128 → 0 ≤ ones ≤ bits → simpleMaskLength (CIDRMask ones bits) = ones.
Proof.
  intros Hb Ho.
  assert (forallb (λ k, simpleMaskLength (CIDRMask k 32) =? k)
            (Z.of_nat <$> seq 0 33) = true) as H32 by (vm_compute; done).
  assert (forallb (λ k, simpleMaskLength (CIDRMask k 128) =? k)
            (Z.of_nat <$> seq 0 129) = true) as H128 by (vm_compute; done).
  rewrite !forallb_forall in H32, H128.
  destruct Hb as [-> | ->]; apply Z.eqb_eq; [apply H32|apply H128];
    apply list_elem_of_In, list_elem_of_fmap; exists (Z.to_nat ones);
    (split; [lia|]); apply elem_of_seq; lia.
Qed.

Lemma mask_Size_CIDRMask ones bits :
  bits = 32 ∨ bits = 128 → 0 ≤ ones ≤ bits → mask_Size (CIDRMask ones bits) = (ones, bits).
Proof.
  intros Hb Ho. unfold mask_Size. rewrite simpleMaskLength_CIDRMask by done.
  assert ((ones =? -1) = false) as -> by lia. f_equal.
  rewrite length_CIDRMask by done. destruct Hb as [-> | ->]; done.
Qed.

(** A byte masked by the [k] high bits is the byte less its low part. *)
Lemma land_high_mask b k :
  is_byte b → 0 ≤ k ≤ 8 → Z.land b (255 - Z.shiftr 255 k) = b - b `mod` 2 ^ (8 - k).
Proof.
  intros Hb Hk.
  assert (forallb (λ k, forallb (λ b, Z.land b (255 - Z.shiftr 255 k) =? b - b `mod` 2 ^ (8 - k))
            (Z.of_nat <$> seq 0 256)) (Z.of_nat <$> seq 0 9) = true) as H by (vm_compute; done).
  rewrite forallb_forall in H. specialize (H k). rewrite forallb_forall in H.
  apply Z.eqb_eq, H; apply list_elem_of_In, list_elem_of_fmap; unfold is_byte in Hb.
  - exists (Z.to_nat k). split; [lia|]. apply elem_of_seq; lia.
  - exists (Z.to_nat b). split; [lia|]. apply elem_of_seq; lia.
Qed.

(** Masking clears the host bits: the value becomes a multiple of the block size. *)
Lemma be_val_mask l ones :
  Forall is_byte l → 0 ≤ ones ≤ 8 * Z.of_nat (length l) →
  be_val (zip_with Z.land l (cidr_mask_go (length l) ones))
  = be_val l - be_val l `mod` 2 ^ (8 * Z.of_nat (length l) - ones).
Proof.
  intros Hl; revert ones; induction Hl as [|b l Hb Hl IH]; intros ones Ho.
  { simpl. by rewrite Zmod_0_l. }
  pose proof (be_val_bound _ Hl) as Hbl.
  assert (256 ^ Z.of_nat (length l) = 2 ^ (8 * Z.of_nat (length l))) as HP.
  { by rewrite Z.pow_mul_r by lia. }
  rewrite length_cons in Ho |- *. rewrite Nat2Z.inj_succ in Ho |- *.
  set (len := Z.of_nat (length l)) in *. cbn [cidr_mask_go].
  destruct (8 <=? ones) eqn:E; cbn [zip_with be_val];
    rewrite length_zip_with, length_cidr_mask_go, Nat.min_id; fold len.
  - rewrite IH by lia.
    replace (8 * Z.succ len - ones) with (8 * len - (ones - 8)) by lia.
    rewrite (land_high_mask b 8 Hb ltac:(lia) : Z.land b 255 = _).
    rewrite Z.mod_1_r, Z.sub_0_r.
    set (h := 8 * len - (ones - 8)) in *.
    assert ((b * 256 ^ len + be_val l) `mod` 2 ^ h = be_val l `mod` 2 ^ h) as ->; [|lia].
    rewrite HP. replace (8 * len) with (h + (8 * len - h)) by lia.
    rewrite Z.pow_add_r, (Z.mul_comm (2 ^ h)), Z.mul_assoc by lia.
    rewrite Z.add_comm, Z.mod_add by (apply Z.pow_nonzero; lia). done.
  - rewrite IH by lia. rewrite Z.sub_0_r. rewrite land_high_mask by (done || lia).
    replace (8 * Z.succ len - ones) with (8 * len + (8 - ones)) by lia.
    rewrite Z.pow_add_r by lia. rewrite <-HP. set (P := 256 ^ len) in *.
    assert (0 < P) by lia.
    assert (0 < 2 ^ (8 - ones)) by (apply Z.pow_pos_nonneg; lia).
    rewrite (Z.rem_mul_r _ P) by lia.
    rewrite Z.div_add_l by lia. rewrite (Z.div_small (be_val l)) by lia.
    rewrite (Z.add_comm (b * P)), Z.mod_add by lia.
    rewrite (Z.mod_small (be_val l) P) by lia. rewrite Z.add_0_r. lia.
Qed.

Lemma mask_go_is_byte l n : 0 ≤ n → Forall is_byte (cidr_mask_go l n).
Proof.
  revert n; induction l as [|l IH]; intros n Hn; simpl; [done|].
  destruct (8 <=? n) eqn:E; constructor; try (apply IH; lia); unfold is_byte; [lia|].
  assert (0 ≤ Z.shiftr 255 n ≤ 255); [|lia].
  rewrite Z.shiftr_div_pow2 by lia. split; [apply Z.div_pos; [lia|apply Z.pow_pos_nonneg; lia]|].
  apply Z.div_le_upper_bound; [apply Z.pow_pos_nonneg; lia|].
  assert (1 ≤ 2 ^ n) by (apply Z.pow_le_mono_r with (b := 0); lia). lia.
Qed.

Lemma land_byte a b : is_byte a → is_byte b → is_byte (Z.land a b).
Proof.
  unfold is_byte. intros Ha Hb. split; [apply Z.land_nonneg; lia|].
  assert (Z.land a b = Z.land (Z.land a b) 255) as ->.
  { rewrite <-Z.land_assoc. f_equal. change 255 with (Z.ones 8).
    rewrite Z.land_ones by lia. by rewrite Z.mod_small by lia. }
  change 255 with (Z.ones 8). rewrite Z.land_ones by lia. apply Z.mod_pos_bound; lia.
Qed.

Lemma zip_land_is_byte l m :
  Forall is_byte l → Forall is_byte m → Forall is_byte (zip_with Z.land l m).
Proof.
  intros Hl; revert m; induction Hl; intros m Hm; simpl; [done|].
  destruct Hm; constructor; auto using land_byte.
Qed.

(** ** Lemmas: printing and parsing IPv4 networks *)
Definition no_digit_head (s : string) : Prop :=
  match s with EmptyString => True | String c _ => dec_val c = None end.

Lemma dtoi_go_digit acc d s :
  0 ≤ acc → 0 ≤ d < 10 → acc * 10 + d < big →
  dtoi_go acc (String (digit_char d) s) = dtoi_go (acc * 10 + d) s.
Proof.
  intros. simpl. rewrite dec_val_digit by done.
  by assert ((big <=? acc * 10 + d) = false) as -> by lia.
Qed.

Lemma dtoi_FormatUint n s :
  0 ≤ n < big → no_digit_head s → dtoi (FormatUint n 10 +:+ s) = (n, s, true).
Proof.
  intros Hn Hs.
  assert (dtoi (FormatUint n 10 +:+ s) = dtoi_go 0 (FormatUint n 10 +:+ s)) as ->.
  { pose proof (FormatUint_digits n ltac:(lia)) as Hd.
    destruct (FormatUint n 10) as [|c t] eqn:E; [by apply FormatUint_nonempty in E|].
    simpl in Hd. unfold is_digit in Hd.
    change (String c t +:+ s) with (String c (t +:+ s)). unfold dtoi.
    destruct (dec_val c); done. }
  rewrite FormatUint_app, (scan_FormatUint_acc dtoi_go 10 big);
    [|lia|by intros; apply dtoi_go_digit|lia].
  destruct s as [|c s]; [done|]. simpl in *. by rewrite Hs.
Qed.

Lemma cut_slash_app s t :
  str_all (λ c, negb (Ascii.eqb c "/")) s = true →
  cut_slash (s +:+ String "/" t) = Some (s, t).
Proof.
  induction s as [|c s IH]; intros Hs; [done|].
  simpl in Hs. apply andb_true_iff in Hs as [Hc Hs].
  change (String c s +:+ String "/" t) with (String c (s +:+ String "/" t)).
  simpl. rewrite IH by done. by destruct (Ascii.eqb c "/").
Qed.

Lemma dotted_no_slash a b c d :
  is_byte a → is_byte b → is_byte c → is_byte d →
  str_all (λ c, negb (Ascii.eqb c "/")) (dotted a b c d) = true.
Proof.
  unfold is_byte. intros Ha Hb Hc Hd.
  assert (∀ n, 0 ≤ n → str_all (λ c, negb (Ascii.eqb c "/")) (FormatUint n 10) = true) as HF.
  { intros n Hn. apply FormatUint_all; [lia|done|]. intros e He.
    destruct (Ascii.eqb_spec (digit_char e) "/") as [E|]; [|done].
    apply (f_equal nat_of_ascii) in E. pose proof (nat_of_digit_char e ltac:(lia)) as Hv.
    rewrite E in Hv. change (Z.of_nat (nat_of_ascii "/")) with 47 in Hv.
    destruct (e <? 10) eqn:?; lia. }
  unfold dotted. rewrite !str_all_app. simpl.
  rewrite !str_all_app. simpl. rewrite !str_all_app. simpl. rewrite !HF by lia. done.
Qed.

Lemma parse_octets_first k n s :
  is_byte n → no_digit_head s →
  parse_octets (S k) true (FormatUint n 10 +:+ s)
  = (octets ← parse_octets k false s; Some (n :: octets)).
Proof.
  unfold is_byte. intros Hn Hs.
  pose proof (dtoi_FormatUint n s ltac:(unfold big; lia) Hs) as Hd.
  destruct (FormatUint n 10 +:+ s) as [|c t] eqn:E; [done|].
  cbn [parse_octets negb andb]. rewrite Hd. cbn [negb orb].
  by assert ((255 <? n) = false) as -> by lia.
Qed.

Lemma parse_octets_next k n s :
  is_byte n → no_digit_head s →
  parse_octets (S k) false (String "." (FormatUint n 10 +:+ s))
  = (octets ← parse_octets k false s; Some (n :: octets)).
Proof.
  unfold is_byte. intros Hn Hs.
  cbn [parse_octets]. rewrite dtoi_FormatUint by (done || unfold big; lia).
  cbn [negb orb andb Ascii.eqb Bool.eqb].
  by assert ((255 <? n) = false) as -> by lia.
Qed.

Lemma parseIPv4_dotted a b c d :
  is_byte a → is_byte b → is_byte c → is_byte d → parseIPv4 (dotted a b c d) = IPv4 a b c d.
Proof.
  intros Ha Hb Hc Hd. unfold parseIPv4, dotted.
  rewrite parse_octets_first, !parse_octets_next by done.
  rewrite <-(app_empty_r (FormatUint d 10)).
  by rewrite parse_octets_next by done.
Qed.

Lemma list_4 {A} (l : list A) : length l = 4%nat → ∃ a b c d, l = [a; b; c; d].
Proof.
  intros Hl. destruct l as [|a [|b [|c [|d [|]]]]]; try discriminate Hl. by exists a, b, c, d.
Qed.

Lemma To4_short ip : length ip = IPv4len → To4 ip = ip.
Proof. intros. unfold To4. by rewrite decide_True. Qed.

Lemma To4_mapped ip : length ip = IPv4len → To4 (v4InV6Prefix ++ ip) = ip.
Proof.
  intros Hip. destruct (list_4 ip Hip) as (a & b & c & d & ->).
  unfold To4. by rewrite decide_False, decide_True by done.
Qed.

Lemma networkNumberAndMask_v4 ip m :
  length ip = IPv4len → length m = IPv4len → networkNumberAndMask (mkIPNet ip m) = (ip, m).
Proof.
  intros Hip Hm. unfold networkNumberAndMask. cbn [net_IP net_Mask].
  rewrite To4_short by done.
  assert (match ip with [] => ip | z :: l => z :: l end = ip) as -> by (by destruct ip).
  rewrite decide_False by (intros [Hne _]; by apply Hne). by rewrite !decide_True by done.
Qed.

Lemma ip_Mask_mapped ip m :
  length ip = IPv4len → length m = IPv4len →
  ip_Mask (v4InV6Prefix ++ ip) m = zip_with Z.land ip m.
Proof.
  intros Hip Hm. destruct (list_4 ip Hip) as (a & b & c & d & ->). unfold ip_Mask. cbv zeta.
  destruct (decide (length m = IPv6len ∧ _)) as [Hx|_].
  { apply proj1 in Hx. rewrite Hm in Hx. discriminate Hx. }
  rewrite (decide_True (P := length m = IPv4len ∧ _)) by done.
  by rewrite decide_True by done.
Qed.

Lemma length_CIDRMask_v4 ones : 0 ≤ ones ≤ 32 → length (CIDRMask ones 32) = IPv4len.
Proof. intros. apply (inj Z.of_nat). by rewrite length_CIDRMask by lia. Qed.

(** The text of an IPv4 network. *)
Lemma net_String_v4 ip ones :
  length ip = IPv4len → 0 ≤ ones ≤ 32 →
  net_String (mkIPNet ip (CIDRMask ones 32)) =
    ip_String ip +:+ String "/" (FormatUint ones 10).
Proof.
  intros Hip Ho. unfold net_String.
  rewrite networkNumberAndMask_v4 by auto using length_CIDRMask_v4.
  pose proof (length_CIDRMask_v4 ones Ho) as Hl.
  destruct ip as [|x ip']; [done|].
  destruct (CIDRMask ones 32) as [|m0 m] eqn:E; [done|].
  rewrite <-E, simpleMaskLength_CIDRMask by lia.
  by assert ((ones =? -1) = false) as -> by lia.
Qed.

(** A network with no host bits is not changed by its mask. *)
Lemma zip_land_canonical ip ones bits :
  bits = 32 ∨ bits = 128 → length ip = Z.to_nat (bits `div` 8) →
  Forall is_byte ip → 0 ≤ ones ≤ bits → (2 ^ (bits - ones) | be_val ip) →
  zip_with Z.land ip (CIDRMask ones bits) = ip.
Proof.
  intros Hbits Hl Hb Ho Hdiv. rewrite CIDRMask_eq, <-Hl by done.
  assert (8 * Z.of_nat (length ip) = bits) as E by (destruct Hbits as [-> | ->]; rewrite Hl; done).
  pose proof (be_val_mask ip ones Hb ltac:(lia)) as Hv. rewrite E in Hv.
  apply be_val_inj; [by rewrite length_zip_with, length_cidr_mask_go, Nat.min_id| |done|].
  { apply zip_land_is_byte, mask_go_is_byte; [done|lia]. }
  rewrite Hv. apply Z.mod_divide in Hdiv; [lia|]. apply Z.pow_nonzero; lia.
Qed.

(** Printing a canonical IPv4 network and parsing the text yields it back. *)
Lemma ParseCIDR_net_String_v4 ip ones :
  length ip = IPv4len → Forall is_byte ip → 0 ≤ ones ≤ 32 →
  (2 ^ (32 - ones) | be_val ip) →
  ParseCIDR (net_String (mkIPNet ip (CIDRMask ones 32)))
  = Some (v4InV6Prefix ++ ip, mkIPNet ip (CIDRMask ones 32)).
Proof.
  intros Hip Hb Ho Hdiv. rewrite net_String_v4 by done.
  destruct (list_4 ip Hip) as (a & b & c & d & ->).
  assert (is_byte a ∧ is_byte b ∧ is_byte c ∧ is_byte d) as (? & ? & ? & ?).
  { apply Forall_cons_1 in Hb as [Ha Hb]. apply Forall_cons_1 in Hb as [Hb' Hb].
    apply Forall_cons_1 in Hb as [Hc Hb]. by apply Forall_cons_1 in Hb as [Hd _]. }
  change (ip_String [a; b; c; d]) with (dotted a b c d).
  unfold ParseCIDR. rewrite cut_slash_app by (by apply dotted_no_slash).
  cbn [mbind option_bind]. rewrite parseIPv4_dotted by done.
  cbn [IPv4 v4InV6Prefix app].
  rewrite <-(app_empty_r (FormatUint ones 10)), dtoi_FormatUint by (done || unfold big; lia).
  change (8 * Z.of_nat IPv4len) with 32.
  assert ((ones <? 0) = false) as -> by lia. assert ((32 <? ones) = false) as -> by lia.
  cbn [bool_decide negb orb]. do 2 f_equal. f_equal.
  pose proof (length_CIDRMask_v4 ones Ho) as Hl.
  change (ip_Mask (v4InV6Prefix ++ [a; b; c; d]) (CIDRMask ones 32) = [a; b; c; d]).
  rewrite ip_Mask_mapped by done.
  by apply zip_land_canonical; [left| | | |].
Qed.
