(* ===== verification/GoNet6.v ===== *)
(** * Printing and parsing IPv6 networks

    The text of a 16-byte address that is not an IPv4-mapped one reads back
    to the address, with or without a run of zero groups written as a double
    colon, and so does the text of a canonical IPv6 network. *)
From S2P Require Import Prelude GoStrings GoNet.
From Stdlib Require Import Ascii.

(** ** Hexadecimal groups *)
Definition is_group (g : Z) : Prop := 0 ≤ g < 65536.

(** The two bytes of a group. *)
Definition group_bytes (g : Z) : list Z := [Z.shiftr g 8; Z.land g 255].

Definition no_hex_head (s : string) : Prop :=
  match s with EmptyString => True | String c _ => hex_val c = None end.

Lemma xtoi_go_digit acc d s :
  0 ≤ acc → 0 ≤ d < 16 → acc * 16 + d < big →
  xtoi_go acc (String (digit_char d) s) = xtoi_go (acc * 16 + d) s.
Proof.
  intros. simpl. rewrite hex_val_digit by done.
  by assert ((big <=? acc * 16 + d) = false) as -> by lia.
Qed.

Lemma FormatUint_hex n : 0 ≤ n → str_all is_hex (FormatUint n 16) = true.
Proof.
  intros Hn. apply FormatUint_all; [lia|done|]. intros d Hd.
  unfold is_hex. by rewrite hex_val_digit.
Qed.

(** A printed group starts with a hexadecimal digit. *)
Lemma FormatUint_hex_head n s :
  0 ≤ n → ∃ c t, FormatUint n 16 +:+ s = String c t ∧ is_hex c = true.
Proof.
  intros Hn. pose proof (FormatUint_hex n Hn) as Hh.
  destruct (FormatUint n 16) as [|c t] eqn:E; [by apply FormatUint_nonempty in E|].
  simpl in Hh. apply andb_true_iff in Hh as [Hc _]. by exists c, (t +:+ s).
Qed.

Lemma xtoi_FormatUint n s :
  0 ≤ n < big → no_hex_head s → xtoi (FormatUint n 16 +:+ s) = (n, s, true).
Proof.
  intros Hn Hs.
  assert (xtoi (FormatUint n 16 +:+ s) = xtoi_go 0 (FormatUint n 16 +:+ s)) as ->.
  { destruct (FormatUint_hex_head n s) as (c & t & -> & Hc); [lia|].
    unfold xtoi, is_hex in *. by destruct (hex_val c). }
  rewrite FormatUint_app, (scan_FormatUint_acc xtoi_go 16 big);
    [|lia|by intros; apply xtoi_go_digit|lia].
  destruct s as [|c s]; [done|]. simpl in *. by rewrite Hs.
Qed.

Lemma is_hex_not c : is_hex c = true → Ascii.eqb c ":" = false ∧ Ascii.eqb c "." = false.
Proof.
  intros Hc. split.
  - destruct (Ascii.eqb_spec c ":") as [->|]; [discriminate Hc|done].
  - destruct (Ascii.eqb_spec c ".") as [->|]; [discriminate Hc|done].
Qed.

(** ** The loop over groups *)
(** One group in front of a colon and another group. *)
Lemma parse_groups_next fuel g g' t ip ell :
  is_group g → 0 ≤ g' → (length ip < IPv6len)%nat →
  parse_groups (S fuel) (FormatUint g 16 +:+ String ":" (FormatUint g' 16 +:+ t)) ip ell
  = parse_groups fuel (FormatUint g' 16 +:+ t) (ip ++ group_bytes g) ell.
Proof.
  intros Hg Hg' Hip. unfold is_group in Hg. cbn [parse_groups].
  rewrite (proj2 (Nat.leb_gt _ _)) by done.
  rewrite xtoi_FormatUint by (done || unfold big; lia). cbn [negb orb].
  assert ((65535 <? g) = false) as -> by lia.
  destruct (FormatUint_hex_head g' t Hg') as (c & t' & -> & Hc).
  apply is_hex_not in Hc as [Hc _]. cbv zeta. simpl (Ascii.eqb ":" _). cbn [negb]. by rewrite Hc.
Qed.

(** The last group of the text. *)
Lemma parse_groups_end fuel g ip ell :
  is_group g → (length ip < IPv6len)%nat →
  parse_groups (S fuel) (FormatUint g 16) ip ell = Some (ip ++ group_bytes g, ell, "").
Proof.
  intros Hg Hip. unfold is_group in Hg. cbn [parse_groups].
  rewrite (proj2 (Nat.leb_gt _ _)) by done.
  rewrite <-(app_empty_r (FormatUint g 16)).
  rewrite xtoi_FormatUint by (done || unfold big; lia). cbn [negb orb].
  by assert ((65535 <? g) = false) as -> by lia.
Qed.

(** A group in front of the double colon. *)
Lemma parse_groups_ellipsis fuel g t ip :
  is_group g → (length ip < IPv6len)%nat →
  parse_groups (S fuel) (FormatUint g 16 +:+ String ":" (String ":" t)) ip None
  = let ip' := ip ++ group_bytes g in
    if decide (t = "") then Some (ip', Some (length ip'), "")
    else parse_groups fuel t ip' (Some (length ip')).
Proof.
  intros Hg Hip. unfold is_group in Hg. cbn [parse_groups].
  rewrite (proj2 (Nat.leb_gt _ _)) by done.
  rewrite xtoi_FormatUint by (done || unfold big; lia). cbn [negb orb].
  assert ((65535 <? g) = false) as -> by lia. by destruct t.
Qed.

Abbreviation bytes_of gs := (gs ≫= group_bytes).

Lemma length_bytes_of gs : length (bytes_of gs) = (2 * length gs)%nat.
Proof. induction gs as [|g gs IH]; [done|]. cbn [mbind list_bind]. rewrite length_app, IH. simpl. lia. Qed.

(** A text of groups up to its end. *)
Lemma parse_groups_all gs : ∀ fuel g ip ell,
  Forall is_group (g :: gs) → (length gs < fuel)%nat →
  (length ip + 2 * S (length gs) ≤ IPv6len)%nat →
  parse_groups fuel (colon_groups true (g :: gs)) ip ell
  = Some (ip ++ bytes_of (g :: gs), ell, "").
Proof.
  induction gs as [|g' gs IH]; intros fuel g ip ell Hgs Hf Hip;
    apply Forall_cons_1 in Hgs as [Hg Hgs]; destruct fuel as [|fuel]; try lia; cbn [length] in *.
  - cbn [colon_groups]. change ("" +:+ ?s) with s. rewrite app_empty_r.
    by rewrite parse_groups_end by (done || lia).
  - change (colon_groups true (g :: g' :: gs))
      with (FormatUint g 16 +:+ String ":" (colon_groups true (g' :: gs))).
    assert (0 ≤ g') by (apply Forall_cons_1 in Hgs as [[? _] _]; done).
    change (colon_groups true (g' :: gs)) with (FormatUint g' 16 +:+ colon_groups false gs).
    rewrite parse_groups_next by (done || lia).
    change (FormatUint g' 16 +:+ colon_groups false gs) with (colon_groups true (g' :: gs)).
    rewrite IH by (done || lia || (rewrite length_app; simpl; lia)).
    do 2 f_equal. f_equal. by rewrite <-app_assoc.
Qed.

(** Groups up to the double colon. *)
Lemma parse_groups_prefix gs t : ∀ fuel g ip,
  Forall is_group (g :: gs) → (length gs < fuel)%nat →
  (length ip + 2 * S (length gs) ≤ IPv6len)%nat →
  parse_groups fuel (colon_groups true (g :: gs) +:+ String ":" (String ":" t)) ip None
  = let ip' := ip ++ bytes_of (g :: gs) in
    if decide (t = "") then Some (ip', Some (length ip'), "")
    else parse_groups (fuel - S (length gs)) t ip' (Some (length ip')).
Proof.
  induction gs as [|g' gs IH]; intros fuel g ip Hgs Hf Hip;
    apply Forall_cons_1 in Hgs as [Hg Hgs]; destruct fuel as [|fuel]; try lia; cbn [length] in *.
  - cbn [colon_groups]. change ("" +:+ ?s) with s. rewrite app_empty_r.
    rewrite parse_groups_ellipsis by (done || lia). by replace (S fuel - 1)%nat with fuel by lia.
  - assert (0 ≤ g') by (apply Forall_cons_1 in Hgs as [[? _] _]; done).
    change (colon_groups true (g :: g' :: gs))
      with (FormatUint g 16 +:+ String ":" (FormatUint g' 16 +:+ colon_groups false gs)).
    rewrite <-string_app_assoc. change (String ":" ?a +:+ ?b) with (String ":" (a +:+ b)).
    rewrite <-string_app_assoc, parse_groups_next by (done || lia). rewrite string_app_assoc.
    change (FormatUint g' 16 +:+ colon_groups false gs) with (colon_groups true (g' :: gs)).
    rewrite IH by (done || lia || (rewrite length_app; simpl; lia)).
    cbv zeta. rewrite <-!app_assoc. done.
Qed.

(** ** The run of zero groups *)
Lemma zero_run_zeros l : take (zero_run l) l = replicate (zero_run l) 0.
Proof.
  induction l as [|g l IH]; [done|]. simpl. destruct (Z.eqb_spec g 0) as [->|]; [|done].
  simpl. by rewrite IH.
Qed.

(** The run the printer chooses is a run of zeros of the address. *)
Lemma longest_zeros_run full fuel : ∀ i l best,
  drop i full = l → take best.2 (drop best.1 full) = replicate best.2 0 →
  let r := longest_zeros fuel i l best in take r.2 (drop r.1 full) = replicate r.2 0.
Proof.
  induction fuel as [|fuel IH]; intros i l best Hl Hbest; [done|]. cbn [longest_zeros].
  destruct l as [|g l']; [done|]. cbv zeta.
  destruct (_ <? _)%nat.
  - apply IH; [|by cbn [fst snd]; rewrite Hl; apply zero_run_zeros].
    rewrite <-Hl, drop_drop. f_equal. lia.
  - apply IH; [|done]. replace (S i) with (i + 1)%nat by lia. by rewrite <-drop_drop, Hl.
Qed.

(** An address is what stands before the run, the run and what follows it. *)
Lemma zeros_split gs e n :
  take n (drop e gs) = replicate n 0 → (0 < n)%nat →
  (e + n ≤ length gs)%nat ∧ gs = take e gs ++ replicate n 0 ++ drop (e + n) gs.
Proof.
  intros Hz Hn. split.
  - apply (f_equal length) in Hz. rewrite length_take, length_drop, length_replicate in Hz. lia.
  - rewrite <-Hz, <-(drop_drop gs n e), take_drop. by rewrite take_drop.
Qed.

Lemma bytes_of_zeros n : bytes_of (replicate n 0) = replicate (2 * n) 0.
Proof.
  induction n as [|n IH]; [done|]. replace (2 * S n)%nat with (S (S (2 * n))) by lia.
  cbn [replicate mbind list_bind]. by rewrite <-IH.
Qed.

Lemma bytes_of_app gs gs' : bytes_of (gs ++ gs') = bytes_of gs ++ bytes_of gs'.
Proof. apply bind_app. Qed.

(** ** Groups and bytes *)
Lemma group_bytes_make a b : is_byte a → is_byte b → group_bytes (a * 256 + b) = [a; b].
Proof.
  unfold is_byte, group_bytes. intros Ha Hb. f_equal; [|f_equal].
  - rewrite Z.shiftr_div_pow2 by lia. change (2 ^ 8) with 256.
    rewrite Z.div_add_l by lia. rewrite Z.div_small by lia. lia.
  - change 255 with (Z.ones 8). rewrite Z.land_ones by lia. change (2 ^ 8) with 256.
    rewrite Z.add_comm, Z.mod_add by lia. apply Z.mod_small; lia.
Qed.

Lemma groups_bytes n : ∀ p,
  length p = (2 * n)%nat → Forall is_byte p →
  bytes_of (groups p) = p ∧ length (groups p) = n ∧ Forall is_group (groups p).
Proof.
  induction n as [|n IH]; intros p Hp Hb.
  { destruct p; [by repeat split|discriminate Hp]. }
  destruct p as [|a [|b p]]; [simpl in Hp; lia..|]. cbn [length] in Hp.
  apply Forall_cons_1 in Hb as [Ha Hb]. apply Forall_cons_1 in Hb as [Hb Hbs].
  destruct (IH p) as (E1 & E2 & E3); [lia|done|]. cbn [groups]. split_and!.
  - cbn [mbind list_bind]. rewrite group_bytes_make by done.
    change (a :: b :: bytes_of (groups p) = a :: b :: p). by rewrite E1.
  - cbn [length]. by rewrite E2.
  - constructor; [|done]. unfold is_group, is_byte in *. lia.
Qed.

(** ** Reading an address *)
(** What [parseIPv6] does with the groups: the gap is filled with zeros. *)
Definition finish6 (r : option (list Z * option nat * string)) : IP :=
  match r with
  | Some (ip, ellipsis, EmptyString) =>
      let i := length ip in
      if (i <? IPv6len)%nat then
        match ellipsis with
        | None => []
        | Some e => take e ip ++ replicate (IPv6len - i) 0 ++ drop e ip
        end
      else match ellipsis with Some _ => [] | None => ip end
  | _ => []
  end.

Lemma parseIPv6_hex c t :
  is_hex c = true → parseIPv6 (String c t) = finish6 (parse_groups 9 (String c t) [] None).
Proof.
  intros Hc. unfold parseIPv6, finish6. generalize (parse_groups 9). intros P.
  destruct c as [[] [] [] [] [] [] [] []]; try discriminate Hc; reflexivity.
Qed.

Lemma parseIPv6_colons t :
  parseIPv6 (String ":" (String ":" t))
  = if decide (t = "") then replicate IPv6len 0 else finish6 (parse_groups 9 t [] (Some 0%nat)).
Proof. by destruct t. Qed.

Lemma finish6_full ip : length ip = IPv6len → finish6 (Some (ip, None, "")) = ip.
Proof. intros Hip. unfold finish6. by rewrite Hip. Qed.

Lemma finish6_gap l r :
  (length l + length r < IPv6len)%nat →
  finish6 (Some (l ++ r, Some (length l), ""))
  = l ++ replicate (IPv6len - (length l + length r)) 0 ++ r.
Proof.
  intros Hl. unfold finish6. rewrite length_app, (proj2 (Nat.ltb_lt _ _)) by done.
  by rewrite take_app_length, drop_app_length.
Qed.

Lemma colon_groups_hex gs s :
  Forall is_group gs → gs ≠ [] →
  ∃ c t, colon_groups true gs +:+ s = String c t ∧ is_hex c = true.
Proof.
  intros Hgs Hne. destruct gs as [|g gs]; [done|]. apply Forall_cons_1 in Hgs as [[Hg _] _].
  change (colon_groups true (g :: gs)) with (FormatUint g 16 +:+ colon_groups false gs).
  rewrite <-string_app_assoc. by apply FormatUint_hex_head.
Qed.

(** All eight groups written out. *)
Lemma parseIPv6_all gs :
  Forall is_group gs → length gs = 8%nat → parseIPv6 (colon_groups true gs) = bytes_of gs.
Proof.
  intros Hgs Hl.
  destruct (colon_groups_hex gs "" Hgs) as (c & t & E & Hc); [by intros ->|].
  rewrite app_empty_r in E. rewrite E, parseIPv6_hex, <-E by done.
  destruct gs as [|g gs]; [done|]. cbn [length] in Hl.
  rewrite parse_groups_all by (done || (unfold IPv6len; simpl; lia)).
  apply finish6_full. rewrite length_bytes_of. cbn [length]. unfold IPv6len. lia.
Qed.

(** Groups on both sides of the double colon, either side possibly empty. *)
Lemma parseIPv6_gap l r :
  Forall is_group l → Forall is_group r → (length l + length r < 8)%nat →
  parseIPv6 (colon_groups true l +:+ String ":" (String ":" (colon_groups true r)))
  = bytes_of l ++ replicate (16 - 2 * (length l + length r)) 0 ++ bytes_of r.
Proof.
  intros Hl Hr Hlen.
  assert (r ≠ [] → colon_groups true r ≠ "") as Hne.
  { intros Hr0 E. destruct (colon_groups_hex r "" Hr Hr0) as (c & t & E' & _).
    by rewrite E in E'. }
  assert (∀ fuel, (length r ≤ fuel)%nat → r ≠ [] →
    finish6 (parse_groups fuel (colon_groups true r) (bytes_of l) (Some (length (bytes_of l))))
    = bytes_of l ++ replicate (16 - 2 * (length l + length r)) 0 ++ bytes_of r) as Hfin.
  { intros fuel Hf Hr0. destruct r as [|g r]; [done|]. cbn [length] in *.
    rewrite parse_groups_all
      by (done || lia || (rewrite length_bytes_of; unfold IPv6len; lia)).
    rewrite finish6_gap by (rewrite !length_bytes_of; cbn [length]; unfold IPv6len; lia).
    rewrite !length_bytes_of. cbn [length]. do 3 f_equal. unfold IPv6len. lia. }
  destruct l as [|g l].
  - change (colon_groups true [] +:+ ?s) with s. rewrite parseIPv6_colons.
    destruct (decide (r = [])) as [->|Hr0]; [done|].
    rewrite decide_False by auto. apply Hfin; [lia|done].
  - destruct (colon_groups_hex (g :: l) (String ":" (String ":" (colon_groups true r))) Hl)
      as (c & t & E & Hc); [done|].
    rewrite E, parseIPv6_hex, <-E by done. cbn [length] in *.
    rewrite parse_groups_prefix by (done || lia || (unfold IPv6len; simpl; lia)). cbv zeta.
    rewrite app_nil_l. destruct (decide (r = [])) as [->|Hr0].
    + rewrite decide_True by done. rewrite <-(app_nil_r (bytes_of (g :: l))) at 1.
      rewrite finish6_gap by (rewrite length_bytes_of; unfold IPv6len; simpl in *; lia).
      rewrite length_bytes_of. cbn [length]. do 3 f_equal. unfold IPv6len. lia.
    + rewrite decide_False by auto. apply Hfin; [lia|done].
Qed.

(** The printed form of an address reads back. *)
Lemma parseIPv6_v6_string p :
  length p = IPv6len → Forall is_byte p → parseIPv6 (v6_string p) = p.
Proof.
  intros Hp Hb. destruct (groups_bytes 8 p Hp Hb) as (E & Hl & Hg). unfold v6_string.
  pose proof (longest_zeros_run (groups p) 8 0 (groups p) (0, 0)%nat eq_refl eq_refl) as Hz.
  destruct (longest_zeros 8 0 (groups p) (0, 0)%nat) as [e n]. cbv zeta in Hz. cbn [fst snd] in Hz.
  destruct (Nat.leb_spec n 1) as [Hn|Hn]; [by rewrite parseIPv6_all by done|].
  destruct (zeros_split _ _ _ Hz) as [Hlen Hsplit]; [lia|].
  change ("::" +:+ ?s) with (String ":" (String ":" s)).
  rewrite parseIPv6_gap.
  - transitivity (bytes_of (groups p)); [|done]. rewrite Hsplit at 5.
    rewrite !bytes_of_app, bytes_of_zeros.
    rewrite length_take, length_drop, Hl. do 3 f_equal. lia.
  - by apply Forall_take.
  - by apply Forall_drop.
  - rewrite length_take, length_drop, Hl. lia.
Qed.

(** ** Reading a network *)
Definition group_char (c : ascii) : bool := is_hex c || Ascii.eqb c ":".

Lemma colon_groups_chars gs : ∀ first,
  Forall is_group gs → str_all group_char (colon_groups first gs) = true.
Proof.
  induction gs as [|g gs IH]; intros first Hgs; [done|].
  apply Forall_cons_1 in Hgs as [[Hg _] Hgs]. cbn [colon_groups].
  rewrite !str_all_app, IH by done.
  rewrite (str_all_impl is_hex group_char (FormatUint g 16));
    [by destruct first| |by apply FormatUint_hex].
  intros c Hc. unfold group_char. by rewrite Hc.
Qed.

Lemma v6_string_chars p :
  length p = IPv6len → Forall is_byte p → str_all group_char (v6_string p) = true.
Proof.
  intros Hp Hb. destruct (groups_bytes 8 p Hp Hb) as (_ & _ & Hg). unfold v6_string.
  destruct (longest_zeros 8 0 (groups p) (0, 0)%nat) as [e n].
  destruct (n <=? 1)%nat; [by apply colon_groups_chars|].
  rewrite !str_all_app, !colon_groups_chars; [done|by apply Forall_drop|by apply Forall_take].
Qed.

(** A text without a dot is no IPv4 address. *)
Lemma dtoi_go_rest p : ∀ s n, str_all p s = true → str_all p (dtoi_go n s).1.2 = true.
Proof.
  induction s as [|c s IH]; intros n Hs; [done|]. cbn [dtoi_go].
  destruct (dec_val c); [|done]. destruct (_ <=? _); [done|]. apply IH.
  simpl in Hs. by apply andb_true_iff in Hs as [_ ?].
Qed.

Lemma parseIPv4_no_dot s : str_all group_char s = true → parseIPv4 s = [].
Proof.
  intros Hs. unfold parseIPv4. destruct s as [|c s']; [done|].
  assert (str_all group_char (dtoi (String c s')).1.2 = true) as Hr.
  { unfold dtoi. destruct (dec_val c); [by apply dtoi_go_rest|done]. }
  cbn [parse_octets negb andb].
  destruct (dtoi (String c s')) as [[n rest] ok]. cbn [fst snd] in Hr.
  destruct (negb ok || (255 <? n)); [done|].
  destruct rest as [|c2 rest]; [done|]. cbn [parse_octets].
  simpl in Hr. apply andb_true_iff in Hr as [Hc _].
  destruct (Ascii.eqb_spec c2 ".") as [->|]; [discriminate Hc|done].
Qed.

Lemma To4_long ip : length ip = IPv6len → take 12 ip ≠ v4InV6Prefix → To4 ip = [].
Proof.
  intros Hl Ht. unfold To4. rewrite decide_False by (rewrite Hl; done).
  by rewrite decide_False by (by intros [_ ?]).
Qed.

Lemma networkNumberAndMask_v6 ip m :
  length ip = IPv6len → take 12 ip ≠ v4InV6Prefix → length m = IPv6len →
  networkNumberAndMask (mkIPNet ip m) = (ip, m).
Proof.
  intros Hip Ht Hm. unfold networkNumberAndMask. cbn [net_IP net_Mask].
  rewrite To4_long, Hip, Hm by done. by rewrite !decide_False, decide_True, decide_False by naive_solver.
Qed.

Lemma length_CIDRMask_v6 ones : 0 ≤ ones ≤ 128 → length (CIDRMask ones 128) = IPv6len.
Proof. intros. apply (inj Z.of_nat). by rewrite length_CIDRMask by lia. Qed.

Lemma ip_String_v6 ip :
  length ip = IPv6len → take 12 ip ≠ v4InV6Prefix → ip_String ip = v6_string ip.
Proof.
  intros Hl Ht. unfold ip_String. rewrite To4_long, decide_True by done. by destruct ip.
Qed.

(** The text of an IPv6 network. *)
Lemma net_String_v6 ip ones :
  length ip = IPv6len → take 12 ip ≠ v4InV6Prefix → 0 ≤ ones ≤ 128 →
  net_String (mkIPNet ip (CIDRMask ones 128)) =
    v6_string ip +:+ String "/" (FormatUint ones 10).
Proof.
  intros Hip Ht Ho. unfold net_String. pose proof (length_CIDRMask_v6 ones Ho) as Hl.
  rewrite networkNumberAndMask_v6, ip_String_v6 by done.
  destruct ip as [|x ip']; [done|].
  destruct (CIDRMask ones 128) as [|m0 m] eqn:E; [done|].
  rewrite <-E, simpleMaskLength_CIDRMask by lia.
  by assert ((ones =? -1) = false) as -> by lia.
Qed.

Lemma ip_Mask_v6 ip m :
  length ip = IPv6len → length m = IPv6len → ip_Mask ip m = zip_with Z.land ip m.
Proof.
  intros Hip Hm. unfold ip_Mask. cbv zeta. rewrite Hip, Hm.
  rewrite (decide_False (P := IPv6len = IPv6len ∧ _)) by naive_solver.
  rewrite Hm, (decide_False (P := IPv6len = IPv4len ∧ _)) by naive_solver.
  by rewrite Hip, decide_True.
Qed.

(** Printing a canonical IPv6 network and parsing the text yields it back. *)
Lemma ParseCIDR_net_String_v6 ip ones :
  length ip = IPv6len → take 12 ip ≠ v4InV6Prefix → Forall is_byte ip → 0 ≤ ones ≤ 128 →
  (2 ^ (128 - ones) | be_val ip) →
  ParseCIDR (net_String (mkIPNet ip (CIDRMask ones 128)))
  = Some (ip, mkIPNet ip (CIDRMask ones 128)).
Proof.
  intros Hip Ht Hb Ho Hdiv. rewrite net_String_v6 by done.
  pose proof (v6_string_chars ip Hip Hb) as Hc.
  unfold ParseCIDR. rewrite cut_slash_app.
  2: { revert Hc. apply str_all_impl. intros c Hg.
       destruct (Ascii.eqb_spec c "/") as [->|]; [discriminate Hg|done]. }
  cbn [mbind option_bind]. rewrite parseIPv4_no_dot, parseIPv6_v6_string by done.
  rewrite <-(app_empty_r (FormatUint ones 10)), dtoi_FormatUint by (done || unfold big; lia).
  change (8 * Z.of_nat IPv6len) with 128.
  assert ((ones <? 0) = false) as -> by lia. assert ((128 <? ones) = false) as -> by lia.
  rewrite bool_decide_false by (intros ->; discriminate Hip). cbn [bool_decide negb orb].
  rewrite ip_Mask_v6 by auto using length_CIDRMask_v6.
  by rewrite zip_land_canonical by auto.
Qed.
