(* ===== verification/ConnectionContext.v ===== *)
(** * The connection context (controlplane/pkg/apis/connectioncontext)

    The IP-level part of a connection request and of its answer, with the
    three validity checks of helpers.go.  A nil pointer is [None]; the
    elements of repeated message fields are never nil after unmarshalling. *)
From S2P Require Import Prelude GoStrings GoNet.

Inductive IpFamily_Family := IpFamily_IPV4 | IpFamily_IPV6.

#[global] Instance IpFamily_Family_eq_dec : EqDecision IpFamily_Family.
Proof. solve_decision. Defined.

Record IpNeighbor := mkIpNeighbor { nb_Ip : string; nb_HardwareAddress : string }.
Record Route := mkRoute { route_Prefix : string }.

Record ExtraPrefixRequest := mkExtraPrefixRequest {
  epr_AddrFamily : option IpFamily_Family;
  epr_PrefixLen : Z;        (* uint32 *)
  epr_RequiredNumber : Z;   (* uint32 *)
  epr_RequestedNumber : Z   (* uint32 *)
}.

Record ConnectionContext := mkConnectionContext {
  ctx_SrcIpAddr : string;
  ctx_DstIpAddr : string;
  ctx_SrcIpRequired : bool;
  ctx_DstIpRequired : bool;
  ctx_Routes : list Route;
  ctx_ExcludedPrefixes : list string;
  ctx_IpNeighbors : list IpNeighbor;
  ctx_ExtraPrefixRequest : list ExtraPrefixRequest;
  ctx_ExtraPrefixes : list string
}.

#[global] Instance IpNeighbor_eq_dec : EqDecision IpNeighbor.
Proof. solve_decision. Defined.
#[global] Instance Route_eq_dec : EqDecision Route.
Proof. solve_decision. Defined.
#[global] Instance ExtraPrefixRequest_eq_dec : EqDecision ExtraPrefixRequest.
Proof. solve_decision. Defined.
#[global] Instance ConnectionContext_eq_dec : EqDecision ConnectionContext.
Proof. solve_decision. Defined.

Definition empty_ConnectionContext : ConnectionContext :=
  mkConnectionContext "" "" false false [] [] [] [] [].

(** The first route that is not a CIDR makes the context incomplete. *)
Fixpoint check_routes (routes : list Route) : option error :=
  match routes with
  | [] => None
  | r :: routes =>
      if decide (route_Prefix r = "") then
        Some (Errorf "ConnectionContext.Route.Prefix is required and cannot be empty/nil: %v")
      else match ParseCIDR (route_Prefix r) with
      | None => Some (Errorf "ConnectionContext.Route.Prefix should be a valid CIDR address: %v")
      | Some _ => check_routes routes
      end
  end.

Fixpoint check_neighbors (nbs : list IpNeighbor) : option error :=
  match nbs with
  | [] => None
  | n :: nbs =>
      if decide (nb_Ip n = "") then
        Some (Errorf "ConnectionContext.IpNeighbors.Ip is required and cannot be empty/nil: %v")
      else check_neighbors nbs
  end.

(** [ConnectionContext.IsComplete] *)
Definition ctx_IsComplete (c : option ConnectionContext) : option error :=
  match c with
  | None => Some (Errorf "ConnectionContext should not be nil...")
  | Some c =>
      match check_routes (ctx_Routes c) with
      | Some e => Some e
      | None => check_neighbors (ctx_IpNeighbors c)
      end
  end.

(** [ConnectionContext.MeetsRequirements]; the getters on a nil [original]
    return false. *)
Definition ctx_MeetsRequirements (c original : option ConnectionContext) : option error :=
  match c with
  | None => Some (Errorf "ConnectionContext should not be nil...")
  | Some c' =>
      match ctx_IsComplete c with
      | Some e => Some e
      | None =>
          if default false (ctx_DstIpRequired <$> original) && bool_decide (ctx_DstIpAddr c' = "")
          then Some (Errorf "ConnectionContext.DestIp is required and cannot be empty/nil: %v")
          else if default false (ctx_SrcIpRequired <$> original) && bool_decide (ctx_SrcIpAddr c' = "")
          then Some (Errorf "ConnectionContext.SrcIp is required cannot be empty/nil: %v")
          else None
      end
  end.

(** [ExtraPrefixRequest.IsValid] *)
Definition epr_IsValid (c : option ExtraPrefixRequest) : option error :=
  match c with
  | None => Some (Errorf "ExtraPrefixRequest should not be nil...")
  | Some c =>
      if epr_RequiredNumber c <? 1 then
        Some (Errorf "ExtraPrefixRequest.RequiredNumber should be positive number >=1: %v")
      else if epr_RequestedNumber c <? 1 then
        Some (Errorf "ExtraPrefixRequest.RequestedNumber should be positive number >=1: %v")
      else if epr_RequestedNumber c <? epr_RequiredNumber c then
        Some (Errorf "ExtraPrefixRequest.RequiredNumber should be less or equal to ExtraPrefixRequest.RequestedNumber >=1: %v")
      else if epr_PrefixLen c <? 1 then
        Some (Errorf "ExtraPrefixRequest.PrefixLen should be positive number >=1: %v")
      else match epr_AddrFamily c with
      | None => Some (Errorf "ExtraPrefixRequest.AfFamily should not be nil...")
      | Some IpFamily_IPV4 =>
          if 32 <? epr_PrefixLen c then
            Some (Errorf "ExtraPrefixRequest.PrefixLen should be positive number >=1 and <=32 for IPv4 %v")
          else None
      | Some IpFamily_IPV6 =>
          if 128 <? epr_PrefixLen c then
            Some (Errorf "ExtraPrefixRequest.PrefixLen should be positive number >=1 and <=32 for IPv6 %v")
          else None
      end
  end.

(** ** What the checks accept *)
Definition route_ok (r : Route) : Prop := is_Some (ParseCIDR (route_Prefix r)).

Lemma ParseCIDR_empty : ParseCIDR "" = None.
Proof. done. Qed.

Lemma check_routes_None routes : check_routes routes = None ↔ Forall route_ok routes.
Proof.
  induction routes as [|r routes IH]; simpl; [done|]. unfold route_ok at 1.
  rewrite list.Forall_cons, <-IH. unfold route_ok. case_decide as E; [|by destruct (ParseCIDR _); naive_solver].
  rewrite E, ParseCIDR_empty. split; [done|]. intros [[? ?] _]; done.
Qed.

Lemma check_neighbors_None nbs : check_neighbors nbs = None ↔ Forall (λ n, nb_Ip n ≠ "") nbs.
Proof.
  induction nbs as [|n nbs IH]; simpl; [done|]. rewrite list.Forall_cons, <-IH.
  case_decide; naive_solver.
Qed.

Lemma ctx_IsComplete_None c :
  ctx_IsComplete c = None ↔
  ∃ c', c = Some c' ∧ Forall route_ok (ctx_Routes c') ∧ Forall (λ n, nb_Ip n ≠ "") (ctx_IpNeighbors c').
Proof.
  destruct c as [c|]; simpl; [|naive_solver].
  destruct (check_routes (ctx_Routes c)) eqn:E; split.
  - done.
  - intros (c' & [= <-] & H1 & _). apply check_routes_None in H1. congruence.
  - intros H. exists c. by rewrite <-check_routes_None, <-check_neighbors_None.
  - intros (c' & [= <-] & _ & H2). by apply check_neighbors_None.
Qed.
