(* ===== verification/Apis.v ===== *)
(** * The message types of the control plane and their helpers

    controlplane/pkg/apis: local and remote connections and mechanisms,
    cross connects, network service requests, the registry messages, and the
    [NSMConnection] and [NSMRequest] interfaces with their two
    implementations each.  A nil pointer is [None]; a nil [Parameters] map is
    told from an empty one because the code does; a nil slice or label map is
    the empty one.  Messages are values: an operation that writes a field
    returns the new message. *)
From S2P Require Import Prelude GoStrings GoNet ConnectionContext.
Local Open Scope go_scope.

(** ** Local connections (apis/local/connection) *)
Inductive LocalMechanismType :=
  DEFAULT_INTERFACE | KERNEL_INTERFACE | VHOST_INTERFACE | MEM_INTERFACE | SRIOV_INTERFACE | HW_INTERFACE.

Inductive ConnState := State_UP | State_DOWN.

#[global] Instance LocalMechanismType_eq_dec : EqDecision LocalMechanismType.
Proof. solve_decision. Defined.
#[global] Instance ConnState_eq_dec : EqDecision ConnState.
Proof. solve_decision. Defined.

Definition NetNsInodeKey : string := "netnsInode".
Definition InterfaceNameKey : string := "name".
Definition InterfaceDescriptionKey : string := "description".
Definition LinuxIfMaxLength : nat := 15.
Definition SocketFilename : string := "socketfile".
Definition Master : string := "master".
Definition Slave : string := "slave".
Definition Workspace_key : string := "workspace".
Definition MemifSocket : string := "memif.sock".

Record LocalMechanism := mkLocalMechanism {
  lm_Type : LocalMechanismType;
  lm_Parameters : option (gmap string string)
}.

Record LocalConnection := mkLocalConnection {
  lc_Id : string;
  lc_NetworkService : string;
  lc_Mechanism : option LocalMechanism;
  lc_Context : option ConnectionContext;
  lc_Labels : gmap string string;
  lc_State : ConnState
}.

#[global] Instance LocalMechanism_eq_dec : EqDecision LocalMechanism.
Proof. solve_decision. Defined.
#[global] Instance LocalConnection_eq_dec : EqDecision LocalConnection.
Proof. solve_decision. Defined.

(** [Mechanism.IsValid] *)
Definition lm_IsValid (m : option LocalMechanism) : option error :=
  match m with
  | None => Some (Errorf "Mechanism cannot be nil")
  | Some m =>
  match lm_Parameters m with
  | None => Some (Errorf "Mechanism.Parameters cannot be nil: %v")
  | Some ps =>
      let mem :=
        if decide (lm_Type m = MEM_INTERFACE) then
          match ps !! InterfaceNameKey with
          | None => Some (Errorf "Mechanism.Type %s Mechanism.Parameters[%s] cannot be empty")
          | Some _ => None
          end
        else None in
      if decide (lm_Type m = KERNEL_INTERFACE) then
        match ps !! NetNsInodeKey with
        | None => Some (Errorf "Mechanism.Type %s requires Mechanism.Parameters[%s] for network namespace")
        | Some inode =>
            match ParseUint inode 64 with
            | None => Some (Errorf "Mechanism.Parameters[%s] must be an unsigned int, instead was: %s: %v")
            | Some _ =>
                match ps !! InterfaceNameKey with
                | None => Some (Errorf "Mechanism.Type %s Mechanism.Parameters[%s] cannot be empty")
                | Some iface =>
                    if (LinuxIfMaxLength <? String.length iface)%nat then
                      Some (Errorf "Mechanism.Type %s Mechanism.Parameters[%s]: %s may not exceed %d characters")
                    else mem
                end
            end
        end
      else mem
  end
  end.

(** [Connection.IsValid] *)
Definition lc_IsValid (c : option LocalConnection) : option error :=
  match c with
  | None => Some (Errorf "Connection cannot be nil")
  | Some c =>
      if decide (lc_NetworkService c = "") then
        Some (Errorf "Connection.NetworkService cannot be empty: %v")
      else match lc_Mechanism c with
      | None => None
      | Some m => Wrapf "Invalid Mechanism in %v: %s" <$> lm_IsValid (Some m)
      end
  end.

Definition lc_SetId (c : LocalConnection) (id : string) : LocalConnection :=
  mkLocalConnection id (lc_NetworkService c) (lc_Mechanism c) (lc_Context c) (lc_Labels c) (lc_State c).
Definition lc_SetContext (c : LocalConnection) (ctx : option ConnectionContext) : LocalConnection :=
  mkLocalConnection (lc_Id c) (lc_NetworkService c) (lc_Mechanism c) ctx (lc_Labels c) (lc_State c).
Definition lc_SetNetworkServiceName (c : LocalConnection) (ns : string) : LocalConnection :=
  mkLocalConnection (lc_Id c) ns (lc_Mechanism c) (lc_Context c) (lc_Labels c) (lc_State c).
Definition lc_set_Mechanism (c : LocalConnection) (m : option LocalMechanism) : LocalConnection :=
  mkLocalConnection (lc_Id c) (lc_NetworkService c) m (lc_Context c) (lc_Labels c) (lc_State c).
Definition lc_set_State (c : LocalConnection) (s : ConnState) : LocalConnection :=
  mkLocalConnection (lc_Id c) (lc_NetworkService c) (lc_Mechanism c) (lc_Context c) (lc_Labels c) s.
Definition lc_GetNetworkServiceEndpointName (c : LocalConnection) : string := "".

(** [Connection.UpdateContext]: the new context stays in place on error. *)
Definition lc_UpdateContext (c : LocalConnection) (newContext : option ConnectionContext) :
    LocalConnection * option error :=
  let oldCtx := lc_Context c in
  let c := lc_SetContext c newContext in
  match lc_IsValid (Some c) with
  | Some e => (c, Some e)
  | None => (c, ctx_MeetsRequirements (lc_Context c) oldCtx)
  end.

(** [Connection.IsComplete] *)
Definition lc_IsComplete (c : option LocalConnection) : option error :=
  match lc_IsValid c, c with
  | Some e, _ => Some e
  | None, None => None
  | None, Some c =>
      if decide (lc_Id c = "") then Some (Errorf "Connection.Id cannot be empty: %v")
      else ctx_IsComplete (lc_Context c)
  end.

(** ** Local mechanisms (mechanism_helpers.go) *)

(** [NewMechanism]; [currentNS] is the answer of [tools.GetCurrentNS]. *)
Definition NewMechanism (currentNS : result string) (t : LocalMechanismType) (name description : string) :
    result LocalMechanism :=
  match currentNS with
  | Err e => Err e
  | Ok inodeNum =>
      let rv := mkLocalMechanism t (Some (list_to_map [
                  (InterfaceNameKey, name);
                  (InterfaceDescriptionKey, description);
                  (SocketFilename, path_Join [name; MemifSocket]);
                  (NetNsInodeKey, inodeNum)])) in
      match lm_IsValid (Some rv) with
      | Some e => Err e
      | None => Ok rv
      end
  end.

Definition lm_IsMemif (m : option LocalMechanism) : bool :=
  match m with None => false | Some m => bool_decide (lm_Type m = MEM_INTERFACE) end.
Definition lm_IsKernelInterface (m : option LocalMechanism) : bool :=
  match m with None => false | Some m => bool_decide (lm_Type m = KERNEL_INTERFACE) end.

(** The string getters: the empty string for a nil mechanism, a nil map or a
    missing key. *)
Definition lm_param (key : string) (m : option LocalMechanism) : string :=
  match m with
  | None => ""
  | Some m => match lm_Parameters m with None => "" | Some ps => map_get ps key end
  end.
Definition lm_GetSocketFilename := lm_param SocketFilename.
Definition lm_GetInterfaceName := lm_param InterfaceNameKey.
Definition lm_GetNetNsInode := lm_param NetNsInodeKey.
Definition lm_GetDescription := lm_param InterfaceDescriptionKey.
Definition lm_GetWorkspace := lm_param Workspace_key.

(** [NetNsFileName]; [resolve] is [fs.ResolvePodNsByInode]. *)
Definition lm_NetNsFileName (resolve : Z → result string) (m : option LocalMechanism) : result string :=
  match m with
  | None => Err (Errorf "Mechanism cannot be nil")
  | Some m =>
      match lm_Parameters m with
      | None => Err (Errorf "Mechanism.Parameters cannot be nil: %v")
      | Some ps =>
          match ps !! NetNsInodeKey with
          | None => Err (Errorf "Mechanism.Type %s requires Mechanism.Parameters[%s] for network namespace")
          | Some inode =>
              match ParseUint inode 64 with
              | None => Err (Errorf "Mechanism.Parameters[%s] must be an unsigned int, instead was: %s: %v")
              | Some inodeNum =>
                  match resolve inodeNum with
                  | Err e => Err (Wrapf "No file found in /proc/*/ns/net with inode %d: %v" e)
                  | Ok filename => Ok filename
                  end
              end
          end
      end
  end.

(** ** Remote connections (apis/remote/connection) *)
Inductive RemoteMechanismType :=
  NONE | VXLAN | VXLAN_GPE | GRE | SRV6 | MPLSoEthernet | MPLSoGRE | MPLSoUDP.

#[global] Instance RemoteMechanismType_eq_dec : EqDecision RemoteMechanismType.
Proof. solve_decision. Defined.

Definition VXLANSrcIP : string := "src_ip".
Definition VXLANDstIP : string := "dst_ip".
Definition VXLANVNI : string := "vni".

Record RemoteMechanism := mkRemoteMechanism {
  rm_Type : RemoteMechanismType;
  rm_Parameters : option (gmap string string)
}.

Record RemoteConnection := mkRemoteConnection {
  rc_Id : string;
  rc_NetworkService : string;
  rc_Mechanism : option RemoteMechanism;
  rc_Context : option ConnectionContext;
  rc_Labels : gmap string string;
  rc_SourceNetworkServiceManagerName : string;
  rc_DestinationNetworkServiceManagerName : string;
  rc_NetworkServiceEndpointName : string;
  rc_State : ConnState
}.

#[global] Instance RemoteMechanism_eq_dec : EqDecision RemoteMechanism.
Proof. solve_decision. Defined.
#[global] Instance RemoteConnection_eq_dec : EqDecision RemoteConnection.
Proof. solve_decision. Defined.

Definition getIPParameter (m : option RemoteMechanism) (name : string) : result string :=
  match m with
  | None => Err (Errorf "Mechanism cannot be nil")
  | Some m =>
      match rm_Parameters m with
      | None => Err (Errorf "Mechanism.Parameters cannot be nil: %v")
      | Some ps =>
          match ps !! name with
          | None => Err (Errorf "Mechanism.Type %s requires Mechanism.Parameters[%s] for the VXLAN tunnel")
          | Some ip =>
              match ParseIP ip with
              | [] => Err (Errorf "Mechanism.Parameters[%s] must be a valid IPv4 or IPv6 address, instead was: %s: %v")
              | _ => Ok ip
              end
          end
      end
  end.
Definition rm_SrcIP (m : option RemoteMechanism) : result string := getIPParameter m VXLANSrcIP.
Definition rm_DstIP (m : option RemoteMechanism) : result string := getIPParameter m VXLANDstIP.

Definition rm_VNI (m : option RemoteMechanism) : result Z :=
  match m with
  | None => Err (Errorf "Mechanism cannot be nil")
  | Some m =>
      match rm_Parameters m with
      | None => Err (Errorf "Mechanism.Parameters cannot be nil: %v")
      | Some ps =>
          match ps !! VXLANVNI with
          | None => Err (Errorf "Mechanism.Type %s requires Mechanism.Parameters[%s]")
          | Some vxlanvni =>
              match ParseUint vxlanvni 24 with
              | None => Err (Errorf "Mechanism.Parameters[%s] must be a valid 24-bit unsigned integer, instead was: %s: %v")
              | Some vni => Ok vni
              end
          end
      end
  end.

(** [Mechanism.isValid] *)
Definition rm_isValid (m : option RemoteMechanism) : option error :=
  match m with
  | None => Some (Errorf "Mechanism cannot be nil")
  | Some m' =>
      match rm_Parameters m' with
      | None => Some (Errorf "Mechanism.Parameters cannot be nil: %v")
      | Some _ =>
          if decide (rm_Type m' = VXLAN) then
            let fmt := "Mechanism.Type %s requires Mechanism.Parameters[%s] for VXLAN tunnel, caused by: %+v" in
            match rm_SrcIP m with
            | Err e => Some (Wrapf fmt e)
            | Ok _ =>
                match rm_DstIP m with
                | Err e => Some (Wrapf fmt e)
                | Ok _ => match rm_VNI m with Err e => Some (Wrapf fmt e) | Ok _ => None end
                end
            end
          else None
      end
  end.

(** [Connection.IsValid] *)
Definition rc_IsValid (c : option RemoteConnection) : option error :=
  match c with
  | None => Some (Errorf "Connection cannot be nil")
  | Some c =>
      if decide (rc_NetworkService c = "") then
        Some (Errorf "Connection.NetworkService cannot be empty: %v")
      else match rc_Mechanism c with
      | None => None
      | Some m => Wrapf "Invalid Mechanism in %v: %s" <$> rm_isValid (Some m)
      end
  end.

Definition rc_SetId (c : RemoteConnection) (id : string) : RemoteConnection :=
  mkRemoteConnection id (rc_NetworkService c) (rc_Mechanism c) (rc_Context c) (rc_Labels c)
    (rc_SourceNetworkServiceManagerName c) (rc_DestinationNetworkServiceManagerName c)
    (rc_NetworkServiceEndpointName c) (rc_State c).
Definition rc_SetContext (c : RemoteConnection) (ctx : option ConnectionContext) : RemoteConnection :=
  mkRemoteConnection (rc_Id c) (rc_NetworkService c) (rc_Mechanism c) ctx (rc_Labels c)
    (rc_SourceNetworkServiceManagerName c) (rc_DestinationNetworkServiceManagerName c)
    (rc_NetworkServiceEndpointName c) (rc_State c).
Definition rc_SetNetworkServiceName (c : RemoteConnection) (ns : string) : RemoteConnection :=
  mkRemoteConnection (rc_Id c) ns (rc_Mechanism c) (rc_Context c) (rc_Labels c)
    (rc_SourceNetworkServiceManagerName c) (rc_DestinationNetworkServiceManagerName c)
    (rc_NetworkServiceEndpointName c) (rc_State c).
Definition rc_set_Mechanism (c : RemoteConnection) (m : option RemoteMechanism) : RemoteConnection :=
  mkRemoteConnection (rc_Id c) (rc_NetworkService c) m (rc_Context c) (rc_Labels c)
    (rc_SourceNetworkServiceManagerName c) (rc_DestinationNetworkServiceManagerName c)
    (rc_NetworkServiceEndpointName c) (rc_State c).
Definition rc_set_State (c : RemoteConnection) (s : ConnState) : RemoteConnection :=
  mkRemoteConnection (rc_Id c) (rc_NetworkService c) (rc_Mechanism c) (rc_Context c) (rc_Labels c)
    (rc_SourceNetworkServiceManagerName c) (rc_DestinationNetworkServiceManagerName c)
    (rc_NetworkServiceEndpointName c) s.

(** [Connection.UpdateContext]: the old context comes back when the
    connection itself is not valid. *)
Definition rc_UpdateContext (c : RemoteConnection) (newContext : option ConnectionContext) :
    RemoteConnection * option error :=
  let oldCtx := rc_Context c in
  let c := rc_SetContext c newContext in
  match rc_IsValid (Some c) with
  | Some e => (rc_SetContext c oldCtx, Some e)
  | None => (c, ctx_MeetsRequirements (rc_Context c) oldCtx)
  end.

(** [Connection.IsComplete] *)
Definition rc_IsComplete (c : option RemoteConnection) : option error :=
  match rc_IsValid c, c with
  | Some e, _ => Some e
  | None, None => None
  | None, Some c =>
      if decide (rc_Id c = "") then Some (Errorf "Connection.Id cannot be empty: %v")
      else match rc_Context c with
      | None => Some (Errorf "Connection.Context cannot be nil: %v")
      | Some _ => None
      end
  end.

(** ** The unified connection interface (apis/nsm) *)
Inductive NSMConnection :=
  | LocalConn (c : LocalConnection)
  | RemoteConn (c : RemoteConnection).

#[global] Instance NSMConnection_eq_dec : EqDecision NSMConnection.
Proof. solve_decision. Defined.

Definition nc_IsValid (c : NSMConnection) : option error :=
  match c with LocalConn c => lc_IsValid (Some c) | RemoteConn c => rc_IsValid (Some c) end.
Definition nc_SetId (c : NSMConnection) (id : string) : NSMConnection :=
  match c with LocalConn c => LocalConn (lc_SetId c id) | RemoteConn c => RemoteConn (rc_SetId c id) end.
Definition nc_GetNetworkService (c : NSMConnection) : string :=
  match c with LocalConn c => lc_NetworkService c | RemoteConn c => rc_NetworkService c end.
Definition nc_GetContext (c : NSMConnection) : option ConnectionContext :=
  match c with LocalConn c => lc_Context c | RemoteConn c => rc_Context c end.
Definition nc_UpdateContext (c : NSMConnection) (ctx : option ConnectionContext) :
    NSMConnection * option error :=
  match c with
  | LocalConn c => let '(c, e) := lc_UpdateContext c ctx in (LocalConn c, e)
  | RemoteConn c => let '(c, e) := rc_UpdateContext c ctx in (RemoteConn c, e)
  end.
Definition nc_SetContext (c : NSMConnection) (ctx : option ConnectionContext) : NSMConnection :=
  match c with
  | LocalConn c => LocalConn (lc_SetContext c ctx)
  | RemoteConn c => RemoteConn (rc_SetContext c ctx)
  end.
Definition nc_GetId (c : NSMConnection) : string :=
  match c with LocalConn c => lc_Id c | RemoteConn c => rc_Id c end.
Definition nc_IsComplete (c : NSMConnection) : option error :=
  match c with LocalConn c => lc_IsComplete (Some c) | RemoteConn c => rc_IsComplete (Some c) end.
Definition nc_GetLabels (c : NSMConnection) : gmap string string :=
  match c with LocalConn c => lc_Labels c | RemoteConn c => rc_Labels c end.
Definition nc_GetNetworkServiceEndpointName (c : NSMConnection) : string :=
  match c with
  | LocalConn c => lc_GetNetworkServiceEndpointName c
  | RemoteConn c => rc_NetworkServiceEndpointName c
  end.
Definition nc_SetNetworkServiceName (c : NSMConnection) (ns : string) : NSMConnection :=
  match c with
  | LocalConn c => LocalConn (lc_SetNetworkServiceName c ns)
  | RemoteConn c => RemoteConn (rc_SetNetworkServiceName c ns)
  end.

(** ** Requests (apis/local/networkservice, apis/remote/networkservice) *)
Record LocalRequest := mkLocalRequest {
  lr_Connection : option LocalConnection;
  lr_MechanismPreferences : list LocalMechanism
}.
Record RemoteRequest := mkRemoteRequest {
  rr_Connection : option RemoteConnection;
  rr_MechanismPreferences : list RemoteMechanism
}.

Definition lr_IsValid (ns : LocalRequest) : option error :=
  match lr_Connection ns with
  | None => Some (Errorf "NetworkServiceRequest.Connection cannot be nil %v")
  | Some c =>
      match lc_IsValid (Some c) with
      | Some e => Some (Wrapf "NetworkServiceRequest.Connection is invalid: %s: %v" e)
      | None =>
          match lr_MechanismPreferences ns with
          | [] => Some (Errorf "NetworkServiceRequest.MechanismPreferences cannot be nil: %v")
          | _ => None
          end
      end
  end.
Definition rr_IsValid (ns : RemoteRequest) : option error :=
  match rr_Connection ns with
  | None => Some (Errorf "NetworkServiceRequest.Connection cannot be nil %v")
  | Some c =>
      match rc_IsValid (Some c) with
      | Some e => Some (Wrapf "NetworkServiceRequest.Connection is invalid: %s: %v" e)
      | None =>
          match rr_MechanismPreferences ns with
          | [] => Some (Errorf "NetworkServiceRequest.MechanismPreferences cannot be nil: %v")
          | _ => None
          end
      end
  end.

Inductive NSMRequest :=
  | LocalReq (r : LocalRequest)
  | RemoteReq (r : RemoteRequest).

Definition nr_IsValid (r : NSMRequest) : option error :=
  match r with LocalReq r => lr_IsValid r | RemoteReq r => rr_IsValid r end.
Definition nr_IsRemote (r : NSMRequest) : bool :=
  match r with LocalReq _ => false | RemoteReq _ => true end.
Definition nr_GetConnectionId (r : NSMRequest) : string :=
  match r with
  | LocalReq r => default "" (lc_Id <$> lr_Connection r)
  | RemoteReq r => default "" (rc_Id <$> rr_Connection r)
  end.

(** [SetConnection] asserts the type of its argument. *)
Definition nr_SetConnection (r : NSMRequest) (conn : NSMConnection) : outcome NSMRequest :=
  match r, conn with
  | LocalReq r, LocalConn c => Ret (LocalReq (mkLocalRequest (Some c) (lr_MechanismPreferences r)))
  | RemoteReq r, RemoteConn c => Ret (RemoteReq (mkRemoteRequest (Some c) (rr_MechanismPreferences r)))
  | _, _ => Panic "interface conversion"
  end.

(** ** Cross connects (apis/crossconnect) *)
Record CrossConnect := mkCrossConnect {
  xcon_Id : string;
  xcon_Payload : string;
  xcon_Source : option NSMConnection;
  xcon_Destination : option NSMConnection
}.

#[global] Instance CrossConnect_eq_dec : EqDecision CrossConnect.
Proof. solve_decision. Defined.

Definition local_of (c : option NSMConnection) : option LocalConnection :=
  match c with Some (LocalConn c) => Some c | _ => None end.
Definition remote_of (c : option NSMConnection) : option RemoteConnection :=
  match c with Some (RemoteConn c) => Some c | _ => None end.
Definition xcon_GetLocalSource (c : CrossConnect) := local_of (xcon_Source c).
Definition xcon_GetRemoteSource (c : CrossConnect) := remote_of (xcon_Source c).
Definition xcon_GetLocalDestination (c : CrossConnect) := local_of (xcon_Destination c).
Definition xcon_GetRemoteDestination (c : CrossConnect) := remote_of (xcon_Destination c).

Definition xcon_set_Source (c : CrossConnect) (s : option NSMConnection) : CrossConnect :=
  mkCrossConnect (xcon_Id c) (xcon_Payload c) s (xcon_Destination c).
Definition xcon_set_Destination (c : CrossConnect) (d : option NSMConnection) : CrossConnect :=
  mkCrossConnect (xcon_Id c) (xcon_Payload c) (xcon_Source c) d.

(** A check of a part that is skipped when the part is absent. *)
Definition check_part {A} (fmt : string) (check : option A → option error) (c : option A) : option error :=
  match c with
  | None => None
  | Some _ => match check c with Some e => Some (Wrapf fmt e) | None => None end
  end.

(** The first error of a list of checks. *)
Fixpoint first_error (checks : list (option error)) : option error :=
  match checks with
  | [] => None
  | Some e :: _ => Some e
  | None :: checks => first_error checks
  end.

(** [CrossConnect.IsValid] *)
Definition xcon_IsValid (c : option CrossConnect) : option error :=
  match c with
  | None => Some (Errorf "CrossConnect cannot be nil")
  | Some c =>
      first_error [
        (if decide (xcon_Id c = "") then Some (Errorf "CrossConnect.Id cannot be empty: %v") else None);
        (match xcon_Source c with None => Some (Errorf "CrossConnect.Source cannot be nil: %v") | _ => None end);
        check_part "CrossConnect.Source %v invalid: %s" lc_IsValid (xcon_GetLocalSource c);
        check_part "CrossConnect.Source %v invalid: %s" rc_IsValid (xcon_GetRemoteSource c);
        (match xcon_Destination c with None => Some (Errorf "CrossConnect.Destination cannot be nil: %v") | _ => None end);
        check_part "CrossConnect.Destination %v invalid: %s" lc_IsValid (xcon_GetLocalDestination c);
        check_part "CrossConnect.Destination %v invalid: %s" rc_IsValid (xcon_GetRemoteDestination c);
        (if decide (xcon_Payload c = "") then Some (Errorf "CrossConnect.Payload cannot be empty: %v") else None)]
  end.

(** [CrossConnect.IsComplete] *)
Definition xcon_IsComplete (c : option CrossConnect) : option error :=
  match xcon_IsValid c, c with
  | Some e, _ => Some e
  | None, None => None
  | None, Some c =>
      first_error [
        check_part "CrossConnect.Source %v invalid: %s" lc_IsComplete (xcon_GetLocalSource c);
        check_part "CrossConnect.Source %v invalid: %s" rc_IsComplete (xcon_GetRemoteSource c);
        check_part "CrossConnect.Destination %v invalid: %s" lc_IsComplete (xcon_GetLocalDestination c);
        check_part "CrossConnect.Destination %v invalid: %s" rc_IsComplete (xcon_GetRemoteDestination c)]
  end.

(** ** Monitor events (crossconnect.proto, connection.proto)

    The event types have the same three values in the three protocols. *)
Inductive EventType := EVENT_INITIAL_STATE_TRANSFER | EVENT_UPDATE | EVENT_DELETE.
#[global] Instance EventType_eq_dec : EqDecision EventType.
Proof. solve_decision. Defined.

Record CrossConnectEvent := mkCrossConnectEvent {
  xev_Type : EventType;
  xev_CrossConnects : gmap string CrossConnect
}.
Record RemoteConnectionEvent := mkRemoteConnectionEvent {
  rev_Type : EventType;
  rev_Connections : gmap string RemoteConnection
}.
Record LocalConnectionEvent := mkLocalConnectionEvent {
  lev_Type : EventType;
  lev_Connections : gmap string LocalConnection
}.

(** ** Registry messages (apis/registry) *)
Record NetworkServiceEndpoint := mkNetworkServiceEndpoint {
  nse_NetworkServiceName : string;
  nse_Payload : string;
  nse_NetworkServiceManagerName : string;
  nse_EndpointName : string;
  nse_Labels : gmap string string;
  nse_State : string
}.
Record Destination := mkDestination {
  dest_DestinationSelector : gmap string string;
  dest_Weight : Z
}.
Record Match := mkMatch {
  match_SourceSelector : gmap string string;
  match_Routes : list Destination
}.
Record NetworkService := mkNetworkService {
  ns_Name : string;
  ns_Payload : string;
  ns_Matches : list Match
}.
Record NetworkServiceManager := mkNetworkServiceManager {
  nsmgr_Name : string;
  nsmgr_Url : string;
  nsmgr_LastSeen : option Z;
  nsmgr_State : string
}.
Record NSERegistration := mkNSERegistration {
  reg_NetworkService : option NetworkService;
  reg_NetworkServiceManager : option NetworkServiceManager;
  reg_NetworkserviceEndpoint : option NetworkServiceEndpoint
}.
Record FindNetworkServiceResponse := mkFindNetworkServiceResponse {
  find_Payload : string;
  find_NetworkService : option NetworkService;
  find_NetworkServiceManagers : gmap string NetworkServiceManager;
  find_NetworkServiceEndpoints : list NetworkServiceEndpoint
}.

#[global] Instance NetworkServiceEndpoint_eq_dec : EqDecision NetworkServiceEndpoint.
Proof. solve_decision. Defined.
#[global] Instance Destination_eq_dec : EqDecision Destination.
Proof. solve_decision. Defined.
#[global] Instance Match_eq_dec : EqDecision Match.
Proof. solve_decision. Defined.
#[global] Instance NetworkService_eq_dec : EqDecision NetworkService.
Proof. solve_decision. Defined.
#[global] Instance NetworkServiceManager_eq_dec : EqDecision NetworkServiceManager.
Proof. solve_decision. Defined.
#[global] Instance NSERegistration_eq_dec : EqDecision NSERegistration.
Proof. solve_decision. Defined.

(** ** What the checks accept *)
Lemma first_error_None l : first_error l = None ↔ Forall (λ x, x = None) l.
Proof.
  induction l as [|[e|] l IH]; simpl; [done| |]; rewrite list.Forall_cons; naive_solver.
Qed.

Lemma check_part_None {A} fmt check (c : option A) :
  check_part fmt check c = None ↔ ∀ x, c = Some x → check c = None.
Proof. unfold check_part. destruct c as [x|]; [destruct (check _)|]; naive_solver. Qed.

Lemma lc_IsComplete_valid c : lc_IsComplete c = None → lc_IsValid c = None.
Proof. unfold lc_IsComplete. by destruct (lc_IsValid c). Qed.
Lemma rc_IsComplete_valid c : rc_IsComplete c = None → rc_IsValid c = None.
Proof. unfold rc_IsComplete. by destruct (rc_IsValid c). Qed.
#[export] Hint Resolve lc_IsComplete_valid rc_IsComplete_valid : nsm.

Lemma rm_isValid_vxlan ps :
  rm_isValid (Some (mkRemoteMechanism VXLAN (Some ps))) = None ↔
  ∃ src dst vni n, ps !! VXLANSrcIP = Some src ∧ ps !! VXLANDstIP = Some dst ∧ ps !! VXLANVNI = Some vni ∧
    ParseIP src ≠ [] ∧ ParseIP dst ≠ [] ∧ ParseUint vni 24 = Some n.
Proof.
  unfold rm_isValid, rm_SrcIP, rm_DstIP, rm_VNI, getIPParameter. cbn [rm_Parameters rm_Type].
  rewrite decide_True by done.
  destruct (ps !! VXLANSrcIP) as [src|]; [|naive_solver].
  destruct (ParseIP src) eqn:Es; [naive_solver|].
  destruct (ps !! VXLANDstIP) as [dst|]; [|naive_solver].
  destruct (ParseIP dst) eqn:Ed; [naive_solver|].
  destruct (ps !! VXLANVNI) as [vni|]; [|naive_solver].
  destruct (ParseUint vni 24) eqn:Ev; [|naive_solver].
  split; [|done]. intros _. exists src, dst, vni, z1. rewrite Es, Ed. naive_solver.
Qed.

Lemma lm_IsValid_kernel ps :
  lm_IsValid (Some (mkLocalMechanism KERNEL_INTERFACE (Some ps))) = None ↔
  ∃ inode n iface, ps !! NetNsInodeKey = Some inode ∧ ParseUint inode 64 = Some n ∧
    ps !! InterfaceNameKey = Some iface ∧ (String.length iface ≤ 15)%nat.
Proof.
  unfold lm_IsValid. cbn [lm_Type lm_Parameters]. rewrite decide_True by done.
  rewrite decide_False by done. destruct (ps !! NetNsInodeKey) as [inode|]; [|naive_solver].
  destruct (ParseUint inode 64) as [n|] eqn:En;
    [|split; [done|intros (? & ? & ? & [= <-] & ? & _); congruence]].
  destruct (ps !! InterfaceNameKey) as [iface|];
    [|split; [done|by intros (? & ? & ? & _ & _ & ? & _)]].
  destruct (Nat.ltb_spec LinuxIfMaxLength (String.length iface)) as [Hl|Hl]; unfold LinuxIfMaxLength in Hl.
  - split; [done|]. intros (? & ? & ? & _ & _ & [= ->] & ?). lia.
  - split; [|done]. intros _. by exists inode, n, iface.
Qed.

Lemma xcon_complete_intro id payload src dst :
  id ≠ "" → payload ≠ "" → nc_IsComplete src = None → nc_IsComplete dst = None →
  xcon_IsComplete (Some (mkCrossConnect id payload (Some src) (Some dst))) = None.
Proof.
  intros Hid Hp Hs Hd. unfold xcon_IsComplete.
  assert (xcon_IsValid (Some (mkCrossConnect id payload (Some src) (Some dst))) = None) as ->;
    [unfold xcon_IsValid|]; rewrite first_error_None, !list.Forall_cons, !check_part_None;
    cbn [xcon_Id xcon_Payload xcon_Source xcon_Destination]; rewrite ?decide_False by done;
    unfold xcon_GetLocalSource, xcon_GetRemoteSource, xcon_GetLocalDestination, xcon_GetRemoteDestination;
    destruct src, dst; cbn [xcon_Source xcon_Destination local_of remote_of nc_IsComplete] in *;
    split_and!; try done; intros ? [= <-]; auto with nsm.
Qed.

(** A connection whose context was replaced without error is complete. *)
Lemma nc_UpdateContext_complete c ctx c' : nc_UpdateContext c ctx = (c', None) → nc_GetId c ≠ "" →
  nc_IsComplete c' = None ∧ nc_GetId c' = nc_GetId c ∧ nc_GetContext c' = ctx ∧
  ctx_MeetsRequirements ctx (nc_GetContext c) = None.
Proof.
  assert (∀ a b, ctx_MeetsRequirements a b = None → is_Some a ∧ ctx_IsComplete a = None) as Hc.
  { intros [a|] b; [|done]. unfold ctx_MeetsRequirements. destruct (ctx_IsComplete (Some a)); done. }
  destruct c as [c|c]; cbn [nc_UpdateContext nc_GetId]; intros E Hid.
  - destruct (lc_UpdateContext c ctx) as [c1 e] eqn:Eu. simplify_eq. unfold lc_UpdateContext in Eu.
    destruct (lc_IsValid _) eqn:Ev in Eu; [done|]. injection Eu as <- Em. destruct (Hc _ _ Em) as [_ Hcc].
    cbn [nc_IsComplete]. unfold lc_IsComplete. rewrite Ev. cbn. rewrite decide_False by done. done.
  - destruct (rc_UpdateContext c ctx) as [c1 e] eqn:Eu. simplify_eq. unfold rc_UpdateContext in Eu.
    destruct (rc_IsValid _) eqn:Ev in Eu; [done|]. injection Eu as <- Em. destruct (Hc _ _ Em) as [[y Hy] _].
    cbn [nc_IsComplete]. unfold rc_IsComplete. rewrite Ev. cbn in *. rewrite decide_False by done.
    by rewrite Hy in *.
Qed.

(** An additional parameter under a key of its own does no harm. *)
Lemma lm_IsValid_workspace t ps w :
  lm_IsValid (Some (mkLocalMechanism t (Some ps))) = None →
  lm_IsValid (Some (mkLocalMechanism t (Some (<[Workspace_key := w]> ps)))) = None.
Proof.
  unfold lm_IsValid. cbn [lm_Type lm_Parameters]. by rewrite !lookup_insert_ne by done.
Qed.
Lemma lc_IsComplete_workspace c t ps w : lc_Mechanism c = Some (mkLocalMechanism t (Some ps)) →
  lc_IsComplete (Some c) = None →
  lc_IsComplete (Some (lc_set_Mechanism c (Some (mkLocalMechanism t (Some (<[Workspace_key := w]> ps)))))) = None.
Proof.
  intros Hm. unfold lc_IsComplete, lc_IsValid. cbn [lc_set_Mechanism lc_Mechanism lc_NetworkService lc_Id lc_Context].
  rewrite Hm. case_decide; [done|].
  destruct (lm_IsValid (Some (mkLocalMechanism t (Some ps)))) eqn:E; [done|].
  by rewrite (lm_IsValid_workspace _ _ _ E).
Qed.

Lemma xcon_complete_elim x : xcon_IsComplete (Some x) = None →
  ∃ src dst, xcon_Id x ≠ "" ∧ xcon_Payload x ≠ "" ∧ xcon_Source x = Some src ∧ xcon_Destination x = Some dst ∧
    nc_IsComplete src = None ∧ nc_IsComplete dst = None.
Proof.
  destruct x as [id payload src dst]. unfold xcon_IsComplete.
  destruct (xcon_IsValid _) eqn:Ev; [done|]. revert Ev. unfold xcon_IsValid.
  rewrite !first_error_None, !list.Forall_cons, !check_part_None.
  unfold xcon_GetLocalSource, xcon_GetRemoteSource, xcon_GetLocalDestination, xcon_GetRemoteDestination.
  cbn [xcon_Id xcon_Payload xcon_Source xcon_Destination].
  intros (H1 & H2 & _ & _ & H3 & _ & _ & H4 & _) (H5 & H6 & H7 & H8 & _).
  destruct src as [src|]; [|done]. destruct dst as [dst|]; [|done]. exists src, dst.
  split_and!; try done; [by destruct (decide (id = ""))|by destruct (decide (payload = ""))| |].
  - destruct src; [by apply (H5 c)|by apply (H6 c)].
  - destruct dst; [by apply (H7 c)|by apply (H8 c)].
Qed.

(** A cross connect is complete exactly when it has an id, a payload, and
    a source and a destination that are both complete connections. *)
Lemma xcon_IsComplete_iff c :
  xcon_IsComplete c = None ↔
  ∃ x src dst, c = Some x ∧ xcon_Id x ≠ "" ∧ xcon_Payload x ≠ "" ∧
    xcon_Source x = Some src ∧ xcon_Destination x = Some dst ∧
    nc_IsComplete src = None ∧ nc_IsComplete dst = None.
Proof.
  split.
  - destruct c as [x|]; [|done]. intros (src & dst & ?)%xcon_complete_elim. by exists x, src, dst.
  - intros ([id payload s d] & src & dst & -> & Hid & Hp & Hs & Hd & Hcs & Hcd). cbn in *. subst.
    by apply xcon_complete_intro.
Qed.
