(* ===== verification/Vni.v ===== *)
(** * The VNI allocator (controlplane/pkg/vni/vni.go)

    A VXLAN tunnel between two managers needs a network identifier both ends
    agree on.  Each end allocates from the numbers of one parity: odd when
    its own address is the smaller one. *)
From S2P Require Import Prelude GoStrings GoNet Apis.

Record vniAllocator := mkVniAllocator { lastVni : gmap string Z (* uint64 *) }.

Definition NewVniAllocator : vniAllocator := mkVniAllocator ∅.

(** Byte by byte over the first address; the second may be too short. *)
Fixpoint compareIps (ip1 ip2 : IP) : outcome Z :=
  match ip1, ip2 with
  | [], _ => Ret 0
  | _ :: _, [] => Panic "index out of range"
  | value :: ip1, value2 :: ip2 =>
      if value <? value2 then Ret (-1)
      else if value2 <? value then Ret 1
      else compareIps ip1 ip2
  end.

Definition Vni (a : vniAllocator) (local_ip remote_ip : string) : outcome (vniAllocator * Z) :=
  let lip := ParseIP local_ip in
  let rip := ParseIP remote_ip in
  let last := default 0 (lastVni a !! remote_ip) in
  last' ← (if last =? 0 then
             c ← compareIps lip rip;
             Ret (if c <? 0 then 1 else last)
           else Ret last);
  let m := <[remote_ip := wrap_u64 (last' + 2)]> (lastVni a) in
  Ret (mkVniAllocator m, default 0 (m !! remote_ip)).

(** [n] allocations for one remote address, and the identifiers they gave. *)
Fixpoint Vni_run (n : nat) (a : vniAllocator) (local_ip remote_ip : string) :
    outcome (vniAllocator * list Z) :=
  match n with
  | O => Ret (a, [])
  | S n =>
      '(a, v) ← Vni a local_ip remote_ip;
      '(a, vs) ← Vni_run n a local_ip remote_ip;
      Ret (a, v :: vs)
  end.

(** ** Comparison is lexicographic order *)
Lemma compareIps_total ip1 ip2 :
  length ip1 = length ip2 → ∃ c, compareIps ip1 ip2 = Ret c ∧ (c = -1 ∨ c = 0 ∨ c = 1) ∧ (c = 0 ↔ ip1 = ip2).
Proof.
  revert ip2; induction ip1 as [|x ip1 IH]; intros [|y ip2] Hl; try done; simpl.
  { exists 0. naive_solver. }
  destruct (Z.ltb_spec x y); [exists (-1); naive_solver lia|].
  destruct (Z.ltb_spec y x); [exists 1; naive_solver lia|].
  assert (x = y) as -> by lia. destruct (IH ip2) as (c & -> & Hc & Heq); [naive_solver|].
  exists c. naive_solver.
Qed.

Lemma compareIps_sym ip1 ip2 c :
  length ip1 = length ip2 → compareIps ip1 ip2 = Ret c → compareIps ip2 ip1 = Ret (- c).
Proof.
  revert ip2; induction ip1 as [|x ip1 IH]; intros [|y ip2] Hl; try done; simpl.
  { intros [= <-]. done. }
  destruct (Z.ltb_spec x y), (Z.ltb_spec y x); try lia; try (intros [= <-]; done).
  apply IH. naive_solver.
Qed.

Lemma cons_fmap_seq (f g : nat → Z) x n :
  x = f 0%nat → (∀ i, g i = f (S i)) → x :: (g <$> seq 0 n) = f <$> seq 0 (S n).
Proof.
  intros -> Hg. cbn [seq]. rewrite fmap_cons. f_equal. rewrite <-fmap_S_seq, <-list_fmap_compose.
  apply list_fmap_ext. intros i y _. apply Hg.
Qed.

(** ** What an allocator hands out

    The first number for a remote address: 3 when the local address is the
    smaller one and 2 otherwise. *)
Definition first_vni (c : Z) : Z := if c <? 0 then 3 else 2.

Lemma Vni_first a l r c :
  default 0 (lastVni a !! r) = 0 → compareIps (ParseIP l) (ParseIP r) = Ret c →
  Vni a l r = Ret (mkVniAllocator (<[r := first_vni c]> (lastVni a)), first_vni c).
Proof.
  intros Ha Hc. unfold Vni. rewrite Ha, Hc. cbn. unfold first_vni.
  destruct (c <? 0); cbn; by rewrite lookup_insert_eq.
Qed.

Lemma Vni_next a l r v :
  lastVni a !! r = Some v → 0 < v → v + 2 < 2 ^ 64 →
  Vni a l r = Ret (mkVniAllocator (<[r := v + 2]> (lastVni a)), v + 2).
Proof.
  intros Ha Hv Hb. unfold Vni. assert (default 0 (lastVni a !! r) = v) as -> by by rewrite Ha.
  rewrite (proj2 (Z.eqb_neq v 0)) by lia. cbn [mbind outcome_bind].
  rewrite wrap_u64_small by lia. by rewrite lookup_insert_eq.
Qed.

Lemma Vni_run_next n a l r v :
  lastVni a !! r = Some v → 0 < v → v + 2 * Z.of_nat n < 2 ^ 64 →
  ∃ a', Vni_run n a l r = Ret (a', (λ i, v + 2 * (Z.of_nat i + 1)) <$> seq 0 n) ∧
        lastVni a' !! r = Some (v + 2 * Z.of_nat n).
Proof.
  revert a v; induction n as [|n IH]; intros a v Ha Hv Hb.
  { exists a. split; [done|]. rewrite Ha. f_equal. lia. }
  cbn [Vni_run]. rewrite (Vni_next a l r v Ha Hv) by lia. cbn [mbind outcome_bind].
  destruct (IH (mkVniAllocator (<[r := v + 2]> (lastVni a))) (v + 2)) as (a' & -> & Ha').
  - apply lookup_insert_eq.
  - lia.
  - lia.
  - exists a'. cbn [mbind outcome_bind]. split; [|rewrite Ha'; f_equal; lia].
    do 2 f_equal. apply cons_fmap_seq; intros; lia.
Qed.

(** The numbers of a new allocator: all of one parity, rising by two. *)
Lemma Vni_run_new n l r c :
  compareIps (ParseIP l) (ParseIP r) = Ret c → 2 * Z.of_nat n + 3 < 2 ^ 64 →
  ∃ a', Vni_run n NewVniAllocator l r = Ret (a', (λ i, first_vni c + 2 * Z.of_nat i) <$> seq 0 n).
Proof.
  intros Hc Hb. destruct n as [|n]; [by exists NewVniAllocator|].
  assert (first_vni c = 2 ∨ first_vni c = 3) as Hf by (unfold first_vni; destruct (c <? 0); lia).
  cbn [Vni_run]. rewrite (Vni_first NewVniAllocator l r c) by done. cbn [mbind outcome_bind].
  destruct (Vni_run_next n (mkVniAllocator (<[r := first_vni c]> ∅)) l r (first_vni c)) as (a' & E & _).
  - apply lookup_insert_eq.
  - lia.
  - lia.
  - change (lastVni NewVniAllocator) with (∅ : gmap string Z). rewrite E. cbn [mbind outcome_bind].
    exists a'. do 2 f_equal. apply cons_fmap_seq; intros; lia.
Qed.

(** ** Properties *)

(** C35: two managers that allocate identifiers for the tunnels between them,
    each with its own allocator and its own address as local address, never
    allocate the same identifier, and neither allocates one twice. *)
Theorem vni_two_managers_disjoint ip1 ip2 n1 n2 :
  length (ParseIP ip1) = length (ParseIP ip2) → ParseIP ip1 ≠ ParseIP ip2 →
  2 * Z.of_nat (n1 + n2) + 3 < 2 ^ 64 →
  ∃ a1 a2 vs1 vs2,
    Vni_run n1 NewVniAllocator ip1 ip2 = Ret (a1, vs1) ∧
    Vni_run n2 NewVniAllocator ip2 ip1 = Ret (a2, vs2) ∧
    length vs1 = n1 ∧ length vs2 = n2 ∧ NoDup (vs1 ++ vs2).
Proof.
  intros Hl Hne Hb. destruct (compareIps_total _ _ Hl) as (c & Hc & Hc01 & Hc0).
  pose proof (compareIps_sym _ _ _ Hl Hc) as Hc'.
  destruct (Vni_run_new n1 ip1 ip2 c Hc) as (a1 & E1); [lia|].
  destruct (Vni_run_new n2 ip2 ip1 (- c) Hc') as (a2 & E2); [lia|].
  eexists a1, a2, _, _. split_and!; [exact E1|exact E2|by rewrite length_fmap, length_seq..|].
  apply NoDup_app. split_and!.
  - apply NoDup_fmap_2; [intros i j; lia|apply NoDup_seq].
  - intros v (i & -> & _)%list_elem_of_fmap (j & E & _)%list_elem_of_fmap.
    unfold first_vni in E. assert (c ≠ 0) by naive_solver.
    destruct (Z.ltb_spec c 0), (Z.ltb_spec (- c) 0); lia.
  - apply NoDup_fmap_2; [intros i j; lia|apply NoDup_seq].
Qed.

(** The identifier stays a valid 24-bit VNI for the first 2^23 - 1
    allocations towards a manager: written as the decimal parameter of a
    remote mechanism, Mechanism.VNI reads it back. *)
Lemma vni_mechanism_roundtrip ip1 ip2 c n i ps :
  compareIps (ParseIP ip1) (ParseIP ip2) = Ret c → (i < n)%nat → Z.of_nat n < 2 ^ 23 →
  ∃ a vs v, Vni_run n NewVniAllocator ip1 ip2 = Ret (a, vs) ∧ vs !! i = Some v ∧
    rm_VNI (Some (mkRemoteMechanism VXLAN (Some (<[VXLANVNI := FormatUint v 10]> ps)))) = Ok v.
Proof.
  intros Hc Hi Hn. destruct (Vni_run_new n ip1 ip2 c Hc) as (a & E); [lia|].
  eexists a, _, (first_vni c + 2 * Z.of_nat i). split; [exact E|]. split.
  { rewrite list_lookup_fmap, lookup_seq_lt by done. done. }
  assert (first_vni c = 2 ∨ first_vni c = 3) as Hf by (unfold first_vni; destruct (c <? 0); lia).
  unfold rm_VNI. cbn [rm_Parameters]. rewrite lookup_insert_eq.
  rewrite ParseUint_FormatUint; [done|..]; lia.
Qed.

(** The parity is fixed by the first local address used with a remote one: a
    later call with a larger local address still gets an odd number, although
    the comment of Vni promises an even one. *)
Lemma Vni_parity_of_first_call :
  ∃ a1 a2, Vni NewVniAllocator "10.0.0.1" "10.0.0.2" = Ret (a1, 3) ∧ Vni a1 "10.0.0.3" "10.0.0.2" = Ret (a2, 5).
Proof.
  eexists _, _. split.
  - apply (Vni_first _ _ _ (-1)); [done|vm_compute; reflexivity].
  - apply (Vni_next _ _ _ 3); [apply lookup_insert_eq|lia|reflexivity].
Qed.

(** A remote address that does not parse makes the comparison read past the
    end of an empty slice. *)
Lemma Vni_unparsable_remote : Vni NewVniAllocator "10.0.0.1" "node-2" = Panic "index out of range".
Proof. vm_compute. reflexivity. Qed.

(** ** Witnesses *)
Lemma vni_two_managers_disjoint_witness :
  ∃ a1 a2 vs1 vs2,
    Vni_run 2 NewVniAllocator "10.0.0.1" "10.0.0.2" = Ret (a1, vs1) ∧
    Vni_run 3 NewVniAllocator "10.0.0.2" "10.0.0.1" = Ret (a2, vs2) ∧
    length vs1 = 2%nat ∧ length vs2 = 3%nat ∧ NoDup (vs1 ++ vs2).
Proof.
  apply (vni_two_managers_disjoint "10.0.0.1" "10.0.0.2" 2 3);
    [vm_compute; reflexivity|vm_compute; discriminate|reflexivity].
Defined.
