(* ===== verification/Selector.v ===== *)
(** * Endpoint selection (controlplane/pkg/selector)

    The [Selector] interface, the round-robin selector, and the selector that
    filters by the match rules of the network service and hands the
    candidates to a round-robin selector.  The elements of an endpoint slice
    are never nil. *)
From S2P Require Import Prelude GoStrings GoNet ConnectionContext Apis.

(** ** The interface (selector.go) *)
Class Selector (S : Type) :=
  SelectEndpoint : S → option LocalConnection → option NetworkService → list NetworkServiceEndpoint →
    outcome (S * option NetworkServiceEndpoint).

(** What a caller of a selector relies on: the answer is one of the endpoints. *)
Class SelectorLaws (S : Type) `{Selector S} :=
  select_member s conn ns endpoints s' e :
    SelectEndpoint s conn ns endpoints = Ret (s', Some e) → e ∈ endpoints.

Definition GetName (ns : option NetworkService) : string := default "" (ns_Name <$> ns).
Definition GetMatches (ns : option NetworkService) : list Match := default [] (ns_Matches <$> ns).

(** ** Round robin (round_robin_selector.go) *)
Record roundRobinSelector := mkRoundRobinSelector { roundRobin : gmap string Z (* int *) }.

Definition NewRoundRobinSelector : roundRobinSelector := mkRoundRobinSelector ∅.

Definition rr_count (rr : roundRobinSelector) (name : string) : Z := default 0 (roundRobin rr !! name).

Definition rr_SelectEndpoint (rr : roundRobinSelector) (requestConnection : option LocalConnection)
    (ns : option NetworkService) (networkServiceEndpoints : list NetworkServiceEndpoint) :
    outcome (roundRobinSelector * option NetworkServiceEndpoint) :=
  match networkServiceEndpoints with
  | [] => Ret (rr, None)
  | _ =>
      let idx := Z.rem (rr_count rr (GetName ns)) (Z.of_nat (length networkServiceEndpoints)) in
      if idx <? 0 then Panic "index out of range"
      else match networkServiceEndpoints !! Z.to_nat idx with
      | None => Panic "index out of range"
      | Some endpoint =>
          Ret (mkRoundRobinSelector
                 (<[GetName ns := wrap_i64 (rr_count rr (GetName ns) + 1)]> (roundRobin rr)),
               Some endpoint)
      end
  end.
#[global] Instance roundRobin_Selector : Selector roundRobinSelector := rr_SelectEndpoint.

(** ** Match rules (match_selector.go) *)

(** Every key of [B] has in [A] the value it has in [B]; a key missing from
    [A] reads as the empty string. *)
Definition isSubset (A B : gmap string string) : bool :=
  if (size A <? size B)%nat then false
  else forallb (λ kv : string * string, bool_decide (map_get A kv.1 = kv.2)) (map_to_list B).

Definition candidates (m : Match) (endpoints : list NetworkServiceEndpoint) : list NetworkServiceEndpoint :=
  mjoin ((λ d, filter (λ e, isSubset (nse_Labels e) (dest_DestinationSelector d) = true) endpoints)
           <$> match_Routes m).

Section match_selector.
Context {R : Type} `{Selector R}.

Record matchSelector := mkMatchSelector { ms_roundRobin : R }.

Fixpoint match_loop (m : matchSelector) (nsLabels : gmap string string) (ns : option NetworkService)
    (networkServiceEndpoints : list NetworkServiceEndpoint) (matches : list Match) :
    outcome (matchSelector * option NetworkServiceEndpoint) :=
  match matches with
  | [] => Ret (m, None)
  | mt :: matches =>
      if negb (isSubset nsLabels (match_SourceSelector mt)) then
        match_loop m nsLabels ns networkServiceEndpoints matches
      else match candidates mt networkServiceEndpoints with
      | [] => match_loop m nsLabels ns networkServiceEndpoints matches
      | nseCandidates =>
          '(r, e) ← SelectEndpoint (ms_roundRobin m) None ns nseCandidates;
          Ret (mkMatchSelector r, e)
      end
  end.

Definition matchEndpoint (m : matchSelector) (nsLabels : gmap string string) (ns : option NetworkService)
    (networkServiceEndpoints : list NetworkServiceEndpoint) :
    outcome (matchSelector * option NetworkServiceEndpoint) :=
  match_loop m nsLabels ns networkServiceEndpoints (GetMatches ns).

Definition match_SelectEndpoint (m : matchSelector) (requestConnection : option LocalConnection)
    (ns : option NetworkService) (networkServiceEndpoints : list NetworkServiceEndpoint) :
    outcome (matchSelector * option NetworkServiceEndpoint) :=
  match GetMatches ns with
  | [] =>
      '(r, e) ← SelectEndpoint (ms_roundRobin m) None ns networkServiceEndpoints;
      Ret (mkMatchSelector r, e)
  | _ => matchEndpoint m (default ∅ (lc_Labels <$> requestConnection)) ns networkServiceEndpoints
  end.
End match_selector.
Arguments matchSelector : clear implicits.
#[global] Instance match_Selector {R} `{Selector R} : Selector (matchSelector R) := match_SelectEndpoint.

Definition NewMatchSelector : matchSelector roundRobinSelector := mkMatchSelector NewRoundRobinSelector.

(** ** Round robin is fair *)

(** [n] selections in a row for one network service and one endpoint list. *)
Fixpoint rr_run (n : nat) (rr : roundRobinSelector) (ns : option NetworkService)
    (endpoints : list NetworkServiceEndpoint) : outcome (roundRobinSelector * list NetworkServiceEndpoint) :=
  match n with
  | O => Ret (rr, [])
  | S n =>
      '(rr, e) ← SelectEndpoint rr None ns endpoints;
      '(rr, es) ← rr_run n rr ns endpoints;
      Ret (rr, match e with Some e => e :: es | None => es end)
  end.

Lemma rr_SelectEndpoint_eq rr conn ns endpoints :
  endpoints ≠ [] → 0 ≤ rr_count rr (GetName ns) →
  ∃ e, endpoints !! Z.to_nat (rr_count rr (GetName ns) `mod` Z.of_nat (length endpoints)) = Some e ∧
    SelectEndpoint rr conn ns endpoints
    = Ret (mkRoundRobinSelector
             (<[GetName ns := wrap_i64 (rr_count rr (GetName ns) + 1)]> (roundRobin rr)), Some e).
Proof.
  intros Hne Hc. assert (0 < Z.of_nat (length endpoints)) by (destruct endpoints; simpl; [done|lia]).
  pose proof (Z.mod_pos_bound (rr_count rr (GetName ns)) (Z.of_nat (length endpoints)) ltac:(done)) as Hm.
  destruct (lookup_lt_is_Some_2 endpoints
    (Z.to_nat (rr_count rr (GetName ns) `mod` Z.of_nat (length endpoints))) ltac:(lia)) as [e He].
  exists e. split; [done|]. change (SelectEndpoint rr) with (rr_SelectEndpoint rr). unfold rr_SelectEndpoint.
  destruct endpoints as [|e0 es]; [done|].
  rewrite Z.rem_mod_nonneg by lia. rewrite (proj2 (Z.ltb_ge _ 0)) by lia. by rewrite He.
Qed.

Lemma rr_run_indices n rr ns endpoints c :
  endpoints ≠ [] → rr_count rr (GetName ns) = c → 0 ≤ c → c + Z.of_nat n < 2 ^ 63 →
  ∃ rr' es, rr_run n rr ns endpoints = Ret (rr', es) ∧ length es = n ∧
    ∀ i, (i < n)%nat →
      es !! i = endpoints !! Z.to_nat ((c + Z.of_nat i) `mod` Z.of_nat (length endpoints)).
Proof.
  intros Hne. revert rr c; induction n as [|n IH]; intros rr c Hrr Hc Hb.
  { exists rr, []. split_and!; [done..|lia]. }
  cbn [rr_run]. destruct (rr_SelectEndpoint_eq rr None ns endpoints Hne ltac:(lia)) as (e & He & ->).
  cbn [mbind outcome_bind]. rewrite Hrr in He |- *. rewrite wrap_i64_small by lia.
  destruct (IH (mkRoundRobinSelector (<[GetName ns := c + 1]> (roundRobin rr))) (c + 1))
    as (rr' & es & -> & Hlen & Hes); [|lia|lia|].
  { unfold rr_count. cbn [roundRobin]. by rewrite lookup_insert_eq. }
  cbn [mbind outcome_bind]. exists rr', (e :: es). split_and!; [done|simpl; lia|].
  intros [|i] Hi; simpl.
  - rewrite Z.add_0_r. done.
  - rewrite Hes by lia. do 2 f_equal. f_equal. lia.
Qed.

Lemma rotation_lookup {A} (l : list A) (k i : nat) :
  (k < length l)%nat → (i < length l)%nat →
  (drop k l ++ take k l) !! i = l !! ((k + i) mod length l)%nat.
Proof.
  intros Hk Hi. destruct (decide (i < length l - k)%nat).
  - rewrite lookup_app_l by (rewrite length_drop; lia). rewrite lookup_drop.
    f_equal. rewrite Nat.mod_small; lia.
  - rewrite lookup_app_r by (rewrite length_drop; lia). rewrite length_drop, lookup_take_lt by lia.
    f_equal. replace (k + i)%nat with ((k + i - length l) + 1 * length l)%nat by lia.
    rewrite Nat.Div0.mod_add, Nat.mod_small; lia.
Qed.

(** As long as the 64-bit counter has room, any n selections in a row for
    a network service with n endpoints never panic and pick every endpoint
    exactly once, whatever was selected before. *)
Lemma round_robin_fair rr ns endpoints :
  endpoints ≠ [] → 0 ≤ rr_count rr (GetName ns) →
  rr_count rr (GetName ns) + Z.of_nat (length endpoints) < 2 ^ 63 →
  ∃ rr' es, rr_run (length endpoints) rr ns endpoints = Ret (rr', es) ∧ es ≡ₚ endpoints.
Proof.
  intros Hne Hc Hb. set (n := length endpoints). set (c := rr_count rr (GetName ns)) in *.
  destruct (rr_run_indices n rr ns endpoints c Hne eq_refl Hc Hb) as (rr' & es & E & Hlen & Hes).
  exists rr', es. split; [done|].
  assert (0 < n)%nat by (unfold n; destruct endpoints; simpl; [done|lia]).
  set (k := (Z.to_nat c mod n)%nat). assert (k < n)%nat by (apply Nat.mod_upper_bound; lia).
  assert (es = drop k endpoints ++ take k endpoints) as ->.
  - apply list_eq_same_length with (n := n); [rewrite length_app, length_drop, length_take; lia|done|].
    intros i x y Hi Hx Hy. rewrite Hes in Hx by done.
    rewrite rotation_lookup in Hy by (done || lia). fold n in Hx, Hy.
    assert (Z.to_nat ((c + Z.of_nat i) `mod` Z.of_nat n) = ((k + i) mod n)%nat) as Heq.
    { unfold k. rewrite Nat.Div0.add_mod_idemp_l, Z2Nat.inj_mod, Z2Nat.inj_add, !Nat2Z.id by lia. done. }
    rewrite Heq in Hx. congruence.
  - rewrite (Permutation_app_comm (drop k endpoints)), take_drop. done.
Qed.

(** ** The match selector *)
Lemma isSubset_spec A B :
  isSubset A B = true ↔ (size B ≤ size A)%nat ∧ ∀ k v, B !! k = Some v → map_get A k = v.
Proof.
  unfold isSubset. destruct (Nat.ltb_spec (size A) (size B)); [naive_solver lia|].
  rewrite List.forallb_forall. split.
  - intros Hall. split; [done|]. intros k v Hk.
    apply elem_of_map_to_list, list_elem_of_In in Hk. specialize (Hall _ Hk). by apply bool_decide_eq_true in Hall.
  - intros [_ Hall] [k v] Hkv. apply bool_decide_eq_true, Hall.
    by apply elem_of_map_to_list, list_elem_of_In.
Qed.

Lemma elem_of_candidates m endpoints e :
  e ∈ candidates m endpoints ↔
  e ∈ endpoints ∧ ∃ d, d ∈ match_Routes m ∧ isSubset (nse_Labels e) (dest_DestinationSelector d) = true.
Proof.
  unfold candidates. rewrite list_elem_of_join. setoid_rewrite list_elem_of_fmap.
  split; [intros (l & He & d & -> & Hd)|intros [He (d & Hd & Hs)]].
  - apply list_elem_of_filter in He as [? ?]. eauto.
  - eexists. split; [|eauto]. by apply list_elem_of_filter.
Qed.

#[global] Instance roundRobin_Laws : SelectorLaws roundRobinSelector.
Proof.
  intros rr conn ns endpoints rr' e. change (SelectEndpoint rr) with (rr_SelectEndpoint rr).
  unfold rr_SelectEndpoint. destruct endpoints as [|e0 es]; [intros; inv_ret|].
  destruct (_ <? _); [done|]. destruct (_ !! _) as [e'|] eqn:E; [|done]. intros. inv_ret.
  by eapply list_elem_of_lookup_2.
Qed.

(** The rule applies to the labels and has a candidate. *)
Definition rule_applies (nsLabels : gmap string string) (endpoints : list NetworkServiceEndpoint) (m : Match) : Prop :=
  isSubset nsLabels (match_SourceSelector m) = true ∧ candidates m endpoints ≠ [].

Section match_laws.
Context {R : Type} `{SelectorLaws R}.

Lemma match_loop_spec (m m' : matchSelector R) labels ns endpoints matches e :
  match_loop m labels ns endpoints matches = Ret (m', Some e) →
  ∃ before mt after, matches = before ++ mt :: after ∧
    Forall (λ mt, ¬ rule_applies labels endpoints mt) before ∧
    rule_applies labels endpoints mt ∧ e ∈ candidates mt endpoints.
Proof.
  induction matches as [|mt matches IH]; simpl; intros E; [inv_ret|].
  destruct (isSubset labels (match_SourceSelector mt)) eqn:Hs; simpl in E.
  - destruct (candidates mt endpoints) as [|c cs] eqn:Hc.
    + destruct (IH E) as (before & mt' & after & -> & Hb & Ha & He).
      exists (mt :: before), mt', after. split_and!; try done. constructor; [|done].
      intros [_ Hne]. by rewrite Hc in Hne.
    + exists [], mt, matches. split_and!; [done|constructor|split; [done|by rewrite Hc]|].
      destruct (SelectEndpoint (ms_roundRobin m) None ns (c :: cs)) as [[r e']|] eqn:Hsel; cbn in E; [|done].
      inv_ret. rewrite Hc. by eapply select_member.
  - destruct (IH E) as (before & mt' & after & -> & Hb & Ha & He).
    exists (mt :: before), mt', after. split_and!; try done. constructor; [|done].
    intros [Hs' _]. congruence.
Qed.

#[global] Instance match_Laws : SelectorLaws (matchSelector R).
Proof.
  intros m conn ns endpoints m' e. change (SelectEndpoint m) with (match_SelectEndpoint m).
  unfold match_SelectEndpoint. destruct (GetMatches ns) eqn:Hm.
  - destruct (SelectEndpoint (ms_roundRobin m) None ns endpoints) as [[r e']|] eqn:Hs; cbn; [|done].
    intros. inv_ret. by eapply select_member.
  - intros E. apply match_loop_spec in E as (? & mt & ? & _ & _ & _ & He).
    by apply elem_of_candidates in He as [? _].
Qed.
End match_laws.

(** With match rules, the endpoint the selector returns carries the labels
    of a destination of the first rule that applies: every earlier rule either
    does not match the labels of the request or has no candidate. *)
Lemma match_selector_first_rule (m m' : matchSelector roundRobinSelector) conn ns endpoints e :
  GetMatches ns ≠ [] →
  SelectEndpoint m conn ns endpoints = Ret (m', Some e) →
  let labels := default ∅ (lc_Labels <$> conn) in
  ∃ before mt after d, GetMatches ns = before ++ mt :: after ∧
    Forall (λ mt, ¬ rule_applies labels endpoints mt) before ∧
    isSubset labels (match_SourceSelector mt) = true ∧
    d ∈ match_Routes mt ∧ isSubset (nse_Labels e) (dest_DestinationSelector d) = true ∧ e ∈ endpoints.
Proof.
  intros Hne E labels. change (SelectEndpoint m) with (match_SelectEndpoint m) in E.
  unfold match_SelectEndpoint, matchEndpoint in E. destruct (GetMatches ns) as [|mt0 ms] eqn:Hm; [done|].
  apply match_loop_spec in E as (before & mt & after & -> & Hb & [Hs _] & He).
  apply elem_of_candidates in He as [He (d & Hd & Hsub)].
  exists before, mt, after, d. auto 10.
Qed.

(** A selector value "" is matched by an endpoint that lacks the label,
    provided it has some other one. *)
Lemma isSubset_missing_key :
  isSubset {["app" := "nat"]} {["zone" := ""]} = true.
Proof. vm_compute. reflexivity. Qed.

(** ** Witnesses *)
Definition demo_endpoint (name : string) (labels : gmap string string) : NetworkServiceEndpoint :=
  mkNetworkServiceEndpoint "ns" "IP" "nsm-1" name labels "RUNNING".
Definition demo_service : NetworkService :=
  mkNetworkService "ns" "IP" [mkMatch {["app" := "web"]} [mkDestination {["app" := "db"]} 0];
                              mkMatch ∅ [mkDestination {["app" := "fw"]} 0]].
