(* ===== verification/Model.v ===== *)
(** * The control plane model (controlplane/pkg/model/model.go)

    The tables of one network service manager.  Client connections and
    dataplanes are shared pointers that other code writes through, so the
    tables hold addresses and the objects live in heaps of their own (see
    [Nsm]); registrations are never written after they are built, so a
    reference carries its address and its value.  The mutex makes every
    method atomic.  Methods that call listeners return the notifications in
    order. *)
From S2P Require Import Prelude GoStrings GoNet ConnectionContext Apis Selector.
Local Open Scope go_scope.

(** ** Objects *)
Record Dataplane := mkDataplane {
  dp_RegisteredName : string;
  dp_SocketLocation : string;
  dp_LocalMechanisms : list LocalMechanism;
  dp_RemoteMechanisms : list RemoteMechanism
}.

Inductive ClientConnectionState :=
  | ClientConnection_Ready
  | ClientConnection_Requesting
  | ClientConnection_Healing
  | ClientConnection_Closing
  | ClientConnection_Closed.

#[global] Instance ClientConnectionState_eq_dec : EqDecision ClientConnectionState.
Proof. solve_decision. Defined.

(** The address of a client connection or of a dataplane. *)
Abbreviation addr := positive (only parsing).

Record ClientConnection := mkClientConnection {
  cc_ConnectionId : string;
  cc_Xcon : option CrossConnect;
  cc_RemoteNsm : option NetworkServiceManager;
  cc_Endpoint : option NSERegistration;
  cc_Dataplane : option addr;
  cc_ConnectionState : ClientConnectionState;
  cc_Request : option NSMRequest
}.

Definition cc_set_Xcon (cc : ClientConnection) (x : option CrossConnect) : ClientConnection :=
  mkClientConnection (cc_ConnectionId cc) x (cc_RemoteNsm cc) (cc_Endpoint cc) (cc_Dataplane cc)
    (cc_ConnectionState cc) (cc_Request cc).
Definition cc_set_State (cc : ClientConnection) (s : ClientConnectionState) : ClientConnection :=
  mkClientConnection (cc_ConnectionId cc) (cc_Xcon cc) (cc_RemoteNsm cc) (cc_Endpoint cc) (cc_Dataplane cc)
    s (cc_Request cc).
Definition cc_set_Request (cc : ClientConnection) (r : option NSMRequest) : ClientConnection :=
  mkClientConnection (cc_ConnectionId cc) (cc_Xcon cc) (cc_RemoteNsm cc) (cc_Endpoint cc) (cc_Dataplane cc)
    (cc_ConnectionState cc) r.

Definition cc_GetNetworkService (cc : ClientConnection) : string :=
  default "" (ns_Name <$> (cc_Endpoint cc ≫= reg_NetworkService)).

(** The source of the cross connect; [None] is the nil remote connection. *)
Definition cc_GetConnectionSource (cc : ClientConnection) : option NSMConnection :=
  match cc_Xcon cc ≫= xcon_GetLocalSource with
  | Some c => Some (LocalConn c)
  | None => RemoteConn <$> (cc_Xcon cc ≫= xcon_GetRemoteSource)
  end.

(** ** The tables *)
Record reg_ref := mkRegRef { ref_addr : positive; ref_val : NSERegistration }.

Definition reg_EndpointName (r : NSERegistration) : string :=
  default "" (nse_EndpointName <$> reg_NetworkserviceEndpoint r).
Definition reg_ServiceName (r : NSERegistration) : string :=
  default "" (ns_Name <$> reg_NetworkService r).

Record impl := mkImpl {
  m_endpoints : gmap string reg_ref;
  m_networkServices : gmap string (list reg_ref);
  m_dataplanes : gmap string addr;
  m_lastConnnectionId : Z;   (* uint64 *)
  m_nsm : option NetworkServiceManager;
  m_listeners : list positive;
  m_selector : matchSelector roundRobinSelector;
  m_clientConnections : gmap string addr
}.

Definition NewModel : impl := mkImpl ∅ ∅ ∅ 0 None [] NewMatchSelector ∅.

(** What a listener is told; the first argument is the listener. *)
Inductive notification :=
  | EndpointAdded (l : positive) (e : option NetworkServiceEndpoint)
  | EndpointDeleted (l : positive) (e : option NetworkServiceEndpoint)
  | DataplaneAdded (l : positive) (d : addr)
  | DataplaneDeleted (l : positive) (d : addr)
  | ClientConnectionAdded (l : positive) (c : addr)
  | ClientConnectionDeleted (l : positive) (c : addr)
  | ClientConnectionUpdated (l : positive) (c : addr).

Definition set_endpoints (i : impl) m s : impl :=
  mkImpl m s (m_dataplanes i) (m_lastConnnectionId i) (m_nsm i) (m_listeners i) (m_selector i) (m_clientConnections i).
Definition set_dataplanes (i : impl) m : impl :=
  mkImpl (m_endpoints i) (m_networkServices i) m (m_lastConnnectionId i) (m_nsm i) (m_listeners i) (m_selector i)
    (m_clientConnections i).
Definition set_clientConnections (i : impl) m : impl :=
  mkImpl (m_endpoints i) (m_networkServices i) (m_dataplanes i) (m_lastConnnectionId i) (m_nsm i) (m_listeners i)
    (m_selector i) m.
Definition set_lastConnectionId (i : impl) n : impl :=
  mkImpl (m_endpoints i) (m_networkServices i) (m_dataplanes i) n (m_nsm i) (m_listeners i) (m_selector i)
    (m_clientConnections i).
Definition set_listeners (i : impl) l : impl :=
  mkImpl (m_endpoints i) (m_networkServices i) (m_dataplanes i) (m_lastConnnectionId i) (m_nsm i) l (m_selector i)
    (m_clientConnections i).
Definition set_selector (i : impl) s : impl :=
  mkImpl (m_endpoints i) (m_networkServices i) (m_dataplanes i) (m_lastConnnectionId i) (m_nsm i) (m_listeners i) s
    (m_clientConnections i).

Definition SetNsm (i : impl) (nsm : option NetworkServiceManager) : impl :=
  mkImpl (m_endpoints i) (m_networkServices i) (m_dataplanes i) (m_lastConnnectionId i) nsm (m_listeners i)
    (m_selector i) (m_clientConnections i).
Definition GetNsm (i : impl) : option NetworkServiceManager := m_nsm i.
Definition GetSelector (i : impl) : matchSelector roundRobinSelector := m_selector i.

(** *** Client connections; [id] is the ConnectionId of the object at [c]. *)
Definition AddClientConnection (i : impl) (id : string) (c : addr) : impl * list notification :=
  (set_clientConnections i (<[id := c]> (m_clientConnections i)),
   (λ l, ClientConnectionAdded l c) <$> m_listeners i).

Definition GetClientConnection (i : impl) (connectionId : string) : option addr :=
  m_clientConnections i !! connectionId.

(** [order] is the iteration order of the map. *)
Definition GetAllClientConnections (order : list (string * addr)) : list addr := order.*2.

Definition UpdateClientConnection (i : impl) (id : string) (c : addr) : impl * list notification :=
  (set_clientConnections i (<[id := c]> (m_clientConnections i)),
   (λ l, ClientConnectionUpdated l c) <$> m_listeners i).

Definition DeleteClientConnection (i : impl) (connectionId : string) : impl * list notification :=
  match m_clientConnections i !! connectionId with
  | None => (i, [])
  | Some c =>
      (set_clientConnections i (delete connectionId (m_clientConnections i)),
       (λ l, ClientConnectionDeleted l c) <$> m_listeners i)
  end.

(** *** Listeners *)
Definition AddListener (i : impl) (listener : positive)
    (dp_order : list (string * addr)) (ep_order : list (string * reg_ref)) : impl * list notification :=
  (set_listeners i (m_listeners i ++ [listener]),
   (DataplaneAdded listener <$> dp_order.*2) ++
   ((λ r, EndpointAdded listener (reg_NetworkserviceEndpoint (ref_val r))) <$> ep_order.*2)).

Fixpoint remove_first {A} (p : A → bool) (l : list A) : list A :=
  match l with
  | [] => []
  | x :: l => if p x then l else x :: remove_first p l
  end.
Definition RemoveListener (i : impl) (listener : positive) : impl :=
  set_listeners i (remove_first (λ v, bool_decide (v = listener)) (m_listeners i)).

(** *** Endpoints *)
Definition GetNetworkServiceEndpoints (i : impl) (name : string) : list reg_ref :=
  default [] (m_networkServices i !! name).
Definition GetEndpoint (i : impl) (name : string) : option reg_ref := m_endpoints i !! name.

Definition AddEndpoint (i : impl) (endpoint : reg_ref) : impl * list notification :=
  let serviceName := reg_ServiceName (ref_val endpoint) in
  let services := GetNetworkServiceEndpoints i serviceName ++ [endpoint] in
  (set_endpoints i (<[reg_EndpointName (ref_val endpoint) := endpoint]> (m_endpoints i))
                   (<[serviceName := services]> (m_networkServices i)),
   (λ l, EndpointAdded l (reg_NetworkserviceEndpoint (ref_val endpoint))) <$> m_listeners i).

Definition same_ref (endpoint e : reg_ref) : bool := bool_decide (ref_addr e = ref_addr endpoint).

Definition DeleteEndpoint (i : impl) (name : string) : impl * list notification * option error :=
  match m_endpoints i !! name with
  | None => (i, [], Some (Errorf "no endpoint with name: %s"))
  | Some endpoint =>
      let serviceName := reg_ServiceName (ref_val endpoint) in
      let services := GetNetworkServiceEndpoints i serviceName in
      let networkServices :=
        if (1 <? length services)%nat
        then <[serviceName := remove_first (same_ref endpoint) services]> (m_networkServices i)
        else delete serviceName (m_networkServices i) in
      (set_endpoints i (delete name (m_endpoints i)) networkServices,
       (λ l, EndpointDeleted l (reg_NetworkserviceEndpoint (ref_val endpoint))) <$> m_listeners i,
       None)
  end.

(** *** Dataplanes *)

(** [names] reads the name of the dataplane at an address. *)
Definition GetDataplane (names : addr → option string) (order : list (string * addr)) (name : string) : option addr :=
  head (filter (λ d, names d = Some name) order.*2).

(** The first dataplane of the iteration. *)
Definition SelectDataplane (order : list (string * addr)) : result addr :=
  match order with
  | (_, d) :: _ => Ok d
  | [] => Err (Errorf "no dataplanes registered")
  end.

Definition AddDataplane (i : impl) (name : string) (d : addr) : impl * list notification :=
  (set_dataplanes i (<[name := d]> (m_dataplanes i)), (λ l, DataplaneAdded l d) <$> m_listeners i).

Definition DeleteDataplane (i : impl) (name : string) : impl * list notification :=
  match m_dataplanes i !! name with
  | None => (i, [])
  | Some d =>
      (set_dataplanes i (delete name (m_dataplanes i)), (λ l, DataplaneDeleted l d) <$> m_listeners i)
  end.

(** *** Connection ids: a counter in hexadecimal *)
Definition ConnectionId (i : impl) : impl * string :=
  let n := wrap_u64 (m_lastConnnectionId i + 1) in
  (set_lastConnectionId i n, FormatUint n 16).

(** ** Endpoints and the per-service index agree *)
Record endpoint_index (i : impl) : Prop := {
  ei_listed name r : m_endpoints i !! name = Some r →
    reg_EndpointName (ref_val r) = name ∧ r ∈ GetNetworkServiceEndpoints i (reg_ServiceName (ref_val r));
  ei_known ns r : r ∈ GetNetworkServiceEndpoints i ns →
    reg_ServiceName (ref_val r) = ns ∧ m_endpoints i !! reg_EndpointName (ref_val r) = Some r;
  ei_nodup ns : NoDup (ref_addr <$> GetNetworkServiceEndpoints i ns);
  ei_nonempty ns : m_networkServices i !! ns ≠ Some []
}.

Lemma elem_of_remove_first {A} (p : A → bool) l x : x ∈ remove_first p l → x ∈ l.
Proof.
  induction l as [|y l IH]; simpl; [done|]. destruct (p y); [set_solver|].
  rewrite !elem_of_cons. naive_solver.
Qed.

Lemma remove_first_split {A} (p : A → bool) l1 x l2 :
  (∀ y, y ∈ l1 → p y = false) → p x = true → remove_first p (l1 ++ x :: l2) = l1 ++ l2.
Proof.
  intros H1 Hx. induction l1 as [|y l1 IH]; simpl; [by rewrite Hx|].
  rewrite H1 by set_solver. f_equal. apply IH. set_solver.
Qed.

(** Removing a reference from a list without repeated addresses takes out
    that reference and nothing else. *)
Lemma remove_ref l r :
  NoDup (ref_addr <$> l) → r ∈ l →
  ∃ l1 l2, l = l1 ++ r :: l2 ∧ remove_first (same_ref r) l = l1 ++ l2 ∧ r ∉ l1 ++ l2.
Proof.
  intros Hnd Hr. apply list_elem_of_split in Hr as (l1 & l2 & ->). exists l1, l2. split; [done|].
  rewrite fmap_app, fmap_cons in Hnd. apply NoDup_app in Hnd as (_ & Hd & Hnd2).
  apply NoDup_cons in Hnd2 as [Hr2 _].
  assert (∀ y, y ∈ l1 → ref_addr y ≠ ref_addr r) as Hl1.
  { intros y Hy E. apply (Hd (ref_addr y)); [by apply list_elem_of_fmap_2|]. rewrite E. set_solver. }
  split.
  - apply remove_first_split; [|by apply bool_decide_eq_true].
    intros y Hy. apply bool_decide_eq_false. by apply Hl1.
  - rewrite elem_of_app. intros [Hy|Hy]; [by apply (Hl1 r)|]. apply Hr2. by apply list_elem_of_fmap_2.
Qed.

Lemma endpoints_insert i ns l m ns' :
  GetNetworkServiceEndpoints (set_endpoints i m (<[ns := l]> (m_networkServices i))) ns'
  = if decide (ns = ns') then l else GetNetworkServiceEndpoints i ns'.
Proof. unfold GetNetworkServiceEndpoints. cbn. rewrite lookup_insert. by case_decide. Qed.

Lemma endpoints_delete i ns m ns' :
  GetNetworkServiceEndpoints (set_endpoints i m (delete ns (m_networkServices i))) ns'
  = if decide (ns = ns') then [] else GetNetworkServiceEndpoints i ns'.
Proof. unfold GetNetworkServiceEndpoints. cbn. rewrite lookup_delete. by case_decide. Qed.

Lemma AddEndpoint_index i r :
  endpoint_index i → m_endpoints i !! reg_EndpointName (ref_val r) = None →
  ref_addr r ∉ ref_addr <$> GetNetworkServiceEndpoints i (reg_ServiceName (ref_val r)) →
  endpoint_index (AddEndpoint i r).1.
Proof.
  intros [H1 H2 H3 H4] Hname Haddr. unfold AddEndpoint; cbn [fst]. split.
  - intros name r' Hr'. cbn [m_endpoints set_endpoints] in Hr'. rewrite endpoints_insert.
    apply lookup_insert_Some in Hr' as [[<- <-]|[Hne Hr']].
    + split; [done|]. rewrite decide_True by done. set_solver.
    + destruct (H1 _ _ Hr') as [<- Hin]. split; [done|]. case_decide as E; [|done]. rewrite E. set_solver.
  - intros ns r' Hr'. rewrite endpoints_insert in Hr'. cbn [m_endpoints set_endpoints].
    assert (r' = r ∧ ns = reg_ServiceName (ref_val r) ∨ r' ∈ GetNetworkServiceEndpoints i ns) as [[-> ->]|Hin].
    { case_decide as E; [|by right]. subst ns. apply elem_of_app in Hr' as [?|Hr']; [by right|left]. set_solver. }
    + split; [done|apply lookup_insert_eq].
    + destruct (H2 _ _ Hin) as [<- Hk]. split; [done|]. rewrite lookup_insert_ne; [done|]. congruence.
  - intros ns. rewrite endpoints_insert. case_decide as E; [|apply H3]. subst ns. rewrite fmap_app.
    apply NoDup_app. split_and!; [apply H3| |apply NoDup_singleton]. set_solver.
  - intros ns. cbn. rewrite lookup_insert_Some. intros [[_ E]|[_ E]]; [|by apply (H4 ns)].
    by destruct (GetNetworkServiceEndpoints i _).
Qed.

Lemma DeleteEndpoint_index i name :
  endpoint_index i → endpoint_index (DeleteEndpoint i name).1.1.
Proof.
  intros Hi. pose proof Hi as [H1 H2 H3 H4]. unfold DeleteEndpoint.
  destruct (m_endpoints i !! name) as [r|] eqn:Hr; [|done]. cbn [fst].
  destruct (H1 _ _ Hr) as [Hname Hin]. set (ns := reg_ServiceName (ref_val r)) in *.
  destruct (remove_ref _ _ (H3 ns) Hin) as (l1 & l2 & Hl & Hrm & Hnin).
  set (i' := set_endpoints _ _ _).
  assert (∀ ns', GetNetworkServiceEndpoints i' ns' = if decide (ns = ns') then l1 ++ l2
                                                   else GetNetworkServiceEndpoints i ns') as Hget.
  { intros ns'. unfold i'. rewrite Hl. destruct (Nat.ltb_spec 1 (length (l1 ++ r :: l2))) as [?|Hlen].
    - rewrite endpoints_insert. rewrite <-Hl, Hrm. done.
    - rewrite endpoints_delete. rewrite length_app in Hlen. simpl in Hlen.
      destruct l1, l2; simpl in Hlen; try lia. done. }
  assert (∀ ns' r', r' ∈ GetNetworkServiceEndpoints i' ns' ↔ r' ∈ GetNetworkServiceEndpoints i ns' ∧ r' ≠ r) as Hmem.
  { intros ns' r'. rewrite Hget. case_decide as E; [subst ns'; rewrite Hl; set_solver|].
    split; [|naive_solver]. intros Hr'. split; [done|]. intros ->. destruct (H2 _ _ Hr'). naive_solver. }
  split.
  - intros n r' Hr'. cbn in Hr'. apply lookup_delete_Some in Hr' as [Hne Hr'].
    destruct (H1 _ _ Hr') as [<- Hin']. split; [done|]. apply Hmem. split; [done|]. intros ->. congruence.
  - intros ns' r' Hr'. apply Hmem in Hr' as [Hr' Hne]. destruct (H2 _ _ Hr') as [<- Hk]. split; [done|].
    cbn. rewrite lookup_delete_ne; [done|]. intros E. rewrite <-E in Hk. congruence.
  - intros ns'. rewrite Hget. case_decide; [|apply H3]. specialize (H3 ns). rewrite Hl in H3.
    rewrite fmap_app, fmap_cons in H3. rewrite fmap_app.
    rewrite <-Permutation_middle in H3. by apply NoDup_cons in H3 as [_ ?].
  - intros ns'. unfold i'. cbn [m_networkServices set_endpoints]. rewrite Hl.
    destruct (Nat.ltb_spec 1 (length (l1 ++ r :: l2))) as [Hlen|_].
    + rewrite lookup_insert_Some. intros [[_ E]|[_ E]]; [|by apply (H4 ns')].
      rewrite <-Hl, Hrm in E. rewrite length_app in Hlen. destruct l1, l2; simpl in *; try done; lia.
    + rewrite lookup_delete_Some. intros [_ E]. by apply (H4 ns').
Qed.

(** ** Runs of the endpoint operations: a new registration has a name and an
    address of its own ([AddEndpoint_reused_name] is what happens otherwise). *)
Inductive endpoint_step : impl → impl → Prop :=
  | step_add i r :
      m_endpoints i !! reg_EndpointName (ref_val r) = None →
      ref_addr r ∉ ref_addr <$> GetNetworkServiceEndpoints i (reg_ServiceName (ref_val r)) →
      endpoint_step i (AddEndpoint i r).1
  | step_delete i name : endpoint_step i (DeleteEndpoint i name).1.1.

Lemma NewModel_index : endpoint_index NewModel.
Proof. split; try done; [set_solver|constructor]. Qed.

(** C34: after any run of AddEndpoint with fresh names and DeleteEndpoint, the
    endpoints listed for a network service are exactly the registered
    endpoints of that service, each listed once. *)
Theorem endpoint_lists_exact i ns :
  rtc endpoint_step NewModel i →
  NoDup (GetNetworkServiceEndpoints i ns) ∧
  ∀ r, r ∈ GetNetworkServiceEndpoints i ns ↔
       GetEndpoint i (reg_EndpointName (ref_val r)) = Some r ∧ reg_ServiceName (ref_val r) = ns.
Proof.
  intros Hr. assert (endpoint_index i) as [H1 H2 H3 _].
  { pose proof NewModel_index as H0. induction Hr as [|i1 i2 i3 Hs _ IH]; [done|]. apply IH.
    destruct Hs; [by apply AddEndpoint_index|by apply DeleteEndpoint_index]. }
  split; [apply (NoDup_fmap_1 ref_addr), H3|]. intros r. split.
  - intros Hin. destruct (H2 _ _ Hin). auto.
  - intros [Hr1 <-]. by destruct (H1 _ _ Hr1).
Qed.

(** Deleting an endpoint that was just added gives back the tables it was
    added to. *)
Lemma AddEndpoint_DeleteEndpoint i r :
  endpoint_index i → m_endpoints i !! reg_EndpointName (ref_val r) = None →
  ref_addr r ∉ ref_addr <$> GetNetworkServiceEndpoints i (reg_ServiceName (ref_val r)) →
  let '(i', _, e) := DeleteEndpoint (AddEndpoint i r).1 (reg_EndpointName (ref_val r)) in
  e = None ∧ m_endpoints i' = m_endpoints i ∧ m_networkServices i' = m_networkServices i.
Proof.
  intros Hi Hname Haddr. unfold DeleteEndpoint, AddEndpoint. cbn [fst m_endpoints set_endpoints].
  rewrite lookup_insert_eq, endpoints_insert, decide_True by done.
  split; [done|]. cbn [m_endpoints m_networkServices set_endpoints].
  split; [by rewrite delete_insert_id|]. set (ns := reg_ServiceName (ref_val r)) in *.
  destruct (Nat.ltb_spec 1 (length (GetNetworkServiceEndpoints i ns ++ [r]))) as [Hlen|Hlen];
    rewrite length_app in Hlen; simpl in Hlen.
  - rewrite remove_first_split; [|intros y Hy; apply bool_decide_eq_false; set_solver|by apply bool_decide_eq_true].
    rewrite app_nil_r, insert_insert_eq. apply insert_id. unfold GetNetworkServiceEndpoints in *.
    by destruct (m_networkServices i !! ns); simpl in *; [|lia].
  - apply delete_insert_id. destruct (m_networkServices i !! ns) as [l|] eqn:E; [|done].
    unfold GetNetworkServiceEndpoints in Hlen. rewrite E in Hlen. simpl in Hlen.
    destruct l; [|simpl in Hlen; lia]. by destruct (ei_nonempty i Hi ns).
Qed.

(** ** Connection ids *)
Fixpoint ConnectionId_run (n : nat) (i : impl) : impl * list string :=
  match n with
  | O => (i, [])
  | S n =>
      let '(i, id) := ConnectionId i in
      let '(i, ids) := ConnectionId_run n i in
      (i, id :: ids)
  end.

Lemma ConnectionId_run_eq n i :
  0 ≤ m_lastConnnectionId i → m_lastConnnectionId i + Z.of_nat n < 2 ^ 64 →
  (ConnectionId_run n i).2 = (λ k, FormatUint (m_lastConnnectionId i + 1 + Z.of_nat k) 16) <$> seq 0 n.
Proof.
  revert i; induction n as [|n IH]; intros i H0 Hb; [done|]. cbn [ConnectionId_run].
  unfold ConnectionId. rewrite wrap_u64_small by lia.
  specialize (IH (set_lastConnectionId i (m_lastConnnectionId i + 1))). cbn [m_lastConnnectionId set_lastConnectionId] in IH.
  destruct (ConnectionId_run n _) as [i' ids]. cbn [snd] in *. rewrite IH by lia. cbn [seq].
  rewrite fmap_cons. f_equal; [by rewrite Z.add_0_r|]. rewrite <-fmap_S_seq, <-list_fmap_compose.
  apply list_fmap_ext. intros k x _. unfold compose. f_equal. lia.
Qed.

(** A manager never hands out a connection id twice while its 64-bit
    counter has room. *)
Lemma connection_ids_unique n i :
  0 ≤ m_lastConnnectionId i → m_lastConnnectionId i + Z.of_nat n < 2 ^ 64 →
  NoDup (ConnectionId_run n i).2 ∧ length (ConnectionId_run n i).2 = n.
Proof.
  intros H0 Hb. rewrite ConnectionId_run_eq by done. split; [|by rewrite length_fmap, length_seq].
  apply NoDup_fmap_2; [|apply NoDup_seq]. intros j k E. apply FormatUint_inj in E; lia.
Qed.

(** Adding a second registration under a known name leaves the first one in
    the list of the service: deleting the name then removes only one. *)
Lemma AddEndpoint_reused_name r1 r2 :
  ref_addr r1 ≠ ref_addr r2 →
  reg_EndpointName (ref_val r1) = reg_EndpointName (ref_val r2) →
  reg_ServiceName (ref_val r1) = reg_ServiceName (ref_val r2) →
  let i := (AddEndpoint (AddEndpoint NewModel r1).1 r2).1 in
  let i' := (DeleteEndpoint i (reg_EndpointName (ref_val r1))).1.1 in
  GetEndpoint i' (reg_EndpointName (ref_val r1)) = None ∧
  GetNetworkServiceEndpoints i' (reg_ServiceName (ref_val r1)) = [r1].
Proof.
  intros Hne Hn Hs i i'. unfold i', i, DeleteEndpoint, AddEndpoint. cbn [fst m_endpoints set_endpoints].
  rewrite Hn, lookup_insert_eq, !endpoints_insert, Hs, !decide_True by done. cbn [fst].
  split; [apply lookup_delete_eq|].
  change (GetNetworkServiceEndpoints NewModel (reg_ServiceName (ref_val r2))) with (@nil reg_ref).
  cbn [app length Nat.ltb Nat.leb]. rewrite endpoints_insert, decide_True by done.
  cbn [remove_first]. unfold same_ref.
  by rewrite bool_decide_eq_false_2, bool_decide_eq_true_2.
Qed.

(** ** Witnesses *)
Definition demo_registration (name service : string) : NSERegistration :=
  mkNSERegistration (Some (mkNetworkService service "IP" []))
    (Some (mkNetworkServiceManager "nsm-1" "10.0.0.1:5001" None ""))
    (Some (mkNetworkServiceEndpoint service "IP" "nsm-1" name ∅ "")).
Definition demo_model : impl := (AddEndpoint NewModel (mkRegRef 1 (demo_registration "nse-1" "firewall"))).1.

Lemma endpoint_lists_exact_witness :
  mkRegRef 1 (demo_registration "nse-1" "firewall") ∈ GetNetworkServiceEndpoints demo_model "firewall".
Proof.
  apply (endpoint_lists_exact demo_model "firewall").
  - apply rtc_once. apply (step_add NewModel (mkRegRef 1 (demo_registration "nse-1" "firewall")));
      [reflexivity|]. cbn. set_solver.
  - split; reflexivity.
Defined.
