(* ===== verification/NsmState.v ===== *)
(** * The network service manager: state, environment and listener

    The state of one manager process: the model tables, the heaps of the
    shared client connections and dataplanes, the VNI allocator, the
    workspace registry, the peers the monitor client watches, and the log of
    every call that left the process.

    What is outside the process (dataplanes, endpoints, other managers, the
    registry) is an [Environment]: it answers each call as a function of the
    whole log so far, so theorems about all environments are theorems about
    all behaviours of the outside, retries that turn out differently
    included.  One handler runs at a time. *)
From S2P Require Import Prelude GoStrings GoNet ConnectionContext Apis Vni Selector Model.

(** ** Calls that leave the process, latest first in the log *)
Inductive call :=
  | DialDataplane (socket : string) (e : option error)
  | DataplaneRequest (x : option CrossConnect) (r : result CrossConnect)
  | DataplaneClose (x : option CrossConnect) (e : option error)
  | DialEndpoint (workspace : string) (e : option error)
  | EndpointRequest (r : LocalRequest) (res : result LocalConnection)
  | EndpointClose (c : LocalConnection) (e : option error)
  | DialRemoteNsm (nsm : option NetworkServiceManager) (e : option error)
  | RemoteNsmRequest (r : RemoteRequest) (res : result RemoteConnection)
  | RemoteNsmClose (c : RemoteConnection) (e : option error)
  | DialRegistry (e : option error)
  | FindNetworkService (name : string) (r : result FindNetworkServiceResponse)
  | WaitForDataplane (appeared : option Dataplane)
  | RegistryRegisterNSE (r : NSERegistration) (res : result NSERegistration)
  | RegistryRemoveNSE (name : string) (e : option error)
  (* events for the monitor servers and the peer watchers *)
  | CrossConnectUpdate (x : option CrossConnect)
  | CrossConnectDelete (x : option CrossConnect)
  | ConnectionUpdate (c : RemoteConnection)
  | ConnectionDelete (c : RemoteConnection)
  | LocalConnectionUpdate (workspace : string) (c : LocalConnection)
  | LocalConnectionDelete (workspace : string) (c : LocalConnection)
  | PeerWatchStart (nsm : string)
  | PeerWatchStop (nsm : string)
  | DataplaneWatchStart (name : string)
  | DataplaneWatchStop (name : string).

Abbreviation history := (list call) (only parsing).

(** ** The environment *)
Class Environment := {
  env_DialDataplane : history → string → option error;
  env_DataplaneRequest : history → option CrossConnect → result CrossConnect;
  env_DataplaneClose : history → option CrossConnect → option error;
  env_DialEndpoint : history → string → option error;
  env_EndpointRequest : history → LocalRequest → result LocalConnection;
  env_EndpointClose : history → LocalConnection → option error;
  env_DialRemoteNsm : history → option NetworkServiceManager → option error;
  env_RemoteNsmRequest : history → RemoteRequest → result RemoteConnection;
  env_RemoteNsmClose : history → RemoteConnection → option error;
  env_DialRegistry : history → option error;
  env_FindNetworkService : history → string → result FindNetworkServiceResponse;
  env_WaitForDataplane : history → option Dataplane;
  env_RegisterNSE : history → NSERegistration → result NSERegistration;
  env_RemoveNSE : history → string → option error;
  (* the order in which Go visits a map *)
  env_dataplane_order : history → gmap string positive → list (string * positive);
  env_connection_order : history → gmap string positive → list (string * positive)
}.

(** Map iteration visits each entry once. *)
Class EnvironmentLaws `{Environment} := {
  dataplane_order_ok h m : is_range_of (env_dataplane_order h m) m;
  connection_order_ok h m : is_range_of (env_connection_order h m) m
}.

(** ** The state *)
Record nsm_state := mkState {
  st_model : impl;
  st_conns : gmap positive ClientConnection;
  st_dps : gmap positive Dataplane;
  st_next : positive;
  st_vni : vniAllocator;
  st_workspaces : gmap string string;      (* endpoint name to workspace name *)
  st_remotePeers : gmap string Z;          (* xconCounter by manager name *)
  st_watched : gset string;                (* dataplanes with a cancel function *)
  st_log : history
}.

Definition M (A : Type) : Type := nsm_state → outcome (nsm_state * A).

#[global] Instance M_ret : MRet M := λ A a s, Ret (s, a).
#[global] Instance M_bind : MBind M := λ A B f m s,
  match m s with
  | Ret (s', a) => f a s'
  | Panic w => Panic w
  end.

Definition panic {A} (why : string) : M A := λ _, Panic why.
Definition getS : M nsm_state := λ s, Ret (s, s).
Definition putS (s : nsm_state) : M () := λ _, Ret (s, ()).
Definition lift {A} (m : outcome A) : M A := λ s, match m with Ret a => Ret (s, a) | Panic w => Panic w end.

(** A call that returns a value and an error; the caller returns on error. *)
Definition bindR {A B} (m : M (result A)) (k : A → M (result B)) : M (result B) :=
  r ← m; match r with Ok a => k a | Err e => mret (Err e) end.
Declare Scope nsm_scope.
Delimit Scope nsm_scope with nsm.
Notation "x ⇐ m ; k" := (bindR m (λ x, k))
  (at level 20, m at level 100, k at level 200, right associativity) : nsm_scope.
Local Open Scope nsm_scope.

Definition set_model (s : nsm_state) m : nsm_state :=
  mkState m (st_conns s) (st_dps s) (st_next s) (st_vni s) (st_workspaces s) (st_remotePeers s) (st_watched s) (st_log s).
Definition set_conns (s : nsm_state) c n : nsm_state :=
  mkState (st_model s) c (st_dps s) n (st_vni s) (st_workspaces s) (st_remotePeers s) (st_watched s) (st_log s).
Definition set_dps (s : nsm_state) d n : nsm_state :=
  mkState (st_model s) (st_conns s) d n (st_vni s) (st_workspaces s) (st_remotePeers s) (st_watched s) (st_log s).
Definition set_vni (s : nsm_state) v : nsm_state :=
  mkState (st_model s) (st_conns s) (st_dps s) (st_next s) v (st_workspaces s) (st_remotePeers s) (st_watched s) (st_log s).
Definition set_peers (s : nsm_state) p : nsm_state :=
  mkState (st_model s) (st_conns s) (st_dps s) (st_next s) (st_vni s) (st_workspaces s) p (st_watched s) (st_log s).
Definition set_watched (s : nsm_state) w : nsm_state :=
  mkState (st_model s) (st_conns s) (st_dps s) (st_next s) (st_vni s) (st_workspaces s) (st_remotePeers s) w (st_log s).
Definition set_workspaces (s : nsm_state) w : nsm_state :=
  mkState (st_model s) (st_conns s) (st_dps s) (st_next s) (st_vni s) w (st_remotePeers s) (st_watched s) (st_log s).
Definition set_log (s : nsm_state) l : nsm_state :=
  mkState (st_model s) (st_conns s) (st_dps s) (st_next s) (st_vni s) (st_workspaces s) (st_remotePeers s) (st_watched s) l.

Definition emit (c : call) : M () := s ← getS; putS (set_log s (c :: st_log s)).

(** Ask the environment and log the call with its answer. *)
Definition ask {A} (answer : history → A) (c : A → call) : M A :=
  s ← getS; let a := answer (st_log s) in emit (c a);; mret a.

(** ** Shared objects *)
Definition read_cc (p : positive) : M ClientConnection :=
  s ← getS; match st_conns s !! p with Some cc => mret cc | None => panic "nil pointer dereference" end.
Definition write_cc (p : positive) (cc : ClientConnection) : M () :=
  s ← getS; putS (set_conns s (<[p := cc]> (st_conns s)) (st_next s)).
Definition modify_cc (p : positive) (f : ClientConnection → ClientConnection) : M () :=
  cc ← read_cc p; write_cc p (f cc).
Definition alloc_cc (cc : ClientConnection) : M positive :=
  s ← getS;
  putS (set_conns s (<[st_next s := cc]> (st_conns s)) (Pos.succ (st_next s)));;
  mret (st_next s).
Definition read_dp (p : positive) : M Dataplane :=
  s ← getS; match st_dps s !! p with Some d => mret d | None => panic "nil pointer dereference" end.
Definition alloc_dp (d : Dataplane) : M positive :=
  s ← getS;
  putS (set_dps s (<[st_next s := d]> (st_dps s)) (Pos.succ (st_next s)));;
  mret (st_next s).

(** ** The model listener (nsmd/nsmd_crossconnect_client.go)

    [NsmMonitorCrossConnectClient] watches one peer per remote manager that
    has a client connection, counting the connections. *)
Definition mon_ClientConnectionAdded (p : positive) : M () :=
  clientConnection ← read_cc p;
  match cc_RemoteNsm clientConnection with
  | None => mret ()
  | Some nsm =>
      s ← getS;
      match st_remotePeers s !! nsmgr_Name nsm with
      | Some xconCounter => putS (set_peers s (<[nsmgr_Name nsm := xconCounter + 1]> (st_remotePeers s)))
      | None =>
          putS (set_peers s (<[nsmgr_Name nsm := 1]> (st_remotePeers s)));;
          emit (PeerWatchStart (nsmgr_Name nsm))
      end
  end.

Definition mon_ClientConnectionUpdated (p : positive) : M () :=
  clientConnection ← read_cc p;
  match cc_Xcon clientConnection ≫= xcon_GetRemoteSource with
  | Some conn => emit (ConnectionUpdate conn)
  | None => mret ()
  end.

Definition mon_ClientConnectionDeleted (p : positive) : M () :=
  clientConnection ← read_cc p;
  emit (CrossConnectDelete (cc_Xcon clientConnection));;
  match cc_Xcon clientConnection ≫= xcon_GetRemoteSource with
  | Some conn => emit (ConnectionDelete conn)
  | None => mret ()
  end;;
  match cc_RemoteNsm clientConnection with
  | None => mret ()
  | Some nsm =>
      s ← getS;
      match st_remotePeers s !! nsmgr_Name nsm with
      | Some xconCounter =>
          if xconCounter - 1 =? 0 then
            emit (PeerWatchStop (nsmgr_Name nsm));;
            s ← getS; putS (set_peers s (delete (nsmgr_Name nsm) (st_remotePeers s)))
          else putS (set_peers s (<[nsmgr_Name nsm := xconCounter - 1]> (st_remotePeers s)))
      | None => mret ()
      end
  end.

(** [DataplaneAdded] starts the monitor of the dataplane. *)
Definition mon_DataplaneAdded (d : positive) : M () :=
  dataplane ← read_dp d;
  s ← getS;
  putS (set_watched s ({[dp_RegisteredName dataplane]} ∪ st_watched s));;
  emit (DataplaneWatchStart (dp_RegisteredName dataplane)).

(** The listener handles what the model reports about client connections;
    it takes the default (empty) methods for endpoints, and the deletion of a
    dataplane is [DataplaneDeleted] of [NsmHeal]. *)
Definition mon_notify (n : notification) : M () :=
  match n with
  | ClientConnectionAdded _ p => mon_ClientConnectionAdded p
  | ClientConnectionUpdated _ p => mon_ClientConnectionUpdated p
  | ClientConnectionDeleted _ p => mon_ClientConnectionDeleted p
  | DataplaneAdded _ d => mon_DataplaneAdded d
  | _ => mret ()
  end.
Fixpoint mon_notify_all (ns : list notification) : M () :=
  match ns with
  | [] => mret ()
  | n :: ns => mon_notify n;; mon_notify_all ns
  end.

(** ** Model methods on the state *)
Definition run_model (f : impl → impl * list notification) : M () :=
  s ← getS;
  let '(m, ns) := f (st_model s) in
  putS (set_model s m);; mon_notify_all ns.

Definition srv_AddClientConnection (p : positive) : M () :=
  cc ← read_cc p; run_model (λ m, AddClientConnection m (cc_ConnectionId cc) p).
Definition srv_UpdateClientConnection (p : positive) : M () :=
  cc ← read_cc p; run_model (λ m, UpdateClientConnection m (cc_ConnectionId cc) p).
Definition srv_DeleteClientConnection (connectionId : string) : M () :=
  run_model (λ m, DeleteClientConnection m connectionId).
Definition createConnectionId : M string :=
  s ← getS; let '(m, id) := ConnectionId (st_model s) in putS (set_model s m);; mret id.

Section env.
Context `{Environment}.

Definition srv_SelectDataplane : M (result positive) :=
  s ← getS; mret (SelectDataplane (env_dataplane_order (st_log s) (m_dataplanes (st_model s)))).
Definition srv_GetAllClientConnections : M (list positive) :=
  s ← getS;
  mret (GetAllClientConnections (env_connection_order (st_log s) (m_clientConnections (st_model s)))).

(** ** The service registry (nsmd/serviceregistry.go) *)
Definition WorkspaceByEndpoint (s : nsm_state) (endpoint : option NetworkServiceEndpoint) : option string :=
  st_workspaces s !! default "" (nse_EndpointName <$> endpoint).
Definition WorkspaceName (s : nsm_state) (endpoint : option NSERegistration) : string :=
  default "" (WorkspaceByEndpoint s (endpoint ≫= reg_NetworkserviceEndpoint)).

Definition sr_DataplaneConnection (dp : option positive) : M (result ()) :=
  match dp with
  | None => panic "nil pointer dereference"
  | Some dp =>
      dataplane ← read_dp dp;
      e ← ask (λ h, env_DialDataplane h (dp_SocketLocation dataplane)) (DialDataplane (dp_SocketLocation dataplane));
      mret (match e with Some e => Err e | None => Ok () end)
  end.

Definition sr_EndpointConnection (endpoint : option NSERegistration) : M (result ()) :=
  s ← getS;
  match WorkspaceByEndpoint s (endpoint ≫= reg_NetworkserviceEndpoint) with
  | None => mret (Err (Errorf "cannot find workspace for endpoint %v"))
  | Some workspace =>
      e ← ask (λ h, env_DialEndpoint h workspace) (DialEndpoint workspace);
      mret (match e with Some e => Err e | None => Ok () end)
  end.

(** With a nil manager the wait for the port either fails or the address is
    read through the nil pointer. *)
Definition sr_RemoteNetworkServiceClient (nsm : option NetworkServiceManager) : M (result ()) :=
  e ← ask (λ h, env_DialRemoteNsm h nsm) (DialRemoteNsm nsm);
  match e, nsm with
  | Some e, _ => mret (Err e)
  | None, None => panic "nil pointer dereference"
  | None, Some _ => mret (Ok ())
  end.

(** [WaitForDataplaneAvailable] returns nil whether or not a dataplane is
    there at the end; meanwhile one may be registered. *)
Definition sr_WaitForDataplaneAvailable : M (option error) :=
  dp ← srv_SelectDataplane;
  match dp with
  | Ok _ => mret None
  | Err _ =>
      appeared ← ask env_WaitForDataplane WaitForDataplane;
      match appeared with
      | None => mret None
      | Some dataplane =>
          d ← alloc_dp dataplane;
          run_model (λ m, AddDataplane m (dp_RegisteredName dataplane) d);;
          mret None
      end
  end.
End env.
