(* ===== verification/Nsm.v ===== *)
(** * The network service manager (controlplane/pkg/nsm)

    [Request] and [Close] with everything they call: nsm.go,
    nsm_mechanims.go, nse_requests.go, endpoint_client.go and
    remote_nsm_client.go.  The numbers in the comments are those of the
    source.  Log statements are left out; a deferred [Cleanup] only closes
    the transport and its error is logged. *)
From S2P Require Import Prelude GoStrings GoNet ConnectionContext Apis Vni Selector Model NsmState.
Local Open Scope nsm_scope.

(** ** Mechanisms (nsm_mechanims.go) *)
Definition findRemoteMechanism (ms : list RemoteMechanism) (t : RemoteMechanismType) : option RemoteMechanism :=
  head (filter (λ m, rm_Type m = t) ms).
Definition findLocalMechanism (ms : list LocalMechanism) (t : LocalMechanismType) : option LocalMechanism :=
  head (filter (λ m, lm_Type m = t) ms).

Definition param_of (ps : option (gmap string string)) (k : string) : string := map_get (default ∅ ps) k.

(** [selectRemoteMechanism]: the first preference, if the dataplane offers
    VXLAN at all.  A VXLAN mechanism is written in place, so the request
    comes back with its first preference changed. *)
Definition selectRemoteMechanism (request : RemoteRequest) (dp : Dataplane) :
    M (result (RemoteMechanism * RemoteRequest)) :=
  match rr_MechanismPreferences request with
  | [] => mret (Err (Errorf "NSM:(5.1-%v) Failed to select mechanism. No matched mechanisms found..."))
  | mechanism :: rest =>
      match findRemoteMechanism (dp_RemoteMechanisms dp) VXLAN with
      | None => mret (Err (Errorf "NSM:(5.1-%v) Failed to select mechanism. No matched mechanisms found..."))
      | Some dp_mechanism =>
          if decide (rm_Type mechanism = VXLAN) then
            let remoteSrc := param_of (rm_Parameters mechanism) VXLANSrcIP in
            let dstIP := param_of (rm_Parameters dp_mechanism) VXLANSrcIP in
            match rm_Parameters mechanism with
            | None => panic "assignment to entry in nil map"
            | Some ps =>
                s ← getS;
                r ← lift (Vni (st_vni s) dstIP remoteSrc);
                s ← getS;
                putS (set_vni s r.1);;
                let mechanism' := mkRemoteMechanism (rm_Type mechanism)
                  (Some (<[VXLANVNI := FormatUint r.2 10]>
                         (<[VXLANDstIP := dstIP]> (<[VXLANSrcIP := remoteSrc]> ps)))) in
                mret (Ok (mechanism', mkRemoteRequest (rr_Connection request) (mechanism' :: rest)))
            end
          else mret (Ok (mechanism, request))
      end
  end.

(** The first preference whose type the dataplane offers. *)
Fixpoint choose_local_mechanism (dp : Dataplane) (prefs : list LocalMechanism) : option LocalMechanism :=
  match prefs with
  | [] => None
  | m :: prefs =>
      match findLocalMechanism (dp_LocalMechanisms dp) (lm_Type m) with
      | Some _ => Some m
      | None => choose_local_mechanism dp prefs
      end
  end.

(** [updateMechanism]: the connection with its mechanism, and the request. *)
Definition updateMechanism (nsmConnection : NSMConnection) (request : NSMRequest) (dp : Dataplane) :
    M (result (NSMConnection * NSMRequest)) :=
  match request, nsmConnection with
  | RemoteReq request, RemoteConn c =>
      r ⇐ selectRemoteMechanism request dp;
      let m := mkRemoteMechanism (rm_Type r.1) (Some (default ∅ (rm_Parameters r.1))) in
      mret (Ok (RemoteConn (rc_set_Mechanism c (Some m)), RemoteReq r.2))
  | LocalReq request, LocalConn c =>
      let mechanism := match choose_local_mechanism dp (lr_MechanismPreferences request) with
                       | Some m => Some m
                       | None => lc_Mechanism c
                       end in
      match mechanism with
      | None => mret (Err (Errorf "Required mechanism are not found... %v "))
      | Some m =>
          let m := mkLocalMechanism (lm_Type m) (Some (default ∅ (lm_Parameters m))) in
          mret (Ok (LocalConn (lc_set_Mechanism c (Some m)), LocalReq request))
      end
  | _, _ => panic "interface conversion"
  end.

(** ** Messages to endpoints and remote managers (nse_requests.go) *)
Definition reg_NsmName (endpoint : option NSERegistration) : string :=
  default "" (nsmgr_Name <$> (endpoint ≫= reg_NetworkServiceManager)).
Definition endpoint_name (endpoint : option NSERegistration) : string :=
  default "" (nse_EndpointName <$> (endpoint ≫= reg_NetworkserviceEndpoint)).

Definition nsm_name (s : nsm_state) : string := default "" (nsmgr_Name <$> GetNsm (st_model s)).
Definition getNetworkServiceManagerName : M string := s ← getS; mret (nsm_name s).

Definition createRemoteNSMRequest (endpoint : option NSERegistration) (requestConnection : NSMConnection)
    (dataplane : Dataplane) (existingConnection : option ClientConnection) : M RemoteRequest :=
  name ← getNetworkServiceManagerName;
  match existingConnection with
  | Some existing =>
      match cc_Xcon existing ≫= xcon_GetRemoteDestination with
      | None => panic "nil pointer dereference"
      | Some remoteDst =>
          mret (mkRemoteRequest
            (Some (mkRemoteConnection (rc_Id remoteDst) (rc_NetworkService remoteDst) None (rc_Context remoteDst)
                     (rc_Labels remoteDst) name (reg_NsmName endpoint) (endpoint_name endpoint) State_UP))
            (dp_RemoteMechanisms dataplane))
      end
  | None =>
      mret (mkRemoteRequest
        (Some (mkRemoteConnection "-" (nc_GetNetworkService requestConnection) None
                 (nc_GetContext requestConnection) (nc_GetLabels requestConnection)
                 name (reg_NsmName endpoint) (endpoint_name endpoint) State_UP))
        (dp_RemoteMechanisms dataplane))
  end.

Definition createLocalNSERequest (endpoint : option NSERegistration) (requestConnection : NSMConnection) :
    M LocalRequest :=
  id ← createConnectionId;
  mret (mkLocalRequest
    (Some (mkLocalConnection id (default "" (ns_Name <$> (endpoint ≫= reg_NetworkService))) None
             (nc_GetContext requestConnection) (nc_GetLabels requestConnection) State_UP))
    [mkLocalMechanism MEM_INTERFACE (Some ∅); mkLocalMechanism KERNEL_INTERFACE (Some ∅)]).

(** ** Clients of endpoints (endpoint_client.go, remote_nsm_client.go) *)
Inductive nse_client := endpointClient | nsmClient.

Section nsm.
Context `{Environment}.

(** The type assertions of [Request] and [Close] panic on a message of the
    other kind. *)
Definition client_Request (client : nse_client) (message : NSMRequest) : M (result NSMConnection) :=
  match client, message with
  | endpointClient, LocalReq r =>
      res ← ask (λ h, env_EndpointRequest h r) (EndpointRequest r);
      mret (match res with Ok c => Ok (LocalConn c) | Err e => Err e end)
  | nsmClient, RemoteReq r =>
      res ← ask (λ h, env_RemoteNsmRequest h r) (RemoteNsmRequest r);
      mret (match res with Ok c => Ok (RemoteConn c) | Err e => Err e end)
  | _, _ => panic "interface conversion"
  end.

Definition client_Close (client : nse_client) (conn : NSMConnection) : M (option error) :=
  match client, conn with
  | endpointClient, LocalConn c => ask (λ h, env_EndpointClose h c) (EndpointClose c)
  | nsmClient, RemoteConn c => ask (λ h, env_RemoteNsmClose h c) (RemoteNsmClose c)
  | _, _ => panic "interface conversion"
  end.

Definition isLocalEndpoint (endpoint : option NSERegistration) : M bool :=
  name ← getNetworkServiceManagerName; mret (bool_decide (name = reg_NsmName endpoint)).

Definition createNSEClient (endpoint : option NSERegistration) : M (result nse_client) :=
  local ← isLocalEndpoint endpoint;
  if (local : bool) then
    _ ⇐ sr_EndpointConnection endpoint; mret (Ok endpointClient)
  else
    _ ⇐ sr_RemoteNetworkServiceClient (endpoint ≫= reg_NetworkServiceManager); mret (Ok nsmClient).

(** ** Close (nsm.go) *)
Definition closeDataplane (p : positive) : M (option error) :=
  clientConnection ← read_cc p;
  dial ← sr_DataplaneConnection (cc_Dataplane clientConnection);
  match dial with
  | Err e => mret (Some e)
  | Ok _ =>
      ask (λ h, env_DataplaneClose h (cc_Xcon clientConnection)) (DataplaneClose (cc_Xcon clientConnection))
  end.

Definition closeDataplaneLog (existingConnection : option positive) : M () :=
  match existingConnection with
  | None => panic "nil pointer dereference"
  | Some p => closeDataplane p;; mret ()
  end.

(** Close the destination of the cross connect: the local one and then the
    remote one, of which at most one is there. *)
Definition close_destination (client : nse_client) (xcon : option CrossConnect) : M (option error) :=
  e ← match xcon ≫= xcon_GetLocalDestination with
      | Some ld => client_Close client (LocalConn ld)
      | None => mret None
      end;
  match xcon ≫= xcon_GetRemoteDestination with
  | Some rd => client_Close client (RemoteConn rd)
  | None => mret e
  end.

Definition close (p : positive) (closeDataplane_ : bool) : M (option error) :=
  clientConnection ← read_cc p;
  if decide (cc_ConnectionState clientConnection = ClientConnection_Closing) then mret None
  else
    modify_cc p (λ cc, cc_set_State cc ClientConnection_Closing);;
    client ← createNSEClient (cc_Endpoint clientConnection);
    nseError ← match client with
               | Ok client => close_destination client (cc_Xcon clientConnection)
               | Err nseClientError => mret (Some nseClientError)
               end;
    dpCloseError ← (if (closeDataplane_ : bool) then
                      e ← closeDataplane p;
                      srv_DeleteClientConnection (cc_ConnectionId clientConnection);;
                      mret e
                    else mret None);
    modify_cc p (λ cc, cc_set_State cc ClientConnection_Closed);;
    mret (match nseError, dpCloseError with
          | None, None => None
          | _, _ => Some (Errorf "Close error: %v")
          end).

Definition Close (p : positive) : M (option error) := close p true.

(** ** Choosing an endpoint *)
Definition filterEndpoints (endpoints : list NetworkServiceEndpoint) (ignore_endpoints : gset string) :
    list NetworkServiceEndpoint :=
  filter (λ candidate, nse_EndpointName candidate ∉ ignore_endpoints) endpoints.

(** [getEndpoint]: the registration and the error; a selector that finds no
    match gives nil and nil. *)
Definition getEndpoint (requestConnection : NSMConnection) (ignore_endpoints : gset string) :
    M (option NSERegistration * option error) :=
  let targetEndpoint := nc_GetNetworkServiceEndpointName requestConnection in
  if decide (targetEndpoint ≠ "") then
    s ← getS;
    match ref_val <$> GetEndpoint (st_model s) targetEndpoint with
    | Some endpoint =>
        match reg_NetworkserviceEndpoint endpoint with
        | None => panic "nil pointer dereference"
        | Some nse =>
            mret (if decide (nse_EndpointName nse ∈ ignore_endpoints)
                  then (None, Some (Errorf "Could not find endpoint with name: %s at local registry"))
                  else (Some endpoint, None))
        end
    | None => mret (None, Some (Errorf "Could not find endpoint with name: %s at local registry"))
    end
  else
    dial ← ask env_DialRegistry DialRegistry;
    match dial with
    | Some e => mret (None, Some e)
    | None =>
        response ← ask (λ h, env_FindNetworkService h (nc_GetNetworkService requestConnection))
                       (FindNetworkService (nc_GetNetworkService requestConnection));
        match response with
        | Err e => mret (None, Some e)
        | Ok endpointResponse =>
            match filterEndpoints (find_NetworkServiceEndpoints endpointResponse) ignore_endpoints with
            | [] => mret (None, Some (Errorf "Failed to find NSE for NetworkService %s. Checked: %d of total NSEs: %d"))
            | endpoints =>
                match requestConnection with
                | RemoteConn _ => panic "interface conversion"
                | LocalConn c =>
                    s ← getS;
                    r ← lift (SelectEndpoint (GetSelector (st_model s)) (Some c)
                                (find_NetworkService endpointResponse) endpoints);
                    s ← getS;
                    putS (set_model s (set_selector (st_model s) r.1));;
                    match r.2 with
                    | None => mret (None, None)
                    | Some endpoint =>
                        mret (Some (mkNSERegistration (find_NetworkService endpointResponse)
                                (find_NetworkServiceManagers endpointResponse !! nse_NetworkServiceManagerName endpoint)
                                (Some endpoint)), None)
                    end
                end
            end
        end
    end.

(** ** Requesting an endpoint *)

(** [updateExcludePrefixes]; [excluded_prefixes] is the configuration. *)
Definition ctx_set_ExcludedPrefixes (c : ConnectionContext) (l : list string) : ConnectionContext :=
  mkConnectionContext (ctx_SrcIpAddr c) (ctx_DstIpAddr c) (ctx_SrcIpRequired c) (ctx_DstIpRequired c)
    (ctx_Routes c) l (ctx_IpNeighbors c) (ctx_ExtraPrefixRequest c) (ctx_ExtraPrefixes c).
Definition updateExcludePrefixes (excluded_prefixes : list string) (requestConnection : NSMConnection) :
    NSMConnection :=
  let c := default empty_ConnectionContext (nc_GetContext requestConnection) in
  nc_SetContext requestConnection
    (Some (ctx_set_ExcludedPrefixes c (ctx_ExcludedPrefixes c ++ excluded_prefixes))).

Definition validateNSEConnection (nseConnection : NSMConnection) : option error :=
  Wrapf "NSM:(7.2.6.2.2-%v) failure Validating NSE Connection: %s" <$> nc_IsComplete nseConnection.

(** [updateConnectionParameters]: the workspace of a local endpoint is
    written into the parameters of the mechanism it chose. *)
Definition updateConnectionParameters (nseConnection : NSMConnection) (endpoint : option NSERegistration) :
    M NSMConnection :=
  local ← isLocalEndpoint endpoint;
  if (local : bool) then
    s ← getS;
    match WorkspaceByEndpoint s (endpoint ≫= reg_NetworkserviceEndpoint), nseConnection with
    | None, LocalConn _ => mret nseConnection
    | Some workspace, LocalConn c =>
        match lc_Mechanism c with
        | None => panic "assignment to entry in nil map"
        | Some m =>
            match lm_Parameters m with
            | None => panic "assignment to entry in nil map"
            | Some ps =>
                mret (LocalConn (lc_set_Mechanism c
                  (Some (mkLocalMechanism (lm_Type m) (Some (<[Workspace_key := workspace]> ps))))))
            end
        end
    | _, RemoteConn _ => panic "interface conversion"
    end
  else mret nseConnection.

Definition createCrossConnect (requestConnection : NSMConnection) (endpoint : option NSERegistration)
    (request : NSMRequest) (nseConnection : NSMConnection) : M CrossConnect :=
  local ← isLocalEndpoint endpoint;
  let x := mkCrossConnect (nc_GetId requestConnection)
             (default "" (ns_Payload <$> (endpoint ≫= reg_NetworkService)))
             (Some requestConnection) (Some nseConnection) in
  match nr_IsRemote request, requestConnection, (local : bool), nseConnection with
  | true, RemoteConn _, true, LocalConn _ | true, RemoteConn _, false, RemoteConn _
  | false, LocalConn _, true, LocalConn _ | false, LocalConn _, false, RemoteConn _ => mret x
  | _, _, _, _ => panic "interface conversion"
  end.

(** [performNSERequest]: a new client connection. *)
Definition performNSERequest (endpoint : option NSERegistration) (requestConnection : NSMConnection)
    (request : NSMRequest) (dp : positive) (existingConnection : option positive) : M (result positive) :=
  client ← createNSEClient endpoint;
  match client with
  | Err e => mret (Err (Wrapf "NSM:(7.2.6.1-%v) Failed to create NSE Client" e))
  | Ok client =>
      local ← isLocalEndpoint endpoint;
      message ← (if (local : bool) then
                   r ← createLocalNSERequest endpoint requestConnection; mret (LocalReq r)
                 else
                   dataplane ← read_dp dp;
                   existing ← match existingConnection with
                              | None => mret None
                              | Some p => cc ← read_cc p; mret (Some cc)
                              end;
                   r ← createRemoteNSMRequest endpoint requestConnection dataplane existing; mret (RemoteReq r));
      nseConnection ⇐ client_Request client message;
      match validateNSEConnection nseConnection with
      | Some e => mret (Err e)
      | None =>
          match nc_UpdateContext requestConnection (nc_GetContext nseConnection) with
          | (_, Some e) => mret (Err (Wrapf "NSM:(7.2.6.2.3-%v) failure Validating NSE Connection: %s" e))
          | (requestConnection, None) =>
              nseConnection ← updateConnectionParameters nseConnection endpoint;
              dpApiConnection ← createCrossConnect requestConnection endpoint request nseConnection;
              let remoteNsm := if (local : bool) then None else endpoint ≫= reg_NetworkServiceManager in
              p ← alloc_cc (mkClientConnection (nc_GetId requestConnection) (Some dpApiConnection) remoteNsm
                              endpoint (Some dp) ClientConnection_Requesting None);
              mret (Ok p)
          end
      end
  end.

(** The endpoint of the connection that is being healed, unless it failed
    already in this request. *)
Definition previous_endpoint (existingConnection : option positive) (ignore_endpoints : gset string) :
    M (option NSERegistration) :=
  match existingConnection with
  | None => mret None
  | Some p =>
      existing ← read_cc p;
      match cc_Endpoint existing ≫= reg_NetworkserviceEndpoint with
      | None => panic "nil pointer dereference"
      | Some nse =>
          mret (if decide (nse_EndpointName nse ∈ ignore_endpoints) then None else cc_Endpoint existing)
      end
  end.

(** [findConnectNSE]: endpoints are tried until one answers.  [err] is the
    variable of the source that is read after the choice; it keeps the error
    of the previous turn when the choice does not set it.  The loop has no
    bound of its own ([findConnectNSE_enough_fuel]). *)
Fixpoint findConnectNSE (fuel : nat) (excluded_prefixes : list string) (ignore_endpoints : gset string)
    (err last_error : option error) (request : NSMRequest) (nsmConnection : NSMConnection)
    (existingConnection : option positive) (dp : positive) : M (result positive) :=
  match fuel with
  | O => panic "out of fuel"
  | S fuel =>
      previous ← previous_endpoint existingConnection ignore_endpoints;
      choice ← match previous with
               | Some endpoint => mret (Some endpoint, err)
               | None => getEndpoint nsmConnection ignore_endpoints
               end;
      match choice.2 with
      | Some e =>
          mret (Err (match last_error with
                     | Some last => Wrapf "NSM:(7.2.4-%v) %v. Last NSE Error: %v" last
                     | None => e
                     end))
      | None =>
          let endpoint := choice.1 in
          let nseConnection := updateExcludePrefixes excluded_prefixes nsmConnection in
          r ← performNSERequest endpoint nseConnection request dp existingConnection;
          match r with
          | Ok p => mret (Ok p)
          | Err e =>
              match endpoint ≫= reg_NetworkserviceEndpoint with
              | None => panic "nil pointer dereference"
              | Some nse =>
                  findConnectNSE fuel excluded_prefixes ({[nse_EndpointName nse]} ∪ ignore_endpoints)
                    (Some e) (Some e) request nsmConnection existingConnection dp
              end
          end
      end
  end.

(** ** Request *)
Definition rm_equal (a b : RemoteMechanism) : bool :=
  bool_decide (rm_Type a = rm_Type b) && bool_decide (default ∅ (rm_Parameters a) = default ∅ (rm_Parameters b)).

(** Some parameter the dataplane gives differs from the one in use. *)
Definition params_differ (ps used : gmap string string) : bool :=
  existsb (λ kv : string * string, negb (bool_decide (map_get used kv.1 = kv.2))) (map_to_list ps).

(** [checkNeedNSERequest] *)
Definition checkNeedNSERequest (nsmConnection : NSMConnection) (existing : ClientConnection) (dp : Dataplane) :
    outcome bool :=
  if negb (bool_decide (nc_GetContext nsmConnection = (cc_GetConnectionSource existing ≫= nc_GetContext)))
  then Ret true
  else match cc_Xcon existing ≫= xcon_GetRemoteDestination with
  | None => Ret false
  | Some remoteDestination =>
      let t := default NONE (rm_Type <$> rc_Mechanism remoteDestination) in
      match findRemoteMechanism (dp_RemoteMechanisms dp) t with
      | None => Ret true
      | Some dpM =>
          match rc_Mechanism remoteDestination with
          | None =>
              if decide (default ∅ (rm_Parameters dpM) = ∅) then Ret true
              else Panic "nil pointer dereference"
          | Some m =>
              if params_differ (default ∅ (rm_Parameters dpM)) (default ∅ (rm_Parameters m)) then Ret true
              else Ret (negb (rm_equal dpM m))
          end
      end
  end.

(** [newConnection]: a copy of the connection of a valid request. *)
Definition newConnection (request : NSMRequest) : outcome NSMConnection :=
  match request with
  | LocalReq r => match lr_Connection r with Some c => Ret (LocalConn c) | None => Panic "interface conversion" end
  | RemoteReq r => match rr_Connection r with Some c => Ret (RemoteConn c) | None => Panic "interface conversion" end
  end.

(** Step 7.2: the endpoint is kept; only the mechanism of the source changes. *)
Definition reuse_destination (request : NSMRequest) (nsmConnection : NSMConnection) (cc : ClientConnection) :
    outcome CrossConnect :=
  match request, nsmConnection, cc_Xcon cc ≫= xcon_Source, cc_Xcon cc with
  | RemoteReq _, RemoteConn c, Some (RemoteConn rs), Some x =>
      Ret (xcon_set_Source x (Some (RemoteConn (rc_set_State (rc_set_Mechanism rs (rc_Mechanism c)) State_UP))))
  | LocalReq _, LocalConn c, Some (LocalConn ls), Some x =>
      Ret (xcon_set_Source x (Some (LocalConn (lc_set_State (lc_set_Mechanism ls (lc_Mechanism c)) State_UP))))
  | _, _, _, _ => Panic "nil pointer dereference"
  end.

(** One request to the dataplane; the generated client returns nil with an
    error, and the result is stored either way. *)
Definition program_dataplane (p : positive) : M (option error) :=
  cc ← read_cc p;
  r ← ask (λ h, env_DataplaneRequest h (cc_Xcon cc)) (DataplaneRequest (cc_Xcon cc));
  match r with
  | Ok x => modify_cc p (λ cc, cc_set_Xcon cc (Some x));; mret None
  | Err e => modify_cc p (λ cc, cc_set_Xcon cc None);; mret (Some e)
  end.

(** Step 10: program the dataplane, once more after a failure, and give up
    after the second one. *)
Definition program_or_close (p : positive) : M (option error) :=
  e ← program_dataplane p;
  match e with
  | None => mret None
  | Some _ =>
      e ← program_dataplane p;
      match e with
      | None => mret None
      | Some e =>
          close p true;;
          cc ← read_cc p;
          srv_DeleteClientConnection (cc_ConnectionId cc);;
          mret (Some e)
      end
  end.

(** Step 11: the source of the cross connect is what the client gets back. *)
Definition return_source (request : NSMRequest) (p : positive) : M (result NSMConnection) :=
  cc ← read_cc p;
  match nr_IsRemote request, cc_Xcon cc ≫= xcon_Source with
  | true, Some (RemoteConn c) => mret (Ok (RemoteConn c))
  | false, Some (LocalConn c) => mret (Ok (LocalConn c))
  | _, _ => panic "interface conversion"
  end.

(** Steps 8 to 11: the tail of [request], from the chosen client connection. *)
Definition finish_request (request : NSMRequest) (p : positive) (existingConnection : option positive) :
    M (result NSMConnection) :=
  modify_cc p (λ cc, cc_set_Request cc (Some request));;
  match existingConnection with
  | None => srv_AddClientConnection p
  | Some q =>
      cc ← read_cc q;
      ask (λ h, env_DataplaneClose h (cc_Xcon cc)) (DataplaneClose (cc_Xcon cc));; mret ()
  end;;
  e ← program_or_close p;
  match e with
  | Some e => mret (Err e)
  | None =>
      modify_cc p (λ cc, cc_set_State cc ClientConnection_Ready);;
      match existingConnection with
      | None => mret ()
      | Some _ => srv_UpdateClientConnection p
      end;;
      return_source request p
  end.

(** Step 4: whether the endpoint has to be asked again, and whether the old
    dataplane connection has to go when that fails. *)
Definition check_existing (nsmConnection : NSMConnection) (existingConnection : option positive) (dp : Dataplane) :
    M (bool * bool) :=
  match existingConnection with
  | None => mret (false, false)
  | Some p =>
      existing ← read_cc p;
      if decide (nc_GetNetworkService nsmConnection ≠ cc_GetNetworkService existing) then
        close p false;; mret (true, true)
      else
        b ← lift (checkNeedNSERequest nsmConnection existing dp); mret (b, false)
  end.

Definition request (fuel : nat) (excluded_prefixes : list string) (req : NSMRequest)
    (existingConnection : option positive) : M (result NSMConnection) :=
  match nr_IsValid req with
  | Some e => mret (Err e)
  | None =>
      nsmConnection ← lift (newConnection req);
      id ← match existingConnection with
           | None => createConnectionId
           | Some p => cc ← read_cc p; mret (cc_ConnectionId cc)
           end;
      let nsmConnection := nc_SetId nsmConnection id in
      dp ⇐ srv_SelectDataplane;
      dataplane ← read_dp dp;
      flags ← check_existing nsmConnection existingConnection dataplane;
      let '(requestNSEOnUpdate, closeDataplaneOnNSEFailed) := (flags : bool * bool) in
      dataplane ← read_dp dp;
      m ← updateMechanism nsmConnection req dataplane;
      match m with
      | Err e =>
          (if (closeDataplaneOnNSEFailed : bool) then closeDataplaneLog existingConnection else mret ());;
          mret (Err e)
      | Ok (nsmConnection, req) =>
          _ ⇐ sr_DataplaneConnection (Some dp);
          client ← match existingConnection, (requestNSEOnUpdate : bool) with
                   | Some p, false =>
                       cc ← read_cc p;
                       x ← lift (reuse_destination req nsmConnection cc);
                       modify_cc p (λ cc, cc_set_Xcon cc (Some x));; mret (Ok p)
                   | _, _ =>
                       findConnectNSE fuel excluded_prefixes ∅ None None req nsmConnection existingConnection dp
                   end;
          match client with
          | Err e =>
              (if (closeDataplaneOnNSEFailed : bool) then closeDataplaneLog existingConnection else mret ());;
              mret (Err e)
          | Ok p => finish_request req p existingConnection
          end
      end
  end.

(** [Request]: a known connection id makes it an update of that connection. *)
Definition Request (fuel : nat) (excluded_prefixes : list string) (req : NSMRequest) : M (result NSMConnection) :=
  s ← getS; request fuel excluded_prefixes req (GetClientConnection (st_model s) (nr_GetConnectionId req)).
End nsm.
