(* ===== verification/NsmHeal.v ===== *)
(** * Healing connections

    [Heal] (nsm/nsm_heal.go), the client connection manager
    (services/client_connection_manager.go) and the event loops of the
    monitor client (nsmd/nsmd_crossconnect_client.go) that drive it. *)
From S2P Require Import Prelude GoStrings GoNet ConnectionContext Apis Vni Selector Model NsmState Nsm.
Local Open Scope nsm_scope.

Inductive HealState :=
  | HealState_DstDown
  | HealState_SrcDown
  | HealState_DataplaneDown
  | HealState_DstUpdate.

Section heal.
Context `{Environment}.
Context (fuel : nat) (excluded_prefixes : list string).

(** ** Heal *)
Definition requestOrClose (req : NSMRequest) (p : positive) : M () :=
  r ← request fuel excluded_prefixes req (Some p);
  match r with
  | Err _ => Close p;; mret ()
  | Ok _ => mret ()
  end.

(** The original request with the current source of the connection. *)
Definition heal_request (cc : ClientConnection) : outcome NSMRequest :=
  match cc_Request cc with
  | None => Panic "nil pointer dereference"
  | Some req =>
      match req, cc_GetConnectionSource cc with
      | RemoteReq r, None => Ret (RemoteReq (mkRemoteRequest None (rr_MechanismPreferences r)))
      | LocalReq _, None => Panic "interface conversion"
      | _, Some conn => nr_SetConnection req conn
      end
  end.

Definition heal_close (p : positive) : M () := Close p;; mret ().

Definition heal_DstDown (p : positive) : M () :=
  cc ← read_cc p;
  match cc_Xcon cc ≫= xcon_GetRemoteSource with
  | Some _ => heal_close p
  | None =>
      close p true;;
      cc ← read_cc p;
      match cc_Request cc with
      | None => panic "nil pointer dereference"
      | Some req =>
          r ← request fuel excluded_prefixes req (Some p);
          match r with
          | Err _ =>
              srv_DeleteClientConnection (cc_ConnectionId cc);;
              modify_cc p (λ cc, cc_set_State cc ClientConnection_Closed)
          | Ok _ => mret ()
          end
      end
  end.

Definition heal_DataplaneDown (p : positive) : M () :=
  e ← sr_WaitForDataplaneAvailable;
  match e with
  | Some _ => heal_close p
  | None =>
      srv_UpdateClientConnection p;;
      cc ← read_cc p;
      match cc_Xcon cc ≫= xcon_GetRemoteSource with
      | Some _ => mret ()
      | None => req ← lift (heal_request cc); requestOrClose req p
      end
  end.

Definition heal_DstUpdate (p : positive) : M () :=
  cc ← read_cc p;
  match cc_Request cc with
  | Some _ => req ← lift (heal_request cc); requestOrClose req p
  | None => heal_close p
  end.

(** Only a ready connection is healed; whatever happens, the deferred
    function sets it ready at the end. *)
Definition Heal (p : positive) (healState : HealState) : M () :=
  clientConnection ← read_cc p;
  if decide (cc_ConnectionState clientConnection ≠ ClientConnection_Ready) then mret ()
  else
    modify_cc p (λ cc, cc_set_State cc ClientConnection_Healing);;
    match healState with
    | HealState_DstDown => heal_DstDown p
    | HealState_DataplaneDown => heal_DataplaneDown p
    | HealState_DstUpdate => heal_DstUpdate p
    | HealState_SrcDown => heal_close p
    end;;
    modify_cc p (λ cc, cc_set_State cc ClientConnection_Ready).

(** ** The client connection manager *)
Definition set_source_state (cc : ClientConnection) (st : ConnState) : ClientConnection :=
  match cc_Xcon cc with
  | None => cc
  | Some x =>
      match xcon_Source x with
      | Some (RemoteConn c) => cc_set_Xcon cc (Some (xcon_set_Source x (Some (RemoteConn (rc_set_State c st)))))
      | Some (LocalConn c) => cc_set_Xcon cc (Some (xcon_set_Source x (Some (LocalConn (lc_set_State c st)))))
      | None => cc
      end
  end.
Definition set_destination_state (cc : ClientConnection) (st : ConnState) : ClientConnection :=
  match cc_Xcon cc with
  | None => cc
  | Some x =>
      match xcon_Destination x with
      | Some (LocalConn c) => cc_set_Xcon cc (Some (xcon_set_Destination x (Some (LocalConn (lc_set_State c st)))))
      | Some (RemoteConn c) => cc_set_Xcon cc (Some (xcon_set_Destination x (Some (RemoteConn (rc_set_State c st)))))
      | None => cc
      end
  end.

Definition UpdateClientConnectionSrcStateDown (p : positive) : M () :=
  cc ← read_cc p;
  match cc_Xcon cc ≫= xcon_GetLocalSource with
  | None => panic "nil pointer dereference"
  | Some _ =>
      modify_cc p (λ cc, set_source_state cc State_DOWN);;
      srv_UpdateClientConnection p;;
      Close p;; mret ()
  end.

Definition markSourceConnectionDown (p : positive) : M () :=
  modify_cc p (λ cc, set_source_state cc State_DOWN).

Fixpoint for_each (f : positive → M ()) (ps : list positive) : M () :=
  match ps with
  | [] => mret ()
  | p :: ps => f p;; for_each f ps
  end.

Definition UpdateClientConnectionDataplaneStateDown (clientConnections : list positive) : M () :=
  for_each markSourceConnectionDown clientConnections;;
  for_each (λ p, Heal p HealState_DataplaneDown) clientConnections.

Definition UpdateClientConnectionDstStateDown (p : positive) : M () :=
  modify_cc p (λ cc, set_destination_state cc State_DOWN);;
  srv_UpdateClientConnection p;;
  Heal p HealState_DstDown.

(** [proto.Equal] on remote connections: a nil and an empty map are equal. *)
Definition rc_equal (a b : option RemoteConnection) : bool :=
  match a, b with
  | None, None => true
  | Some a, Some b =>
      bool_decide (rc_set_Mechanism a None = rc_set_Mechanism b None) &&
      match rc_Mechanism a, rc_Mechanism b with
      | None, None => true
      | Some m, Some n => rm_equal m n
      | _, _ => false
      end
  | _, _ => false
  end.

Definition UpdateClientConnectionDstUpdated (p : positive) (remoteConnection : RemoteConnection) : M () :=
  cc ← read_cc p;
  if decide (cc_ConnectionState cc ≠ ClientConnection_Ready) then mret ()
  else if decide (rc_State remoteConnection = State_UP) then mret ()
  else if rc_equal (Some remoteConnection) (cc_Xcon cc ≫= xcon_GetRemoteDestination) then mret ()
  else match cc_Xcon cc with
  | None => panic "nil pointer dereference"
  | Some x =>
      modify_cc p (λ cc, cc_set_Xcon cc (Some (xcon_set_Destination x (Some (RemoteConn remoteConnection)))));;
      Heal p HealState_DstUpdate
  end.

Definition conn_id (c : option NSMConnection) : string := default "" (nc_GetId <$> c).

Definition GetClientConnectionByXcon (xcon : CrossConnect) : M (option positive) :=
  s ← getS; mret (GetClientConnection (st_model s) (conn_id (xcon_Source xcon))).

(** The first connection of the list with the given destination id. *)
Fixpoint find_by_dst (dstId : string) (ps : list positive) : M (option positive) :=
  match ps with
  | [] => mret None
  | p :: ps =>
      cc ← read_cc p;
      if decide (conn_id (cc_Xcon cc ≫= xcon_Destination) = dstId) then mret (Some p)
      else find_by_dst dstId ps
  end.
Definition GetClientConnectionByDst (dstId : string) : M (option positive) :=
  ps ← srv_GetAllClientConnections; find_by_dst dstId ps.

Fixpoint select_by_dataplane (name : string) (ps : list positive) : M (list positive) :=
  match ps with
  | [] => mret []
  | p :: ps =>
      cc ← read_cc p;
      match cc_Dataplane cc with
      | None => panic "nil pointer dereference"
      | Some d =>
          dp ← read_dp d;
          rest ← select_by_dataplane name ps;
          mret (if decide (dp_RegisteredName dp = name) then p :: rest else rest)
      end
  end.
Definition GetClientConnectionsByDataplane (name : string) : M (list positive) :=
  ps ← srv_GetAllClientConnections; select_by_dataplane name ps.

(** ** The monitor client *)
Definition DataplaneDeleted_ (d : positive) : M () :=
  dataplane ← read_dp d;
  clientConnections ← GetClientConnectionsByDataplane (dp_RegisteredName dataplane);
  UpdateClientConnectionDataplaneStateDown clientConnections;;
  s ← getS;
  if decide (dp_RegisteredName dataplane ∈ st_watched s) then
    putS (set_watched s (st_watched s ∖ {[dp_RegisteredName dataplane]}));;
    emit (DataplaneWatchStop (dp_RegisteredName dataplane))
  else panic "nil pointer dereference".

(** The model's [DeleteDataplane] with the listener's reaction. *)
Definition srv_DeleteDataplane (name : string) : M () :=
  s ← getS;
  let '(m, ns) := DeleteDataplane (st_model s) name in
  putS (set_model s m);;
  (fix go (ns : list notification) : M () :=
     match ns with
     | [] => mret ()
     | DataplaneDeleted _ d :: ns => DataplaneDeleted_ d;; go ns
     | n :: ns => mon_notify n;; go ns
     end) ns.

(** One cross connect of an event from a dataplane. *)
Definition handle_dataplane_xcon (t : EventType) (xcon : CrossConnect) : M () :=
  found ← GetClientConnectionByXcon xcon;
  match found with
  | None => mret ()
  | Some p =>
      match t with
      | EVENT_UPDATE =>
          match xcon_GetLocalSource xcon with
          | Some src => if decide (lc_State src = State_DOWN) then UpdateClientConnectionSrcStateDown p else mret ()
          | None => mret ()
          end;;
          match xcon_GetLocalDestination xcon with
          | Some dst => if decide (lc_State dst = State_DOWN) then UpdateClientConnectionDstStateDown p else mret ()
          | None => mret ()
          end;;
          modify_cc p (λ cc, cc_set_Xcon cc (Some xcon));;
          srv_UpdateClientConnection p;;
          emit (CrossConnectUpdate (Some xcon))
      | EVENT_DELETE => emit (CrossConnectDelete (Some xcon))
      | EVENT_INITIAL_STATE_TRANSFER => emit (CrossConnectUpdate (Some xcon))
      end
  end.

(** The cross connects of one event, in the order of the map iteration. *)
Fixpoint handle_dataplane_event (t : EventType) (xcons : list CrossConnect) : M () :=
  match xcons with
  | [] => mret ()
  | x :: xcons => handle_dataplane_xcon t x;; handle_dataplane_event t xcons
  end.

Definition handle_remote_connection (t : EventType) (remoteConnection : RemoteConnection) : M () :=
  found ← GetClientConnectionByDst (rc_Id remoteConnection);
  match found with
  | None => mret ()
  | Some p =>
      match t with
      | EVENT_UPDATE => UpdateClientConnectionDstUpdated p remoteConnection
      | EVENT_DELETE => UpdateClientConnectionDstStateDown p
      | EVENT_INITIAL_STATE_TRANSFER => mret ()
      end
  end.

Fixpoint handle_remote_event (t : EventType) (conns : list RemoteConnection) : M () :=
  match conns with
  | [] => mret ()
  | c :: conns => handle_remote_connection t c;; handle_remote_event t conns
  end.
End heal.
