(* ===== verification/Nsmd.v ===== *)
(** * The daemon's servers (controlplane/pkg/nsmd, controlplane/pkg/remote)

    The gRPC handlers around the manager: the network service servers for
    local clients and for remote managers, the registry server of a
    workspace, the dataplane registrar, and the workspaces.  Handlers that
    use the manager or the model run on its state. *)
From Stdlib Require Import Ascii.
From S2P Require Import Prelude GoStrings GoNet ConnectionContext Apis Vni Selector Model NsmState Nsm NsmHeal.

Section servers.
Context `{Environment}.
Context (fuel : nat) (excluded_prefixes : list string).

(** ** Local clients (network_service_server.go) *)

(** [updateMechanisms]: every preference carries the workspace. *)
Definition updateMechanisms (workspace : string) (request : LocalRequest) : LocalRequest :=
  mkLocalRequest (lr_Connection request)
    ((λ m, mkLocalMechanism (lm_Type m) (Some (<[Workspace_key := workspace]> (default ∅ (lm_Parameters m)))))
       <$> lr_MechanismPreferences request).

Definition local_Request (workspace : string) (request : LocalRequest) : M (result LocalConnection) :=
  let request := updateMechanisms workspace request in
  conn ← Request fuel excluded_prefixes (LocalReq request);
  match conn with
  | Err e => mret (Err e)
  | Ok (LocalConn result) => emit (LocalConnectionUpdate workspace result);; mret (Ok result)
  | Ok (RemoteConn _) => panic "interface conversion"
  end.

Definition local_Close (workspace : string) (connection : LocalConnection) : M (option error) :=
  s ← getS;
  match GetClientConnection (st_model s) (lc_Id connection) with
  | None => mret (Some (Errorf "There is no such client connection %v"))
  | Some clientConnection =>
      Close clientConnection;;
      emit (LocalConnectionDelete workspace connection);;
      mret None
  end.

(** ** Remote managers (remote_network_service_server.go) *)
Definition remote_Request (request : RemoteRequest) : M (result RemoteConnection) :=
  conn ← Request fuel excluded_prefixes (RemoteReq request);
  match conn with
  | Err e => mret (Err e)
  | Ok (RemoteConn result) => emit (ConnectionUpdate result);; mret (Ok result)
  | Ok (LocalConn _) => panic "interface conversion"
  end.

Definition remote_Close (connection : RemoteConnection) : M (option error) :=
  s ← getS;
  match GetClientConnection (st_model s) (rc_Id connection) with
  | None => mret (Some (Errorf "There is no such client connection %v"))
  | Some clientConnection =>
      Close clientConnection;;
      emit (ConnectionDelete connection);;
      mret None
  end.

(** ** The workspace registry (workspace_registry.go) *)
Definition AddEndpointToWorkspace (ws : string) (endpoint : option NetworkServiceEndpoint) : M () :=
  s ← getS;
  putS (set_workspaces s (<[default "" (nse_EndpointName <$> endpoint) := ws]> (st_workspaces s))).
Definition DeleteEndpointToWorkspace (endpointName : string) : M () :=
  s ← getS; putS (set_workspaces s (delete endpointName (st_workspaces s))).

(** ** The registry server of a workspace (registry.go) *)

(** A new object for a registration that arrived from the registry. *)
Definition alloc_ref (r : NSERegistration) : M reg_ref :=
  s ← getS;
  putS (set_conns s (st_conns s) (Pos.succ (st_next s)));;
  mret (mkRegRef (st_next s) r).

Definition RegisterNSE (workspace publicAPI : string) (request : NSERegistration) : M (result NSERegistration) :=
  dial ← ask env_DialRegistry DialRegistry;
  match dial with
  | Some e => mret (Err (Wrapf "attempt to connect to upstream registry failed with: %v" e))
  | None =>
      let request := mkNSERegistration (reg_NetworkService request)
        (Some (mkNetworkServiceManager "" publicAPI None "")) (reg_NetworkserviceEndpoint request) in
      res ← ask (λ h, env_RegisterNSE h request) (RegistryRegisterNSE request);
      match res with
      | Err e => mret (Err (Wrapf "attempt to pass through from nsm to upstream registry failed with: %v" e))
      | Ok registration =>
          s ← getS;
          let ep := GetEndpoint (st_model s) (reg_EndpointName registration) in
          match ep with
          | None =>
              ref ← alloc_ref registration;
              run_model (λ m, AddEndpoint m ref);;
              AddEndpointToWorkspace workspace (reg_NetworkserviceEndpoint registration)
          | Some _ => mret ()
          end;;
          AddEndpointToWorkspace workspace (ep ≫= λ r, reg_NetworkserviceEndpoint (ref_val r));;
          mret (Ok registration)
      end
  end.

Definition RemoveNSE (endpointName : string) : M (option error) :=
  dial ← ask env_DialRegistry DialRegistry;
  match dial with
  | Some e => mret (Some (Wrapf "attempt to pass through from nsm to upstream registry failed with: %v" e))
  | None =>
      e ← ask (λ h, env_RemoveNSE h endpointName) (RegistryRemoveNSE endpointName);
      match e with
      | Some e => mret (Some (Wrapf "attempt to pass through from nsm to upstream registry failed with: %v" e))
      | None =>
          DeleteEndpointToWorkspace endpointName;;
          s ← getS;
          let '(m, ns, err) := DeleteEndpoint (st_model s) endpointName in
          putS (set_model s m);; mon_notify_all ns;;
          mret err
      end
  end.

(** ** The dataplane registrar (dataplanes.go) *)

(** A dataplane is looked for by name among all of them. *)
Definition dataplane_registered (s : nsm_state) (name : string) : bool :=
  bool_decide (is_Some (GetDataplane (λ d, dp_RegisteredName <$> st_dps s !! d)
                          (env_dataplane_order (st_log s) (m_dataplanes (st_model s))) name)).

(** The reply and the error. *)
Definition RequestDataplaneRegistration (name socket : string) : M (bool * option error) :=
  s ← getS;
  if dataplane_registered s name then
    mret (false, Some (Errorf "dataplane with name %s already registered"))
  else
    d ← alloc_dp (mkDataplane name socket [] []);
    run_model (λ m, AddDataplane m name d);;
    mret (true, None).

Definition RequestDataplaneUnRegistration (name : string) : M bool :=
  srv_DeleteDataplane fuel excluded_prefixes name;; mret true.

(** What the goroutine [dataplaneMonitor] of a dataplane does when the stream
    of mechanisms delivers an update or an error. *)
Definition dataplane_update (d : positive) (locals : list LocalMechanism) (remotes : list RemoteMechanism) : M () :=
  dp ← read_dp d;
  s ← getS;
  putS (set_dps s (<[d := mkDataplane (dp_RegisteredName dp) (dp_SocketLocation dp) locals remotes]> (st_dps s)) (st_next s)).
Definition dataplane_lost (name : string) : M () := srv_DeleteDataplane fuel excluded_prefixes name.

(** ** The manager's own name (nsmd.go) *)
Definition setLocalNSM (publicAPI : string) : M (option error) :=
  dial ← ask env_DialRegistry DialRegistry;
  match dial with
  | Some e => mret (Some (Wrapf "Failed to get RegistryClient: %s" e))
  | None =>
      let r := mkNSERegistration None (Some (mkNetworkServiceManager "" publicAPI None "")) None in
      res ← ask (λ h, env_RegisterNSE h r) (RegistryRegisterNSE r);
      match res with
      | Err e => mret (Some (Wrapf "Failed to get my own NetworkServiceManager: %s" e))
      | Ok nsm =>
          s ← getS; putS (set_model s (SetNsm (st_model s) (reg_NetworkServiceManager nsm)));; mret None
      end
  end.
End servers.

(** ** Workspaces (workspace.go, serviceregistry.go) *)
Record WorkspaceLocationProvider := mkProvider {
  wp_HostBaseDir : string;
  wp_NsmBaseDir : string;
  wp_ClientBaseDir : string;
  wp_NsmServerSocket : string;
  wp_NsmClientSocket : string
}.
Fixpoint last_char (s : string) : option Ascii.ascii :=
  match s with
  | EmptyString => None
  | String c EmptyString => Some c
  | String _ s => last_char s
  end.
(** The slice of an empty root directory is out of range. *)
Definition NewWorkspaceProvider (rootDir : string) : outcome WorkspaceLocationProvider :=
  match last_char rootDir with
  | None => Panic "slice bounds out of range"
  | Some c =>
      let rootDir := if Ascii.eqb c "/"%char then rootDir else rootDir +:+ "/" in
      Ret (mkProvider rootDir rootDir rootDir "nsm.server.io.sock" "nsm.client.io.sock")
  end.
Definition NewDefaultWorkspaceProvider : outcome WorkspaceLocationProvider :=
  NewWorkspaceProvider "/var/lib/networkservicemesh/".

Inductive WorkspaceState := WS_NEW | WS_RUNNING | WS_CLOSED.
#[global] Instance WorkspaceState_eq_dec : EqDecision WorkspaceState.
Proof. solve_decision. Defined.

(** What the workspace holds of the operating system. *)
Record Workspace := mkWorkspace {
  ws_name : string;
  ws_state : WorkspaceState;
  ws_provider : WorkspaceLocationProvider;
  ws_directory : bool;       (* the directory exists *)
  ws_listening : bool;       (* the listener is open *)
  ws_serving : bool          (* the gRPC server runs *)
}.
Definition ws_NsmDirectory (w : Workspace) : string := wp_NsmBaseDir (ws_provider w) +:+ ws_name w.
Definition ws_HostDirectory (w : Workspace) : string := wp_NsmBaseDir (ws_provider w) +:+ ws_name w.
Definition ws_ClientDirectory (w : Workspace) : string := wp_ClientBaseDir (ws_provider w).
Definition ws_NsmServerSocket (w : Workspace) : string := ws_NsmDirectory w +:+ "/" +:+ wp_NsmServerSocket (ws_provider w).
Definition ws_NsmClientSocket (w : Workspace) : string := ws_NsmDirectory w +:+ "/" +:+ wp_NsmClientSocket (ws_provider w).

Definition cleanup (w : Workspace) : Workspace :=
  if decide (ws_state w = WS_RUNNING) then w
  else mkWorkspace (ws_name w) (ws_state w) (ws_provider w)
         (if decide (ws_NsmDirectory w = "") then ws_directory w else false) false false.
Definition ws_Close (w : Workspace) : Workspace :=
  cleanup (mkWorkspace (ws_name w) WS_CLOSED (ws_provider w) (ws_directory w) (ws_listening w) (ws_serving w)).

(** [NewWorkSpace]: the workspace object after the deferred [cleanup], and
    what the caller gets.  The arguments are the errors of making the
    directory, of the listener, and of the check of the socket. *)
Definition NewWorkSpace (provider : WorkspaceLocationProvider) (mkdir listen check : option error) (name : string) :
    Workspace * result Workspace :=
  let w := mkWorkspace name WS_NEW provider in
  match mkdir with
  | Some e => (cleanup (w false false false), Err e)
  | None =>
      match listen with
      | Some e => (cleanup (w true false false), Err e)
      | None =>
          let running := mkWorkspace name WS_RUNNING provider true true true in
          match check with
          | Some e => (cleanup running, Err e)
          | None => (cleanup running, Ok running)
          end
      end
  end.

(** ** The server of workspaces (nsmd.go) *)
Record nsmServer := mkNsmServer { srv_workspaces : gmap string Workspace }.
Record ClientConnectionReply := mkReply {
  reply_Workspace : string;
  reply_HostBasedir : string;
  reply_ClientBaseDir : string;
  reply_NsmServerSocket : string;
  reply_NsmClientSocket : string
}.
(** The result of [NewWorkSpace] is an argument. *)
Definition RequestClientConnection (nsm : nsmServer) (new : result Workspace) :
    nsmServer * result ClientConnectionReply :=
  match new with
  | Err e => (nsm, Err e)
  | Ok w =>
      (mkNsmServer (<[ws_name w := w]> (srv_workspaces nsm)),
       Ok (mkReply (ws_name w) (wp_HostBaseDir (ws_provider w)) (wp_ClientBaseDir (ws_provider w))
             (wp_NsmServerSocket (ws_provider w)) (wp_NsmClientSocket (ws_provider w))))
  end.
(** The workspaces, the closed one, and the error. *)
Definition nsmd_DeleteClientConnection (nsm : nsmServer) (socket : string) : nsmServer * option Workspace * option error :=
  match srv_workspaces nsm !! socket with
  | None => (nsm, None, Some (Errorf "no connection exists for workspace %s"))
  | Some workspace =>
      (mkNsmServer (delete socket (srv_workspaces nsm)), Some (ws_Close workspace), None)
  end.
(** [make] with the length as well as the capacity gives a slice that is
    already full of empty strings. *)
Definition EnumConnection (nsm : nsmServer) (order : list (string * Workspace)) : list string :=
  replicate (size (srv_workspaces nsm)) "" ++ order.*1.

(** ** Configuration and probes (nsmd.go, utils.go, probes.go) *)
Definition GetExcludedPrefixes (env : option string) : list string :=
  match env with
  | None => []
  | Some v => TrimSpace <$> Split v ","%char
  end.

Definition ip_IsLoopback (ip : IP) : bool :=
  match To4 ip with
  | [] => bool_decide (ip = replicate 15 0 ++ [1])
  | b :: _ => b =? 127
  end.
(** [addrs] is the answer of [net.InterfaceAddrs]; addresses that are not
    networks are [None]. *)
Fixpoint first_address (addrs : list (option IPNet)) : string :=
  match addrs with
  | [] => "127.0.0.1"
  | Some n :: addrs =>
      if ip_IsLoopback (net_IP n) then first_address addrs
      else match To4 (net_IP n) with
           | [] => first_address addrs
           | _ => ip_String (net_IP n)
           end
  | None :: addrs => first_address addrs
  end.
Definition GetLocalIPAddress (addrs : result (list (option IPNet))) : string :=
  match addrs with Err _ => "127.0.0.1" | Ok addrs => first_address addrs end.
Definition GetPublicAPI (addrs : result (list (option IPNet))) : string := GetLocalIPAddress addrs +:+ ":5001".

Record probes := mkProbes { dpStatusOK : bool; nsmStatusOK : bool; apiStatusOK : bool }.
Definition SetDPServerFailed (p : probes) : probes := mkProbes false (nsmStatusOK p) (apiStatusOK p).
Definition SetNSMServerFailed (p : probes) : probes := mkProbes (dpStatusOK p) false (apiStatusOK p).
Definition SetAPIServerFailed (p : probes) : probes := mkProbes (dpStatusOK p) (nsmStatusOK p) false.
(** The status code. *)
Definition readiness (p : probes) : Z := if dpStatusOK p && nsmStatusOK p && apiStatusOK p then 200 else 503.
