(* ===== verification/NsmLemmas.v ===== *)
(** * Reasoning about the manager

    Weakest preconditions for the state monad, preservation of a preorder by
    every operation, and the two facts used throughout: the tables only point
    to live objects ([table_ok]), and what the operations leave alone. *)
From S2P Require Import Prelude GoStrings GoNet ConnectionContext Apis Vni Selector Model NsmState Nsm NsmHeal Nsmd.

(** ** Weakest preconditions; a panic satisfies every postcondition. *)
Definition wp {A} (m : M A) (Q : nsm_state → A → Prop) (s : nsm_state) : Prop :=
  match m s with Ret (s', a) => Q s' a | Panic _ => True end.

Lemma wp_Ret {A} (m : M A) Q s s' a : wp m Q s → m s = Ret (s', a) → Q s' a.
Proof. unfold wp. intros Hw E. by rewrite E in Hw. Qed.

Lemma wp_intro {A} (m : M A) (Q : nsm_state → A → Prop) s :
  (∀ s' a, m s = Ret (s', a) → Q s' a) → wp m Q s.
Proof. unfold wp. destruct (m s) as [[s' a]|]; eauto. Qed.

Lemma wp_bind {A B} (m : M A) (f : A → M B) Q s :
  wp m (λ s' a, wp (f a) Q s') s → wp (m ≫= f) Q s.
Proof.
  unfold wp. change ((m ≫= f) s) with (match m s with Ret (s', a) => f a s' | Panic w => Panic w end).
  by destruct (m s) as [[s' a]|].
Qed.

Lemma wp_bindR {A B} (m : M (result A)) (f : A → M (result B)) Q s :
  wp m (λ s' r, match r with Ok a => wp (f a) Q s' | Err e => Q s' (Err e) end) s → wp (bindR m f) Q s.
Proof.
  intros Hm. apply wp_bind. revert Hm. unfold wp at 1 3. destruct (m s) as [[s' [a|e]]|]; done.
Qed.

Lemma wp_mono {A} (m : M A) (Q Q' : nsm_state → A → Prop) s :
  wp m Q s → (∀ s' a, Q s' a → Q' s' a) → wp m Q' s.
Proof. unfold wp. destruct (m s) as [[s' a]|]; eauto. Qed.

Lemma read_cc_eq p s :
  read_cc p s = match st_conns s !! p with Some cc => Ret (s, cc) | None => Panic "nil pointer dereference" end.
Proof. unfold read_cc, mbind, M_bind, getS. by destruct (st_conns s !! p). Qed.
Lemma read_dp_eq p s :
  read_dp p s = match st_dps s !! p with Some d => Ret (s, d) | None => Panic "nil pointer dereference" end.
Proof. unfold read_dp, mbind, M_bind, getS. by destruct (st_dps s !! p). Qed.

Lemma wp_ask {A} (answer : history → A) (c : A → call) Q s :
  Q (set_log s (c (answer (st_log s)) :: st_log s)) (answer (st_log s)) → wp (ask answer c) Q s.
Proof. done. Qed.

(** ** Operations within a preorder on states *)
Definition within (R : nsm_state → nsm_state → Prop) {A} (m : M A) : Prop :=
  ∀ s, wp m (λ s' _, R s s') s.

Section within.
Context (R : nsm_state → nsm_state → Prop) `{!PreOrder R}.

Lemma within_Ret {A} (m : M A) s s' a : within R m → m s = Ret (s', a) → R s s'.
Proof. intros Hm E. by apply (wp_Ret _ _ _ _ _ (Hm s)) in E. Qed.

Lemma G_ret {A} (a : A) s : wp (mret a) (λ s' _, R s s') s.
Proof. cbn. reflexivity. Qed.
Lemma G_panic {A} w s : wp (panic w : M A) (λ s' _, R s s') s.
Proof. done. Qed.
Lemma G_getS {A} (k : nsm_state → M A) s :
  wp (k s) (λ s' _, R s s') s → wp (getS ≫= k) (λ s' _, R s s') s.
Proof. done. Qed.
Lemma G_put s s' : R s s' → wp (putS s') (λ s' _, R s s') s.
Proof. done. Qed.
Lemma G_lift {A} (m : outcome A) s : wp (lift m) (λ s' _, R s s') s.
Proof. unfold wp, lift. destruct m; [reflexivity|done]. Qed.
Lemma G_bind {A B} (m : M A) (f : A → M B) s :
  wp m (λ s' _, R s s') s → (∀ a s', wp (f a) (λ s'' _, R s' s'') s') → wp (m ≫= f) (λ s' _, R s s') s.
Proof.
  intros Hm Hf. apply wp_bind. eapply wp_mono; [exact Hm|]. intros s' a Hs. cbn in Hs.
  eapply wp_mono; [apply Hf|]. intros s'' b Hs'. cbn in *. by transitivity s'.
Qed.
Lemma G_bindR {A B} (m : M (result A)) (f : A → M (result B)) s :
  wp m (λ s' _, R s s') s → (∀ a s', wp (f a) (λ s'' _, R s' s'') s') → wp (bindR m f) (λ s' _, R s s') s.
Proof. intros Hm Hf. apply G_bind; [done|]. intros [a|e] s'; [apply Hf|apply G_ret]. Qed.
Lemma G_read {B} p (f : ClientConnection → M B) s :
  (∀ cc, st_conns s !! p = Some cc → wp (f cc) (λ s' _, R s s') s) → wp (read_cc p ≫= f) (λ s' _, R s s') s.
Proof.
  intros Hf. apply wp_bind. unfold wp at 1. rewrite read_cc_eq.
  destruct (st_conns s !! p) as [cc|] eqn:E; [|exact I]. by apply Hf.
Qed.
Lemma G_read_dp {B} p (f : Dataplane → M B) s :
  (∀ dp, st_dps s !! p = Some dp → wp (f dp) (λ s' _, R s s') s) → wp (read_dp p ≫= f) (λ s' _, R s s') s.
Proof.
  intros Hf. apply wp_bind. unfold wp at 1. rewrite read_dp_eq.
  destruct (st_dps s !! p) as [dp|] eqn:E; [|exact I]. by apply Hf.
Qed.
End within.

(** [G_step] takes one step of a proof that an operation stays within a
    preorder; calls of other operations are left to the hint database. *)
Create HintDb within discriminated.
Ltac G_step :=
  first
  [ match goal with |- wp (mret _) _ _ => apply G_ret; exact _ end
  | match goal with |- wp (panic _) _ _ => apply G_panic end
  | match goal with |- wp (lift _) _ _ => apply G_lift; exact _ end
  | match goal with |- wp (getS ≫= _) _ _ => apply G_getS end
  | match goal with |- wp (read_cc _ ≫= _) _ _ => apply G_read; intros ? ? end
  | match goal with |- wp (read_dp _ ≫= _) _ _ => apply G_read_dp; intros ? ? end
  | match goal with |- wp (mbind _ _) _ _ => apply G_bind; [exact _| |intros ? ?] end
  | match goal with |- wp (bindR _ _) _ _ => apply G_bindR; [exact _| |intros ? ?] end
  | match goal with |- wp (match ?x with _ => _ end) _ _ => destruct x end
  | match goal with |- wp (match ?x with _ => _ end _) _ _ => destruct x end
  | match goal with |- wp (putS _) _ _ => apply G_put end
  | match goal with |- wp _ _ ?s => solve [match goal with |- wp ?m (λ s' _, ?R ?s s') ?s => apply (fun H : within R m => H s) end; eauto with within] end ].
Ltac G_auto :=
  intros; try match goal with |- within _ _ => intro end; cbv zeta; repeat G_step; eauto with within.

(** ** What the operations write

    The writes that every operation before the connection table consists of
    ([BasicSteps]), and the remaining ones ([FullSteps]). *)
Definition benign (f : ClientConnection → ClientConnection) : Prop := ∀ cc,
  cc_ConnectionId (f cc) = cc_ConnectionId cc ∧ cc_Dataplane (f cc) = cc_Dataplane cc ∧
  cc_RemoteNsm (f cc) = cc_RemoteNsm cc ∧ cc_Endpoint (f cc) = cc_Endpoint cc.

(** The events that start and stop the watcher of a peer. *)
Definition is_watch (c : call) : bool :=
  match c with PeerWatchStart _ | PeerWatchStop _ => true | _ => false end.

Class BasicSteps (R : nsm_state → nsm_state → Prop) := {
  bs_preorder :: PreOrder R;
  bs_log s c : is_watch c = false → R s (set_log s (c :: st_log s));
  bs_modify s p cc f : st_conns s !! p = Some cc → benign f →
    R s (set_conns s (<[p := f cc]> (st_conns s)) (st_next s));
  bs_alloc s cc : is_Some (cc_Dataplane cc) →
    R s (set_conns s (<[st_next s := cc]> (st_conns s)) (Pos.succ (st_next s)));
  bs_vni s v : R s (set_vni s v);
  bs_selector s x : R s (set_model s (set_selector (st_model s) x));
  bs_id s n : R s (set_model s (set_lastConnectionId (st_model s) n))
}.

Class FullSteps (R : nsm_state → nsm_state → Prop) := {
  fs_basic :: BasicSteps R;
  fs_insert s p cc : st_conns s !! p = Some cc →
    R s (set_model s (set_clientConnections (st_model s)
           (<[cc_ConnectionId cc := p]> (m_clientConnections (st_model s)))));
  fs_delete s id : R s (set_model s (set_clientConnections (st_model s) (delete id (m_clientConnections (st_model s)))));
  fs_alloc_dp s d : R s (set_dps s (<[st_next s := d]> (st_dps s)) (Pos.succ (st_next s)));
  fs_insert_dp s d dp : st_dps s !! d = Some dp →
    R s (set_model s (set_dataplanes (st_model s) (<[dp_RegisteredName dp := d]> (m_dataplanes (st_model s)))));
  fs_delete_dp s name : R s (set_model s (set_dataplanes (st_model s) (delete name (m_dataplanes (st_model s)))));
  fs_add_endpoint s r : m_endpoints (st_model s) !! reg_EndpointName r = None →
    R s (set_model (set_conns s (st_conns s) (Pos.succ (st_next s)))
           (AddEndpoint (st_model s) (mkRegRef (st_next s) r)).1);
  fs_delete_endpoint s name : R s (set_model s (DeleteEndpoint (st_model s) name).1.1);
  fs_watched s w : R s (set_watched s w);
  fs_workspaces s w : R s (set_workspaces s w);
  fs_nsm s n : R s (set_model s (SetNsm (st_model s) n));
  fs_update_dp s d dp dp' : st_dps s !! d = Some dp → dp_RegisteredName dp' = dp_RegisteredName dp →
    R s (set_dps s (<[d := dp']> (st_dps s)) (st_next s));
  fs_added p : within R (mon_ClientConnectionAdded p);
  fs_deleted p : within R (mon_ClientConnectionDeleted p)
}.


Lemma benign_Xcon x : benign (λ cc, cc_set_Xcon cc x).
Proof. by intros []. Qed.
Lemma benign_State x : benign (λ cc, cc_set_State cc x).
Proof. by intros []. Qed.
Lemma benign_Request x : benign (λ cc, cc_set_Request cc x).
Proof. by intros []. Qed.
Lemma benign_source st : benign (λ cc, set_source_state cc st).
Proof. intros cc. unfold set_source_state. repeat case_match; by destruct cc. Qed.
Lemma benign_destination st : benign (λ cc, set_destination_state cc st).
Proof. intros cc. unfold set_destination_state. repeat case_match; by destruct cc. Qed.
#[export] Hint Resolve benign_Xcon benign_State benign_Request benign_source benign_destination : within.

#[export] Hint Extern 1 (is_watch _ = false) => reflexivity : within.
#[export] Hint Extern 0 (BasicSteps _) => exact _ : within.
#[export] Hint Extern 0 (FullSteps _) => exact _ : within.

Section basic.
Context (R : nsm_state → nsm_state → Prop) `{!BasicSteps R} `{!Environment}.

Lemma emit_within c : is_watch c = false → within R (emit c).
Proof. unfold emit. G_auto. by apply bs_log. Qed.
Hint Resolve emit_within : within.
Lemma ask_within {A} (answer : list call → A) c : (∀ a, is_watch (c a) = false) → within R (ask answer c).
Proof. unfold ask. G_auto. Qed.
Hint Resolve ask_within : within.
Lemma modify_cc_within p f : benign f → within R (modify_cc p f).
Proof.
  intros Hf s. unfold modify_cc, write_cc. apply G_read; intros cc Hcc. G_auto. by apply bs_modify.
Qed.
Hint Resolve modify_cc_within : within.
Lemma alloc_cc_within cc : is_Some (cc_Dataplane cc) → within R (alloc_cc cc).
Proof. unfold alloc_cc. G_auto. by apply bs_alloc. Qed.
Lemma createConnectionId_within : within R createConnectionId.
Proof. unfold createConnectionId, ConnectionId. G_auto. apply bs_id. Qed.
Hint Resolve createConnectionId_within : within.
Lemma read_cc_within p : within R (read_cc p).
Proof. intros s. unfold wp. rewrite read_cc_eq. by destruct (st_conns s !! p). Qed.
Lemma read_dp_within p : within R (read_dp p).
Proof. intros s. unfold wp. rewrite read_dp_eq. by destruct (st_dps s !! p). Qed.
Lemma srv_SelectDataplane_within : within R srv_SelectDataplane.
Proof. unfold srv_SelectDataplane. G_auto. Qed.
Lemma sr_DataplaneConnection_within d : within R (sr_DataplaneConnection d).
Proof. unfold sr_DataplaneConnection. G_auto. Qed.
Lemma sr_EndpointConnection_within e : within R (sr_EndpointConnection e).
Proof. unfold sr_EndpointConnection. G_auto. Qed.
Lemma sr_RemoteNetworkServiceClient_within n : within R (sr_RemoteNetworkServiceClient n).
Proof. unfold sr_RemoteNetworkServiceClient. G_auto. Qed.
Hint Resolve srv_SelectDataplane_within sr_DataplaneConnection_within sr_EndpointConnection_within
  sr_RemoteNetworkServiceClient_within : within.
Lemma isLocalEndpoint_within e : within R (isLocalEndpoint e).
Proof. unfold isLocalEndpoint, getNetworkServiceManagerName. G_auto. Qed.
Hint Resolve isLocalEndpoint_within : within.
Lemma createNSEClient_within e : within R (createNSEClient e).
Proof. unfold createNSEClient. G_auto. Qed.
Lemma selectRemoteMechanism_within r dp : within R (selectRemoteMechanism r dp).
Proof. unfold selectRemoteMechanism. G_auto. apply bs_vni. Qed.
Hint Resolve createNSEClient_within selectRemoteMechanism_within : within.
Lemma updateMechanism_within c r dp : within R (updateMechanism c r dp).
Proof. unfold updateMechanism. G_auto. Qed.
Lemma client_Request_within c m : within R (client_Request c m).
Proof. unfold client_Request. G_auto. Qed.
Lemma client_Close_within c m : within R (client_Close c m).
Proof. unfold client_Close. G_auto. Qed.
Hint Resolve updateMechanism_within client_Request_within client_Close_within : within.
Lemma createRemoteNSMRequest_within e c d x : within R (createRemoteNSMRequest e c d x).
Proof. unfold createRemoteNSMRequest, getNetworkServiceManagerName. G_auto. Qed.
Lemma createLocalNSERequest_within e c : within R (createLocalNSERequest e c).
Proof. unfold createLocalNSERequest. G_auto. Qed.
Lemma closeDataplane_within p : within R (closeDataplane p).
Proof. unfold closeDataplane. G_auto. Qed.
Hint Resolve createRemoteNSMRequest_within createLocalNSERequest_within closeDataplane_within : within.
Lemma closeDataplaneLog_within p : within R (closeDataplaneLog p).
Proof. unfold closeDataplaneLog. G_auto. Qed.
Lemma close_destination_within c x : within R (close_destination c x).
Proof. unfold close_destination. G_auto. Qed.
Lemma getEndpoint_within c i : within R (getEndpoint c i).
Proof. unfold getEndpoint. G_auto. apply bs_selector. Qed.
Lemma updateConnectionParameters_within c e : within R (updateConnectionParameters c e).
Proof. unfold updateConnectionParameters. G_auto. Qed.
Lemma createCrossConnect_within a b c d : within R (createCrossConnect a b c d).
Proof. unfold createCrossConnect. G_auto. Qed.
Hint Resolve closeDataplaneLog_within close_destination_within getEndpoint_within
  updateConnectionParameters_within createCrossConnect_within : within.
Lemma performNSERequest_within e c r d x : within R (performNSERequest e c r d x).
Proof. unfold performNSERequest. G_auto. apply alloc_cc_within. by eexists. Qed.
Lemma previous_endpoint_within x i : within R (previous_endpoint x i).
Proof. unfold previous_endpoint. G_auto. Qed.
Hint Resolve performNSERequest_within previous_endpoint_within : within.
Lemma findConnectNSE_within fuel ex i e l r c x d : within R (findConnectNSE fuel ex i e l r c x d).
Proof. revert i e l; induction fuel as [|fuel IH]; intros i e l; cbn [findConnectNSE]; G_auto. Qed.
Lemma program_dataplane_within p : within R (program_dataplane p).
Proof. unfold program_dataplane. G_auto. Qed.
(** A close that keeps the dataplane keeps the entry of the table too. *)
Lemma close_keep_within p : within R (close p false).
Proof.
  unfold close. change (if false then ?a else ?b) with b. G_auto.
Qed.
Hint Resolve close_keep_within : within.
Lemma check_existing_basic c e d : within R (check_existing c e d).
Proof. unfold check_existing. G_auto. Qed.
End basic.

#[export] Hint Resolve read_cc_within read_dp_within emit_within ask_within modify_cc_within alloc_cc_within createConnectionId_within
  srv_SelectDataplane_within sr_DataplaneConnection_within sr_EndpointConnection_within
  sr_RemoteNetworkServiceClient_within isLocalEndpoint_within createNSEClient_within
  selectRemoteMechanism_within updateMechanism_within client_Request_within client_Close_within
  createRemoteNSMRequest_within createLocalNSERequest_within closeDataplane_within
  closeDataplaneLog_within close_destination_within getEndpoint_within
  updateConnectionParameters_within createCrossConnect_within performNSERequest_within
  previous_endpoint_within findConnectNSE_within program_dataplane_within check_existing_basic : within.

Section full.
Context (R : nsm_state → nsm_state → Prop) `{!FullSteps R} `{!Environment}.

Lemma mon_notify_within n : within R (mon_notify n).
Proof.
  destruct n; cbn [mon_notify];
    unfold mon_ClientConnectionUpdated, mon_DataplaneAdded; G_auto; apply fs_added || apply fs_deleted || apply fs_watched.
Qed.
Hint Resolve mon_notify_within : within.
Lemma mon_notify_all_within ns : within R (mon_notify_all ns).
Proof. induction ns; cbn [mon_notify_all]; G_auto. Qed.
Hint Resolve mon_notify_all_within : within.

Lemma srv_AddClientConnection_within p : within R (srv_AddClientConnection p).
Proof.
  unfold srv_AddClientConnection, run_model, AddClientConnection. G_auto. by apply fs_insert.
Qed.
Lemma srv_UpdateClientConnection_within p : within R (srv_UpdateClientConnection p).
Proof.
  unfold srv_UpdateClientConnection, run_model, UpdateClientConnection. G_auto. by apply fs_insert.
Qed.
Lemma srv_DeleteClientConnection_within id : within R (srv_DeleteClientConnection id).
Proof.
  unfold srv_DeleteClientConnection, run_model. intros s. apply G_getS. unfold DeleteClientConnection.
  destruct (m_clientConnections (st_model s) !! id); G_auto; [apply fs_delete|]. destruct s; reflexivity.
Qed.
Hint Resolve srv_AddClientConnection_within srv_UpdateClientConnection_within
  srv_DeleteClientConnection_within : within.

Lemma close_within p b : within R (close p b).
Proof. unfold close. G_auto. Qed.
Hint Resolve close_within : within.
Lemma Close_within p : within R (Close p).
Proof. unfold Close. G_auto. Qed.
Hint Resolve Close_within : within.
Lemma program_or_close_within p : within R (program_or_close p).
Proof. unfold program_or_close. G_auto. Qed.
Hint Resolve program_or_close_within : within.
Lemma finish_request_within r p e : within R (finish_request r p e).
Proof. unfold finish_request, return_source. G_auto. Qed.
Hint Resolve finish_request_within : within.
Lemma request_within fuel ex r e : within R (request fuel ex r e).
Proof. unfold request. G_auto. Qed.
Hint Resolve request_within : within.
Lemma Request_within fuel ex r : within R (Request fuel ex r).
Proof. unfold Request. G_auto. Qed.

Lemma register_dataplane_within {A} dataplane (k : M A) : within R k →
  within R (d ← alloc_dp dataplane; run_model (λ m, AddDataplane m (dp_RegisteredName dataplane) d);; k).
Proof.
  intros Hk s. apply wp_bind.
  set (s1 := set_dps s (<[st_next s := dataplane]> (st_dps s)) (Pos.succ (st_next s))).
  change (wp (run_model (λ m, AddDataplane m (dp_RegisteredName dataplane) (st_next s));; k) (λ s' _, R s s') s1).
  assert (R s s1) as H1 by apply fs_alloc_dp.
  assert (st_dps s1 !! st_next s = Some dataplane) as Hd by apply lookup_insert_eq.
  apply (fs_insert_dp (R:=R)) in Hd.
  apply wp_mono with (λ s' _, R s1 s'); [unfold run_model, AddDataplane; G_auto; exact Hd|].
  intros s' a Hs. cbn in *. by transitivity s1.
Qed.
Lemma sr_WaitForDataplaneAvailable_within : within R sr_WaitForDataplaneAvailable.
Proof.
  unfold sr_WaitForDataplaneAvailable. intros s.
  apply G_bind; [exact _|G_auto|]. intros [d|e] s1; [G_auto|].
  apply G_bind; [exact _|G_auto|]. intros [dp|] s2; [|G_auto].
  apply (register_dataplane_within dp (mret None)). G_auto.
Qed.
Hint Resolve sr_WaitForDataplaneAvailable_within : within.
Lemma Heal_within fuel ex p h : within R (Heal fuel ex p h).
Proof.
  unfold Heal, heal_DstDown, heal_DataplaneDown, heal_DstUpdate, heal_close, requestOrClose. G_auto.
Qed.
Hint Resolve Heal_within : within.
Lemma for_each_within f ps : (∀ p, within R (f p)) → within R (for_each f ps).
Proof. intros Hf. induction ps; cbn [for_each]; G_auto. Qed.
Hint Resolve for_each_within : within.

Lemma Src_down_within p : within R (UpdateClientConnectionSrcStateDown p).
Proof. unfold UpdateClientConnectionSrcStateDown. G_auto. Qed.
Lemma Dst_down_within fuel ex p : within R (UpdateClientConnectionDstStateDown fuel ex p).
Proof. unfold UpdateClientConnectionDstStateDown. G_auto. Qed.
Lemma Dst_updated_within fuel ex p c : within R (UpdateClientConnectionDstUpdated fuel ex p c).
Proof. unfold UpdateClientConnectionDstUpdated. G_auto. Qed.
Lemma find_by_dst_within id ps : within R (find_by_dst id ps).
Proof. induction ps; cbn [find_by_dst]; G_auto. Qed.
Lemma select_by_dataplane_within name ps : within R (select_by_dataplane name ps).
Proof. induction ps; cbn [select_by_dataplane]; G_auto. Qed.
Hint Resolve Src_down_within Dst_down_within Dst_updated_within find_by_dst_within select_by_dataplane_within : within.
Lemma DataplaneDeleted_within fuel ex d : within R (DataplaneDeleted_ fuel ex d).
Proof.
  unfold DataplaneDeleted_, GetClientConnectionsByDataplane, srv_GetAllClientConnections,
    UpdateClientConnectionDataplaneStateDown, markSourceConnectionDown. G_auto. apply fs_watched.
Qed.
Hint Resolve DataplaneDeleted_within : within.
Lemma srv_DeleteDataplane_within fuel ex name : within R (srv_DeleteDataplane fuel ex name).
Proof.
  unfold srv_DeleteDataplane. intros s. apply G_getS. unfold DeleteDataplane.
  destruct (m_dataplanes (st_model s) !! name); G_auto; [apply fs_delete_dp| |destruct s; reflexivity].
  revert s'. induction (_ <$> _) as [|n ns IH]; G_auto.
Qed.
Lemma handle_dataplane_event_within fuel ex t xs : within R (handle_dataplane_event fuel ex t xs).
Proof.
  induction xs; cbn [handle_dataplane_event]; unfold handle_dataplane_xcon, GetClientConnectionByXcon; G_auto.
Qed.
Lemma handle_remote_event_within fuel ex t cs : within R (handle_remote_event fuel ex t cs).
Proof.
  induction cs; cbn [handle_remote_event];
    unfold handle_remote_connection, GetClientConnectionByDst, srv_GetAllClientConnections; G_auto.
Qed.

(** *** The servers of the daemon *)
Lemma local_Request_within fuel ex ws r : within R (local_Request fuel ex ws r).
Proof. unfold local_Request. pose proof Request_within. G_auto. Qed.
Lemma remote_Request_within fuel ex r : within R (remote_Request fuel ex r).
Proof. unfold remote_Request. pose proof Request_within. G_auto. Qed.
Lemma local_Close_within ws c : within R (local_Close ws c).
Proof. unfold local_Close. G_auto. Qed.
Lemma remote_Close_within c : within R (remote_Close c).
Proof. unfold remote_Close. G_auto. Qed.
Lemma add_endpoint_within {A} r (k : M A) s :
  within R k → m_endpoints (st_model s) !! reg_EndpointName r = None →
  wp (ref ← alloc_ref r; run_model (λ m, AddEndpoint m ref);; k) (λ s' _, R s s') s.
Proof.
  intros Hk Hn. pose proof (fs_add_endpoint s r Hn) as Hadd. apply wp_bind.
  set (s1 := set_conns s (st_conns s) (Pos.succ (st_next s))) in *.
  change (wp (run_model (λ m, AddEndpoint m (mkRegRef (st_next s) r));; k) (λ s' _, R s s') s1).
  set (s2 := set_model s1 _) in Hadd. apply wp_bind.
  change (wp (mon_notify_all (AddEndpoint (st_model s) (mkRegRef (st_next s) r)).2)
    (λ s' _, wp k (λ s'' _, R s s'') s') s2).
  eapply wp_mono; [apply mon_notify_all_within|]. intros s3 ? H3.
  eapply wp_mono; [apply Hk|]. intros s4 b H4. cbn in *. transitivity s2; [done|]. by transitivity s3.
Qed.
Lemma RegisterNSE_within ws api r : within R (RegisterNSE ws api r).
Proof.
  assert (∀ e, within R (AddEndpointToWorkspace ws e)) as Hw
    by (unfold AddEndpointToWorkspace; G_auto; apply fs_workspaces).
  unfold RegisterNSE. intros s.
  apply G_bind; [exact _|G_auto|]. intros [e|] s1; [G_auto|].
  apply G_bind; [exact _|G_auto|]. intros [reg|e] s2; [|G_auto]. apply G_getS.
  unfold GetEndpoint. destruct (m_endpoints (st_model s2) !! reg_EndpointName reg) eqn:Eep; [G_auto|].
  apply G_bind; [exact _| |intros _ s3; G_auto]. by apply add_endpoint_within.
Qed.
Lemma RemoveNSE_within name : within R (RemoveNSE name).
Proof.
  unfold RemoveNSE, DeleteEndpointToWorkspace. intros s.
  apply G_bind; [exact _|G_auto|]. intros [e|] s1; [G_auto|].
  apply G_bind; [exact _|G_auto|]. intros [e|] s2; [G_auto|].
  apply G_bind; [exact _|G_auto; apply fs_workspaces|]. intros _ s3. apply G_getS.
  pose proof (fs_delete_endpoint s3 name) as Hdel.
  destruct (DeleteEndpoint (st_model s3) name) as [[m ns] err]. G_auto.
Qed.
Lemma RequestDataplaneRegistration_within name socket : within R (RequestDataplaneRegistration name socket).
Proof.
  unfold RequestDataplaneRegistration. intros s. apply G_getS. destruct (dataplane_registered s name); [G_auto|].
  apply (register_dataplane_within (mkDataplane name socket [] []) (mret (true, None))). G_auto.
Qed.
Lemma RequestDataplaneUnRegistration_within fuel ex name : within R (RequestDataplaneUnRegistration fuel ex name).
Proof. unfold RequestDataplaneUnRegistration. pose proof srv_DeleteDataplane_within. G_auto. Qed.
Lemma dataplane_update_within d l r : within R (dataplane_update d l r).
Proof. unfold dataplane_update. G_auto. by eapply fs_update_dp. Qed.
Lemma setLocalNSM_within api : within R (setLocalNSM api).
Proof. unfold setLocalNSM. G_auto. apply fs_nsm. Qed.
End full.
#[export] Hint Resolve mon_notify_within mon_notify_all_within srv_AddClientConnection_within
  srv_UpdateClientConnection_within srv_DeleteClientConnection_within close_within Close_within
  program_or_close_within finish_request_within request_within Request_within
  sr_WaitForDataplaneAvailable_within Heal_within srv_DeleteDataplane_within
  handle_dataplane_event_within handle_remote_event_within local_Request_within remote_Request_within
  local_Close_within remote_Close_within RegisterNSE_within RemoveNSE_within
  RequestDataplaneRegistration_within RequestDataplaneUnRegistration_within dataplane_update_within
  setLocalNSM_within : within.

(** ** What the steps before the connection table leave alone *)
Definition same_identity (cc cc' : ClientConnection) : Prop :=
  cc_ConnectionId cc' = cc_ConnectionId cc ∧ cc_Dataplane cc' = cc_Dataplane cc ∧
  cc_RemoteNsm cc' = cc_RemoteNsm cc ∧ cc_Endpoint cc' = cc_Endpoint cc.
Definition table (s : nsm_state) : gmap string positive := m_clientConnections (st_model s).
Record frame0 (s s' : nsm_state) : Prop := {
  fr_endpoints : m_endpoints (st_model s') = m_endpoints (st_model s);
  fr_dataplanes : m_dataplanes (st_model s') = m_dataplanes (st_model s);
  fr_listeners : m_listeners (st_model s') = m_listeners (st_model s);
  fr_nsm : m_nsm (st_model s') = m_nsm (st_model s);
  fr_dps : st_dps s' = st_dps s;
  fr_workspaces : st_workspaces s' = st_workspaces s;
  fr_watched : st_watched s' = st_watched s;
  fr_next : (st_next s ≤ st_next s')%positive;
  fr_conns p cc : st_conns s !! p = Some cc → (p < st_next s)%positive →
    ∃ cc', st_conns s' !! p = Some cc' ∧ same_identity cc cc';
  fr_log : ∃ calls, st_log s' = calls ++ st_log s
}.
(** Neither the table nor the counters of the peers change. *)
Record frame (s s' : nsm_state) : Prop := {
  fr_others : frame0 s s';
  fr_table : table s' = table s;
  fr_peers : st_remotePeers s' = st_remotePeers s
}.
Lemma same_identity_refl cc : same_identity cc cc.
Proof. done. Qed.
#[export] Hint Resolve same_identity_refl : within.
#[global] Instance frame0_preorder : PreOrder frame0.
Proof.
  split.
  - intros s. split; eauto with within; [reflexivity|by exists []].
  - intros s1 s2 s3 [] []. split; try (etransitivity; eassumption).
    + intros p cc Hp Hlt. destruct (fr_conns0 _ _ Hp Hlt) as (cc2 & H2 & I2).
      destruct (fr_conns1 _ _ H2 ltac:(lia)) as (cc3 & H3 & I3).
      exists cc3. split; [done|]. unfold same_identity in *. naive_solver congruence.
    + destruct fr_log0 as [c1 E1], fr_log1 as [c2 E2]. exists (c2 ++ c1). by rewrite E2, E1, app_assoc.
Qed.
#[global] Instance frame_preorder : PreOrder frame.
Proof.
  split; [done|]. intros s1 s2 s3 [] []. split; by etransitivity.
Qed.
#[global] Instance frame_basic : BasicSteps frame.
Proof.
  split; try exact _; intros s.
  - intros c _. split; [|done..]. split; cbn; eauto with within; [reflexivity|by exists [c]].
  - intros p cc f Hp Hf. split; [|done..]. split; cbn; try done; [|by exists []]. intros q cc' Hq Hlt.
    destruct (decide (p = q)) as [<-|]; [|rewrite lookup_insert_ne by done; eauto with within].
    rewrite lookup_insert_eq. eexists; split; [done|]. simplify_eq. apply Hf.
  - intros cc Hcc. split; [|done..]. split; cbn; try done; [lia| |by exists []]. intros q cc' Hq Hlt.
    rewrite lookup_insert_ne by lia. eauto with within.
  - intros v. split; [|done..]. split; cbn; eauto with within; [reflexivity|by exists []].
  - intros v. split; [|done..]. split; cbn; eauto with within; [reflexivity|by exists []].
  - intros v. split; [|done..]. split; cbn; eauto with within; [reflexivity|by exists []].
Qed.
Lemma frame_conns s s' p cc : frame s s' → st_conns s !! p = Some cc → (p < st_next s)%positive →
  (p < st_next s')%positive ∧ ∃ cc', st_conns s' !! p = Some cc' ∧ same_identity cc cc'.
Proof. intros [Hf _ _] Hp Hlt. pose proof (fr_next _ _ Hf). split; [lia|]. by eapply fr_conns. Qed.
#[export] Hint Resolve fr_others : within.

Lemma wp_within {A} (R : nsm_state → nsm_state → Prop) (m : M A) (Q : nsm_state → A → Prop) s :
  within R m → (∀ s' a, R s s' → Q s' a) → wp m Q s.
Proof. intros Hm HQ. eapply wp_mono; [apply Hm|]. intros s' a. apply HQ. Qed.
