(* ===== verification/NsmInv.v ===== *)
(** * Invariants of the manager

    The daemon as a transition system: requests, closes, events of the
    dataplanes and of the peers, and registrations arrive in any order.  In
    every reachable state the tables point to live objects under their own
    names, and exactly the peers with a counter are watched. *)
From S2P Require Import Prelude GoStrings GoNet ConnectionContext Apis Vni Selector Model NsmState Nsm NsmHeal Nsmd NsmLemmas.

(** ** Tables and objects *)
Record table_ok (s : nsm_state) : Prop := {
  tk_table id p : m_clientConnections (st_model s) !! id = Some p →
    ∃ cc, st_conns s !! p = Some cc ∧ cc_ConnectionId cc = id;
  tk_dataplanes name d : m_dataplanes (st_model s) !! name = Some d →
    ∃ dp, st_dps s !! d = Some dp ∧ dp_RegisteredName dp = name;
  tk_programmed p cc : st_conns s !! p = Some cc → is_Some (cc_Dataplane cc);
  tk_fresh_conns p : is_Some (st_conns s !! p) → (p < st_next s)%positive;
  tk_fresh_dps p : is_Some (st_dps s !! p) → (p < st_next s)%positive
}.

(** ** Watchers of the peers *)
Fixpoint watching (log : history) : gset string :=
  match log with
  | [] => ∅
  | PeerWatchStart n :: log => {[n]} ∪ watching log
  | PeerWatchStop n :: log => watching log ∖ {[n]}
  | _ :: log => watching log
  end.
(** A watcher is started only when there is none, stopped only when running. *)
Fixpoint alternates (log : history) : Prop :=
  match log with
  | [] => True
  | PeerWatchStart n :: log => n ∉ watching log ∧ alternates log
  | PeerWatchStop n :: log => n ∈ watching log ∧ alternates log
  | _ :: log => alternates log
  end.
Record peers_ok (s : nsm_state) : Prop := {
  pk_watched : dom (st_remotePeers s) = watching (st_log s);
  pk_alternates : alternates (st_log s);
  pk_positive n k : st_remotePeers s !! n = Some k → 1 ≤ k
}.

(** ** Both are preserved by every operation *)
Definition keeps (P : nsm_state → Prop) (s s' : nsm_state) : Prop := P s → P s'.
#[global] Instance keeps_preorder P : PreOrder (keeps P).
Proof. split; [intros s H; exact H|]. intros s1 s2 s3 H1 H2 H. exact (H2 (H1 H)). Qed.

Lemma table_ok_eq s s' :
  m_clientConnections (st_model s') = m_clientConnections (st_model s) →
  m_dataplanes (st_model s') = m_dataplanes (st_model s) →
  st_conns s' = st_conns s → st_dps s' = st_dps s → st_next s' = st_next s → keeps table_ok s s'.
Proof. intros E1 E2 E3 E4 E5 []. by split; rewrite ?E1, ?E2, ?E3, ?E4, ?E5. Qed.

Lemma mon_table_ok p : within (keeps table_ok) (mon_ClientConnectionAdded p) ∧
  within (keeps table_ok) (mon_ClientConnectionDeleted p).
Proof.
  unfold mon_ClientConnectionAdded, mon_ClientConnectionDeleted, emit.
  split; G_auto; by apply table_ok_eq.
Qed.

#[global] Instance table_ok_basic : BasicSteps (keeps table_ok).
Proof.
  split; try exact _; try (intros; by apply table_ok_eq).
  - intros s p cc f Hp Hf []. split; cbn; try done.
    + intros id q Hq. destruct (tk_table0 _ _ Hq) as (cc' & Hcc & Hid).
      destruct (decide (p = q)) as [<-|]; [|rewrite lookup_insert_ne; eauto].
      rewrite lookup_insert_eq. exists (f cc). split; [done|]. destruct (Hf cc) as [-> _]. congruence.
    + intros q cc'. destruct (decide (p = q)) as [<-|]; [|rewrite lookup_insert_ne; eauto].
      rewrite lookup_insert_eq. intros [= <-]. destruct (Hf cc) as (_ & -> & _). eauto.
    + intros q. destruct (decide (p = q)) as [<-|]; [|rewrite lookup_insert_ne; eauto]. eauto.
  - intros s cc Hdp []. split; cbn; try done.
    + intros id q Hq. destruct (tk_table0 _ _ Hq) as (cc' & Hcc & Hid). exists cc'. split; [|done].
      rewrite lookup_insert_ne; [done|]. intros <-. eapply Pos.lt_irrefl, tk_fresh_conns0. by eexists.
    + intros q cc'. destruct (decide (st_next s = q)) as [<-|]; [|rewrite lookup_insert_ne; eauto].
      rewrite lookup_insert_eq. by intros [= <-].
    + intros q. destruct (decide (st_next s = q)) as [<-|]; [intros _; apply Pos.lt_succ_diag_r|].
      rewrite lookup_insert_ne by done. intros Hq. apply tk_fresh_conns0 in Hq. lia.
    + intros q Hq. apply tk_fresh_dps0 in Hq. lia.
Qed.

#[global] Instance table_ok_full : FullSteps (keeps table_ok).
Proof.
  split; try exact _; try (intros; by apply table_ok_eq); try apply mon_table_ok.
  - intros s p cc Hp []. split; cbn; try done. intros id q.
    destruct (decide (cc_ConnectionId cc = id)) as [<-|]; [|rewrite lookup_insert_ne; eauto].
    rewrite lookup_insert_eq. intros [= <-]. eauto.
  - intros s id []. split; cbn; try done. intros id' q [_ Hq]%lookup_delete_Some. eauto.
  - intros s d []. split; cbn; try done.
    + intros name q Hq. destruct (tk_dataplanes0 _ _ Hq) as (dp & Hdp & Hn). exists dp. split; [|done].
      rewrite lookup_insert_ne; [done|]. intros <-. eapply Pos.lt_irrefl, tk_fresh_dps0. by eexists.
    + intros q Hq. apply tk_fresh_conns0 in Hq. lia.
    + intros q. destruct (decide (st_next s = q)) as [<-|]; [intros _; apply Pos.lt_succ_diag_r|].
      rewrite lookup_insert_ne by done. intros Hq. apply tk_fresh_dps0 in Hq. lia.
  - intros s d dp Hd []. split; cbn; try done. intros name q.
    destruct (decide (dp_RegisteredName dp = name)) as [<-|]; [|rewrite lookup_insert_ne; eauto].
    rewrite lookup_insert_eq. intros [= <-]. eauto.
  - intros s name []. split; cbn; try done. intros n q [_ Hq]%lookup_delete_Some. eauto.
  - intros s r _ []. split; cbn; try done; [intros p Hp; apply tk_fresh_conns0 in Hp|intros p Hp; apply tk_fresh_dps0 in Hp]; lia.
  - intros s name. unfold DeleteEndpoint. destruct (m_endpoints _ !! name); by apply table_ok_eq.
  - intros s d dp dp' Hd Hn []. split; cbn; try done.
    + intros name q Hq. destruct (tk_dataplanes0 _ _ Hq) as (dp1 & Hdp1 & Hn1).
      destruct (decide (d = q)) as [<-|]; [|rewrite lookup_insert_ne; eauto].
      rewrite lookup_insert_eq. exists dp'. split; [done|congruence].
    + intros q. destruct (decide (d = q)) as [<-|]; [|rewrite lookup_insert_ne; eauto]. eauto.
Qed.

Lemma peers_ok_eq s s' :
  st_remotePeers s' = st_remotePeers s → st_log s' = st_log s → keeps peers_ok s s'.
Proof. intros E1 E2 []. by split; rewrite ?E1, ?E2. Qed.

Lemma watch_neutral c log : is_watch c = false →
  watching (c :: log) = watching log ∧ (alternates (c :: log) ↔ alternates log).
Proof. by destruct c. Qed.

#[global] Instance peers_ok_basic : BasicSteps (keeps peers_ok).
Proof.
  split; try exact _; try (intros; by apply peers_ok_eq).
  intros s c Hc []. destruct (watch_neutral c (st_log s) Hc) as [E1 E2].
  split; cbn [set_log st_log st_remotePeers]; [by rewrite E1|by apply E2|done].
Qed.

(** A counter that is already there moves within the positive numbers. *)
Lemma peers_ok_count s n k : is_Some (st_remotePeers s !! n) → 1 ≤ k →
  keeps peers_ok s (set_peers s (<[n := k]> (st_remotePeers s))).
Proof.
  intros Hn Hk []. split; cbn; [|done|].
  - rewrite dom_insert_L, <- pk_watched0. apply elem_of_dom in Hn. set_solver.
  - intros m j. destruct (decide (n = m)) as [<-|]; [|rewrite lookup_insert_ne; eauto].
    rewrite lookup_insert_eq. by intros [= <-].
Qed.

Lemma peers_ok_start s n : st_remotePeers s !! n = None →
  keeps peers_ok s (set_log (set_peers s (<[n := 1]> (st_remotePeers s))) (PeerWatchStart n :: st_log s)).
Proof.
  intros Hn []. apply not_elem_of_dom in Hn. split; cbn.
  - by rewrite dom_insert_L, pk_watched0.
  - by rewrite <- pk_watched0.
  - intros m j. destruct (decide (n = m)) as [<-|]; [|rewrite lookup_insert_ne; eauto].
    rewrite lookup_insert_eq. by intros [= <-].
Qed.

Lemma peers_ok_stop s n : is_Some (st_remotePeers s !! n) →
  keeps peers_ok s (set_peers (set_log s (PeerWatchStop n :: st_log s)) (delete n (st_remotePeers s))).
Proof.
  intros Hn []. apply elem_of_dom in Hn. split; cbn.
  - by rewrite dom_delete_L, pk_watched0.
  - by rewrite <- pk_watched0.
  - intros m j [_ Hm]%lookup_delete_Some. eauto.
Qed.

Lemma mon_Added_peers p : within (keeps peers_ok) (mon_ClientConnectionAdded p).
Proof.
  unfold mon_ClientConnectionAdded. intros s. apply G_read; intros cc Hcc.
  destruct (cc_RemoteNsm cc) as [nsm|]; [|G_auto]. apply G_getS.
  destruct (st_remotePeers s !! nsmgr_Name nsm) as [k|] eqn:E.
  - apply G_put. intros Hs. apply peers_ok_count; [by eexists| |done].
    pose proof (pk_positive _ Hs _ _ E). lia.
  - exact (peers_ok_start s _ E).
Qed.

Lemma mon_Deleted_peers p : within (keeps peers_ok) (mon_ClientConnectionDeleted p).
Proof.
  unfold mon_ClientConnectionDeleted. intros s. apply G_read; intros cc Hcc.
  apply G_bind; [exact _|G_auto|]. intros _ s1. apply G_bind; [exact _|G_auto|]. intros _ s2.
  destruct (cc_RemoteNsm cc) as [nsm|]; [|G_auto]. apply G_getS.
  destruct (st_remotePeers s2 !! nsmgr_Name nsm) as [k|] eqn:E; [|G_auto].
  destruct (Z.eqb_spec (k - 1) 0) as [Hk|Hk].
  - exact (peers_ok_stop s2 _ ltac:(by eexists)).
  - apply G_put. intros Hs. apply peers_ok_count; [by eexists| |done].
    pose proof (pk_positive _ Hs _ _ E). lia.
Qed.

#[global] Instance peers_ok_full : FullSteps (keeps peers_ok).
Proof.
  split; try exact _; try (intros; by apply peers_ok_eq); [apply mon_Added_peers|apply mon_Deleted_peers].
Qed.

(** ** The daemon *)
Section daemon.
Context `{!Environment}.

Definition srv_AddDataplane (dataplane : Dataplane) : M () :=
  d ← alloc_dp dataplane; run_model (λ m, AddDataplane m (dp_RegisteredName dataplane) d);; mret ().

(** What reaches the daemon. *)
Inductive nsm_step (s s' : nsm_state) : Prop :=
  | step_Request fuel ex req r : Request fuel ex req s = Ret (s', r) → nsm_step s s'
  | step_Close id p r : GetClientConnection (st_model s) id = Some p → Close p s = Ret (s', r) → nsm_step s s'
  | step_dataplane_event fuel ex t xcons : handle_dataplane_event fuel ex t xcons s = Ret (s', ()) → nsm_step s s'
  | step_remote_event fuel ex t conns : handle_remote_event fuel ex t conns s = Ret (s', ()) → nsm_step s s'
  | step_local_Request fuel ex ws req r : local_Request fuel ex ws req s = Ret (s', r) → nsm_step s s'
  | step_local_Close ws c r : local_Close ws c s = Ret (s', r) → nsm_step s s'
  | step_remote_Request fuel ex req r : remote_Request fuel ex req s = Ret (s', r) → nsm_step s s'
  | step_remote_Close c r : remote_Close c s = Ret (s', r) → nsm_step s s'
  | step_RegisterNSE ws api req r : RegisterNSE ws api req s = Ret (s', r) → nsm_step s s'
  | step_RemoveNSE name r : RemoveNSE name s = Ret (s', r) → nsm_step s s'
  | step_RegisterDataplane name socket r : RequestDataplaneRegistration name socket s = Ret (s', r) → nsm_step s s'
  | step_UnRegisterDataplane fuel ex name r : RequestDataplaneUnRegistration fuel ex name s = Ret (s', r) → nsm_step s s'
  | step_dataplane_update d l r : dataplane_update d l r s = Ret (s', ()) → nsm_step s s'
  | step_dataplane_lost fuel ex name : dataplane_lost fuel ex name s = Ret (s', ()) → nsm_step s s'
  | step_setLocalNSM api r : setLocalNSM api s = Ret (s', r) → nsm_step s s'
  | step_AddDataplane d : srv_AddDataplane d s = Ret (s', ()) → nsm_step s s'.

(** A daemon that knows its own name and has its monitor client registered. *)
Definition initial (nsm : option NetworkServiceManager) (listener : positive) (vni : vniAllocator)
    (workspaces : gmap string string) : nsm_state :=
  mkState (AddListener (SetNsm NewModel nsm) listener [] []).1 ∅ ∅ 1 vni workspaces ∅ ∅ [].

Inductive reachable : nsm_state → Prop :=
  | reachable_init nsm l v w : reachable (initial nsm l v w)
  | reachable_step s s' : reachable s → nsm_step s s' → reachable s'.

Lemma srv_AddDataplane_within R `{!FullSteps R} d : within R (srv_AddDataplane d).
Proof. refine (register_dataplane_within R d (mret ()) _). G_auto. Qed.
Hint Resolve srv_AddDataplane_within : within.

Lemma nsm_step_within R `{!FullSteps R} s s' : nsm_step s s' → R s s'.
Proof. destruct 1; eapply within_Ret; try done; eauto with within. Qed.

Lemma initial_ok nsm l v w : table_ok (initial nsm l v w) ∧ peers_ok (initial nsm l v w).
Proof.
  split; split; cbn; try set_solver; intros *; rewrite ?lookup_empty; try done; by intros [].
Qed.

Lemma reachable_ok s : reachable s → table_ok s ∧ peers_ok s.
Proof.
  induction 1 as [|s s' _ [IH1 IH2] Hstep]; [apply initial_ok|].
  split; [apply (nsm_step_within (keeps table_ok) _ _ Hstep)|apply (nsm_step_within (keeps peers_ok) _ _ Hstep)]; done.
Qed.

(** ** Interleaved handlers

    The writes the handlers are made of, each with what the code checks under
    the lock of the table it writes, but with any value: what a handler has
    read before may be out of date. *)
Inductive nsm_write (s : nsm_state) : nsm_state → Prop :=
  | write_log c : is_watch c = false → nsm_write s (set_log s (c :: st_log s))
  | write_connection p cc f : st_conns s !! p = Some cc → benign f →
      nsm_write s (set_conns s (<[p := f cc]> (st_conns s)) (st_next s))
  | write_new_connection cc : is_Some (cc_Dataplane cc) →
      nsm_write s (set_conns s (<[st_next s := cc]> (st_conns s)) (Pos.succ (st_next s)))
  | write_vni v : nsm_write s (set_vni s v)
  | write_selector x : nsm_write s (set_model s (set_selector (st_model s) x))
  | write_id n : nsm_write s (set_model s (set_lastConnectionId (st_model s) n))
  | write_insert p cc : st_conns s !! p = Some cc →
      nsm_write s (set_model s (set_clientConnections (st_model s)
                     (<[cc_ConnectionId cc := p]> (m_clientConnections (st_model s)))))
  | write_delete id :
      nsm_write s (set_model s (set_clientConnections (st_model s) (delete id (m_clientConnections (st_model s)))))
  | write_new_dataplane d : nsm_write s (set_dps s (<[st_next s := d]> (st_dps s)) (Pos.succ (st_next s)))
  | write_insert_dataplane d dp : st_dps s !! d = Some dp →
      nsm_write s (set_model s (set_dataplanes (st_model s) (<[dp_RegisteredName dp := d]> (m_dataplanes (st_model s)))))
  | write_delete_dataplane name :
      nsm_write s (set_model s (set_dataplanes (st_model s) (delete name (m_dataplanes (st_model s)))))
  | write_endpoint r : m_endpoints (st_model s) !! reg_EndpointName r = None →
      nsm_write s (set_model (set_conns s (st_conns s) (Pos.succ (st_next s)))
                     (AddEndpoint (st_model s) (mkRegRef (st_next s) r)).1)
  | write_delete_endpoint name : nsm_write s (set_model s (DeleteEndpoint (st_model s) name).1.1)
  | write_watched w : nsm_write s (set_watched s w)
  | write_workspaces w : nsm_write s (set_workspaces s w)
  | write_nsm n : nsm_write s (set_model s (SetNsm (st_model s) n))
  | write_dataplane d dp dp' : st_dps s !! d = Some dp → dp_RegisteredName dp' = dp_RegisteredName dp →
      nsm_write s (set_dps s (<[d := dp']> (st_dps s)) (st_next s))
  | write_added p s' : mon_ClientConnectionAdded p s = Ret (s', ()) → nsm_write s s'
  | write_deleted p s' : mon_ClientConnectionDeleted p s = Ret (s', ()) → nsm_write s s'.

(** A preorder with these steps contains the writes. *)
Lemma nsm_write_within R `{!FullSteps R} s s' : nsm_write s s' → R s s'.
Proof.
  destruct 1; [by apply bs_log|by eapply bs_modify|by apply bs_alloc|apply bs_vni|apply bs_selector|apply bs_id
    |by apply fs_insert|apply fs_delete|apply fs_alloc_dp|by eapply fs_insert_dp|apply fs_delete_dp
    |by apply fs_add_endpoint|apply fs_delete_endpoint|apply fs_watched|apply fs_workspaces|apply fs_nsm
    |by eapply fs_update_dp| |];
    (eapply within_Ret; [|done]); [apply fs_added|apply fs_deleted].
Qed.

(** Every handler is a sequence of writes. *)
#[global] Instance writes_preorder : PreOrder (rtc nsm_write).
Proof. exact _. Qed.
#[global] Instance writes_basic : BasicSteps (rtc nsm_write).
Proof. split; [exact _|..]; intros; apply rtc_once; by econstructor. Qed.
Lemma within_write (m : M ()) : (∀ s s', m s = Ret (s', ()) → nsm_write s s') → within (rtc nsm_write) m.
Proof. intros Hm s. unfold wp. destruct (m s) as [[s' []]|] eqn:E; [|done]. apply rtc_once. by apply Hm. Qed.
#[global] Instance writes_full : FullSteps (rtc nsm_write).
Proof.
  split; [exact _|..]; intros; try (apply rtc_once; by econstructor); apply within_write; intros; by econstructor.
Qed.

(** Whatever writes of whatever handlers interleave, the tables stay
    consistent and exactly the peers with a counter are watched; the steps of
    the daemon are such sequences of writes. *)
Lemma interleaved_writes_ok nsm l v w s :
  rtc nsm_write (initial nsm l v w) s → table_ok s ∧ peers_ok s.
Proof.
  intros Hw. pose proof (initial_ok nsm l v w) as Hok. revert Hok.
  induction Hw as [|s1 s2 s3 Hstep _ IH]; [done|]. intros [H1 H2]. apply IH. split.
  - by apply (nsm_write_within (keeps table_ok) _ _ Hstep).
  - by apply (nsm_write_within (keeps peers_ok) _ _ Hstep).
Qed.
Lemma nsm_step_writes s s' : nsm_step s s' → rtc nsm_write s s'.
Proof. apply nsm_step_within. exact _. Qed.

(** The listeners never change after the start. *)
Definition same_listeners (s s' : nsm_state) : Prop := m_listeners (st_model s') = m_listeners (st_model s).
#[global] Instance same_listeners_preorder : PreOrder same_listeners.
Proof. split; [done|]. unfold same_listeners. intros s1 s2 s3. congruence. Qed.
#[global] Instance same_listeners_full : FullSteps same_listeners.
Proof.
  assert (BasicSteps same_listeners) by (split; [exact _|done..]).
  split; try done; try (unfold mon_ClientConnectionAdded, mon_ClientConnectionDeleted, emit; G_auto; done).
  intros s name. unfold DeleteEndpoint. by destruct (m_endpoints _ !! name).
Qed.
Lemma reachable_listeners s : reachable s → ∃ l, m_listeners (st_model s) = [l].
Proof.
  induction 1 as [nsm l|s s' _ [l Hl] Hstep]; [by exists l|].
  exists l. rewrite <- Hl. apply (nsm_step_within same_listeners _ _ Hstep).
Qed.

(** The endpoint tables agree, and their objects are older than what is
    allocated next. *)
Record endpoints_ok (s : nsm_state) : Prop := {
  ek_index : endpoint_index (st_model s);
  ek_fresh ns r : r ∈ GetNetworkServiceEndpoints (st_model s) ns → (ref_addr r < st_next s)%positive
}.
Lemma endpoints_ok_eq s s' :
  m_endpoints (st_model s') = m_endpoints (st_model s) → m_networkServices (st_model s') = m_networkServices (st_model s) →
  (st_next s ≤ st_next s')%positive → keeps endpoints_ok s s'.
Proof.
  intros E1 E2 E3 [[] Hf]. unfold GetNetworkServiceEndpoints in *.
  split; [split|]; unfold GetNetworkServiceEndpoints; rewrite ?E1, ?E2; try done.
  intros ns r Hr. specialize (Hf ns r Hr). lia.
Qed.
Lemma fresh_not_listed s ns : endpoints_ok s → st_next s ∉ ref_addr <$> GetNetworkServiceEndpoints (st_model s) ns.
Proof. intros Hok (r & E & Hr)%list_elem_of_fmap. pose proof (ek_fresh _ Hok _ _ Hr). rewrite <- E in *. lia. Qed.

#[global] Instance endpoints_ok_full : FullSteps (keeps endpoints_ok).
Proof.
  assert (∀ s s', m_endpoints (st_model s') = m_endpoints (st_model s) →
    m_networkServices (st_model s') = m_networkServices (st_model s) → st_next s' = st_next s → keeps endpoints_ok s s') as Heq.
  { intros s s' E1 E2 E3. apply endpoints_ok_eq; [done..|lia]. }
  assert (BasicSteps (keeps endpoints_ok)).
  { split; try exact _; try (intros; by apply Heq). intros s cc _. apply endpoints_ok_eq; cbn; [done..|lia]. }
  split; try exact _; try (intros; by apply Heq);
    try (unfold mon_ClientConnectionAdded, mon_ClientConnectionDeleted, emit; G_auto; by apply Heq).
  - intros s d. apply endpoints_ok_eq; cbn; [done..|lia].
  - intros s r Hn Hok. pose proof (fresh_not_listed s (reg_ServiceName r) Hok) as Hfr. destruct Hok as [Hi Hf].
    split; [by apply AddEndpoint_index|]. intros ns r'. cbn. rewrite endpoints_insert. case_decide as E; subst.
    + intros [Hr| ->%list_elem_of_singleton]%elem_of_app; [specialize (Hf _ _ Hr); lia|cbn; lia].
    + intros Hr. specialize (Hf _ _ Hr). lia.
  - intros s name [Hi Hf]. split; [by apply DeleteEndpoint_index|]. intros ns r Hr. apply (Hf ns).
    revert Hr. cbn. unfold DeleteEndpoint. destruct (m_endpoints _ !! name) as [ep|]; [|done]. cbn.
    case_match; [rewrite endpoints_insert|rewrite endpoints_delete]; case_decide as E; subst; try done;
      [apply elem_of_remove_first|by intros ?%not_elem_of_nil].
Qed.

Lemma reachable_endpoints s : reachable s → endpoints_ok s.
Proof.
  induction 1 as [nsm l v w|s s' _ IH Hstep]; [|by apply (nsm_step_within (keeps endpoints_ok) _ _ Hstep)].
  split; [|by intros ns r Hr%not_elem_of_nil]. destruct NewModel_index. by split.
Qed.
End daemon.
