(* ===== verification/NsmFind.v ===== *)
(** * The search for an endpoint ends

    [findConnectNSE] loops until an endpoint answers or none is left.  Every
    endpoint that failed is ignored from then on, so with finitely many
    endpoint names around the loop ends; the fuel of the model is enough as
    soon as it exceeds their number. *)
From S2P Require Import Prelude GoStrings GoNet ConnectionContext Apis Vni Selector Model NsmState Nsm NsmLemmas.

Definition out_of_fuel : string := "out of fuel".

(** The operation does not run out of fuel. *)
Definition fuelled {A} (m : M A) (s : nsm_state) : Prop := m s ≠ Panic out_of_fuel.

Lemma fuelled_bind {A B} (m : M A) (f : A → M B) s :
  fuelled m s → (∀ s' a, m s = Ret (s', a) → fuelled (f a) s') → fuelled (m ≫= f) s.
Proof.
  unfold fuelled. intros Hm Hf.
  change ((m ≫= f) s) with (match m s with Ret (s', a) => f a s' | Panic w => Panic w end).
  destruct (m s) as [[s' a]|w]; [by apply Hf|]. congruence.
Qed.
Lemma fuelled_bindR {A B} (m : M (result A)) (f : A → M (result B)) s :
  fuelled m s → (∀ s' a, m s = Ret (s', Ok a) → fuelled (f a) s') → fuelled (bindR m f) s.
Proof. intros Hm Hf. apply fuelled_bind; [done|]. intros s' [a|e] Ha; [by apply Hf|done]. Qed.
Lemma fuelled_lift {A} (m : outcome A) s : m ≠ Panic out_of_fuel → fuelled (lift m) s.
Proof. unfold fuelled, lift. destruct m; [done|congruence]. Qed.
Lemma fuelled_read p s : fuelled (read_cc p) s.
Proof. unfold fuelled. rewrite read_cc_eq. by case_match. Qed.
Lemma fuelled_read_dp p s : fuelled (read_dp p) s.
Proof. unfold fuelled. rewrite read_dp_eq. by case_match. Qed.
Lemma fuelled_ask {A} (answer : history → A) c s : fuelled (ask answer c) s.
Proof. done. Qed.

Create HintDb fuelled discriminated.
#[export] Hint Resolve fuelled_read fuelled_read_dp fuelled_ask : fuelled.
Ltac F_step :=
  first
  [ match goal with |- fuelled (mret _) _ => done end
  | match goal with |- fuelled (panic _) _ => done end
  | match goal with |- fuelled getS _ => done end
  | match goal with |- fuelled (putS _) _ => done end
  | match goal with |- fuelled (mbind _ _) _ => apply fuelled_bind; [|intros ? ? ?] end
  | match goal with |- fuelled (bindR _ _) _ => apply fuelled_bindR; [|intros ? ? ?] end
  | match goal with |- fuelled (match ?x with _ => _ end) _ => destruct x eqn:? end
  | solve [eauto with fuelled]
  | match goal with |- fuelled (lift _) _ => apply fuelled_lift end ].
Ltac F_auto := intros; cbv zeta; repeat F_step.

Lemma Vni_fuelled a l r : Vni a l r ≠ Panic out_of_fuel.
Proof.
  assert (∀ a b : list Z, compareIps a b ≠ Panic out_of_fuel) as Hc.
  { intros a'; induction a'; intros []; cbn; repeat case_match; eauto; done. }
  unfold Vni. destruct (_ =? 0); cbn; [|done]. specialize (Hc (ParseIP l) (ParseIP r)).
  by destruct (compareIps _ _); cbn; [|congruence].
Qed.
Lemma Select_fuelled (m : matchSelector roundRobinSelector) c ns es : SelectEndpoint m c ns es ≠ Panic out_of_fuel.
Proof.
  assert (∀ (rr : roundRobinSelector) es', SelectEndpoint rr None ns es' ≠ Panic out_of_fuel) as Hr.
  { intros. cbv [SelectEndpoint roundRobin_Selector rr_SelectEndpoint]. repeat case_match; done. }
  assert (∀ labels ms, match_loop m labels ns es ms ≠ Panic out_of_fuel) as Hl.
  { intros labels ms. induction ms as [|mt ms IH]; cbn; [done|]. repeat case_match; done. }
  cbv [SelectEndpoint match_Selector match_SelectEndpoint]. case_match; [|apply Hl].
  specialize (Hr (ms_roundRobin m) es). unfold SelectEndpoint in Hr.
  destruct (roundRobin_Selector _ _ _ _) as [[]|]; cbn; congruence.
Qed.
#[export] Hint Resolve Vni_fuelled Select_fuelled : fuelled.

Section find.
Context `{!Environment}.

Lemma performNSERequest_fuelled e c r d x s : fuelled (performNSERequest e c r d x) s.
Proof.
  unfold performNSERequest, createNSEClient, isLocalEndpoint, getNetworkServiceManagerName, sr_EndpointConnection,
    sr_RemoteNetworkServiceClient, createLocalNSERequest, createConnectionId, createRemoteNSMRequest, client_Request,
    updateConnectionParameters, createCrossConnect, isLocalEndpoint, getNetworkServiceManagerName, alloc_cc.
  F_auto.
Qed.
Lemma getEndpoint_fuelled c i s : fuelled (getEndpoint c i) s.
Proof. unfold getEndpoint. F_auto. Qed.
Lemma previous_endpoint_fuelled x i s : fuelled (previous_endpoint x i) s.
Proof. unfold previous_endpoint. F_auto. Qed.
Hint Resolve performNSERequest_fuelled getEndpoint_fuelled previous_endpoint_fuelled : fuelled.

Definition nse_name_in (names : gset string) (ep : option NSERegistration) : Prop :=
  ∀ nse, ep ≫= reg_NetworkserviceEndpoint = Some nse → nse_EndpointName nse ∈ names.

(** The endpoint names that are around: those the registry answers with,
    those registered locally, and that of the connection being updated. *)
Definition registry_names (E : gset string) : Prop := ∀ h name resp e,
  env_FindNetworkService h name = Ok resp → e ∈ find_NetworkServiceEndpoints resp → nse_EndpointName e ∈ E.
Record local_names (E : gset string) (existing : option positive) (s : nsm_state) : Prop := {
  ln_endpoints name r : m_endpoints (st_model s) !! name = Some r → nse_name_in E (Some (ref_val r));
  ln_existing p cc : existing = Some p → st_conns s !! p = Some cc →
    (p < st_next s)%positive ∧ nse_name_in E (cc_Endpoint cc)
}.
Lemma local_names_frame E x s s' :
  frame0 s s' → (∀ p, x = Some p → is_Some (st_conns s !! p)) → local_names E x s → local_names E x s'.
Proof.
  intros Hf Hx []. split; [by rewrite (fr_endpoints _ _ Hf)|].
  intros p cc' Hp Hcc'. destruct (Hx p Hp) as [cc Hcc]. destruct (ln_existing0 _ _ Hp Hcc) as [Hlt Hnse].
  pose proof (fr_next _ _ Hf). destruct (fr_conns _ _ Hf _ _ Hcc Hlt) as (cc'' & E1 & _ & _ & _ & E2).
  simplify_eq. rewrite E2. split; [lia|done].
Qed.

(** [getEndpoint] only returns endpoints that did not fail yet. *)
Lemma getEndpoint_new E x c ignore s :
  registry_names E → local_names E x s →
  wp (getEndpoint c ignore) (λ _ r, r.2 = None → nse_name_in (E ∖ ignore) r.1) s.
Proof.
  intros HE [Hl _]. unfold getEndpoint. case_decide as Ht.
  - apply wp_bind. cbn. destruct (GetEndpoint _ _) as [r|] eqn:Er; cbn; [|done].
    specialize (Hl _ _ Er). unfold nse_name_in in *. cbn in Hl.
    destruct (reg_NetworkserviceEndpoint _) as [nse|] eqn:En; cbn; [|done].
    case_decide as Hi; cbn; [done|]. intros _ nse'. rewrite En. set_solver.
  - apply wp_bind, wp_ask. destruct (env_DialRegistry _); cbn; [done|].
    apply wp_bind, wp_ask. destruct (env_FindNetworkService _ _) as [resp|] eqn:Ef; cbn; [|done].
    destruct (filterEndpoints _ _) as [|e0 es] eqn:Efl; cbn; [done|].
    destruct c as [c|]; cbn; [|done].
    unfold wp, mbind, M_bind, lift, getS. destruct (SelectEndpoint _ _ _ _) as [[sel [e|]]|] eqn:Es; cbn; try done.
    intros _ nse. cbn. intros [= <-]. apply select_member in Es.
    rewrite <- Efl in Es. apply list_elem_of_filter in Es as [Hi He]. specialize (HE _ _ _ _ Ef He). set_solver.
Qed.
Lemma previous_endpoint_new E x ignore s :
  local_names E x s →
  wp (previous_endpoint x ignore) (λ s' r, s' = s ∧ (r ≠ None → nse_name_in (E ∖ ignore) r)) s.
Proof.
  intros [_ Hx]. unfold previous_endpoint. destruct x as [p|]; [|done].
  apply wp_bind. unfold wp at 1. rewrite read_cc_eq. destruct (st_conns s !! p) as [cc|] eqn:Ep; [|done].
  destruct (Hx p cc eq_refl Ep) as [_ Hn]. unfold nse_name_in in *.
  destruct (_ ≫= _) as [nse|] eqn:En; cbn; [|done]. split; [done|].
  case_decide as Hi; [done|]. intros _ nse'. rewrite En. set_solver.
Qed.

Lemma findConnectNSE_enough_fuel E fuel ex ignore err last req c x dp s :
  registry_names E → local_names E x s → (size (E ∖ ignore) < fuel)%nat →
  fuelled (findConnectNSE fuel ex ignore err last req c x dp) s.
Proof.
  intros HE. revert ignore err last s; induction fuel as [|fuel IH]; intros ignore err last s Hs Hf; [lia|].
  cbn [findConnectNSE]. apply fuelled_bind; [eauto with fuelled|]. intros s1 prev H1.
  assert (∀ p, x = Some p → is_Some (st_conns s !! p)) as Hx.
  { intros p ->. unfold previous_endpoint in H1. destruct (st_conns s !! p) eqn:Ep; [by eexists|].
    unfold mbind, M_bind in H1. by rewrite read_cc_eq, Ep in H1. }
  destruct (wp_Ret _ _ _ _ _ (previous_endpoint_new E x ignore s Hs) H1) as [-> Hprev].
  apply fuelled_bind; [F_auto|]. intros s2 [ep e] H2.
  assert (frame s s2 ∧ (e = None → nse_name_in (E ∖ ignore) ep)) as [Hf2 Hep].
  { destruct prev as [ep0|].
    - inversion H2; subst. split; [reflexivity|]. intros _. by apply Hprev.
    - split; [by eapply (within_Ret frame); [|exact H2]; eauto with within|].
      exact (wp_Ret _ _ _ _ _ (getEndpoint_new E x c ignore s HE Hs) H2). }
  cbn [fst snd]. destruct e as [e|]; [done|]. specialize (Hep eq_refl).
  apply fuelled_bind; [eauto with fuelled|]. intros s3 [p|e] H3; [done|].
  destruct (ep ≫= _) as [nse|] eqn:En; [|done]. specialize (Hep _ En). apply IH.
  - apply local_names_frame with s; [apply fr_others|done|done]. transitivity s2; [done|].
    eapply (within_Ret frame); [|exact H3]; eauto with within.
  - apply Nat.lt_le_trans with (size (E ∖ ignore)); [|lia]. apply subset_size. set_solver.
Qed.

(** ** The request as a whole *)
Lemma mon_notify_all_fuelled ns s : fuelled (mon_notify_all ns) s.
Proof.
  assert (∀ n s, fuelled (mon_notify n) s).
  { intros []; cbn [mon_notify]; unfold mon_ClientConnectionAdded, mon_ClientConnectionUpdated,
      mon_ClientConnectionDeleted, mon_DataplaneAdded, emit; F_auto. }
  revert s; induction ns; cbn [mon_notify_all]; F_auto.
Qed.
Hint Resolve mon_notify_all_fuelled : fuelled.
Lemma run_model_fuelled f s : fuelled (run_model f) s.
Proof. unfold run_model. F_auto. Qed.
Hint Resolve run_model_fuelled : fuelled.
Lemma close_fuelled p b s : fuelled (close p b) s.
Proof.
  unfold close, createNSEClient, isLocalEndpoint, getNetworkServiceManagerName, sr_EndpointConnection,
    sr_RemoteNetworkServiceClient, close_destination, client_Close, closeDataplane, sr_DataplaneConnection,
    srv_DeleteClientConnection, modify_cc, write_cc. F_auto.
Qed.
Lemma updateMechanism_fuelled c r d s : fuelled (updateMechanism c r d) s.
Proof. unfold updateMechanism, selectRemoteMechanism. F_auto. Qed.
Lemma checkNeedNSERequest_fuelled c e d : checkNeedNSERequest c e d ≠ Panic out_of_fuel.
Proof. unfold checkNeedNSERequest. repeat case_match; done. Qed.
Lemma reuse_destination_fuelled r c cc : reuse_destination r c cc ≠ Panic out_of_fuel.
Proof. unfold reuse_destination. repeat case_match; done. Qed.
Hint Resolve close_fuelled updateMechanism_fuelled checkNeedNSERequest_fuelled reuse_destination_fuelled : fuelled.
Lemma check_existing_fuelled c x d s : fuelled (check_existing c x d) s.
Proof. unfold check_existing. F_auto. Qed.
Lemma closeDataplaneLog_fuelled x s : fuelled (closeDataplaneLog x) s.
Proof. unfold closeDataplaneLog, closeDataplane, sr_DataplaneConnection. F_auto. Qed.
Lemma finish_request_fuelled r p x s : fuelled (finish_request r p x) s.
Proof.
  unfold finish_request, program_or_close, program_dataplane, return_source, srv_AddClientConnection,
    srv_UpdateClientConnection, srv_DeleteClientConnection, modify_cc, write_cc. F_auto.
Qed.
Hint Resolve check_existing_fuelled closeDataplaneLog_fuelled finish_request_fuelled : fuelled.

Lemma request_enough_fuel E fuel ex req x s :
  registry_names E → local_names E x s → (size E < fuel)%nat → fuelled (request fuel ex req x) s.
Proof.
  intros HE Hs Hf. unfold request. destruct (nr_IsValid req); [done|].
  apply fuelled_bind. { apply fuelled_lift. by destruct req as [[[]]|[[]]]. } intros s0 c H0.
  assert (frame s s0) as F0 by (eapply (within_Ret frame); [|exact H0]; G_auto).
  apply fuelled_bind; [unfold createConnectionId; destruct x; F_auto|]. intros s1 id H1.
  assert (frame s s1) as F1.
  { transitivity s0; [done|]. eapply (within_Ret frame); [|exact H1]. destruct x; G_auto. }
  assert (∀ p, x = Some p → is_Some (st_conns s !! p)) as Hx.
  { intros p ->. unfold lift in H0. destruct (newConnection req); simplify_eq.
    unfold mbind, M_bind in H1. rewrite read_cc_eq in H1. destruct (st_conns _ !! p); [by eexists|done]. }
  apply fuelled_bindR; [done|]. intros s2 dp H2.
  assert (frame s s2) as F2 by (transitivity s1; [done|eapply (within_Ret frame); [|exact H2]; eauto with within]).
  apply fuelled_bind; [eauto with fuelled|]. intros s3 d H3.
  assert (frame s s3) as F3 by (transitivity s2; [done|eapply (within_Ret frame); [|exact H3]; eauto with within]).
  apply fuelled_bind; [eauto with fuelled|]. intros s4 [ask_nse close_dp] H4.
  assert (frame s s4) as F4 by (transitivity s3; [done|eapply (within_Ret frame); [|exact H4]; eauto with within]).
  apply fuelled_bind; [eauto with fuelled|]. intros s5 d' H5.
  assert (frame s s5) as F5 by (transitivity s4; [done|eapply (within_Ret frame); [|exact H5]; eauto with within]).
  apply fuelled_bind; [eauto with fuelled|]. intros s6 [[c' req']|e] H6; [|F_auto].
  assert (frame s s6) as F6 by (transitivity s5; [done|eapply (within_Ret frame); [|exact H6]; eauto with within]).
  apply fuelled_bindR; [unfold sr_DataplaneConnection; F_auto|]. intros s7 [] H7.
  assert (frame s s7) as F7 by (transitivity s6; [done|eapply (within_Ret frame); [|exact H7]; eauto with within]).
  apply fuelled_bind; [|F_auto]. pose proof (local_names_frame E x s s7 (fr_others _ _ F7) Hx Hs).
  assert (size (E ∖ ∅) < fuel)%nat by (by rewrite difference_empty_L).
  destruct x as [p|]; [destruct ask_nse|]; try by eapply findConnectNSE_enough_fuel.
  unfold modify_cc, write_cc. F_auto.
Qed.
End find.
