(* ===== verification/NsmRequest.v ===== *)
(** * What a request and a close do to the connection table

    The effect of adding and removing a client connection on the table and on
    the watched peers, and from it the effect of [close], [program_or_close]
    and [request] as a whole. *)
From S2P Require Import Prelude GoStrings GoNet ConnectionContext Apis Vni Selector Model NsmState Nsm NsmLemmas NsmInv.

(** ** Counters of the peers *)
Definition peer_inc (nsm : option NetworkServiceManager) (peers : gmap string Z) : gmap string Z :=
  match nsm with
  | None => peers
  | Some nsm => <[nsmgr_Name nsm := default 0 (peers !! nsmgr_Name nsm) + 1]> peers
  end.
Definition peer_dec (nsm : option NetworkServiceManager) (peers : gmap string Z) : gmap string Z :=
  match nsm with
  | None => peers
  | Some nsm =>
      match peers !! nsmgr_Name nsm with
      | None => peers
      | Some k => if k - 1 =? 0 then delete (nsmgr_Name nsm) peers else <[nsmgr_Name nsm := k - 1]> peers
      end
  end.

Lemma peer_dec_inc nsm peers : (∀ n k, peers !! n = Some k → 1 ≤ k) → peer_dec nsm (peer_inc nsm peers) = peers.
Proof.
  intros Hpos. destruct nsm as [nsm|]; [|done]. cbn. rewrite lookup_insert_eq.
  destruct (peers !! nsmgr_Name nsm) as [k|] eqn:E; cbn.
  - specialize (Hpos _ _ E). replace (k + 1 - 1) with k by lia. destruct (Z.eqb_spec k 0); [lia|].
    rewrite insert_insert_eq. by apply insert_id.
  - by rewrite delete_insert_id.
Qed.

Section table_ops.
Context `{!Environment}.

(** One listener, the monitor client. *)
Definition one_listener (s : nsm_state) : Prop := ∃ l, m_listeners (st_model s) = [l].
Lemma one_listener_frame s s' : frame0 s s' → one_listener s → one_listener s'.
Proof. intros Hf [l Hl]. exists l. by rewrite (fr_listeners _ _ Hf). Qed.

(** The part of the state that the table operations do not touch. *)
Record same_objects (s s' : nsm_state) : Prop := {
  so_frame : frame0 s s';
  so_conns : st_conns s' = st_conns s
}.
Lemma same_objects_intro s s' :
  m_endpoints (st_model s') = m_endpoints (st_model s) → m_dataplanes (st_model s') = m_dataplanes (st_model s) →
  m_listeners (st_model s') = m_listeners (st_model s) → m_nsm (st_model s') = m_nsm (st_model s) →
  st_dps s' = st_dps s → st_workspaces s' = st_workspaces s → st_watched s' = st_watched s →
  st_next s' = st_next s → st_conns s' = st_conns s → (∃ calls, st_log s' = calls ++ st_log s) → same_objects s s'.
Proof.
  intros. split; [|done]. split; try done; [lia|]. intros p cc Hp _. exists cc. split; [congruence|done].
Qed.

Ltac same_objects_tac :=
  apply same_objects_intro; cbn; try done;
  first [by exists []|by eexists [_]|by eexists [_; _]|by eexists [_; _; _]].

Lemma srv_Add_spec p cc s : st_conns s !! p = Some cc → one_listener s →
  ∃ s', srv_AddClientConnection p s = Ret (s', ()) ∧ same_objects s s' ∧
    table s' = <[cc_ConnectionId cc := p]> (table s) ∧
    st_remotePeers s' = peer_inc (cc_RemoteNsm cc) (st_remotePeers s).
Proof.
  intros Hp [l Hl]. unfold srv_AddClientConnection, mbind, M_bind. rewrite read_cc_eq, Hp.
  unfold run_model, AddClientConnection, mbind, M_bind, getS. rewrite Hl. cbn.
  unfold mon_ClientConnectionAdded, mbind, M_bind. rewrite read_cc_eq. cbn. rewrite Hp.
  unfold peer_inc. destruct (cc_RemoteNsm cc) as [nsm|]; cbn; [|eexists; split; [done|]; split; [same_objects_tac|done]].
  destruct (st_remotePeers s !! nsmgr_Name nsm) as [k|]; cbn;
    (eexists; split; [done|]; split; [same_objects_tac|done]).
Qed.

Lemma srv_Update_spec p cc s : st_conns s !! p = Some cc → one_listener s →
  ∃ s', srv_UpdateClientConnection p s = Ret (s', ()) ∧ same_objects s s' ∧
    table s' = <[cc_ConnectionId cc := p]> (table s) ∧ st_remotePeers s' = st_remotePeers s.
Proof.
  intros Hp [l Hl]. unfold srv_UpdateClientConnection, mbind, M_bind. rewrite read_cc_eq, Hp.
  unfold run_model, UpdateClientConnection, mbind, M_bind, getS. rewrite Hl. cbn.
  unfold mon_ClientConnectionUpdated, emit, mbind, M_bind. rewrite read_cc_eq. cbn. rewrite Hp.
  destruct (option_bind _ _ xcon_GetRemoteSource (cc_Xcon cc)); cbn; (eexists; split; [done|]; split; [same_objects_tac|done]).
Qed.

Lemma srv_Delete_spec id p cc s : table s !! id = Some p → st_conns s !! p = Some cc → one_listener s →
  ∃ s', srv_DeleteClientConnection id s = Ret (s', ()) ∧ same_objects s s' ∧
    table s' = delete id (table s) ∧ st_remotePeers s' = peer_dec (cc_RemoteNsm cc) (st_remotePeers s).
Proof.
  intros Hid Hp [l Hl]. unfold srv_DeleteClientConnection, run_model, DeleteClientConnection, mbind, M_bind, getS.
  unfold table in Hid. rewrite Hid, Hl. cbn.
  unfold mon_ClientConnectionDeleted, emit, mbind, M_bind. rewrite read_cc_eq. cbn. rewrite Hp. cbn.
  unfold peer_dec. destruct (option_bind _ _ xcon_GetRemoteSource (cc_Xcon cc)); cbn;
  (destruct (cc_RemoteNsm cc) as [nsm|]; cbn; [|eexists; split; [done|]; split; [same_objects_tac|done]];
   destruct (st_remotePeers s !! nsmgr_Name nsm) as [k|]; cbn; [destruct (k - 1 =? 0); cbn|];
    (eexists; split; [done|]; split; [same_objects_tac|done])).
Qed.

Lemma srv_Delete_absent id s : table s !! id = None → srv_DeleteClientConnection id s = Ret (s, ()).
Proof.
  intros Hid. unfold srv_DeleteClientConnection, run_model, DeleteClientConnection, mbind, M_bind, getS.
  unfold table in Hid. rewrite Hid. cbn. by destruct s.
Qed.

(** ** Objects with their identity *)
Definition owns (s : nsm_state) (p : positive) (id : string) (r : option NetworkServiceManager) : Prop :=
  ∃ cc, st_conns s !! p = Some cc ∧ (p < st_next s)%positive ∧ cc_ConnectionId cc = id ∧ cc_RemoteNsm cc = r.
Lemma owns_frame s s' p id r : frame0 s s' → owns s p id r → owns s' p id r.
Proof.
  intros Hf (cc & Hp & Hlt & <- & <-). pose proof (fr_next _ _ Hf).
  destruct (fr_conns _ _ Hf _ _ Hp Hlt) as (cc' & Hp' & E1 & _ & E2 & _). exists cc'. split_and!; [done|lia|done..].
Qed.
Lemma wp_read_cc {A} p (f : ClientConnection → M A) Q s :
  (∀ cc, st_conns s !! p = Some cc → wp (f cc) Q s) → wp (read_cc p ≫= f) Q s.
Proof.
  intros Hf. apply wp_bind. unfold wp at 1. rewrite read_cc_eq. destruct (st_conns s !! p); [by apply Hf|done].
Qed.
Lemma wp_modify p f cc (Q : nsm_state → () → Prop) s : st_conns s !! p = Some cc →
  Q (set_conns s (<[p := f cc]> (st_conns s)) (st_next s)) () → wp (modify_cc p f) Q s.
Proof. intros Hp HQ. apply wp_read_cc. intros cc' Hcc'. by simplify_eq. Qed.
Lemma frame_modify p f cc s : st_conns s !! p = Some cc → benign f →
  frame s (set_conns s (<[p := f cc]> (st_conns s)) (st_next s)).
Proof. apply (bs_modify (R:=frame)). Qed.
Lemma wp_bind_within {A B} (R : nsm_state → nsm_state → Prop) (m : M A) (f : A → M B) Q s :
  within R m → (∀ s' a, R s s' → wp (f a) Q s') → wp (m ≫= f) Q s.
Proof. intros Hm Hf. apply wp_bind. by eapply wp_within. Qed.

(** Removing the entry of an object that is in the table. *)
Lemma wp_Delete id p r (Q : nsm_state → () → Prop) s : owns s p id r → one_listener s →
  table s !! id = Some p →
  (∀ s', frame0 s s' → st_conns s' = st_conns s → table s' = delete id (table s) →
     st_remotePeers s' = peer_dec r (st_remotePeers s) → Q s' ()) →
  wp (srv_DeleteClientConnection id) Q s.
Proof.
  intros (cc & Hp & _ & _ & <-) Hl Hid HQ.
  destruct (srv_Delete_spec id p cc s Hid Hp Hl) as (s' & E & [Hf Hc] & Ht & Hr).
  unfold wp. rewrite E. by apply HQ.
Qed.

(** ** Close *)
Definition removed (s s' : nsm_state) (id : string) (r : option NetworkServiceManager) : Prop :=
  table s' = delete id (table s) ∧ st_remotePeers s' = peer_dec r (st_remotePeers s).

Lemma close_spec p id r s : owns s p id r → one_listener s → table s !! id = Some p →
  wp (close p true) (λ s' _, frame0 s s' ∧ ∃ cc, st_conns s !! p = Some cc ∧
    if decide (cc_ConnectionState cc = ClientConnection_Closing) then frame s s'
    else removed s s' id r ∧ cc_ConnectionState <$> st_conns s' !! p = Some ClientConnection_Closed) s.
Proof.
  intros Ho Hl Hid. unfold close. apply wp_read_cc. intros cc Hcc.
  assert (cc_ConnectionId cc = id) as Heq by (destruct Ho as (? & ? & _ & ? & _); simplify_eq; done).
  case_decide as Hst; [split; [done|]; exists cc; by rewrite decide_True|].
  apply (wp_bind_within frame); [eauto with within|]. intros s1 _ H1.
  apply (wp_bind_within frame); [eauto with within|]. intros s2 client H2.
  apply (wp_bind_within frame); [destruct client; G_auto|]. intros s3 nseError H3.
  apply wp_bind, wp_bind. eapply (wp_within frame); [apply closeDataplane_within; exact _|]. intros s4 e H4.
  assert (frame s s4) as Hf by (transitivity s1; [done|]; transitivity s2; [done|]; by transitivity s3).
  apply wp_bind. rewrite Heq. eapply (wp_Delete id p r); [eapply owns_frame; eauto with within| | |].
  - eapply one_listener_frame; eauto with within.
  - by rewrite (fr_table _ _ Hf).
  - intros s5 Hf5 Hc5 Ht5 Hr5. cbn.
    destruct (owns_frame _ _ _ _ _ (fr_others _ _ Hf) Ho) as (cc4 & Hcc4 & _). rewrite <- Hc5 in Hcc4.
    apply wp_bind. eapply wp_modify; [exact Hcc4|]. pose proof (frame_modify p
      (λ cc, cc_set_State cc ClientConnection_Closed) _ _ Hcc4 (benign_State _)) as H6.
    split; [do 2 (etransitivity; [eauto with within|]); eauto with within|].
    exists cc. split; [done|]. rewrite decide_False by done. split; [split|].
    + rewrite <- (fr_table _ _ Hf), <- Ht5. done.
    + rewrite <- (fr_peers _ _ Hf), <- Hr5. done.
    + cbn. rewrite lookup_insert_eq. by destruct cc4.
Qed.

(** ** The object a negotiation with an endpoint creates *)
Record negotiated (s s' : nsm_state) (endpoint : option NSERegistration) (c : NSMConnection)
    (p : positive) (cc : ClientConnection) (src dst : NSMConnection) : Prop := {
  ng_object : st_conns s' !! p = Some cc;
  ng_fresh : (st_next s ≤ p < st_next s')%positive;
  ng_id : cc_ConnectionId cc = nc_GetId c;
  ng_state : cc_ConnectionState cc = ClientConnection_Requesting;
  ng_endpoint : cc_Endpoint cc = endpoint;
  ng_xcon : cc_Xcon cc = Some (mkCrossConnect (nc_GetId c)
              (default "" (ns_Payload <$> (endpoint ≫= reg_NetworkService))) (Some src) (Some dst));
  ng_src : nc_GetId c ≠ "" → nc_IsComplete src = None;
  ng_dst : nc_IsComplete dst = None;
  ng_context : nc_GetContext src = nc_GetContext dst;
  ng_required : nc_GetId c ≠ "" → ctx_MeetsRequirements (nc_GetContext src) (nc_GetContext c) = None;
  ng_manager : cc_RemoteNsm cc = match dst with
                                 | LocalConn _ => None
                                 | RemoteConn _ => endpoint ≫= reg_NetworkServiceManager
                                 end
}.

Lemma wp_isLocal {A} ep (f : bool → M A) Q s :
  wp (f (bool_decide (nsm_name s = reg_NsmName ep))) Q s → wp (isLocalEndpoint ep ≫= f) Q s.
Proof. done. Qed.

Lemma updateConnectionParameters_spec nse ep s :
  nc_IsComplete nse = None →
  wp (updateConnectionParameters nse ep) (λ s' dst, s' = s ∧ nc_IsComplete dst = None ∧
    nc_GetContext dst = nc_GetContext nse) s.
Proof.
  intros Hn. unfold updateConnectionParameters. apply wp_isLocal. case_bool_decide; [|done]. apply wp_bind. cbn.
  destruct (WorkspaceByEndpoint _ _) as [w|], nse as [c|c]; cbn; try done.
  destruct (lc_Mechanism c) as [[t [ps|]]|] eqn:Em; cbn; try done.
  split_and!; [done|by apply lc_IsComplete_workspace|done].
Qed.

Lemma createCrossConnect_spec c ep req nse s :
  wp (createCrossConnect c ep req nse) (λ s' x, s' = s ∧
    x = mkCrossConnect (nc_GetId c) (default "" (ns_Payload <$> (ep ≫= reg_NetworkService))) (Some c) (Some nse) ∧
    bool_decide (nsm_name s = reg_NsmName ep) = match nse with LocalConn _ => true | RemoteConn _ => false end) s.
Proof.
  unfold createCrossConnect. apply wp_isLocal.
  destruct (nr_IsRemote req), c, (bool_decide _), nse; cbn; done.
Qed.

Lemma nsm_name_frame s s' : frame0 s s' → nsm_name s' = nsm_name s.
Proof. intros Hf. unfold nsm_name, GetNsm. by rewrite (fr_nsm _ _ Hf). Qed.

Lemma performNSERequest_spec ep c req dp x s :
  wp (performNSERequest ep c req dp x) (λ s' r, frame s s' ∧
    ∀ p, r = Ok p → ∃ cc src dst, negotiated s s' ep c p cc src dst) s.
Proof.
  unfold performNSERequest. apply (wp_bind_within frame); [eauto with within|]. intros s1 client H1.
  destruct client as [client|e]; [|by split]. apply wp_isLocal.
  apply (wp_bind_within frame); [G_auto|]. intros s2 message H2.
  assert (frame s s2) as Hs2 by by transitivity s1.
  apply wp_bindR. eapply (wp_within frame); [eauto with within|]. intros s3 [nse|e] H3;
    (assert (frame s s3) as Hs3 by by transitivity s2); [|by split].
  unfold validateNSEConnection. destruct (nc_IsComplete nse) as [e|] eqn:Ec; cbn; [by split|].
  destruct (nc_UpdateContext c (nc_GetContext nse)) as [c' [e|]] eqn:Eu; [by split|].
  apply wp_bind. eapply wp_mono; [by apply updateConnectionParameters_spec|].
  intros ? dst (-> & Hd & Hctx). cbn beta. apply wp_bind. eapply wp_mono; [apply createCrossConnect_spec|].
  intros ? y (-> & -> & Hloc). cbn. set (cc := mkClientConnection _ _ _ _ _ _ _). split.
  { transitivity s3; [done|]. apply (bs_alloc (R:=frame) s3 cc). by eexists. }
  intros p [= <-]. pose proof (fr_next _ _ (fr_others _ _ Hs3)).
  assert (nc_GetId c' = nc_GetId c ∧ nc_GetContext c' = nc_GetContext nse) as [Hid Hcx].
  { destruct c; cbn in Eu; unfold lc_UpdateContext, rc_UpdateContext in Eu; repeat case_match; by simplify_eq. }
  exists cc, c', dst. split; cbn.
  - apply lookup_insert_eq.
  - lia.
  - done.
  - done.
  - done.
  - by rewrite Hid.
  - intros Hne. by apply (nc_UpdateContext_complete _ _ _ Eu).
  - done.
  - congruence.
  - intros Hne. rewrite Hcx. by apply (nc_UpdateContext_complete _ _ _ Eu).
  - rewrite <- (nsm_name_frame s1 s3), Hloc; [by destruct dst|]. apply fr_others. by transitivity s2.
Qed.

Lemma negotiated_frame s0 s1 s2 ep c p cc src dst :
  frame s0 s1 → negotiated s1 s2 ep c p cc src dst → negotiated s0 s2 ep c p cc src dst.
Proof. intros Hf []. pose proof (fr_next _ _ (fr_others _ _ Hf)). split; try done. lia. Qed.

Lemma findConnectNSE_spec fuel ex ignore err last req c x dp s :
  wp (findConnectNSE fuel ex ignore err last req c x dp) (λ s' r, frame s s' ∧
    ∀ p, r = Ok p → ∃ ep cc src dst, negotiated s s' ep (updateExcludePrefixes ex c) p cc src dst) s.
Proof.
  revert ignore err last s; induction fuel as [|fuel IH]; intros ignore err last s; [done|]. cbn [findConnectNSE].
  apply (wp_bind_within frame); [eauto with within|]. intros s1 prev H1.
  apply (wp_bind_within frame); [destruct prev; G_auto|]. intros s2 [ep e] H2.
  assert (frame s s2) as Hs2 by by transitivity s1. cbn [fst snd].
  destruct e as [e|]; [by split|]. apply wp_bind. eapply wp_mono; [apply performNSERequest_spec|].
  intros s3 r [H3 Hr]. assert (frame s s3) as Hs3 by by transitivity s2. cbn beta.
  destruct r as [p|e].
  - split; [done|]. intros ? [= <-]. destruct (Hr p eq_refl) as (cc & src & dst & Hn).
    exists ep, cc, src, dst. by apply negotiated_frame with s2.
  - destruct (ep ≫= _) as [nse|]; [|done]. eapply wp_mono; [apply IH|].
    intros s4 r [H4 Hr4]. split; [by transitivity s3|]. intros p Hp.
    destruct (Hr4 p Hp) as (ep' & cc & src & dst & Hn). exists ep', cc, src, dst. by apply negotiated_frame with s3.
Qed.

(** ** Programming the dataplane *)
Lemma program_dataplane_spec p cc s : st_conns s !! p = Some cc →
  wp (program_dataplane p) (λ s' e, frame s s' ∧
    match e with
    | None => ∃ x, st_conns s' !! p = Some (cc_set_Xcon cc (Some x)) ∧
                   st_log s' = DataplaneRequest (cc_Xcon cc) (Ok x) :: st_log s
    | Some e => st_conns s' !! p = Some (cc_set_Xcon cc None) ∧
                st_log s' = DataplaneRequest (cc_Xcon cc) (Err e) :: st_log s
    end) s.
Proof.
  intros Hp. unfold program_dataplane. apply wp_read_cc. intros cc' Hcc'. simplify_eq.
  apply wp_bind, wp_ask. set (s1 := set_log s _).
  assert (frame s s1) as H1 by by apply (bs_log (R:=frame)).
  assert (st_conns s1 !! p = Some cc) as Hp1 by done.
  destruct (env_DataplaneRequest _ _) as [x|e]; apply wp_bind; (eapply wp_modify; [exact Hp1|]); cbn.
  - split; [transitivity s1; [done|apply (frame_modify p (λ cc, cc_set_Xcon cc (Some x)) _ _ Hp1 (benign_Xcon _))]|].
    exists x. by rewrite lookup_insert_eq.
  - split; [transitivity s1; [done|apply (frame_modify p (λ cc, cc_set_Xcon cc None) _ _ Hp1 (benign_Xcon _))]|].
    by rewrite lookup_insert_eq.
Qed.

Lemma removed_frame s s1 s' id r : frame s s1 → removed s1 s' id r → removed s s' id r.
Proof. intros [_ Ht Hp] [E1 E2]. split; by rewrite ?E1, ?E2, ?Ht, ?Hp. Qed.

(** Giving up after the second failure: close, then delete once more. *)
Lemma give_up_spec p id r s : owns s p id r → one_listener s → table s !! id = Some p →
  wp (close p true;; cc ← read_cc p; srv_DeleteClientConnection (cc_ConnectionId cc))
     (λ s' _, frame0 s s' ∧ removed s s' id r) s.
Proof.
  intros Ho Hl Hid. apply wp_bind. eapply wp_mono; [by apply (close_spec p id r)|].
  intros s1 _ [H1 (cc & _ & Hc)]. cbn beta. apply wp_read_cc. intros cc1 Hcc1.
  pose proof (owns_frame _ _ _ _ _ H1 Ho) as Ho1. pose proof (one_listener_frame _ _ H1 Hl) as Hl1.
  assert (cc_ConnectionId cc1 = id) as -> by (destruct Ho1 as (? & ? & _ & ? & _); simplify_eq; done).
  case_decide.
  - eapply (wp_Delete id p r); [done|done|by rewrite (fr_table _ _ Hc)|].
    intros s2 H2 _ Ht Hp. split; [by transitivity s1|]. by apply removed_frame with s1.
  - destruct Hc as [[Ht Hp] _]. unfold wp. rewrite srv_Delete_absent; [done|].
    rewrite Ht. apply lookup_delete_eq.
Qed.

Lemma program_or_close_spec p id r cc s :
  owns s p id r → one_listener s → table s !! id = Some p → st_conns s !! p = Some cc →
  wp (program_or_close p) (λ s' e, frame0 s s' ∧
    match e with
    | None => frame s s' ∧ ∃ x x0 log, st_conns s' !! p = Some (cc_set_Xcon cc (Some x)) ∧
                st_log s' = DataplaneRequest x0 (Ok x) :: log
    | Some _ => removed s s' id r
    end) s.
Proof.
  intros Ho Hl Hid Hp. unfold program_or_close. apply wp_bind.
  eapply wp_mono; [by apply program_dataplane_spec|]. intros s1 [e1|] [H1 He1]; cbn beta iota.
  2: { destruct He1 as (x & Hc & Hlog). split; [by apply fr_others|]. split; [done|]. eauto 10. }
  destruct He1 as [Hc1 _]. apply wp_bind. eapply wp_mono; [by apply program_dataplane_spec|].
  intros s2 [e2|] [H2 He2]; cbn beta iota; (assert (frame s s2) as Hs2 by by transitivity s1).
  2: { destruct He2 as (x & Hc & Hlog). split; [by apply fr_others|]. split; [done|].
       exists x. by destruct cc; eauto 10. }
  assert (∀ Q, wp (close p true;; cc ← read_cc p; srv_DeleteClientConnection (cc_ConnectionId cc))
            (λ s' _, Q s' (Some e2)) s2 →
          wp (close p true;; cc ← read_cc p; srv_DeleteClientConnection (cc_ConnectionId cc);; mret (Some e2)) Q s2)
    as Hassoc.
  { intros Q. unfold wp, mbind, M_bind. destruct (close p true s2) as [[s3 _]|]; [|done].
    destruct (read_cc p s3) as [[s4 cc4]|]; [|done]. by destruct (srv_DeleteClientConnection _ s4) as [[]|]. }
  apply Hassoc. eapply wp_mono.
  - apply (give_up_spec p id r); [by eapply owns_frame; eauto with within|by eapply one_listener_frame; eauto with within|].
    by rewrite (fr_table _ _ Hs2).
  - intros s3 _ [H3 Hr]. split; [transitivity s2; [by apply fr_others|done]|]. by apply removed_frame with s2.
Qed.

(** ** A new request *)

(** The connection that a successful request leaves in the table. *)
Definition established (s s' : nsm_state) (id : string) (req : NSMRequest) (conn : NSMConnection) (p : positive) : Prop :=
  ∃ cc x x0 log,
    st_conns s' !! p = Some cc ∧ cc_ConnectionId cc = id ∧ cc_ConnectionState cc = ClientConnection_Ready ∧
    cc_Request cc = Some req ∧ cc_Xcon cc = Some x ∧ xcon_Source x = Some conn ∧
    st_log s' = DataplaneRequest x0 (Ok x) :: log ∧
    table s' = <[id := p]> (table s) ∧ st_remotePeers s' = peer_inc (cc_RemoteNsm cc) (st_remotePeers s).

Lemma return_source_spec req p cc s : st_conns s !! p = Some cc →
  wp (return_source req p) (λ s' res, s' = s ∧ ∃ conn, res = Ok conn ∧ cc_Xcon cc ≫= xcon_Source = Some conn) s.
Proof.
  intros Hp. apply wp_read_cc. intros cc' Hcc'. simplify_eq.
  destruct (nr_IsRemote req), (cc_Xcon cc ≫= xcon_Source) as [[]|]; cbn; eauto.
Qed.

Lemma finish_request_new req p id r s :
  owns s p id r → one_listener s → table s !! id = None → (∀ n k, st_remotePeers s !! n = Some k → 1 ≤ k) →
  wp (finish_request req p None) (λ s' res, frame0 s s' ∧
    match res with
    | Err _ => table s' = table s ∧ st_remotePeers s' = st_remotePeers s
    | Ok conn => established s s' id req conn p
    end) s.
Proof.
  intros (cc & Hcc & Hlt & Hid & Hr) Hl Hnone Hpos. unfold finish_request.
  apply wp_bind. eapply wp_modify; [exact Hcc|].
  pose proof (frame_modify p (λ cc, cc_set_Request cc (Some req)) _ _ Hcc (benign_Request _)) as H1.
  set (s1 := set_conns s _ _) in *. set (cc1 := cc_set_Request cc (Some req)) in *.
  assert (st_conns s1 !! p = Some cc1) as Hcc1 by apply lookup_insert_eq.
  pose proof (one_listener_frame _ _ (fr_others _ _ H1) Hl) as Hl1.
  destruct (srv_Add_spec p cc1 s1 Hcc1 Hl1) as (s2 & E2 & [H2 Hc2] & Ht2 & Hp2).
  apply wp_bind. unfold wp at 1. rewrite E2. cbn [cc1 cc_set_Request cc_ConnectionId cc_RemoteNsm] in Ht2, Hp2.
  rewrite Hid, (fr_table _ _ H1) in Ht2. rewrite Hr, (fr_peers _ _ H1) in Hp2. rewrite <- Hc2 in Hcc1.
  assert (frame0 s s2) as Hs2 by (transitivity s1; [by apply fr_others|done]).
  assert (owns s2 p id r) as Ho2 by (eapply owns_frame; [exact Hs2|]; by exists cc).
  apply wp_bind. eapply wp_mono.
  { apply (program_or_close_spec p id r cc1 s2 Ho2 (one_listener_frame _ _ Hs2 Hl)); [|exact Hcc1].
    rewrite Ht2. apply lookup_insert_eq. }
  intros s3 [e|] [H3 Hres]; cbn beta iota.
  - destruct Hres as [Et Ep]. split; [by transitivity s2|]. rewrite Et, Ep, Ht2, Hp2.
    by rewrite delete_insert_id, peer_dec_inc.
  - destruct Hres as [Hf3 (x & x0 & log & Hcc3 & Hlog)].
    apply wp_bind. eapply wp_modify; [exact Hcc3|].
    pose proof (frame_modify p (λ cc, cc_set_State cc ClientConnection_Ready) _ _ Hcc3 (benign_State _)) as H4.
    set (s4 := set_conns s3 _ _) in *. apply wp_bind. cbn. assert (frame s2 s4) as Hs4 by by transitivity s3.
    eapply wp_mono; [apply return_source_spec, lookup_insert_eq|]. intros ? ? (-> & conn & -> & Hconn).
    split; [transitivity s2; [done|by apply fr_others]|].
    eexists _, x, x0, log. split; [apply lookup_insert_eq|].
    rewrite (fr_table _ _ Hs4), (fr_peers _ _ Hs4), Ht2, Hp2, <- Hr, <- Hid. by split_and!.
Qed.

Lemma nc_GetId_SetId c id : nc_GetId (nc_SetId c id) = id.
Proof. by destruct c. Qed.
Lemma updateMechanism_id c req dp s :
  wp (updateMechanism c req dp) (λ s' r, frame s s' ∧ ∀ c' req', r = Ok (c', req') → nc_GetId c' = nc_GetId c) s.
Proof.
  destruct (updateMechanism c req dp s) as [[s' r]|] eqn:E; [|by unfold wp; rewrite E].
  unfold wp. rewrite E. split; [by eapply (within_Ret frame); [|exact E]; eauto with within|].
  intros c' req' ->. unfold updateMechanism in E. destruct req, c as [c|c]; try done.
  - destruct (match choose_local_mechanism _ _ with Some m => Some m | None => _ end) as [m|]; by inversion E.
  - unfold bindR, mbind, M_bind in E. destruct (selectRemoteMechanism _ _ s) as [[s1 [m|]]|]; by inversion E.
Qed.

(** The id of the next connection. *)
Definition next_id (s : nsm_state) : string := (ConnectionId (st_model s)).2.

Lemma wp_createConnectionId {A} (f : string → M A) Q s :
  wp (f (next_id s)) Q (set_model s (ConnectionId (st_model s)).1) → wp (createConnectionId ≫= f) Q s.
Proof. done. Qed.
Lemma wp_check_none {A} c d (f : bool * bool → M A) Q s :
  wp (f (false, false)) Q s → wp (check_existing c None d ≫= f) Q s.
Proof. done. Qed.

Lemma request_new fuel ex req s :
  table_ok s → peers_ok s → one_listener s → table s !! next_id s = None →
  wp (request fuel ex req None) (λ s' res, frame0 s s' ∧
    match res with
    | Err _ => table s' = table s ∧ st_remotePeers s' = st_remotePeers s
    | Ok conn => ∃ p req', st_conns s !! p = None ∧ established s s' (next_id s) req' conn p
    end) s.
Proof.
  intros Hok Hpk Hl Hid. unfold request. destruct (nr_IsValid req) as [e|]; [done|].
  apply wp_bind. unfold wp at 1, lift. destruct (newConnection req) as [c|]; [|done].
  apply wp_createConnectionId.
  set (s1 := set_model s _). assert (frame s s1) as H1 by apply (bs_id (R:=frame)).
  apply wp_bindR. eapply (wp_within frame); [eauto with within|]. intros s2 [dp|e] H2;
    (assert (frame s s2) as Hs2 by by transitivity s1); [|by destruct Hs2].
  apply (wp_bind_within frame); [eauto with within|]. intros s3 d H3. assert (frame s s3) as Hs3 by by transitivity s2.
  apply wp_check_none.
  apply (wp_bind_within frame); [eauto with within|]. intros s4 d' H4. assert (frame s s4) as Hs4 by by transitivity s3.
  apply wp_bind. eapply wp_mono; [apply updateMechanism_id|]. intros s5 m [H5 Hm].
  assert (frame s s5) as Hs5 by by transitivity s4. cbn beta.
  destruct m as [[c' req']|e]; [|by destruct Hs5]. specialize (Hm _ _ eq_refl). rewrite nc_GetId_SetId in Hm.
  apply wp_bindR. eapply (wp_within frame); [eauto with within|]. intros s6 [[]|e] H6;
    (assert (frame s s6) as Hs6 by by transitivity s5); [|by destruct Hs6].
  apply wp_bind. eapply wp_mono; [apply findConnectNSE_spec|]. intros s7 res [H7 Hres].
  assert (frame s s7) as Hs7 by by transitivity s6. cbn beta.
  destruct res as [p|e]; [|by destruct Hs7]. destruct (Hres p eq_refl) as (ep & cc & src & dst & Hn).
  apply (negotiated_frame s) in Hn; [|done]. destruct Hn. pose proof (fr_others _ _ Hs7) as Hf7.
  eapply wp_mono; [apply (finish_request_new req' p (next_id s) (cc_RemoteNsm cc))|].
  - exists cc. split_and!; [done|lia| |done]. rewrite ng_id0, <- Hm. by destruct c'.
  - by eapply one_listener_frame.
  - by rewrite (fr_table _ _ Hs7).
  - rewrite (fr_peers _ _ Hs7). apply pk_positive, Hpk.
  - intros s8 res [H8 Hr8]. split; [by transitivity s7|]. rewrite (fr_table _ _ Hs7), (fr_peers _ _ Hs7) in Hr8.
    destruct res as [conn|]; [|done]. exists p, req'. split.
    + destruct (st_conns s !! p) eqn:E; [|done]. pose proof (tk_fresh_conns _ Hok p ltac:(by eexists)). lia.
    + unfold established in *. by rewrite (fr_table _ _ Hs7), (fr_peers _ _ Hs7) in Hr8.
Qed.

(** ** Giving up after the dataplane refused *)
Definition closes_nse (c : call) : bool :=
  match c with EndpointClose _ _ | RemoteNsmClose _ _ => true | _ => false end.
(** No endpoint and no remote manager is told to close. *)
Definition quiet (s s' : nsm_state) : Prop :=
  ∃ calls, st_log s' = calls ++ st_log s ∧ Forall (λ c, closes_nse c = false) calls.
#[local] Instance quiet_preorder : PreOrder quiet.
Proof.
  split; [intros s; by exists []|]. intros s1 s2 s3 (c1 & E1 & H1) (c2 & E2 & H2). exists (c2 ++ c1).
  by rewrite E2, E1, app_assoc, Forall_app.
Qed.
Lemma quiet_same s s' : st_log s' = st_log s → quiet s s'.
Proof. by exists []. Qed.
Lemma emit_quiet c : closes_nse c = false → within quiet (emit c).
Proof. intros Hc s. exists [c]. split; [done|]. by rewrite Forall_singleton. Qed.
Lemma ask_quiet {A} (answer : history → A) c : (∀ a, closes_nse (c a) = false) → within quiet (ask answer c).
Proof. intros Hc s. eexists [_]. split; [done|]. by rewrite Forall_singleton. Qed.
Hint Resolve emit_quiet ask_quiet : within.
Hint Extern 1 (closes_nse _ = false) => reflexivity : within.
Ltac quiet_tac := G_auto; try (by apply quiet_same).

Lemma modify_quiet p f : within quiet (modify_cc p f).
Proof. unfold modify_cc, write_cc. quiet_tac. Qed.
Lemma createNSEClient_quiet ep : within quiet (createNSEClient ep).
Proof.
  unfold createNSEClient, isLocalEndpoint, getNetworkServiceManagerName, sr_EndpointConnection,
    sr_RemoteNetworkServiceClient. quiet_tac.
Qed.
Lemma closeDataplane_quiet p : within quiet (closeDataplane p).
Proof. unfold closeDataplane, sr_DataplaneConnection. quiet_tac. Qed.
Lemma mon_notify_all_quiet ns : within quiet (mon_notify_all ns).
Proof.
  assert (∀ n, within quiet (mon_notify n)).
  { intros []; cbn [mon_notify]; unfold mon_ClientConnectionAdded, mon_ClientConnectionUpdated,
      mon_ClientConnectionDeleted, mon_DataplaneAdded; quiet_tac. }
  induction ns; cbn [mon_notify_all]; quiet_tac.
Qed.
Hint Resolve modify_quiet createNSEClient_quiet closeDataplane_quiet mon_notify_all_quiet : within.
Lemma srv_Delete_quiet id : within quiet (srv_DeleteClientConnection id).
Proof. unfold srv_DeleteClientConnection, run_model. quiet_tac. Qed.
Hint Resolve srv_Delete_quiet : within.

Lemma close_nil_quiet p cc s : st_conns s !! p = Some cc → cc_Xcon cc = None →
  wp (close p true) (λ s' _, quiet s s') s.
Proof.
  intros Hp Hx. unfold close. apply G_read. intros cc' Hcc'. simplify_eq.
  assert (∀ client, within quiet (close_destination client (cc_Xcon cc))).
  { intros client s'. rewrite Hx. apply (quiet_same s' s'). done. }
  quiet_tac.
Qed.

Lemma program_or_close_log p cc s : st_conns s !! p = Some cc →
  wp (program_or_close p) (λ s' r, ∀ err, r = Some err → ∃ calls err0,
    st_log s' = calls ++ DataplaneRequest None (Err err) :: DataplaneRequest (cc_Xcon cc) (Err err0) :: st_log s ∧
    Forall (λ c, closes_nse c = false) calls) s.
Proof.
  intros Hp. unfold program_or_close. apply wp_bind. eapply wp_mono; [by apply program_dataplane_spec|].
  intros s1 [e1|] [_ He1]; cbn beta iota; [|done]. destruct He1 as [Hc1 Hl1].
  apply wp_bind. eapply wp_mono; [by apply program_dataplane_spec|].
  intros s2 [e2|] [_ He2]; cbn beta iota; [|done]. destruct He2 as [Hc2 Hl2]. cbn in Hl2.
  assert (wp (close p true;; cc ← read_cc p; srv_DeleteClientConnection (cc_ConnectionId cc);; mret (Some e2))
    (λ s' r, quiet s2 s' ∧ r = Some e2) s2) as Hw.
  { apply wp_bind. eapply wp_mono; [by eapply close_nil_quiet|]. intros s3 ? H3. apply wp_read_cc. intros cc3 _.
    apply wp_bind. eapply wp_mono; [apply srv_Delete_quiet|]. intros s4 ? H4. split; [by transitivity s3|done]. }
  eapply wp_mono; [exact Hw|]. intros s' r [(calls & Hl & Hq) ->] err [= <-].
  exists calls, e1. by rewrite Hl, Hl2, Hl1.
Qed.
End table_ops.
