(* ===== verification/NsmProps.v ===== *)
(** * Correctness of the network service manager

    The theorems about [Request], [Close] and [Heal], with a small network to
    run them on: one dataplane, and one endpoint on another manager. *)
From S2P Require Import Prelude GoStrings GoNet ConnectionContext Apis Vni Selector Model NsmState Nsm NsmHeal NsmLemmas NsmInv NsmFind NsmRequest.

(** ** A network to run on *)
Module Net.
Definition manager (name : string) : NetworkServiceManager := mkNetworkServiceManager name "tcp:1" None "RUNNING".
Definition service : NetworkService := mkNetworkService "icmp" "IP" [].
Definition endpoint : NetworkServiceEndpoint := mkNetworkServiceEndpoint "icmp" "IP" "nsm-2" "nse-1" ∅ "RUNNING".
Definition vxlan (vni : string) : RemoteMechanism :=
  mkRemoteMechanism VXLAN (Some (list_to_map [(VXLANSrcIP, "10.0.0.1"); (VXLANDstIP, "10.0.0.2"); (VXLANVNI, vni)])).
Definition kernel : LocalMechanism :=
  mkLocalMechanism KERNEL_INTERFACE (Some (list_to_map [(NetNsInodeKey, "4026"); (InterfaceNameKey, "eth1")])).
Definition dataplane : Dataplane := mkDataplane "dp" "dp.sock" [kernel] [vxlan "1"].
Definition ctx : ConnectionContext := mkConnectionContext "10.1.0.1/30" "10.1.0.2/30" true true [] [] [] [] [].
Definition answer (r : RemoteRequest) : result RemoteConnection :=
  match rr_Connection r with
  | None => Err (Errorf "no connection")
  | Some c => Ok (mkRemoteConnection "r1" (rc_NetworkService c) (Some (vxlan "7")) (Some ctx) ∅
                    "nsm-1" "nsm-2" "nse-1" State_UP)
  end.

(** [works] tells whether the dataplane accepts the cross connects. *)
Definition env (works : bool) : Environment := {|
  env_DialDataplane _ _ := None;
  env_DataplaneRequest _ x :=
    match x with Some x => if works then Ok x else Err (Errorf "dataplane") | None => Err (Errorf "nil") end;
  env_DataplaneClose _ _ := None;
  env_DialEndpoint _ _ := None;
  env_EndpointRequest _ _ := Err (Errorf "no endpoint");
  env_EndpointClose _ _ := None;
  env_DialRemoteNsm _ _ := None;
  env_RemoteNsmRequest _ r := answer r;
  env_RemoteNsmClose _ _ := None;
  env_DialRegistry _ := None;
  env_FindNetworkService _ name :=
    Ok (mkFindNetworkServiceResponse "IP" (Some service) (list_to_map [("nsm-2", manager "nsm-2")]) [endpoint]);
  env_WaitForDataplane _ := None;
  env_RegisterNSE _ r := Ok r;
  env_RemoveNSE _ _ := None;
  env_dataplane_order _ m := map_to_list m;
  env_connection_order _ m := map_to_list m
|}.

Definition client_request : NSMRequest :=
  LocalReq (mkLocalRequest (Some (mkLocalConnection "" "icmp" None (Some ctx) ∅ State_UP)) [kernel]).

Definition s0 : nsm_state := initial (Some (manager "nsm-1")) 1 NewVniAllocator ∅.
(** The state after an operation that returns. *)
Definition after {A} (m : M A) (s : nsm_state) : nsm_state := match m s with Ret (s', _) => s' | Panic _ => s end.
Definition result_of {A} (m : M A) (s : nsm_state) : option A := match m s with Ret (_, a) => Some a | Panic _ => None end.
Lemma run_eq {A} (m : M A) s a : result_of m s = Some a → m s = Ret (after m s, a).
Proof. unfold result_of, after. destruct (m s) as [[]|]; naive_solver. Qed.

Definition s1 : nsm_state := after (srv_AddDataplane dataplane) s0.
Definition s2 (works : bool) : nsm_state := after (@Request (env works) 5 [] client_request) s1.
Definition returned (works : bool) : option (result NSMConnection) :=
  result_of (@Request (env works) 5 [] client_request) s1.

Lemma reachable_s1 works : @reachable (env works) s1.
Proof.
  eapply (@reachable_step (env works) s0); [apply reachable_init|].
  apply (@step_AddDataplane (env works) _ _ dataplane). apply run_eq. by vm_compute.
Qed.
Definition conn : NSMConnection := LocalConn (mkLocalConnection "1" "icmp" (Some kernel) (Some ctx) ∅ State_UP).
Lemma Request_works : @Request (env true) 5 [] client_request s1 = Ret (s2 true, Ok conn).
Proof.
  assert (result_of (@Request (env true) 5 [] client_request) s1 = Some (Ok conn)) as E by by vm_compute.
  exact (run_eq _ _ _ E).
Qed.
Lemma Request_fails : @Request (env false) 5 [] client_request s1 = Ret (s2 false, Err (Errorf "nil")).
Proof.
  assert (result_of (@Request (env false) 5 [] client_request) s1 = Some (Err (Errorf "nil"))) as E by by vm_compute.
  exact (run_eq _ _ _ E).
Qed.
Lemma reachable_s2 : @reachable (env true) (s2 true).
Proof. eapply reachable_step; [apply reachable_s1|]. eapply step_Request, Request_works. Qed.
End Net.

(** ** Invariants *)
Section props.
Context `{!Environment}.

(** C19: in every state the daemon can reach, whatever the dataplanes, the
    endpoints, the registry and the other managers answer: each entry of the
    connection table and of the dataplane table points to a live object that
    carries the key as its own name, and every connection has a dataplane. *)
Theorem reachable_tables s : reachable s →
  (∀ id p, table s !! id = Some p → ∃ cc, st_conns s !! p = Some cc ∧ cc_ConnectionId cc = id ∧ is_Some (cc_Dataplane cc)) ∧
  (∀ name d, m_dataplanes (st_model s) !! name = Some d → ∃ dp, st_dps s !! d = Some dp ∧ dp_RegisteredName dp = name).
Proof.
  intros [Hok _]%reachable_ok. split; [|apply Hok].
  intros id p Hp. destruct (tk_table _ Hok _ _ Hp) as (cc & Hcc & Hid). exists cc.
  split_and!; [done..|]. by eapply tk_programmed.
Qed.

(** C18: in every reachable state a peer manager is watched exactly when it
    has a counter, the counters are positive, and in the history of the
    daemon a watcher is started only where none runs and stopped only where
    one does. *)
Theorem peers_watched_exactly s : reachable s →
  dom (st_remotePeers s) = watching (st_log s) ∧ alternates (st_log s) ∧
  map_Forall (λ _ k, 1 ≤ k) (st_remotePeers s).
Proof. intros [_ Hok]%reachable_ok. split_and!; [apply Hok..|]. intros n k. apply (pk_positive _ Hok). Qed.

(** ** Requests *)

(** C1: a request for a new connection that succeeds leaves exactly one new
    entry in the connection table: a fresh object in state Ready under the
    id that was next, with the cross connect that the dataplane confirmed in
    the last call of the request, whose source is what the client gets; and
    one more connection is counted for the peer. *)
Theorem new_request_success fuel ex req s s' conn :
  reachable s → table s !! nr_GetConnectionId req = None → table s !! next_id s = None →
  Request fuel ex req s = Ret (s', Ok conn) →
  ∃ p cc x x0 log, st_conns s !! p = None ∧ st_conns s' !! p = Some cc ∧
    cc_ConnectionId cc = next_id s ∧ cc_ConnectionState cc = ClientConnection_Ready ∧
    cc_Xcon cc = Some x ∧ xcon_Source x = Some conn ∧ st_log s' = DataplaneRequest x0 (Ok x) :: log ∧
    table s' = <[next_id s := p]> (table s) ∧ st_remotePeers s' = peer_inc (cc_RemoteNsm cc) (st_remotePeers s).
Proof.
  intros Hr Hreq Hid. destruct (reachable_ok _ Hr) as [Hok Hpk]. destruct (reachable_listeners _ Hr) as [l Hl].
  unfold Request, mbind, M_bind, getS, GetClientConnection. unfold table in Hreq. rewrite Hreq. intros E.
  destruct (wp_Ret _ _ _ _ _ (request_new fuel ex req s Hok Hpk (ex_intro _ l Hl) Hid) E)
    as [_ (p & req' & Hp & cc & x & x0 & log & Hest)].
  exists p, cc, x, x0, log. naive_solver.
Qed.

(** C2: a request for a new connection that fails, at whichever step, leaves
    the connection table, the counters of the peers, the endpoints and the
    dataplanes as they were. *)
Theorem failed_request_leaves_tables fuel ex req s s' e :
  reachable s → table s !! nr_GetConnectionId req = None → table s !! next_id s = None →
  Request fuel ex req s = Ret (s', Err e) →
  table s' = table s ∧ st_remotePeers s' = st_remotePeers s ∧ st_watched s' = st_watched s ∧
  m_endpoints (st_model s') = m_endpoints (st_model s) ∧ m_dataplanes (st_model s') = m_dataplanes (st_model s).
Proof.
  intros Hr Hreq Hid. destruct (reachable_ok _ Hr) as [Hok Hpk]. destruct (reachable_listeners _ Hr) as [l Hl].
  unfold Request, mbind, M_bind, getS, GetClientConnection. unfold table in Hreq. rewrite Hreq. intros E.
  destruct (wp_Ret _ _ _ _ _ (request_new fuel ex req s Hok Hpk (ex_intro _ l Hl) Hid) E) as [[] [H1 H2]]. done.
Qed.

(** C6: a request ends: when the names of all endpoints around (those the
    registry answers with, those registered locally, those of the existing
    connections) are in a finite set, the search for an endpoint does not
    need more turns than there are names, so a request with that much fuel
    never runs out of it. *)
Theorem Request_terminates E fuel ex req s :
  reachable s → registry_names E →
  (∀ name r, m_endpoints (st_model s) !! name = Some r → nse_name_in E (Some (ref_val r))) →
  (∀ p cc, st_conns s !! p = Some cc → nse_name_in E (cc_Endpoint cc)) →
  (size E < fuel)%nat → Request fuel ex req s ≠ Panic out_of_fuel.
Proof.
  intros Hr HE He Hc Hf. destruct (reachable_ok _ Hr) as [Hok _].
  apply (request_enough_fuel E); [done| |done]. split; [done|].
  intros p cc _ Hp. split; [|by eapply Hc]. apply (tk_fresh_conns _ Hok). by eexists.
Qed.

(** C21: whatever an endpoint or a remote manager answers, the cross connect
    that [performNSERequest] builds from a successful answer passes the
    completeness check of the dataplane exactly when the connection of the
    request has an id and the service a payload: nothing in the answer can
    make it fail.  Its source has the context of its destination, and when
    the connection has an id, as the manager sees to, that context satisfies
    the requirements of the request. *)
Theorem negotiated_xcon_complete endpoint c req dp existing s s' p :
  performNSERequest endpoint c req dp existing s = Ret (s', Ok p) →
  let payload := default "" (ns_Payload <$> (endpoint ≫= reg_NetworkService)) in
  ∃ cc src dst, st_conns s' !! p = Some cc ∧
    cc_Xcon cc = Some (mkCrossConnect (nc_GetId c) payload (Some src) (Some dst)) ∧
    (xcon_IsComplete (cc_Xcon cc) = None ↔ nc_GetId c ≠ "" ∧ payload ≠ "") ∧
    nc_GetContext src = nc_GetContext dst ∧
    (nc_GetId c ≠ "" → ctx_MeetsRequirements (nc_GetContext src) (nc_GetContext c) = None).
Proof.
  intros E payload. destruct (wp_Ret _ _ _ _ _ (performNSERequest_spec endpoint c req dp existing s) E) as [_ Hn].
  destruct (Hn p eq_refl) as (cc & src & dst & Hng). exists cc, src, dst.
  split_and!; [apply Hng|apply Hng| |apply Hng|apply Hng]. rewrite (ng_xcon _ _ _ _ _ _ _ _ Hng). split.
  - intros (? & ? & ? & ? & _)%xcon_complete_elim. done.
  - intros [? ?]. apply xcon_complete_intro; try apply Hng; done.
Qed.

(** C8: closing a connection that is in the table and not being closed
    already removes its entry, counts it off at the peer and leaves the
    object in state Closed, even when the endpoint, the remote manager or
    the dataplane report errors. *)
Theorem Close_removes id p s s' e cc :
  reachable s → table s !! id = Some p → st_conns s !! p = Some cc →
  cc_ConnectionState cc ≠ ClientConnection_Closing → Close p s = Ret (s', e) →
  table s' = delete id (table s) ∧ st_remotePeers s' = peer_dec (cc_RemoteNsm cc) (st_remotePeers s) ∧
  cc_ConnectionState <$> st_conns s' !! p = Some ClientConnection_Closed.
Proof.
  intros Hr Hid Hp Hst E. destruct (reachable_ok _ Hr) as [Hok _]. destruct (reachable_listeners _ Hr) as [l Hl].
  destruct (tk_table _ Hok _ _ Hid) as (cc' & Hcc' & Hn). simplify_eq.
  assert (owns s p (cc_ConnectionId cc) (cc_RemoteNsm cc)) as Ho.
  { exists cc. split_and!; try done. apply (tk_fresh_conns _ Hok). by eexists. }
  destruct (wp_Ret _ _ _ _ _ (close_spec p _ _ s Ho (ex_intro _ l Hl) Hid) E) as [_ (cc' & Hcc' & Hrem)].
  simplify_eq. rewrite decide_False in Hrem by done. unfold removed in Hrem. naive_solver.
Qed.

(** C30: when the dataplane refuses a connection twice, the second attempt
    carries no cross connect at all (the first one overwrote it with the nil
    result), and no endpoint and no remote manager is told to close the
    connection it had granted. *)
Theorem dataplane_failure_never_closes_nse p cc s s' err :
  st_conns s !! p = Some cc → program_or_close p s = Ret (s', Some err) →
  ∃ calls err0,
    st_log s' = calls ++ DataplaneRequest None (Err err) :: DataplaneRequest (cc_Xcon cc) (Err err0) :: st_log s ∧
    Forall (λ c, closes_nse c = false) calls.
Proof. intros Hp E. exact (wp_Ret _ _ _ _ _ (program_or_close_log p cc s Hp) E err eq_refl). Qed.

(** Healing a connection whose source went down closes it and removes
    it from the table, and yet the object ends in state Ready: the deferred
    function of [Heal] overwrites the Closed that [close] had set. *)
Lemma Heal_src_down_ends_ready fuel ex id p s s' cc :
  reachable s → table s !! id = Some p → st_conns s !! p = Some cc →
  cc_ConnectionState cc = ClientConnection_Ready → Heal fuel ex p HealState_SrcDown s = Ret (s', ()) →
  table s' = delete id (table s) ∧ cc_ConnectionState <$> st_conns s' !! p = Some ClientConnection_Ready.
Proof.
  intros Hr Hid Hp Hst E. destruct (reachable_ok _ Hr) as [Hok _]. destruct (reachable_listeners _ Hr) as [l Hl].
  destruct (tk_table _ Hok _ _ Hid) as (cc' & Hcc' & Hn). simplify_eq.
  assert (owns s p (cc_ConnectionId cc) (cc_RemoteNsm cc)) as Ho.
  { exists cc. split_and!; try done. apply (tk_fresh_conns _ Hok). by eexists. }
  refine (wp_Ret _ (λ s' _, table s' = delete _ (table s) ∧ cc_ConnectionState <$> st_conns s' !! p = Some _) _ _ _ _ E).
  unfold Heal. apply wp_read_cc. intros cc' Hcc'. simplify_eq. rewrite decide_False by (intros Hne; by apply Hne).
  apply wp_bind. eapply wp_modify; [exact Hp|].
  pose proof (frame_modify p (λ cc, cc_set_State cc ClientConnection_Healing) _ _ Hp (benign_State _)) as H1.
  set (s1 := set_conns s _ _) in *. apply wp_bind. unfold heal_close, Close. apply wp_bind. eapply wp_mono.
  { apply (close_spec p (cc_ConnectionId cc) (cc_RemoteNsm cc) s1);
      [by eapply owns_frame; eauto with within|by exists l|by rewrite (fr_table _ _ H1)]. }
  intros s2 e [_ (cc1 & Hcc1 & Hc)]. unfold s1 in Hcc1. cbn [set_conns st_conns] in Hcc1.
  rewrite lookup_insert_eq in Hcc1. simplify_eq. rewrite decide_False in Hc by done. destruct Hc as [[Ht _] Hcl].
  cbn. destruct (st_conns s2 !! p) as [cc2|] eqn:E2; [|done].
  eapply wp_modify; [exact E2|]. split; [by rewrite <- (fr_table _ _ H1)|]. cbn. by rewrite lookup_insert_eq.
Qed.
End props.

(** ** Mechanisms *)

(** C31: a remote request prefers VXLAN and names a valid source address, the
    dataplane offers VXLAN with a source address of the same family, and the
    counter for the source address has not run through its 24 bits.  Then the
    mechanism that is selected is valid: it keeps the source of the request,
    takes the dataplane's address as destination, and its network identifier
    is the one that the allocator gave for the two addresses, which is larger
    than the last one it gave for this source and is stored in its place. *)
Theorem selected_vxlan_valid r dp m rest ps src dpm dst s :
  rr_MechanismPreferences r = m :: rest → rm_Type m = VXLAN → rm_Parameters m = Some ps →
  ps !! VXLANSrcIP = Some src → findRemoteMechanism (dp_RemoteMechanisms dp) VXLAN = Some dpm →
  param_of (rm_Parameters dpm) VXLANSrcIP = dst → ParseIP src ≠ [] →
  length (ParseIP dst) = length (ParseIP src) → 0 ≤ default 0 (lastVni (st_vni s) !! src) < 2 ^ 24 - 3 →
  ∃ s' m' r' vni, selectRemoteMechanism r dp s = Ret (s', Ok (m', r')) ∧ rm_isValid (Some m') = None ∧
    param_of (rm_Parameters m') VXLANSrcIP = src ∧ param_of (rm_Parameters m') VXLANDstIP = dst ∧
    rm_VNI (Some m') = Ok vni ∧ Vni (st_vni s) dst src = Ret (st_vni s', vni) ∧
    lastVni (st_vni s') !! src = Some vni ∧ default 0 (lastVni (st_vni s) !! src) < vni < 2 ^ 24.
Proof.
  intros Hr Ht Hps Hsrc Hdp Hdst Hp Hlen Hv. unfold selectRemoteMechanism. rewrite Hr, Hdp, decide_True by done.
  rewrite Hps, Hdst. cbv zeta.
  assert (param_of (Some ps) VXLANSrcIP = src) as -> by (unfold param_of, map_get; cbn; by rewrite Hsrc).
  assert (∃ v, Vni (st_vni s) dst src = Ret (mkVniAllocator (<[src := v]> (lastVni (st_vni s))), v) ∧
            default 0 (lastVni (st_vni s) !! src) < v < 2 ^ 24) as (v & E & Hv').
  { destruct (compareIps_total _ _ Hlen) as (c & Hc & _).
    destruct (decide (default 0 (lastVni (st_vni s) !! src) = 0)) as [Hz|Hz].
    - exists (first_vni c). split; [by apply Vni_first|]. rewrite Hz. unfold first_vni. destruct (c <? 0); lia.
    - destruct (lastVni (st_vni s) !! src) as [v|] eqn:Ev; cbn in *; [|done].
      exists (v + 2). split; [apply Vni_next; [done|lia|lia]|lia]. }
  cbv [mbind M_bind getS lift]. rewrite E. cbn -[FormatUint insert ParseUint rm_isValid].
  assert (ParseUint (FormatUint v 10) 24 = Some v) as Hparse by (apply ParseUint_FormatUint; lia).
  eexists _, _, _, v. split; [reflexivity|]. rewrite Ht. split_and!; try done.
  - apply rm_isValid_vxlan. exists src, dst, (FormatUint v 10), v.
    rewrite lookup_insert_ne, lookup_insert_ne, lookup_insert_eq by done.
    rewrite lookup_insert_ne, lookup_insert_eq, lookup_insert_eq by done. split_and!; try done.
    intros E0. rewrite E0 in Hlen. destruct (ParseIP src); done.
  - unfold param_of, map_get. cbn. by rewrite lookup_insert_ne, lookup_insert_ne, lookup_insert_eq.
  - unfold param_of, map_get. cbn. by rewrite lookup_insert_ne, lookup_insert_eq.
  - unfold rm_VNI. cbn [rm_Parameters]. by rewrite lookup_insert_eq, Hparse.
  - unfold set_vni. cbn [st_vni lastVni]. by rewrite lookup_insert_eq.
  - lia.
  - lia.
Qed.

(** ** Witnesses *)
Module Runs.
Import Net.
Definition cc1 : ClientConnection :=
  default (mkClientConnection "" None None None None ClientConnection_Closed None) (st_conns (s2 true) !! 2%positive).
Lemma cc1_eq : st_conns (s2 true) !! 2%positive = Some cc1.
Proof. by vm_compute. Qed.
Lemma cc1_ready : cc_ConnectionState cc1 = ClientConnection_Ready.
Proof. by vm_compute. Qed.
Lemma s2_table : table (s2 true) !! "1" = Some 2%positive.
Proof. by vm_compute. Qed.

Definition remote_reg : NSERegistration := mkNSERegistration (Some service) (Some (manager "nsm-2")) (Some endpoint).
Definition negotiate : M (result positive) := @performNSERequest (env true) (Some remote_reg) conn client_request 1 None.
Lemma negotiate_eq : negotiate s1 = Ret (after negotiate s1, Ok 2%positive).
Proof. assert (result_of negotiate s1 = Some (Ok 2%positive)) as E by by vm_compute. exact (run_eq _ _ _ E). Qed.

Definition closing : M (option error) := @Close (env true) 2.
Lemma closing_eq : closing (s2 true) = Ret (after closing (s2 true), None).
Proof. assert (result_of closing (s2 true) = Some None) as E by by vm_compute. exact (run_eq _ _ _ E). Qed.

Definition programming : M (option error) := @program_or_close (env false) 2.
Lemma programming_eq : programming (s2 true) = Ret (after programming (s2 true), Some (Errorf "nil")).
Proof.
  assert (result_of programming (s2 true) = Some (Some (Errorf "nil"))) as E by by vm_compute. exact (run_eq _ _ _ E).
Qed.

Definition healing : M () := @Heal (env true) 5 [] 2 HealState_SrcDown.
Lemma healing_eq : healing (s2 true) = Ret (after healing (s2 true), ()).
Proof. assert (result_of healing (s2 true) = Some ()) as E by by vm_compute. exact (run_eq _ _ _ E). Qed.
End Runs.

Lemma reachable_tables_witness :
  (∀ id p, table (Net.s2 true) !! id = Some p →
    ∃ cc, st_conns (Net.s2 true) !! p = Some cc ∧ cc_ConnectionId cc = id ∧ is_Some (cc_Dataplane cc)) ∧
  (∀ name d, m_dataplanes (st_model (Net.s2 true)) !! name = Some d →
    ∃ dp, st_dps (Net.s2 true) !! d = Some dp ∧ dp_RegisteredName dp = name).
Proof. exact (reachable_tables (Net.s2 true) Net.reachable_s2). Defined.

Lemma peers_watched_exactly_witness :
  dom (st_remotePeers (Net.s2 true)) = watching (st_log (Net.s2 true)) ∧ alternates (st_log (Net.s2 true)) ∧
  map_Forall (λ _ k, 1 ≤ k) (st_remotePeers (Net.s2 true)).
Proof. exact (peers_watched_exactly (Net.s2 true) Net.reachable_s2). Defined.

Lemma new_request_success_witness :
  ∃ p cc x x0 log, st_conns Net.s1 !! p = None ∧ st_conns (Net.s2 true) !! p = Some cc ∧
    cc_ConnectionId cc = next_id Net.s1 ∧ cc_ConnectionState cc = ClientConnection_Ready ∧
    cc_Xcon cc = Some x ∧ xcon_Source x = Some Net.conn ∧ st_log (Net.s2 true) = DataplaneRequest x0 (Ok x) :: log ∧
    table (Net.s2 true) = <[next_id Net.s1 := p]> (table Net.s1) ∧
    st_remotePeers (Net.s2 true) = peer_inc (cc_RemoteNsm cc) (st_remotePeers Net.s1).
Proof.
  apply (@new_request_success (Net.env true) 5 [] Net.client_request Net.s1 (Net.s2 true) Net.conn);
    [apply Net.reachable_s1|vm_compute; reflexivity..|exact Net.Request_works].
Defined.

Lemma failed_request_leaves_tables_witness :
  table (Net.s2 false) = table Net.s1 ∧ st_remotePeers (Net.s2 false) = st_remotePeers Net.s1 ∧
  st_watched (Net.s2 false) = st_watched Net.s1 ∧
  m_endpoints (st_model (Net.s2 false)) = m_endpoints (st_model Net.s1) ∧
  m_dataplanes (st_model (Net.s2 false)) = m_dataplanes (st_model Net.s1).
Proof.
  apply (@failed_request_leaves_tables (Net.env false) 5 [] Net.client_request Net.s1 (Net.s2 false) (Errorf "nil"));
    [apply Net.reachable_s1|vm_compute; reflexivity..|exact Net.Request_fails].
Defined.

Lemma Request_terminates_witness : @Request (Net.env true) 5 [] Net.client_request Net.s1 ≠ Panic out_of_fuel.
Proof.
  apply (@Request_terminates (Net.env true) {["nse-1"]}); [apply Net.reachable_s1|..].
  - intros h name resp e [= <-] He. apply list_elem_of_singleton in He as ->. by apply elem_of_singleton.
  - assert (m_endpoints (st_model Net.s1) = ∅) as -> by (vm_compute; reflexivity).
    intros name r Hr. by rewrite lookup_empty in Hr.
  - assert (st_conns Net.s1 = ∅) as -> by (vm_compute; reflexivity). intros p cc Hp. by rewrite lookup_empty in Hp.
  - rewrite size_singleton. lia.
Defined.

Lemma negotiated_xcon_complete_witness :
  let payload := default "" (ns_Payload <$> (Some Runs.remote_reg ≫= reg_NetworkService)) in
  ∃ cc src dst, st_conns (Net.after Runs.negotiate Net.s1) !! 2%positive = Some cc ∧
    cc_Xcon cc = Some (mkCrossConnect (nc_GetId Net.conn) payload (Some src) (Some dst)) ∧
    (xcon_IsComplete (cc_Xcon cc) = None ↔ nc_GetId Net.conn ≠ "" ∧ payload ≠ "") ∧
    nc_GetContext src = nc_GetContext dst ∧
    (nc_GetId Net.conn ≠ "" → ctx_MeetsRequirements (nc_GetContext src) (nc_GetContext Net.conn) = None).
Proof.
  apply (@negotiated_xcon_complete (Net.env true) (Some Runs.remote_reg) Net.conn Net.client_request 1 None Net.s1).
  exact Runs.negotiate_eq.
Defined.

Lemma Close_removes_witness :
  let s' := Net.after Runs.closing (Net.s2 true) in
  table s' = delete "1" (table (Net.s2 true)) ∧
  st_remotePeers s' = peer_dec (cc_RemoteNsm Runs.cc1) (st_remotePeers (Net.s2 true)) ∧
  cc_ConnectionState <$> st_conns s' !! 2%positive = Some ClientConnection_Closed.
Proof.
  apply (@Close_removes (Net.env true) "1" 2 (Net.s2 true) _ None);
    [exact Net.reachable_s2|exact Runs.s2_table|exact Runs.cc1_eq|by rewrite Runs.cc1_ready|exact Runs.closing_eq].
Defined.

Lemma dataplane_failure_never_closes_nse_witness :
  ∃ calls err0, st_log (Net.after Runs.programming (Net.s2 true)) =
    calls ++ DataplaneRequest None (Err (Errorf "nil")) :: DataplaneRequest (cc_Xcon Runs.cc1) (Err err0) ::
      st_log (Net.s2 true) ∧ Forall (λ c, closes_nse c = false) calls.
Proof.
  exact (@dataplane_failure_never_closes_nse (Net.env false) 2 Runs.cc1 (Net.s2 true) _ _ Runs.cc1_eq Runs.programming_eq).
Defined.

Lemma selected_vxlan_valid_witness :
  let m := mkRemoteMechanism VXLAN (Some (<[VXLANSrcIP := "10.0.0.9"]> ∅)) in
  let r := mkRemoteRequest None [m] in
  ∃ s' m' r' vni, selectRemoteMechanism r Net.dataplane Net.s1 = Ret (s', Ok (m', r')) ∧ rm_isValid (Some m') = None ∧
    param_of (rm_Parameters m') VXLANSrcIP = "10.0.0.9" ∧ param_of (rm_Parameters m') VXLANDstIP = "10.0.0.1" ∧
    rm_VNI (Some m') = Ok vni ∧ Vni (st_vni Net.s1) "10.0.0.1" "10.0.0.9" = Ret (st_vni s', vni) ∧
    lastVni (st_vni s') !! "10.0.0.9" = Some vni ∧ default 0 (lastVni (st_vni Net.s1) !! "10.0.0.9") < vni < 2 ^ 24.
Proof.
  eapply (selected_vxlan_valid _ Net.dataplane _ [] (<[VXLANSrcIP := "10.0.0.9"]> ∅) "10.0.0.9" (Net.vxlan "1") "10.0.0.1");
    [reflexivity..|vm_compute; reflexivity|vm_compute; reflexivity|vm_compute; reflexivity
    |vm_compute; discriminate|vm_compute; reflexivity|vm_compute; done].
Defined.
