(* ===== verification/NsmdProps.v ===== *)
(** * Correctness of the daemon's servers *)
From S2P Require Import Prelude GoStrings GoNet ConnectionContext Apis Vni Selector Model NsmState Nsm NsmHeal Nsmd NsmLemmas NsmInv NsmRequest NsmProps.

Section props.
Context `{!Environment}.

(** The monitor client ignores what happens to endpoints. *)
Lemma notify_endpoints_added l ep s : mon_notify_all ((λ l, EndpointAdded l ep) <$> l) s = Ret (s, ()).
Proof. induction l as [|x l IH]; [done|]. cbn. done. Qed.
Lemma notify_endpoints_deleted l ep s : mon_notify_all ((λ l, EndpointDeleted l ep) <$> l) s = Ret (s, ()).
Proof. induction l as [|x l IH]; [done|]. cbn. done. Qed.

Lemma RegisterNSE_new ws api req reg s s1 :
  RegisterNSE ws api req s = Ret (s1, Ok reg) → GetEndpoint (st_model s) (reg_EndpointName reg) = None →
  st_model s1 = (AddEndpoint (st_model s) (mkRegRef (st_next s) reg)).1 ∧
  st_workspaces s1 = <["" := ws]> (<[reg_EndpointName reg := ws]> (st_workspaces s)).
Proof.
  intros E Hn. unfold RegisterNSE, AddEndpointToWorkspace, run_model, alloc_ref, ask, emit, mbind, M_bind, getS, putS, mret, M_ret in E.
  destruct (env_DialRegistry _); [done|]. cbn in E.
  destruct (env_RegisterNSE _ _) as [reg'|]; [|done]. cbn in E.
  destruct (GetEndpoint (st_model s) (reg_EndpointName reg')) as [r|] eqn:Eg.
  - cbn in E. simplify_eq.
  - cbn in E. rewrite notify_endpoints_added in E. cbn in E. by simplify_eq.
Qed.

Lemma RemoveNSE_ok name s s' :
  RemoveNSE name s = Ret (s', None) →
  st_model s' = (DeleteEndpoint (st_model s) name).1.1 ∧ st_workspaces s' = delete name (st_workspaces s).
Proof.
  intros E. unfold RemoveNSE, DeleteEndpointToWorkspace, ask, emit, mbind, M_bind, getS, putS, mret, M_ret in E.
  destruct (env_DialRegistry _); [done|]. cbn in E.
  destruct (env_RemoveNSE _ _); [done|]. cbn in E. unfold DeleteEndpoint in *.
  destruct (m_endpoints (st_model s) !! name); cbn in E; [|done].
  rewrite notify_endpoints_deleted in E. cbn in E. by simplify_eq.
Qed.

(** C33: an endpoint that registers through a workspace is found in the model
    and in the workspace registry, and removing it restores both endpoint
    tables.  The workspace registry is not restored: registering also files
    the workspace under the empty endpoint name, where it stays. *)
Theorem register_remove_endpoint ws api req reg s s1 s2 :
  reachable s → RegisterNSE ws api req s = Ret (s1, Ok reg) → reg_EndpointName reg ≠ "" →
  GetEndpoint (st_model s) (reg_EndpointName reg) = None → st_workspaces s !! reg_EndpointName reg = None →
  RemoveNSE (reg_EndpointName reg) s1 = Ret (s2, None) →
  ref_val <$> GetEndpoint (st_model s1) (reg_EndpointName reg) = Some reg ∧
  st_workspaces s1 !! reg_EndpointName reg = Some ws ∧
  m_endpoints (st_model s2) = m_endpoints (st_model s) ∧
  m_networkServices (st_model s2) = m_networkServices (st_model s) ∧
  st_workspaces s2 = <["" := ws]> (st_workspaces s).
Proof.
  intros Hr E1 Hne Hg Hw E2. destruct (RegisterNSE_new _ _ _ _ _ _ E1 Hg) as [Hm1 Hw1].
  destruct (RemoveNSE_ok _ _ _ E2) as [Hm2 Hw2]. pose proof (reachable_endpoints _ Hr) as Hok.
  set (r := mkRegRef (st_next s) reg) in *.
  pose proof (AddEndpoint_DeleteEndpoint (st_model s) r (ek_index _ Hok) Hg (fresh_not_listed s _ Hok)) as Hrt.
  cbn [ref_val r] in Hrt. rewrite <- Hm1 in Hrt.
  destruct (DeleteEndpoint (st_model s1) (reg_EndpointName reg)) as [[m ns] e]. destruct Hrt as (_ & He & Hn).
  cbn in Hm2. subst m. split_and!; [| |done|done|].
  - rewrite Hm1. unfold GetEndpoint, AddEndpoint. cbn [fst m_endpoints set_endpoints]. by rewrite lookup_insert_eq.
  - rewrite Hw1. by rewrite lookup_insert_ne, lookup_insert_eq.
  - rewrite Hw2, Hw1. rewrite delete_insert_ne by done. by rewrite delete_insert_id.
Qed.

Lemma dataplane_registered_iff `{!EnvironmentLaws} s name : reachable s →
  dataplane_registered s name = true ↔ is_Some (m_dataplanes (st_model s) !! name).
Proof.
  intros [Hok _]%reachable_ok. unfold dataplane_registered. rewrite bool_decide_eq_true. unfold GetDataplane.
  set (order := env_dataplane_order _ _). pose proof (dataplane_order_ok (st_log s) (m_dataplanes (st_model s))) as Ho.
  fold order in Ho. split.
  - intros [d Hd]. assert (d ∈ filter (λ d, dp_RegisteredName <$> st_dps s !! d = Some name) order.*2) as Hin.
    { destruct (filter _ _) as [|d' l]; [done|]. cbn in Hd. simplify_eq. apply list_elem_of_here. }
    apply list_elem_of_filter in Hin as [Hn ([k d'] & -> & Hkd)%list_elem_of_fmap]. cbn in *.
    rewrite Ho in Hkd. apply elem_of_map_to_list in Hkd.
    destruct (tk_dataplanes _ Hok _ _ Hkd) as (dp & Hdp & Hname). rewrite Hdp in Hn. cbn in Hn. simplify_eq. by eexists.
  - intros [d Hd]. destruct (tk_dataplanes _ Hok _ _ Hd) as (dp & Hdp & Hname).
    assert (d ∈ filter (λ d, dp_RegisteredName <$> st_dps s !! d = Some name) order.*2) as Hin.
    { apply list_elem_of_filter. rewrite Hdp. cbn. split; [by rewrite Hname|].
      apply list_elem_of_fmap. exists (name, d). split; [done|]. rewrite Ho. by apply elem_of_map_to_list. }
    destruct (filter _ _); [by apply not_elem_of_nil in Hin|by eexists].
Qed.

(** A dataplane is registered exactly when no dataplane has its name: a
    second registration is refused and changes nothing, a first one adds one
    entry for a new object without mechanisms. *)
Lemma dataplane_names_unique `{!EnvironmentLaws} name socket s : reachable s →
  match m_dataplanes (st_model s) !! name with
  | Some _ => ∃ e, RequestDataplaneRegistration name socket s = Ret (s, (false, Some e))
  | None => ∃ s' d, RequestDataplaneRegistration name socket s = Ret (s', (true, None)) ∧
      st_dps s !! d = None ∧ st_dps s' = <[d := mkDataplane name socket [] []]> (st_dps s) ∧
      m_dataplanes (st_model s') = <[name := d]> (m_dataplanes (st_model s)) ∧
      st_watched s' = {[name]} ∪ st_watched s
  end.
Proof.
  intros Hr. pose proof (dataplane_registered_iff s name Hr) as Hreg.
  unfold RequestDataplaneRegistration, mbind, M_bind, getS. destruct (m_dataplanes _ !! name) as [d|] eqn:E.
  - rewrite (proj2 Hreg) by by eexists. eauto.
  - destruct (dataplane_registered s name); [by destruct Hreg as [[? ?] _]|].
    destruct (reachable_listeners _ Hr) as [l Hl]. destruct (reachable_ok _ Hr) as [Hok _].
    unfold run_model, alloc_dp, getS, putS, mret, M_ret, mbind, M_bind. cbn. rewrite Hl. cbn. unfold mon_DataplaneAdded, mbind, M_bind. rewrite read_dp_eq. cbn.
    rewrite lookup_insert_eq. cbn. eexists _, (st_next s). split; [done|]. cbn. split_and!; [|done..].
    destruct (st_dps s !! st_next s) eqn:Ed; [|done].
    pose proof (tk_fresh_dps _ Hok (st_next s) ltac:(by eexists)). lia.
Qed.
End props.

(** ** Workspaces *)

(** A workspace whose socket does not answer is reported as failed, but the
    deferred cleanup finds it running and leaves directory, listener and
    server behind. *)
Lemma NewWorkSpace_failed_check_leaks provider e name :
  NewWorkSpace provider None None (Some e) name = (mkWorkspace name WS_RUNNING provider true true true, Err e).
Proof. done. Qed.
Lemma ws_Close_releases w : ws_NsmDirectory w ≠ "" →
  ws_directory (ws_Close w) = false ∧ ws_listening (ws_Close w) = false ∧ ws_serving (ws_Close w) = false.
Proof.
  intros Hd. unfold ws_Close, cleanup. rewrite decide_False by done. cbn. split_and!; try done. by rewrite decide_False.
Qed.
(** The list of workspaces starts with as many empty names as there are workspaces. *)
Lemma EnumConnection_empty_names nsm order k : (k < size (srv_workspaces nsm))%nat → EnumConnection nsm order !! k = Some "".
Proof. intros Hk. unfold EnumConnection. rewrite lookup_app_l; [by apply lookup_replicate|by rewrite length_replicate]. Qed.

(** ** Witnesses *)
Module Registration.
Import Net.
Definition reg : NSERegistration :=
  mkNSERegistration (Some service) (Some (mkNetworkServiceManager "" "api" None "")) (Some endpoint).
Definition s1 : nsm_state := after (@RegisterNSE (env true) "ws" "api" reg) s0.
Definition s2 : nsm_state := after (@RemoveNSE (env true) "nse-1") s1.
Lemma register_eq : @RegisterNSE (env true) "ws" "api" reg s0 = Ret (s1, Ok reg).
Proof.
  assert (result_of (@RegisterNSE (env true) "ws" "api" reg) s0 = Some (Ok reg)) as E by by vm_compute.
  exact (run_eq _ _ _ E).
Qed.
Lemma remove_eq : @RemoveNSE (env true) "nse-1" s1 = Ret (s2, None).
Proof. assert (result_of (@RemoveNSE (env true) "nse-1") s1 = Some None) as E by by vm_compute. exact (run_eq _ _ _ E). Qed.
Lemma env_laws : @EnvironmentLaws (env true).
Proof. split; intros h m; unfold is_range_of; done. Qed.
End Registration.

Lemma register_remove_endpoint_witness :
  ref_val <$> GetEndpoint (st_model Registration.s1) "nse-1" = Some Registration.reg ∧
  st_workspaces Registration.s1 !! "nse-1" = Some "ws" ∧
  m_endpoints (st_model Registration.s2) = m_endpoints (st_model Net.s0) ∧
  m_networkServices (st_model Registration.s2) = m_networkServices (st_model Net.s0) ∧
  st_workspaces Registration.s2 = <["" := "ws"]> (st_workspaces Net.s0).
Proof.
  exact (@register_remove_endpoint (Net.env true) "ws" "api" Registration.reg Registration.reg Net.s0 Registration.s1
    Registration.s2 (reachable_init _ _ _ _) Registration.register_eq ltac:(done) eq_refl eq_refl Registration.remove_eq).
Defined.
