(* ===== verification/NsmStreams.v ===== *)
(** * The two receiving loops of the monitor client
    (controlplane/pkg/nsmd/nsmd_crossconnect_client.go)

    Each dataplane and each peer manager has a goroutine that receives events
    from a stream.  A run of such a loop is a list of turns; the handling of
    an event is a step of the daemon, so whatever a loop does keeps the
    daemon in a reachable state. *)
From S2P Require Import Prelude Apis Model NsmState Nsm NsmHeal Nsmd NsmLemmas NsmInv.

(** What one turn meets: the cancelled context, or what [Recv] gives. *)
Inductive stream_turn (E : Type) := TurnDone | TurnRecv (r : result (EventType * list E)).
Arguments TurnDone {E}.
Arguments TurnRecv {E}.

Section streams.
Context `{!Environment} (fuel : nat) (ex : list string).

(** [MonitorCrossConnects] is asked for with the context of the dataplane. *)
Fixpoint dataplane_loop (turns : list (stream_turn CrossConnect)) : M () :=
  match turns with
  | [] | TurnDone :: _ | TurnRecv (Err _) :: _ => mret ()
  | TurnRecv (Ok (t, xcons)) :: turns => handle_dataplane_event fuel ex t xcons;; dataplane_loop turns
  end.
Definition dataplaneCrossConnectMonitor (dial open : option error) (turns : list (stream_turn CrossConnect)) : M () :=
  match dial, open with
  | Some _, _ | _, Some _ => mret ()
  | None, None => dataplane_loop turns
  end.
Fixpoint peer_loop (turns : list (stream_turn RemoteConnection)) : M () :=
  match turns with
  | [] | TurnDone :: _ | TurnRecv (Err _) :: _ => mret ()
  | TurnRecv (Ok (t, conns)) :: turns => handle_remote_event fuel ex t conns;; peer_loop turns
  end.
Definition remotePeerConnectionMonitor (dial open : option error) (turns : list (stream_turn RemoteConnection)) : M () :=
  match dial, open with
  | Some _, _ | _, Some _ => mret ()
  | None, None => peer_loop turns
  end.
End streams.

Section theorems.
Context `{!Environment}.

Lemma dataplane_loop_reachable fuel ex turns s s' :
  reachable s → dataplane_loop fuel ex turns s = Ret (s', ()) → reachable s'.
Proof.
  revert s. induction turns as [|[|[[t xs]|e]] turns IH]; intros s Hs; cbn; [by intros [= <-]..| |by intros [= <-]].
  unfold mbind, M_bind. destruct (handle_dataplane_event fuel ex t xs s) as [[s1 []]|] eqn:E; [|done].
  apply IH. eapply reachable_step; [done|]. by eapply step_dataplane_event.
Qed.
Lemma peer_loop_reachable fuel ex turns s s' :
  reachable s → peer_loop fuel ex turns s = Ret (s', ()) → reachable s'.
Proof.
  revert s. induction turns as [|[|[[t xs]|e]] turns IH]; intros s Hs; cbn; [by intros [= <-]..| |by intros [= <-]].
  unfold mbind, M_bind. destruct (handle_remote_event fuel ex t xs s) as [[s1 []]|] eqn:E; [|done].
  apply IH. eapply reachable_step; [done|]. by eapply step_remote_event.
Qed.

(** The loops keep the daemon within its reachable states, whatever the
    dataplanes and the peers send. *)
Lemma streams_reachable fuel ex dial open dps peers s s1 s2 :
  reachable s → dataplaneCrossConnectMonitor fuel ex dial open dps s = Ret (s1, ()) →
  remotePeerConnectionMonitor fuel ex dial open peers s1 = Ret (s2, ()) → reachable s1 ∧ reachable s2.
Proof.
  unfold dataplaneCrossConnectMonitor, remotePeerConnectionMonitor. destruct dial; [by intros ? [= <-] [= <-]|].
  destruct open; [by intros ? [= <-] [= <-]|]. intros Hs H1 H2.
  pose proof (dataplane_loop_reachable _ _ _ _ _ Hs H1) as Hs1. split; [done|]. by eapply peer_loop_reachable.
Qed.

(** A stream that is lost ends the loop and changes nothing: the connections
    of the dataplane stay as they are. *)
Lemma lost_stream_ignored fuel ex e turns turns' s :
  dataplane_loop fuel ex (TurnRecv (Err e) :: turns) s = Ret (s, ()) ∧
  peer_loop fuel ex (TurnRecv (Err e) :: turns') s = Ret (s, ()).
Proof. done. Qed.
End theorems.
