(* ===== verification/Monitor.v ===== *)
(** * The monitor server (controlplane/pkg/monitor)

    A monitor server keeps a map of entities and a list of recipients, and
    turns what happens to the entities into messages.  Its three input
    channels hold at most [defaultSize] elements; [Serve] takes one element
    at a time from any of them and sends one message after the other, so the
    server is a state machine with an outbox.  The three protocols differ in
    their converter. *)
From S2P Require Import Prelude GoStrings GoNet ConnectionContext Apis.

(** ** Entities and events *)
Inductive Entity :=
  | XconEntity (x : CrossConnect)
  | LocalConnEntity (c : LocalConnection)
  | RemoteConnEntity (c : RemoteConnection).
Definition entity_GetId (e : Entity) : string :=
  match e with XconEntity x => xcon_Id x | LocalConnEntity c => lc_Id c | RemoteConnEntity c => rc_Id c end.

Definition UPDATE : string := "UPDATE".
Definition DELETE : string := "DELETE".
Definition INITIAL_STATE_TRANSFER : string := "INITIAL_STATE_TRANSFER".
Definition defaultSize : nat := 10.

Record Event := mkEvent { ev_EventType : string; ev_Entities : gmap string Entity }.

(** ** Converters *)
Class EventConverter (Msg : Type) := Convert : Event → result Msg.

Definition convertType (target : string) (eventType : string) : result EventType :=
  if decide (eventType = UPDATE) then Ok EVENT_UPDATE
  else if decide (eventType = DELETE) then Ok EVENT_DELETE
  else if decide (eventType = INITIAL_STATE_TRANSFER) then Ok EVENT_INITIAL_STATE_TRANSFER
  else Err (Errorf target).

(** All entities cast to one type, or an error. *)
Definition convertEntities {A} (cast : Entity → option A) (msg : string) (entities : gmap string Entity) :
    result (gmap string A) :=
  if decide (map_Forall (λ _ e, is_Some (cast e)) entities) then Ok (omap cast entities)
  else Err (Errorf msg).

Definition as_xcon (e : Entity) : option CrossConnect := match e with XconEntity x => Some x | _ => None end.
Definition as_local (e : Entity) : option LocalConnection := match e with LocalConnEntity c => Some c | _ => None end.
Definition as_remote (e : Entity) : option RemoteConnection := match e with RemoteConnEntity c => Some c | _ => None end.

Definition convert_with {A B} (type_msg entity_msg : string) (cast : Entity → option A)
    (mk : EventType → gmap string A → B) (event : Event) : result B :=
  match convertType type_msg (ev_EventType event) with
  | Err e => Err e
  | Ok t =>
      match convertEntities cast entity_msg (ev_Entities event) with
      | Err e => Err e
      | Ok m => Ok (mk t m)
      end
  end.

#[global] Instance CrossConnectEventConverter : EventConverter CrossConnectEvent :=
  convert_with "unable to cast type %v to CrossConnectEventType" "unable to cast Entity to CrossConnect"
    as_xcon mkCrossConnectEvent.
#[global] Instance RemoteConnectionEventConverter : EventConverter RemoteConnectionEvent :=
  convert_with "unable to cast type %v to ConnectionEventType" "unable to cast Entity to remote.Connection"
    as_remote mkRemoteConnectionEvent.
#[global] Instance LocalConnectionEventConverter : EventConverter LocalConnectionEvent :=
  convert_with "unable to cast type %v to ConnectionEventType" "unable to cast Entity to remote.Connection"
    as_local mkLocalConnectionEvent.

(** ** The server *)
Section server.
Context {Msg : Type} `{!EventConverter Msg}.

Definition recipient := positive.

Record monitorServerImpl := mkMonitorServer {
  ms_eventCh : list Event;
  ms_newMonitorRecipientCh : list recipient;
  ms_closedMonitorRecipientCh : list recipient;
  ms_entities : gmap string Entity;
  ms_recipients : list recipient;
  ms_outbox : list (recipient * option Msg)   (* sends of the running [send]; nil when the conversion failed *)
}.
Definition NewMonitorServer : monitorServerImpl := mkMonitorServer [] [] [] ∅ [] [].

(** A send on a channel, which blocks when the channel is full. *)
Definition enqueue {A} (x : A) (ch : list A) : option (list A) :=
  if (length ch <? defaultSize)%nat then Some (ch ++ [x]) else None.

Definition event_of (t : string) (e : Entity) : Event := mkEvent t {[entity_GetId e := e]}.

Definition set_eventCh (m : monitorServerImpl) ch : monitorServerImpl :=
  mkMonitorServer ch (ms_newMonitorRecipientCh m) (ms_closedMonitorRecipientCh m) (ms_entities m) (ms_recipients m)
    (ms_outbox m).
Definition Update (m : monitorServerImpl) (entity : Entity) : option monitorServerImpl :=
  set_eventCh m <$> enqueue (event_of UPDATE entity) (ms_eventCh m).
Definition Delete (m : monitorServerImpl) (entity : Entity) : option monitorServerImpl :=
  set_eventCh m <$> enqueue (event_of DELETE entity) (ms_eventCh m).
Definition AddRecipient (m : monitorServerImpl) (r : recipient) : option monitorServerImpl :=
  (λ ch, mkMonitorServer (ms_eventCh m) ch (ms_closedMonitorRecipientCh m) (ms_entities m) (ms_recipients m)
           (ms_outbox m)) <$> enqueue r (ms_newMonitorRecipientCh m).
Definition DeleteRecipient (m : monitorServerImpl) (r : recipient) : option monitorServerImpl :=
  (λ ch, mkMonitorServer (ms_eventCh m) (ms_newMonitorRecipientCh m) ch (ms_entities m) (ms_recipients m)
           (ms_outbox m)) <$> enqueue r (ms_closedMonitorRecipientCh m).

(** [send]: the event is converted for every recipient; an error of the
    conversion is logged and nil is sent. *)
Definition send (event : Event) (recipients : list recipient) : list (recipient * option Msg) :=
  (λ r, (r, match Convert event with Ok msg => Some msg | Err _ => None end)) <$> recipients.

Fixpoint remove_recipient (closed : recipient) (rs : list recipient) : list recipient :=
  match rs with
  | [] => []
  | r :: rs => if decide (r = closed) then rs else r :: remove_recipient closed rs
  end.

Definition apply_event (event : Event) (entities : gmap string Entity) : gmap string Entity :=
  map_fold (λ _ entity m,
    let m := if decide (ev_EventType event = UPDATE) then <[entity_GetId entity := entity]> m else m in
    if decide (ev_EventType event = DELETE) then delete (entity_GetId entity) m else m)
    entities (ev_Entities event).

(** The three cases of the select of [Serve], which is back at the select
    when the outbox is empty. *)
Inductive serve_case := NewRecipient | ClosedRecipient | NewEvent.
Definition Serve (c : serve_case) (m : monitorServerImpl) : option monitorServerImpl :=
  match ms_outbox m with
  | _ :: _ => None
  | [] =>
      match c with
      | NewRecipient =>
          match ms_newMonitorRecipientCh m with
          | [] => None
          | r :: ch =>
              Some (mkMonitorServer (ms_eventCh m) ch (ms_closedMonitorRecipientCh m) (ms_entities m)
                      (ms_recipients m ++ [r]) (send (mkEvent INITIAL_STATE_TRANSFER (ms_entities m)) [r]))
          end
      | ClosedRecipient =>
          match ms_closedMonitorRecipientCh m with
          | [] => None
          | r :: ch =>
              Some (mkMonitorServer (ms_eventCh m) (ms_newMonitorRecipientCh m) ch (ms_entities m)
                      (remove_recipient r (ms_recipients m)) [])
          end
      | NewEvent =>
          match ms_eventCh m with
          | [] => None
          | e :: ch =>
              Some (mkMonitorServer ch (ms_newMonitorRecipientCh m) (ms_closedMonitorRecipientCh m)
                      (apply_event e (ms_entities m)) (ms_recipients m) (send e (ms_recipients m)))
          end
      end
  end.

(** One message leaves the outbox. *)
Definition deliver (m : monitorServerImpl) : option (recipient * option Msg * monitorServerImpl) :=
  match ms_outbox m with
  | [] => None
  | x :: outbox =>
      Some (x, mkMonitorServer (ms_eventCh m) (ms_newMonitorRecipientCh m) (ms_closedMonitorRecipientCh m)
                 (ms_entities m) (ms_recipients m) outbox)
  end.
End server.
Arguments monitorServerImpl : clear implicits.

(** ** The filter of the remote connection monitor (remote_connection_filter.go)

    [selector] is the manager name of the scope selector.  [Send] passes on
    the connections from or to that manager, and an event only when there are
    any left or it is the initial one. *)
Definition filter_connections (selector : string) (conns : gmap string RemoteConnection) : gmap string RemoteConnection :=
  filter (λ kv, rc_SourceNetworkServiceManagerName kv.2 = selector ∨
                rc_DestinationNetworkServiceManagerName kv.2 = selector) conns.
Definition filter_Send (selector : string) (event : RemoteConnectionEvent) : option RemoteConnectionEvent :=
  let out := mkRemoteConnectionEvent (rev_Type event) (filter_connections selector (rev_Connections event)) in
  if decide (0 < size (rev_Connections out) ∨ rev_Type out = EVENT_INITIAL_STATE_TRANSFER)%nat then Some out else None.

(** [SendMsg], which is what the monitor server calls, is the method of the
    embedded stream. *)
Definition filter_SendMsg (selector : string) (event : RemoteConnectionEvent) : option RemoteConnectionEvent := Some event.

Lemma filter_connections_lookup selector conns k c :
  filter_connections selector conns !! k = Some c ↔
  conns !! k = Some c ∧ (rc_SourceNetworkServiceManagerName c = selector ∨
                         rc_DestinationNetworkServiceManagerName c = selector).
Proof. unfold filter_connections. apply map_lookup_filter_Some. Qed.

(** A peer gets the connections of all other peers as well. *)
Lemma filter_bypassed selector event k c :
  rev_Connections event !! k = Some c → rc_SourceNetworkServiceManagerName c ≠ selector →
  rc_DestinationNetworkServiceManagerName c ≠ selector →
  (∀ out, filter_Send selector event = Some out → rev_Connections out !! k = None) ∧
  (rev_Connections <$> filter_SendMsg selector event) ≫= (!!) k = Some c.
Proof.
  intros Hc Hs Hd. split; [|done]. intros out. unfold filter_Send. case_decide; [|done]. intros [= <-]. cbn.
  destruct (filter_connections selector (rev_Connections event) !! k) as [c'|] eqn:E; [|done].
  apply filter_connections_lookup in E as [E ?]. naive_solver.
Qed.
