(* ===== verification/InodeMonitor.v ===== *)
(** * Watching network namespaces (controlplane/pkg/monitor_crossconnect_server)

    [MonitorNetNsInodeServer] is a recipient of the cross connect monitor: it
    keeps a copy of the cross connects, and every three seconds it marks the
    local connections down whose network namespace is gone and reports them
    to the monitor server.  Cross connects are values here: an update carries
    what the connection was when it was reported. *)
From S2P Require Import Prelude GoStrings GoNet ConnectionContext Apis Monitor.

(** ** Inode sets (inode_set.go) *)
Definition InodeSet := gset Z.
Definition NewInodeSet (inodes : list Z) : InodeSet := list_to_set inodes.
Definition Contains (i : InodeSet) (inode : Z) : bool := bool_decide (inode ∈ i).

(** ** The server (monitor_netnsinode_server.go) *)
Record MonitorNetNsInodeServer := mkInodeServer {
  in_crossConnects : gmap string CrossConnect;
  in_crossConnectEventCh : list CrossConnectEvent
}.
Definition NewMonitorNetNsInodeServer : MonitorNetNsInodeServer := mkInodeServer ∅ [].

Definition copyEvent (event : CrossConnectEvent) : CrossConnectEvent :=
  mkCrossConnectEvent (xev_Type event) (xev_CrossConnects event).

(** [SendMsg]: the new state and the error; [None] while the channel is full. *)
Definition SendMsg (m : MonitorNetNsInodeServer) (msg : option CrossConnectEvent) :
    option (MonitorNetNsInodeServer * option error) :=
  match msg with
  | None => Some (m, Some (Errorf "wrong type of msg, CrossConnectEvent is needed"))
  | Some event =>
      (λ ch, (mkInodeServer (in_crossConnects m) ch, None)) <$> enqueue (copyEvent event) (in_crossConnectEventCh m)
  end.

(** [handleEvent]; [order] is the iteration order of the event's map. *)
Definition handleEvent (order : list (string * CrossConnect)) (event : CrossConnectEvent)
    (crossConnects : gmap string CrossConnect) : gmap string CrossConnect :=
  match xev_Type event with
  | EVENT_INITIAL_STATE_TRANSFER => foldl (λ m kv, <[xcon_Id kv.2 := kv.2]> m) ∅ order
  | EVENT_UPDATE => foldl (λ m kv, <[xcon_Id kv.2 := kv.2]> m) crossConnects order
  | EVENT_DELETE => foldl (λ m kv, delete (xcon_Id kv.2) m) crossConnects order
  end.

(** [checkConnectionLiveness] for one end of a cross connect: whether the end
    goes down. *)
Definition checkConnectionLiveness (conn : LocalConnection) (inodeSet : InodeSet) : result bool :=
  match ParseUint (lm_GetNetNsInode (lc_Mechanism conn)) 64 with
  | None => Err (Errorf "strconv.ParseUint: parsing %q: invalid syntax")
  | Some inode => Ok (negb (Contains inodeSet inode) && bool_decide (lc_State conn = State_UP))
  end.

Definition down_source (x : CrossConnect) (c : LocalConnection) : CrossConnect :=
  xcon_set_Source x (Some (LocalConn (lc_set_State c State_DOWN))).
Definition down_destination (x : CrossConnect) (c : LocalConnection) : CrossConnect :=
  xcon_set_Destination x (Some (LocalConn (lc_set_State c State_DOWN))).

(** The two checks of one cross connect: the cross connect, the updates for
    the monitor server, and the error. *)
Definition check_one (inodes : InodeSet) (xcon : CrossConnect) : CrossConnect * list CrossConnect * option error :=
  let '(xcon, updates, err) :=
    match xcon_GetLocalSource xcon with
    | None => (xcon, [], None)
    | Some conn =>
        match checkConnectionLiveness conn inodes with
        | Err e => (xcon, [], Some e)
        | Ok true => (down_source xcon conn, [down_source xcon conn], None)
        | Ok false => (xcon, [], None)
        end
    end in
  match err with
  | Some e => (xcon, updates, Some e)
  | None =>
      match xcon_GetLocalDestination xcon with
      | None => (xcon, updates, None)
      | Some conn =>
          match checkConnectionLiveness conn inodes with
          | Err e => (xcon, updates, Some e)
          | Ok true => (down_destination xcon conn, updates ++ [down_destination xcon conn], None)
          | Ok false => (xcon, updates, None)
          end
      end
  end.

Fixpoint check_all (inodes : InodeSet) (order : list (string * CrossConnect)) (m : gmap string CrossConnect) :
    gmap string CrossConnect * list CrossConnect * option error :=
  match order with
  | [] => (m, [], None)
  | (k, xcon) :: order =>
      match check_one inodes xcon with
      | (xcon, updates, Some e) => (<[k := xcon]> m, updates, Some e)
      | (xcon, updates, None) =>
          let '(m, rest, err) := check_all inodes order (<[k := xcon]> m) in (m, updates ++ rest, err)
      end
  end.

(** [checkCrossConnectLiveness]; [liveInodes] is the answer of
    [fs.GetAllNetNs]. *)
Definition checkCrossConnectLiveness (liveInodes : result (list Z)) (order : list (string * CrossConnect))
    (m : gmap string CrossConnect) : gmap string CrossConnect * list CrossConnect * option error :=
  match liveInodes with
  | Err e => (m, [], Some e)
  | Ok inodes => check_all (NewInodeSet inodes) order m
  end.

(** ** The monitor server with the inode server as a recipient

    [sys_pending] are the updates the running liveness check still has to
    hand to [Update]; while there are any the inode server does not read its
    channel. *)
Definition self : recipient := 1%positive.
Record monitor_system := mkSystem {
  sys_server : monitorServerImpl CrossConnectEvent;
  sys_inode : MonitorNetNsInodeServer;
  sys_pending : list CrossConnect
}.

Inductive action :=
  | ServeCase (c : serve_case)     (* the select of Serve *)
  | DeliverMsg                     (* the next SendMsg of send *)
  | PushUpdate                     (* the next Update of the liveness check *)
  | HandleNext.                    (* the inode server handles an event *)
Definition exec (a : action) (s : monitor_system) : option monitor_system :=
  match a with
  | ServeCase c => (λ m, mkSystem m (sys_inode s) (sys_pending s)) <$> Serve c (sys_server s)
  | DeliverMsg =>
      match deliver (sys_server s) with
      | None => None
      | Some (r, msg, m) =>
          if decide (r = self) then
            (λ i, mkSystem m i.1 (sys_pending s)) <$> SendMsg (sys_inode s) msg
          else Some (mkSystem m (sys_inode s) (sys_pending s))
      end
  | PushUpdate =>
      match sys_pending s with
      | [] => None
      | x :: pending =>
          (λ m, mkSystem m (sys_inode s) pending) <$> Update (sys_server s) (XconEntity x)
      end
  | HandleNext =>
      match sys_pending s, in_crossConnectEventCh (sys_inode s) with
      | [], e :: ch =>
          Some (mkSystem (sys_server s)
            (mkInodeServer (handleEvent (map_to_list (xev_CrossConnects e)) e (in_crossConnects (sys_inode s))) ch) [])
      | _, _ => None
      end
  end.
Fixpoint exec_all (as_ : list action) (s : monitor_system) : option monitor_system :=
  match as_ with
  | [] => Some s
  | a :: as_ => match exec a s with Some s => exec_all as_ s | None => None end
  end.
(** Neither the server nor the liveness check can take a step. *)
Definition stuck (s : monitor_system) : Prop := ∀ a, exec a s = None.

(** ** A recipient's copy is the server's map *)

(** The server with arbitrary clients, and everything it has sent so far. *)
Inductive mon_reach : monitorServerImpl CrossConnectEvent → list (recipient * option CrossConnectEvent) → Prop :=
  | mr_new : mon_reach NewMonitorServer []
  | mr_update m sent x m' : mon_reach m sent → Update m (XconEntity x) = Some m' → mon_reach m' sent
  | mr_delete m sent x m' : mon_reach m sent → Delete m (XconEntity x) = Some m' → mon_reach m' sent
  | mr_add m sent r m' : mon_reach m sent → AddRecipient m r = Some m' → mon_reach m' sent
  | mr_close m sent r m' : mon_reach m sent → DeleteRecipient m r = Some m' → mon_reach m' sent
  | mr_serve m sent c m' : mon_reach m sent → Serve c m = Some m' → mon_reach m' sent
  | mr_deliver m sent x m' : mon_reach m sent → deliver m = Some (x, m') → mon_reach m' (sent ++ [x]).

Definition messages_to (r : recipient) (l : list (recipient * option CrossConnectEvent)) : list CrossConnectEvent :=
  omap (λ p, if decide (p.1 = r) then p.2 else None) l.
Lemma messages_to_app r l1 l2 : messages_to r (l1 ++ l2) = messages_to r l1 ++ messages_to r l2.
Proof. apply omap_app. Qed.

(** What a recipient has after handling the events, in any iteration orders. *)
Inductive replays : list CrossConnectEvent → gmap string CrossConnect → Prop :=
  | replays_nil : replays [] ∅
  | replays_snoc es m e order : replays es m → is_range_of order (xev_CrossConnects e) →
      replays (es ++ [e]) (handleEvent order e m).
Lemma replays_inv es e m : replays (es ++ [e]) m →
  ∃ m0 order, replays es m0 ∧ is_range_of order (xev_CrossConnects e) ∧ m = handleEvent order e m0.
Proof.
  inversion 1 as [E|es' m' e' order Hr Ho E]; [by destruct es|]. apply app_inj_tail in E as [-> ->]. eauto.
Qed.

Definition xcons (entities : gmap string Entity) : gmap string CrossConnect := omap as_xcon entities.
Definition entities_ok (entities : gmap string Entity) : Prop :=
  ∀ k e, entities !! k = Some e → ∃ x, e = XconEntity x ∧ xcon_Id x = k.

Lemma foldl_insert_range (order : list (string * CrossConnect)) (m0 : gmap string CrossConnect) :
  NoDup order.*1 → (∀ kv, kv ∈ order → xcon_Id kv.2 = kv.1) →
  foldl (λ m kv, <[xcon_Id kv.2 := kv.2]> m) m0 order = list_to_map order ∪ m0.
Proof.
  revert m0; induction order as [|[k x] order IH]; intros m0 Hnd Hid; cbn [foldl].
  { rewrite list_to_map_nil. by rewrite (left_id_L ∅ (∪)). }
  apply NoDup_cons in Hnd as [Hk Hnd]. rewrite IH; [|done|set_solver].
  assert (xcon_Id x = k) as E by apply (Hid (k, x)), list_elem_of_here.
  cbn [snd]. rewrite E, list_to_map_cons. apply not_elem_of_list_to_map_1 in Hk.
  rewrite <- insert_union_r by done. by rewrite insert_union_l.
Qed.

Lemma range_NoDup {A} (order : list (string * A)) (m : gmap string A) :
  is_range_of order m → NoDup order.*1 ∧ list_to_map order = m.
Proof.
  intros Ho. assert (NoDup order.*1) as Hnd.
  { rewrite Ho. apply NoDup_fst_map_to_list. }
  split; [done|]. rewrite (list_to_map_proper order (map_to_list m)) by done. apply list_to_map_to_list.
Qed.

(** ** The invariant *)
Lemma convert_xcons t entities : entities_ok entities →
  convertEntities as_xcon t entities = Ok (xcons entities).
Proof.
  intros Hok. unfold convertEntities. rewrite decide_True; [done|].
  intros k e He. destruct (Hok _ _ He) as (x & -> & _). by eexists.
Qed.
Lemma xcons_lookup entities k x : xcons entities !! k = Some x ↔ entities !! k = Some (XconEntity x).
Proof.
  unfold xcons. rewrite lookup_omap. destruct (entities !! k) as [[]|]; cbn; naive_solver.
Qed.
Lemma xcons_ids entities k x : entities_ok entities → xcons entities !! k = Some x → xcon_Id x = k.
Proof. intros Hok Hx%xcons_lookup. destruct (Hok _ _ Hx) as (y & [= <-] & ?). done. Qed.

(** What an event does to a copy. *)
Definition event_effect (t : string) (x : CrossConnect) (m : gmap string CrossConnect) : gmap string CrossConnect :=
  if decide (t = UPDATE) then <[xcon_Id x := x]> m else delete (xcon_Id x) m.
Definition known (t : string) : Prop := t = UPDATE ∨ t = DELETE.

Lemma convert_event t x : known t → ∃ e, Convert (event_of t (XconEntity x)) = Ok e ∧
  xev_CrossConnects e = {[xcon_Id x := x]} ∧
  ∀ m order, is_range_of order (xev_CrossConnects e) → handleEvent order e m = event_effect t x m.
Proof.
  intros Ht. unfold Convert, CrossConnectEventConverter, convert_with, event_of. cbn [ev_EventType ev_Entities].
  rewrite convert_xcons.
  2: { intros k e [<- <-]%lookup_singleton_Some. by exists x. }
  assert (xcons {[entity_GetId (XconEntity x) := XconEntity x]} = {[xcon_Id x := x]}) as Hx.
  { apply map_eq. intros k. unfold xcons. rewrite lookup_omap.
    destruct (decide (k = xcon_Id x)) as [->|]; [by rewrite !lookup_singleton_eq|by rewrite !lookup_singleton_ne]. }
  assert (∀ order, is_range_of order ({[xcon_Id x := x]} : gmap _ _) → order = [(xcon_Id x, x)]) as Hord.
  { intros order. unfold is_range_of. rewrite map_to_list_singleton. apply Permutation_singleton_r. }
  destruct Ht as [-> | ->]; cbn [convertType]; (eexists; split; [done|]; split; [done|]); cbn [xev_CrossConnects];
    rewrite Hx; intros m order ->%Hord; done.
Qed.

Lemma apply_event_xcon t x entities : known t → entities_ok entities →
  entities_ok (apply_event (event_of t (XconEntity x)) entities) ∧
  xcons (apply_event (event_of t (XconEntity x)) entities) = event_effect t x (xcons entities).
Proof.
  intros Ht Hok. unfold apply_event, event_of. cbn [ev_EventType ev_Entities]. rewrite map_fold_singleton.
  unfold event_effect. cbn [entity_GetId]. cbv zeta. destruct Ht as [-> | ->].
  - rewrite !(decide_True (P := UPDATE = UPDATE)), (decide_False (P := UPDATE = DELETE)) by done. split.
    + intros k e [[<- <-]|[_ He]]%lookup_insert_Some; [by exists x|by apply Hok].
    + unfold xcons. by rewrite omap_insert_Some with (y := x).
  - rewrite !(decide_False (P := DELETE = UPDATE)), (decide_True (P := DELETE = DELETE)) by done. split.
    + intros k e [_ He]%lookup_delete_Some. by apply Hok.
    + unfold xcons. by rewrite omap_delete.
Qed.

Record mon_inv (m : monitorServerImpl CrossConnectEvent) (sent : list (recipient * option CrossConnectEvent)) : Prop := {
  mi_events : Forall (λ e, ∃ t x, known t ∧ e = event_of t (XconEntity x)) (ms_eventCh m);
  mi_entities : entities_ok (ms_entities m);
  mi_copies r R : r ∈ ms_recipients m → replays (messages_to r (sent ++ ms_outbox m)) R → R = xcons (ms_entities m)
}.

Lemma replays_repeat es n e R (f : gmap string CrossConnect → gmap string CrossConnect) :
  (∀ m order, is_range_of order (xev_CrossConnects e) → handleEvent order e m = f m) → (∀ m, f (f m) = f m) →
  (0 < n)%nat → replays (es ++ replicate n e) R → ∃ m, replays es m ∧ R = f m.
Proof.
  intros Hf Hidem. revert R; induction n as [|n IH]; intros R Hn HR; [lia|].
  rewrite replicate_S_end, app_assoc in HR. apply replays_inv in HR as (m0 & order & H0 & Ho & ->).
  rewrite Hf by done. destruct n as [|n]; [rewrite app_nil_r in H0; eauto|].
  destruct (IH m0 ltac:(lia) H0) as (m & Hm & ->). eauto.
Qed.

Lemma messages_to_send e msg r rs : Convert e = Ok msg →
  ∃ n, messages_to r (send e rs) = replicate n msg ∧ (r ∈ rs → 0 < n)%nat.
Proof.
  intros Hc. unfold send. rewrite Hc. induction rs as [|r' rs (n & E & Hn)]; [exists 0%nat; split; [done|set_solver]|].
  rewrite fmap_cons. unfold messages_to in *. cbn [omap list_omap fst snd]. destruct (decide (r' = r)) as [->|Hne].
  - exists (S n). cbn. rewrite <- E. split; [done|lia].
  - exists n. rewrite <- E. split; [done|]. intros [->|H]%elem_of_cons; [done|by apply Hn].
Qed.

Lemma event_effect_idem t x m : event_effect t x (event_effect t x m) = event_effect t x m.
Proof. unfold event_effect. case_decide; [apply insert_insert_eq|apply delete_delete_eq]. Qed.

Lemma initial_transfer entities : entities_ok entities → ∃ e,
  Convert (mkEvent INITIAL_STATE_TRANSFER entities) = Ok e ∧
  ∀ m order, is_range_of order (xev_CrossConnects e) → handleEvent order e m = xcons entities.
Proof.
  intros Hok. unfold Convert, CrossConnectEventConverter, convert_with. cbn [ev_EventType ev_Entities].
  rewrite convert_xcons by done. eexists; split; [done|]. intros m order Ho. cbn [xev_CrossConnects] in Ho.
  cbn [handleEvent xev_Type]. destruct (range_NoDup _ _ Ho) as [Hnd Hm].
  rewrite foldl_insert_range, Hm; [by rewrite (right_id_L ∅ (∪))|done|].
  intros [k x] Hkv. apply (xcons_ids entities k x Hok). rewrite <- Hm. by apply elem_of_list_to_map.
Qed.

Lemma remove_recipient_subset r r' rs : r ∈ remove_recipient r' rs → r ∈ rs.
Proof. induction rs as [|a rs IH]; cbn; [done|]. case_decide; set_solver. Qed.

Lemma mon_inv_serve m sent c m' : mon_inv m sent → Serve c m = Some m' → mon_inv m' sent.
Proof.
  intros [Hev Hent Hcp]. unfold Serve. destruct (ms_outbox m) as [|] eqn:Eo; [|done].
  rewrite app_nil_r in Hcp. destruct c.
  - destruct (ms_newMonitorRecipientCh m) as [|r0 ch]; [done|]. intros [= <-]. split; cbn [ms_eventCh ms_entities ms_recipients ms_outbox]; [done|done|].
    intros r R Hr HR. rewrite messages_to_app in HR.
    destruct (initial_transfer _ Hent) as (e & He & Heff).
    destruct (messages_to_send _ e r [r0] He) as (n & En & Hn). change (messages_to r [_]) with (messages_to r (send (mkEvent INITIAL_STATE_TRANSFER (ms_entities m)) [r0])) in HR. rewrite En in HR.
    destruct (decide (r = r0)) as [->|Hne].
    + destruct (replays_repeat (messages_to r0 sent) n e R (λ _, xcons (ms_entities m)) Heff) as (m0 & _ & ->);
        [done|apply Hn; set_solver|done|done].
    + assert (n = 0)%nat as ->.
      { cbn in En. unfold messages_to in En. cbn in En. rewrite decide_False in En by done. by destruct n. }
      rewrite app_nil_r in HR. apply (Hcp r); [set_solver|done].
  - destruct (ms_closedMonitorRecipientCh m) as [|r0 ch]; [done|]. intros [= <-]. split; cbn [ms_eventCh ms_entities ms_recipients ms_outbox]; [done|done|].
    intros r R Hr%remove_recipient_subset. rewrite app_nil_r. by apply Hcp.
  - destruct (ms_eventCh m) as [|e0 ch]; [done|]. intros [= <-].
    apply list.Forall_cons in Hev as [(t & x & Ht & ->) Hev].
    destruct (apply_event_xcon t x _ Ht Hent) as [Hent' Heq]. split; cbn [ms_eventCh ms_entities ms_recipients ms_outbox]; [done|done|].
    intros r R Hr HR. rewrite messages_to_app in HR.
    destruct (convert_event t x Ht) as (e & He & _ & Heff).
    destruct (messages_to_send _ e r (ms_recipients m) He) as (n & En & Hn). rewrite En in HR.
    destruct (replays_repeat (messages_to r sent) n e R (event_effect t x) Heff) as (m0 & Hm0 & ->); [|by apply Hn|done|].
    + intros. apply event_effect_idem.
    + rewrite Heq. f_equal. by apply (Hcp r).
Qed.

Lemma mon_reach_inv m sent : mon_reach m sent → mon_inv m sent.
Proof.
  assert (∀ m sent t x m', known t → mon_inv m sent →
    set_eventCh m <$> enqueue (event_of t (XconEntity x)) (ms_eventCh m) = Some m' → mon_inv m' sent) as Henq.
  { intros m0 sent0 t x m' Ht [] (ch & Hch & ->)%fmap_Some. unfold enqueue in Hch. case_match; [|done].
    simplify_eq. split; cbn; [|done..]. apply Forall_app. split; [done|]. apply list.Forall_singleton. eauto. }
  induction 1 as [|m sent x m' _ IH E|m sent x m' _ IH E|m sent r m' _ IH E|m sent r m' _ IH E|m sent c m' _ IH E|m sent x m' _ IH E].
  - split; cbn; [done|by intros k e|by intros r R H%not_elem_of_nil].
  - by eapply (Henq m sent UPDATE); [left|..].
  - by eapply (Henq m sent DELETE); [right|..].
  - apply fmap_Some in E as (ch & _ & ->). destruct IH. by split.
  - apply fmap_Some in E as (ch & _ & ->). destruct IH. by split.
  - by eapply mon_inv_serve.
  - unfold deliver in E. destruct (ms_outbox m) as [|y out] eqn:Eo; [done|]. simplify_eq.
    destruct IH as [Hev Hent Hcp]. split; cbn; [done|done|]. intros r R Hr. rewrite Eo in Hcp.
    rewrite <- app_assoc. by apply Hcp.
Qed.

(** ** The two goroutines can block each other *)
Record sys_ok (s : monitor_system) : Prop := {
  so_recipients : ms_recipients (sys_server s) = [self];
  so_new : ms_newMonitorRecipientCh (sys_server s) = [];
  so_closed : ms_closedMonitorRecipientCh (sys_server s) = [];
  so_events : Forall (λ e, ∃ x, e = event_of UPDATE (XconEntity x)) (ms_eventCh (sys_server s));
  so_outbox : Forall (λ p, p.1 = self ∧ is_Some p.2) (ms_outbox (sys_server s))
}.
(** Updates on their way from the liveness check back to the inode server. *)
Definition load (s : monitor_system) : nat :=
  length (sys_pending s) + length (ms_eventCh (sys_server s)) + length (ms_outbox (sys_server s)) +
  length (in_crossConnectEventCh (sys_inode s)).

Lemma enqueue_Some {A} (x : A) ch ch' :
  enqueue x ch = Some ch' ↔ (length ch < defaultSize)%nat ∧ ch' = ch ++ [x].
Proof. unfold enqueue. destruct (Nat.ltb_spec (length ch) defaultSize); naive_solver lia. Qed.
Lemma enqueue_None {A} (x : A) ch : enqueue x ch = None ↔ (defaultSize ≤ length ch)%nat.
Proof. unfold enqueue. destruct (Nat.ltb_spec (length ch) defaultSize); naive_solver lia. Qed.

Lemma send_self x : ∃ e : CrossConnectEvent, send (event_of UPDATE (XconEntity x)) [self] = [(self, Some e)].
Proof. destruct (convert_event UPDATE x) as (e & He & _); [by left|]. exists e. unfold send. cbn. by rewrite He. Qed.

Lemma exec_load a s s' : sys_ok s → exec a s = Some s' → sys_ok s' ∧ (load s' ≤ load s)%nat.
Proof.
  intros [Hr Hn Hc He Ho]. destruct a as [c| | |]; cbn [exec].
  - intros (m & Hm & ->)%fmap_Some. unfold Serve in Hm. destruct (ms_outbox _) eqn:Eo; [|done].
    destruct c; rewrite ?Hn, ?Hc in Hm; [done..|]. destruct (ms_eventCh _) as [|e ch] eqn:Ee; [done|]. simplify_eq.
    apply list.Forall_cons in He as [[x ->] He]. rewrite Hr. destruct (send_self x) as [e Es]. rewrite Es.
    split; [split; cbn; try done; by apply list.Forall_singleton; split|]. unfold load. cbn. rewrite Ee, Eo. cbn. lia.
  - unfold deliver. destruct (ms_outbox _) as [|[r msg] out] eqn:Eo; [done|].
    apply list.Forall_cons in Ho as [[? [e ?]] Ho]. cbn in *. subst. rewrite decide_True by done.
    intros ([i err] & Hs & ->)%fmap_Some. cbn in Hs. apply fmap_Some in Hs as (ch & Hch & [= -> ->]).
    apply enqueue_Some in Hch as [_ ->]. split; [by split|]. unfold load. cbn. rewrite Eo, length_app. cbn. lia.
  - destruct (sys_pending s) as [|x pending] eqn:Ep; [done|]. intros (m & Hm & ->)%fmap_Some.
    apply fmap_Some in Hm as (ch & Hch & ->). apply enqueue_Some in Hch as [_ ->].
    split; [split; cbn; try done; apply Forall_app; split; [done|]; apply list.Forall_singleton; by exists x|].
    unfold load. cbn. rewrite Ep, length_app. cbn. lia.
  - destruct (sys_pending s) eqn:Ep; [|done]. destruct (in_crossConnectEventCh _) as [|e ch] eqn:Ech; [done|].
    intros [= <-]. split; [by split|]. unfold load. cbn. rewrite Ep, Ech. cbn. lia.
Qed.

Lemma deadlock_load s : sys_ok s → stuck s → sys_pending s ≠ [] → (22 ≤ load s)%nat.
Proof.
  intros [Hr Hn Hc He Ho] Hstuck Hp. destruct (sys_pending s) as [|x pending] eqn:Ep; [done|].
  pose proof (Hstuck PushUpdate) as H1. pose proof (Hstuck DeliverMsg) as H2.
  pose proof (Hstuck (ServeCase NewEvent)) as H3. cbn in H1, H2, H3. rewrite Ep in H1.
  apply fmap_None in H1. apply fmap_None, enqueue_None in H1. apply fmap_None in H3.
  unfold Serve in H3. destruct (ms_outbox _) as [|[r msg] out] eqn:Eo.
  - destruct (ms_eventCh _); [cbn in H1; unfold defaultSize in H1; lia|done].
  - apply list.Forall_cons in Ho as [[? [e ?]] _]. cbn in *. subst.
    unfold deliver in H2. rewrite Eo, decide_True in H2 by done. apply fmap_None in H2.
    apply fmap_None, enqueue_None in H2. unfold load, defaultSize in *. rewrite Ep, Eo. cbn. lia.
Qed.

(** The lengths of the queues of a system. *)
Record shape (s : monitor_system) (pending handled events outbox : nat) : Prop := {
  sh_ok : sys_ok s;
  sh_pending : length (sys_pending s) = pending;
  sh_handled : length (in_crossConnectEventCh (sys_inode s)) = handled;
  sh_events : length (ms_eventCh (sys_server s)) = events;
  sh_outbox : length (ms_outbox (sys_server s)) = outbox
}.
Lemma shape_push s n k e o : shape s (S n) k e o → (e < 10)%nat →
  ∃ s', exec PushUpdate s = Some s' ∧ shape s' n k (S e) o.
Proof.
  intros [Hok Hp Hh He Ho] Hlt. destruct (exec PushUpdate s) as [s'|] eqn:E.
  - exists s'. split; [done|]. destruct (exec_load _ _ _ Hok E) as [Hok' _]. cbn in E.
    destruct (sys_pending s) as [|x p]; [done|]. apply fmap_Some in E as (m & Hm & ->).
    apply fmap_Some in Hm as (ch & Hch & ->). apply enqueue_Some in Hch as [_ ->].
    split; cbn in *; try done; [lia|]. rewrite length_app. cbn. lia.
  - cbn in E. destruct (sys_pending s) as [|x p]; [done|]. apply fmap_None, fmap_None, enqueue_None in E.
    unfold defaultSize in E. lia.
Qed.
Lemma shape_serve s n k e : shape s n k (S e) 0 →
  ∃ s', exec (ServeCase NewEvent) s = Some s' ∧ shape s' n k e 1.
Proof.
  intros [Hok Hp Hh He Ho]. destruct (exec (ServeCase NewEvent) s) as [s'|] eqn:E.
  - exists s'. split; [done|]. destruct (exec_load _ _ _ Hok E) as [Hok' _]. cbn in E.
    apply fmap_Some in E as (m & Hm & ->). unfold Serve in Hm. destruct (ms_outbox _); [|done].
    destruct (ms_eventCh _); [done|]. simplify_eq. split; cbn in *; try done; [lia|].
    unfold send. by rewrite length_fmap, (so_recipients _ Hok).
  - cbn in E. apply fmap_None in E. unfold Serve in E. destruct (ms_outbox _); [|done]. by destruct (ms_eventCh _).
Qed.
Lemma shape_deliver s n k e o : shape s n k e (S o) → (k < 10)%nat →
  ∃ s', exec DeliverMsg s = Some s' ∧ shape s' n (S k) e o.
Proof.
  intros [Hok Hp Hh He Ho] Hlt. destruct (exec DeliverMsg s) as [s'|] eqn:E.
  - exists s'. split; [done|]. destruct (exec_load _ _ _ Hok E) as [Hok' _]. cbn in E. unfold deliver in E.
    pose proof (so_outbox _ Hok) as Hout. destruct (ms_outbox _) as [|[r msg] out]; [done|].
    apply list.Forall_cons in Hout as [[? [ev ?]] _]. cbn in *. subst. rewrite decide_True in E by done.
    apply fmap_Some in E as ([i err] & Hs & ->). apply fmap_Some in Hs as (ch & Hch & [= -> ->]).
    apply enqueue_Some in Hch as [_ ->]. split; cbn in *; try done; [|lia]. rewrite length_app. cbn. lia.
  - cbn in E. unfold deliver in E. pose proof (so_outbox _ Hok) as Hout.
    destruct (ms_outbox _) as [|[r msg] out]; [done|]. apply list.Forall_cons in Hout as [[? [ev ?]] _]. cbn in *. subst.
    rewrite decide_True in E by done. apply fmap_None, fmap_None, enqueue_None in E. unfold defaultSize in E. lia.
Qed.

Lemma exec_all_app l1 l2 s s1 : exec_all l1 s = Some s1 → exec_all (l1 ++ l2) s = exec_all l2 s1.
Proof. revert s; induction l1 as [|a l1 IH]; intros s; cbn; [by intros [= ->]|]. destruct (exec a s); [apply IH|done]. Qed.

Lemma run_cycles j : ∀ s n k, shape s (j + n) k 0 0 → (k + j ≤ 10)%nat →
  ∃ acts s', exec_all acts s = Some s' ∧ shape s' n (k + j) 0 0.
Proof.
  induction j as [|j IH]; intros s n k Hs Hk; [exists [], s; by rewrite Nat.add_0_r|].
  destruct (shape_push _ _ _ _ _ Hs) as (s1 & E1 & H1); [lia|]. destruct (shape_serve _ _ _ _ H1) as (s2 & E2 & H2).
  destruct (shape_deliver _ _ _ _ _ H2) as (s3 & E3 & H3); [lia|].
  destruct (IH _ _ _ H3) as (acts & s' & E & H); [lia|].
  exists (PushUpdate :: ServeCase NewEvent :: DeliverMsg :: acts), s'. cbn [exec_all]. rewrite E1, E2, E3.
  split; [done|]. by replace (k + S j)%nat with (S k + j)%nat by lia.
Qed.
Lemma run_pushes j : ∀ s n k e o, shape s (j + n) k e o → (e + j ≤ 10)%nat →
  ∃ acts s', exec_all acts s = Some s' ∧ shape s' n k (e + j) o.
Proof.
  induction j as [|j IH]; intros s n k e o Hs Hk; [exists [], s; by rewrite Nat.add_0_r|].
  destruct (shape_push _ _ _ _ _ Hs) as (s1 & E1 & H1); [lia|].
  destruct (IH _ _ _ _ _ H1) as (acts & s' & E & H); [lia|].
  exists (PushUpdate :: acts), s'. cbn [exec_all]. rewrite E1.
  split; [done|]. by replace (e + S j)%nat with (S e + j)%nat by lia.
Qed.

Lemma shape_stuck s n : shape s (S n) 10 10 1 → stuck s.
Proof.
  intros [Hok Hp Hh He Ho] a. pose proof (so_outbox _ Hok) as Hout.
  destruct (sys_pending s) as [|x p] eqn:Ep; [done|].
  destruct (ms_outbox _) as [|[r msg] out] eqn:Eo; [done|]. apply list.Forall_cons in Hout as [[? [ev ?]] _]. cbn in *. subst.
  destruct a as [c| | |]; cbn [exec].
  - unfold Serve. by rewrite Eo.
  - unfold deliver. rewrite Eo, decide_True by done. apply fmap_None, fmap_None, enqueue_None. unfold defaultSize. lia.
  - rewrite Ep. apply fmap_None, fmap_None, enqueue_None. unfold defaultSize. lia.
  - by rewrite Ep.
Qed.

Lemma exec_all_load acts : ∀ s s', sys_ok s → exec_all acts s = Some s' → sys_ok s' ∧ (load s' ≤ load s)%nat.
Proof.
  induction acts as [|a acts IH]; intros s s' Hok; cbn [exec_all]; [by intros [= <-]|].
  destruct (exec a s) as [s1|] eqn:E; [|done]. destruct (exec_load _ _ _ Hok E) as [Hok1 Hl].
  intros H. destruct (IH _ _ Hok1 H). split; [done|lia].
Qed.

(** ** Properties *)

(** C7: a recipient that is subscribed to the cross connect monitor has, once
    it has handled every message sent to it in order, exactly the cross
    connects of the server, whenever it subscribed, whatever the other
    recipients do, and whatever the iteration orders of the maps are. *)
Theorem recipient_copy_exact m sent r R :
  mon_reach m sent → r ∈ ms_recipients m → replays (messages_to r (sent ++ ms_outbox m)) R →
  R = xcons (ms_entities m).
Proof. intros Hm. apply (mi_copies _ _ (mon_reach_inv _ _ Hm)). Qed.

(** C40: the liveness check pushes its updates to the monitor server without
    reading its own channel, and the server sends every update back to it.
    From an idle system, the two goroutines can reach a state where both wait
    forever exactly when a check finds 22 or more connections down at once:
    both channels hold 10 and one message is in the server's hands. *)
Theorem liveness_check_deadlock s :
  shape s (length (sys_pending s)) 0 0 0 →
  (∃ acts s', exec_all acts s = Some s' ∧ stuck s' ∧ sys_pending s' ≠ []) ↔ (22 ≤ length (sys_pending s))%nat.
Proof.
  intros Hs. split.
  - intros (acts & s' & E & Hst & Hp). destruct (exec_all_load _ _ _ (sh_ok _ _ _ _ _ Hs) E) as [Hok Hl].
    pose proof (deadlock_load _ Hok Hst Hp). destruct Hs as [_ _ H1 H2 H3]. unfold load in Hl at 2. lia.
  - intros Hn. set (n := (length (sys_pending s) - 22)%nat).
    replace (length (sys_pending s)) with (10 + (12 + n))%nat in Hs by lia.
    destruct (run_cycles 10 s _ 0 Hs) as (a1 & s1 & E1 & H1); [lia|].
    destruct (shape_push s1 (11 + n) 10 0 0 H1) as (s2 & E2 & H2); [lia|].
    destruct (shape_serve _ _ _ _ H2) as (s3 & E3 & H3).
    destruct (run_pushes 10 s3 (S n) 10 0 1 H3) as (a2 & s4 & E4 & H4); [lia|].
    exists (a1 ++ PushUpdate :: ServeCase NewEvent :: a2), s4. rewrite (exec_all_app _ _ _ _ E1).
    cbn [exec_all]. rewrite E2, E3. split_and!; [done|by eapply shape_stuck|].
    intros E. pose proof (sh_pending _ _ _ _ _ H4) as Hp. by rewrite E in Hp.
Qed.

(** *** The liveness check *)
Definition local_end (x : CrossConnect) (c : LocalConnection) : Prop :=
  xcon_GetLocalSource x = Some c ∨ xcon_GetLocalDestination x = Some c.
Definition inode_of (c : LocalConnection) : option Z := ParseUint (lm_GetNetNsInode (lc_Mechanism c)) 64.

(** No end of a cross connect is up without its network namespace. *)
Definition no_dead_end (inodes : InodeSet) (x : CrossConnect) : Prop :=
  ∀ c inode, local_end x c → inode_of c = Some inode → lc_State c = State_UP → inode ∈ inodes.

Lemma live_false c inodes inode : inode_of c = Some inode →
  checkConnectionLiveness c inodes = Ok false ↔ (lc_State c = State_UP → inode ∈ inodes).
Proof.
  intros E. unfold checkConnectionLiveness. fold (inode_of c). rewrite E. unfold Contains.
  destruct (decide (inode ∈ inodes)); [rewrite bool_decide_true by done; naive_solver|].
  rewrite bool_decide_false by done. cbn. case_bool_decide; naive_solver.
Qed.
Lemma no_dead_end_alt inodes x : (∀ c, local_end x c → is_Some (inode_of c)) →
  no_dead_end inodes x ↔ ∀ c, local_end x c → checkConnectionLiveness c inodes = Ok false.
Proof.
  intros Hp. split.
  - intros Hn c Hc. destruct (Hp c Hc) as [inode Hi]. apply (live_false _ _ inode Hi). by apply Hn.
  - intros Hn c inode Hc Hi. apply (live_false _ _ _ Hi). by apply Hn.
Qed.
Lemma live_cases c inodes : is_Some (inode_of c) →
  checkConnectionLiveness c inodes = Ok false ∨
  checkConnectionLiveness c inodes = Ok true ∧ lc_State c = State_UP ∧
    checkConnectionLiveness (lc_set_State c State_DOWN) inodes = Ok false.
Proof.
  intros [inode E]. unfold checkConnectionLiveness. change (lc_Mechanism (lc_set_State c State_DOWN)) with (lc_Mechanism c).
  fold (inode_of c). rewrite E. cbn. destruct (Contains inodes inode); [by left|]. case_bool_decide; [right|left]; done.
Qed.

Lemma check_one_spec inodes x : (∀ c, local_end x c → is_Some (inode_of c)) →
  ∃ x' ups, check_one inodes x = (x', ups, None) ∧ no_dead_end inodes x' ∧ (x' ≠ x → x' ∈ ups) ∧
    xcon_Id x' = xcon_Id x.
Proof.
  intros Hp.
  assert (∀ x', (∀ c, local_end x' c → is_Some (inode_of c) ∧ checkConnectionLiveness c inodes = Ok false) →
            no_dead_end inodes x') as Hdone.
  { intros x' Hx'. apply no_dead_end_alt; intros c Hc; by apply Hx'. }
  destruct x as [id pl src dst]. unfold check_one, xcon_GetLocalSource. cbn [xcon_Source].
  assert (∃ src' ups, match local_of src with
    | None => (mkCrossConnect id pl src dst, [], None)
    | Some conn => match checkConnectionLiveness conn inodes with
        | Err e => (mkCrossConnect id pl src dst, [], Some e)
        | Ok true => (down_source (mkCrossConnect id pl src dst) conn, [down_source (mkCrossConnect id pl src dst) conn], None)
        | Ok false => (mkCrossConnect id pl src dst, [], None)
        end end = (mkCrossConnect id pl src' dst, ups, None) ∧ (src' ≠ src → ups = [mkCrossConnect id pl src' dst]) ∧
      ∀ c, local_of src' = Some c → is_Some (inode_of c) ∧ checkConnectionLiveness c inodes = Ok false)
    as (src' & ups & -> & Hsrc & Hs).
  { destruct (local_of src) as [c|] eqn:Es; [|by exists src, []; rewrite Es].
    assert (is_Some (inode_of c)) as Hi by (apply Hp; by left).
    destruct (live_cases c inodes Hi) as [E|(E & _ & E')]; rewrite E.
    - exists src, []. split_and!; [done|done|]. rewrite Es. by intros ? [= <-].
    - exists (Some (LocalConn (lc_set_State c State_DOWN))), [down_source (mkCrossConnect id pl src dst) c].
      split_and!; [done|done|]. by intros ? [= <-]. }
  unfold xcon_GetLocalDestination. cbn [xcon_Destination].
  destruct (local_of dst) as [c|] eqn:Ed.
  2: { exists (mkCrossConnect id pl src' dst), ups. split_and!; [done| | |done].
    - apply Hdone. intros c [Hc|Hc]; [by apply Hs|]. unfold xcon_GetLocalDestination in Hc. cbn in Hc. congruence.
    - intros Hne. rewrite Hsrc by congruence. apply list_elem_of_here. }
  assert (is_Some (inode_of c)) as Hi by (apply Hp; by right).
  destruct (live_cases c inodes Hi) as [E|(E & Hup & E')]; rewrite E.
  - exists (mkCrossConnect id pl src' dst), ups. split_and!; [done| | |done].
    + apply Hdone. intros c' [Hc|Hc]; [by apply Hs|]. unfold xcon_GetLocalDestination in Hc. cbn in Hc. by simplify_eq.
    + intros Hne. rewrite Hsrc by congruence. apply list_elem_of_here.
  - eexists _, _. split_and!; [reflexivity| |intros _; set_solver|done].
    apply Hdone. intros c' [Hc|Hc]; [by apply Hs|]. cbn in Hc. by simplify_eq.
Qed.

Lemma check_all_spec inodes order : ∀ m,
  NoDup order.*1 → (∀ k x c, (k, x) ∈ order → local_end x c → is_Some (inode_of c)) →
  ∃ m' ups, check_all inodes order m = (m', ups, None) ∧ (∀ k, k ∉ order.*1 → m' !! k = m !! k) ∧
    ∀ k x, (k, x) ∈ order → ∃ x', m' !! k = Some x' ∧ no_dead_end inodes x' ∧ xcon_Id x' = xcon_Id x ∧ (x' ≠ x → x' ∈ ups).
Proof.
  induction order as [|[k x] order IH]; intros m Hnd Hp; cbn [check_all]; [exists m, []; set_solver|].
  cbn in Hnd. apply NoDup_cons in Hnd as [Hk Hnd].
  destruct (check_one_spec inodes x) as (x' & ups & -> & Hx & Hne & Hid).
  { intros c. apply (Hp k x c). apply list_elem_of_here. }
  destruct (IH (<[k := x']> m) Hnd) as (m' & rest & -> & Hout & Hin).
  { intros k' y c Hy. apply (Hp k' y c). by apply elem_of_cons; right. }
  exists m', (ups ++ rest). split_and!; [done| |].
  - intros k' Hk'. cbn in Hk'. rewrite elem_of_cons in Hk'. rewrite Hout by tauto. apply lookup_insert_ne. naive_solver.
  - intros k' y [[= -> ->]|Hy]%elem_of_cons.
    + exists x'. rewrite Hout by done. split_and!; [apply lookup_insert_eq|done|done|].
      intros H. apply elem_of_app. left. by apply Hne.
    + destruct (Hin _ _ Hy) as (y' & H1 & H2 & H3 & H4). exists y'. split_and!; try done.
      intros H. apply elem_of_app. right. by apply H4.
Qed.

(** When the inodes of all local ends parse, the liveness check visits
    every cross connect: afterwards no local end is up whose network
    namespace is gone, and every cross connect that changed was reported to
    the monitor server in its final form. *)
Lemma liveness_check_marks live order m :
  is_range_of order m → (∀ k x c, m !! k = Some x → local_end x c → is_Some (inode_of c)) →
  ∃ m' ups, checkCrossConnectLiveness (Ok live) order m = (m', ups, None) ∧ dom m' = dom m ∧
    ∀ k x, m !! k = Some x → ∃ x', m' !! k = Some x' ∧ xcon_Id x' = xcon_Id x ∧ (x' ≠ x → x' ∈ ups) ∧
      ∀ c inode, local_end x' c → inode_of c = Some inode → lc_State c = State_UP → inode ∈ live.
Proof.
  intros Ho Hp. destruct (range_NoDup _ _ Ho) as [Hnd Hm].
  assert (∀ k x, (k, x) ∈ order ↔ m !! k = Some x) as Hel.
  { intros k x. rewrite <- Hm. by rewrite elem_of_list_to_map. }
  destruct (check_all_spec (NewInodeSet live) order m Hnd) as (m' & ups & E & Hout & Hin).
  { intros k x c Hx. apply (Hp k x c). by apply Hel. }
  exists m', ups. split_and!; [done| |].
  - apply set_eq. intros k. rewrite !elem_of_dom. destruct (decide (k ∈ order.*1)) as [Hk|Hk]; [|by rewrite Hout].
    apply list_elem_of_fmap in Hk as ([k' x] & -> & Hx). cbn.
    destruct (Hin _ _ Hx) as (x' & -> & _). apply Hel in Hx. rewrite Hx. by split; eexists.
  - intros k x Hx. apply Hel in Hx. destruct (Hin _ _ Hx) as (x' & H1 & H2 & H3 & H4). exists x'.
    split_and!; try done. intros c inode Hc Hi Hs. specialize (H2 c inode Hc Hi Hs). unfold NewInodeSet in H2. set_solver.
Qed.

(** A connection without a network namespace, as every shared memory
    connection is, ends the whole check with an error: the connections that
    come after it in the iteration are not looked at. *)
Lemma liveness_check_aborts live k1 k2 x1 x2 c m :
  xcon_GetLocalSource x1 = Some c → lc_Mechanism c = Some (mkLocalMechanism MEM_INTERFACE (Some ∅)) →
  m !! k1 = Some x1 → m !! k2 = Some x2 →
  ∃ e, checkCrossConnectLiveness (Ok live) [(k1, x1); (k2, x2)] m = (m, [], Some e).
Proof.
  intros Hc Hm H1 H2. eexists. unfold checkCrossConnectLiveness. cbn [check_all]. unfold check_one.
  rewrite Hc. unfold checkConnectionLiveness. rewrite Hm.
  assert (ParseUint (lm_GetNetNsInode (Some (mkLocalMechanism MEM_INTERFACE (Some ∅)))) 64 = None) as -> by by vm_compute.
  cbv beta iota zeta. by rewrite insert_id.
Qed.

(** ** Witnesses *)
Module Example_.
Definition kernel (inode : string) : option LocalMechanism :=
  Some (mkLocalMechanism KERNEL_INTERFACE (Some {[NetNsInodeKey := inode]})).
Definition conn (inode : string) : LocalConnection := mkLocalConnection "c" "icmp" (kernel inode) None ∅ State_UP.
Definition xcon (id : string) : CrossConnect :=
  mkCrossConnect id "IP" (Some (LocalConn (conn "17"))) (Some (LocalConn (conn "42"))).
Definition next (m : option (monitorServerImpl CrossConnectEvent)) : monitorServerImpl CrossConnectEvent :=
  default NewMonitorServer m.
(** One recipient subscribes, and then one cross connect is reported. *)
Definition m1 := next (AddRecipient NewMonitorServer self).
Definition m2 := next (Serve NewRecipient m1).
Definition m3 := next (Update m2 (XconEntity (xcon "x"))).
Definition m4 := next (snd <$> deliver m3).
Definition m5 := next (Serve NewEvent m4).
Definition sent : list (recipient * option CrossConnectEvent) := ms_outbox m3.
Lemma m5_reach : mon_reach m5 sent.
Proof.
  eapply (mr_serve m4 _ NewEvent); [|by vm_compute].
  eapply (mr_deliver m3 []); [|by vm_compute].
  eapply (mr_update m2 _ (xcon "x")); [|by vm_compute].
  eapply (mr_serve m1 _ NewRecipient); [|by vm_compute].
  eapply (mr_add NewMonitorServer _ self); [apply mr_new|by vm_compute].
Qed.
Definition first_event : CrossConnectEvent := mkCrossConnectEvent EVENT_INITIAL_STATE_TRANSFER ∅.
Definition second_event : CrossConnectEvent := mkCrossConnectEvent EVENT_UPDATE {["x" := xcon "x"]}.
Lemma m5_replays : replays (messages_to self (sent ++ ms_outbox m5)) {["x" := xcon "x"]}.
Proof.
  assert (messages_to self (sent ++ ms_outbox m5) = ([] ++ [first_event]) ++ [second_event]) as -> by by vm_compute.
  apply (replays_snoc ([] ++ [first_event]) ∅ second_event [("x", xcon "x")]).
  - apply (replays_snoc [] ∅ first_event []); [exact replays_nil|]. unfold is_range_of. cbn [first_event xev_CrossConnects]. by rewrite map_to_list_empty.
  - unfold is_range_of. cbn [second_event xev_CrossConnects]. by rewrite map_to_list_singleton.
Qed.

Definition busy : monitor_system :=
  mkSystem (mkMonitorServer [] [] [] ∅ [self] []) NewMonitorNetNsInodeServer (replicate 22 (xcon "x")).
Lemma busy_shape : shape busy (length (sys_pending busy)) 0 0 0.
Proof. by repeat split; constructor. Qed.
End Example_.

Lemma recipient_copy_exact_witness : {["x" := Example_.xcon "x"]} = xcons (ms_entities Example_.m5).
Proof.
  apply (recipient_copy_exact Example_.m5 Example_.sent self); [exact Example_.m5_reach| |exact Example_.m5_replays].
  assert (ms_recipients Example_.m5 = [self]) as -> by by vm_compute. by apply list_elem_of_singleton.
Defined.

Lemma liveness_check_deadlock_witness :
  (∃ acts s', exec_all acts Example_.busy = Some s' ∧ stuck s' ∧ sys_pending s' ≠ []) ↔
  (22 ≤ length (sys_pending Example_.busy))%nat.
Proof. exact (liveness_check_deadlock Example_.busy Example_.busy_shape). Defined.

