(* ===== verification/Cidr.v ===== *)
(** * Address blocks: the abstract view of a CIDR prefix

    A block is an aligned power-of-two range of the 32-bit or 128-bit address
    space.  The prefix pool keeps texts of such blocks; this file has the
    arithmetic of splitting and joining them, the number of blocks of a list
    that cover an address, and the correspondence with [net.IPNet] values and
    their text. *)
From S2P Require Import Prelude GoStrings GoNet GoNet6.

Record cidr := mkCidr { c_bits : Z; c_val : Z; c_len : Z }.

#[global] Instance cidr_eq_dec : EqDecision cidr.
Proof. solve_decision. Defined.

Definition blk (c : cidr) : Z := 2 ^ (c_bits c - c_len c).

Definition valid (c : cidr) : Prop :=
  (c_bits c = 32 ∨ c_bits c = 128) ∧ 0 ≤ c_len c ≤ c_bits c ∧
  0 ≤ c_val c < 2 ^ c_bits c ∧ (blk c | c_val c).

(** An address: the width of its family and its value. *)
Notation address := (Z * Z)%type.

Definition in_cidr (x : address) (c : cidr) : bool :=
  (x.1 =? c_bits c) && (c_val c <=? x.2) && (x.2 <? c_val c + blk c).

(** How many blocks of the list cover the address. *)
Definition cov (l : list cidr) (x : address) : nat :=
  sum_list_with (λ c, if in_cidr x c then 1%nat else 0%nat) l.

Definition disjoint_blocks (l : list cidr) : Prop := ∀ x, (cov l x ≤ 1)%nat.

(** Two lists of blocks hold the same addresses, each equally often. *)
Definition same_cover (l1 l2 : list cidr) : Prop := ∀ x, cov l1 x = cov l2 x.
Infix "≈" := same_cover (at level 70).

#[global] Instance same_cover_equiv : Equivalence same_cover.
Proof. split; unfold same_cover; [done|by intros ????|]. intros l1 l2 l3 H1 H2 x. by rewrite H1. Qed.

#[global] Instance cov_perm : Proper ((≡ₚ) ==> eq ==> eq) cov.
Proof. intros l1 l2 H x ? <-. by apply Permutation_sum_list_with. Qed.

Lemma cov_Permutation l1 l2 x : l1 ≡ₚ l2 → cov l1 x = cov l2 x.
Proof. by intros ->. Qed.

#[global] Instance same_cover_perm : Proper ((≡ₚ) ==> (≡ₚ) ==> iff) same_cover.
Proof. intros l1 l2 H l1' l2' H'. unfold same_cover. by setoid_rewrite H; setoid_rewrite H'. Qed.

Lemma cov_app l1 l2 x : cov (l1 ++ l2) x = (cov l1 x + cov l2 x)%nat.
Proof. apply sum_list_with_app'. Qed.

Lemma cov_cons c l x : cov (c :: l) x = (cov [c] x + cov l x)%nat.
Proof. apply (cov_app [c] l). Qed.

#[global] Instance same_cover_app : Proper (same_cover ==> same_cover ==> same_cover) (++).
Proof. intros l1 l2 H l1' l2' H' x. by rewrite !cov_app, H, H'. Qed.

#[global] Instance same_cover_cons c : Proper (same_cover ==> same_cover) (cons c).
Proof. intros l1 l2 H x. by rewrite (cov_cons c l1), (cov_cons c l2), H. Qed.

#[global] Instance disjoint_same_cover : Proper (same_cover ==> iff) disjoint_blocks.
Proof. intros l1 l2 H. unfold disjoint_blocks. split; intros Hd x; [rewrite <-H|rewrite H]; apply Hd. Qed.

#[global] Instance disjoint_perm : Proper ((≡ₚ) ==> iff) disjoint_blocks.
Proof. intros l1 l2 H. unfold disjoint_blocks. by setoid_rewrite H. Qed.

Lemma in_cidr_spec x c :
  in_cidr x c = true ↔ x.1 = c_bits c ∧ c_val c ≤ x.2 < c_val c + blk c.
Proof. unfold in_cidr. rewrite !andb_true_iff. lia. Qed.

Lemma cov_elem c l x : c ∈ l → in_cidr x c = true → (1 ≤ cov l x)%nat.
Proof.
  intros Hc Hx. apply elem_of_Permutation in Hc as [l' ->]. rewrite cov_cons.
  unfold cov at 1. simpl. rewrite Hx. lia.
Qed.

Lemma cov_pos l x : (1 ≤ cov l x)%nat → ∃ c, c ∈ l ∧ in_cidr x c = true.
Proof.
  induction l as [|c l IH]; unfold cov; simpl; [lia|]. fold (cov l x).
  destruct (in_cidr x c) eqn:E; [exists c; set_solver|].
  intros H. destruct IH as (c' & ? & ?); [lia|]. exists c'; set_solver.
Qed.

(** ** Arithmetic of blocks *)
Lemma blk_pos c : c_len c ≤ c_bits c → 0 < blk c.
Proof. intros. apply Z.pow_pos_nonneg; lia. Qed.

Lemma valid_blk_pos c : valid c → 0 < blk c.
Proof. intros (_ & ? & _). apply blk_pos; lia. Qed.

Lemma in_cidr_base c : valid c → in_cidr (c_bits c, c_val c) c = true.
Proof. intros H. apply in_cidr_spec. pose proof (valid_blk_pos _ H). simpl; lia. Qed.

Definition child0 (c : cidr) : cidr := mkCidr (c_bits c) (c_val c) (c_len c + 1).
Definition child1 (c : cidr) : cidr :=
  mkCidr (c_bits c) (c_val c + 2 ^ (c_bits c - (c_len c + 1))) (c_len c + 1).

(** The block value with the last prefix bit cleared, and the parent block. *)
Definition base_val (c : cidr) : Z := c_val c - c_val c `mod` 2 ^ (c_bits c - c_len c + 1).
Definition parent (c : cidr) : cidr := mkCidr (c_bits c) (base_val c) (c_len c - 1).

Lemma blk_double c : c_len c < c_bits c → blk c = 2 * 2 ^ (c_bits c - (c_len c + 1)).
Proof. intros. unfold blk. rewrite <-Z.pow_succ_r by lia. f_equal; lia. Qed.

(** A valid block ends within the address space. *)
Lemma valid_end c : valid c → c_val c + blk c ≤ 2 ^ c_bits c.
Proof.
  intros (Hb & Hl & Hv & [q Hq]). pose proof (blk_pos c ltac:(lia)) as Hp.
  assert (2 ^ c_bits c = blk c * 2 ^ c_len c) as E.
  { unfold blk. rewrite <-Z.pow_add_r by lia. f_equal; lia. }
  rewrite E, Hq in *. assert (q < 2 ^ c_len c) by nia. nia.
Qed.

Lemma child0_valid c : valid c → c_len c < c_bits c → valid (child0 c).
Proof.
  intros (Hb & Hl & Hv & [q Hq]) H. unfold valid, blk in *; simpl.
  split_and!; try done; try lia. exists (2 * q).
  change (2 ^ (c_bits c - c_len c)) with (blk c) in Hq. rewrite blk_double in Hq by done. lia.
Qed.

Lemma child1_valid c : valid c → c_len c < c_bits c → valid (child1 c).
Proof.
  intros Hc H. pose proof (valid_end c Hc) as He. destruct Hc as (Hb & Hl & Hv & [q Hq]).
  rewrite blk_double in Hq, He by done.
  assert (0 < 2 ^ (c_bits c - (c_len c + 1))) by (apply Z.pow_pos_nonneg; lia).
  unfold valid, blk; simpl. split_and!; try done; try lia. exists (2 * q + 1). lia.
Qed.

(** Splitting a block keeps its addresses, each once. *)
Lemma split_cover c : valid c → c_len c < c_bits c → [child0 c; child1 c] ≈ [c].
Proof.
  intros Hc H x. pose proof (blk_double c H) as Hd.
  assert (0 < 2 ^ (c_bits c - (c_len c + 1))) by (apply Z.pow_pos_nonneg; lia).
  unfold cov, in_cidr; simpl. rewrite Hd. unfold blk; simpl.
  destruct (x.1 =? c_bits c); simpl; [|done].
  repeat match goal with |- context [?a <=? ?b] => destruct (Z.leb_spec a b) end;
  repeat match goal with |- context [?a <? ?b] => destruct (Z.ltb_spec a b) end; simpl; lia.
Qed.

Lemma base_val_cases c :
  valid c → c_val c = base_val c ∨ c_val c = base_val c + blk c.
Proof.
  intros (Hb & Hl & Hv & [q Hq]). unfold base_val. pose proof (blk_pos c ltac:(lia)).
  replace (2 ^ (c_bits c - c_len c + 1)) with (blk c * 2).
  2: { unfold blk. rewrite Z.pow_add_r by lia. done. }
  rewrite Hq. rewrite (Z.mul_comm (blk c) 2), Z.mul_mod_distr_r by lia.
  pose proof (Z.mod_pos_bound q 2 ltac:(lia)).
  assert (q `mod` 2 = 0 ∨ q `mod` 2 = 1) as [-> | ->] by lia; lia.
Qed.

Lemma parent_valid c : valid c → 0 < c_len c → valid (parent c).
Proof.
  intros Hc H. destruct Hc as (Hb & Hl & Hv & Hq).
  unfold valid, parent, blk, base_val; simpl.
  replace (c_bits c - (c_len c - 1)) with (c_bits c - c_len c + 1) by lia.
  set (M := 2 ^ (c_bits c - c_len c + 1)).
  assert (0 < M) by (apply Z.pow_pos_nonneg; lia).
  pose proof (Z.mod_pos_bound (c_val c) M ltac:(lia)).
  pose proof (Z.mod_le (c_val c) M ltac:(lia) ltac:(lia)).
  split_and!; [done|lia|lia|lia|lia|].
  exists (c_val c `div` M). pose proof (Z.div_mod (c_val c) M). lia.
Qed.

(** Two different blocks of one length under the same base are the two halves
    of their parent. *)
Lemma join_cover c d :
  valid c → valid d → c_bits c = c_bits d → c_len c = c_len d →
  base_val c = base_val d → c ≠ d → 0 < c_len c ∧ [parent c] ≈ [c; d].
Proof.
  intros Hc Hd Hb Hl Hbase Hne.
  assert (blk c = blk d) as Hblk by (unfold blk; congruence).
  assert (c_val c ≠ c_val d) as Hv.
  { intros ?. apply Hne. destruct c, d; simpl in *; congruence. }
  pose proof (valid_blk_pos _ Hc) as Hpos.
  assert (0 < c_len c) as Hlen.
  { destruct (decide (c_len c = 0)) as [E|]; [|destruct Hc; lia].
    pose proof (valid_end _ Hc). pose proof (valid_end _ Hd).
    unfold blk in *. rewrite <-Hl, <-Hb, E, Z.sub_0_r in *.
    destruct Hc as (_ & _ & ? & _), Hd as (_ & _ & ? & _). rewrite <-Hb in *. lia. }
  split; [done|]. intros x. unfold cov, in_cidr; simpl.
  assert (blk (parent c) = 2 * blk c) as Hp.
  { destruct Hc as (_ & ? & _). unfold blk; simpl. rewrite <-Z.pow_succ_r by lia. f_equal; lia. }
  rewrite <-Hb, Hp, <-Hblk.
  destruct (base_val_cases c Hc) as [E1|E1], (base_val_cases d Hd) as [E2|E2];
    rewrite <-?Hblk, <-?Hbase in E2; try lia;
    rewrite E1, E2; destruct (x.1 =? c_bits c); simpl; try done;
  repeat match goal with |- context [?a <=? ?b] => destruct (Z.leb_spec a b) end;
  repeat match goal with |- context [?a <? ?b] => destruct (Z.ltb_spec a b) end; simpl; lia.
Qed.

(** Aligned blocks that share an address are nested. *)
Lemma nested c d x :
  valid c → valid d → c_len c ≤ c_len d → in_cidr x c = true → in_cidr x d = true →
  c_bits c = c_bits d ∧ c_val c ≤ c_val d ∧ c_val d + blk d ≤ c_val c + blk c.
Proof.
  intros Hc Hd Hl Hx1 Hx2. apply in_cidr_spec in Hx1 as [Hb1 Hx1], Hx2 as [Hb2 Hx2].
  pose proof (valid_blk_pos _ Hd) as Hpd.
  destruct Hc as (_ & Hlc & _ & [p Hp]), Hd as (_ & Hld & _ & [q Hq]).
  assert (blk c = blk d * 2 ^ (c_len d - c_len c)) as E.
  { unfold blk. rewrite <-Z.pow_add_r by lia. f_equal; lia. }
  set (K := 2 ^ (c_len d - c_len c)) in *.
  assert (0 < K) by (apply Z.pow_pos_nonneg; lia).
  rewrite Hp, Hq, E in *. split; [congruence|].
  assert (p * K ≤ q) by nia. assert (q + 1 ≤ p * K + K) by nia. nia.
Qed.

Lemma nested_sub c d x :
  valid c → valid d → c_len c ≤ c_len d → in_cidr x c = true → in_cidr x d = true →
  ∀ y, in_cidr y d = true → in_cidr y c = true.
Proof.
  intros Hc Hd Hl Hx1 Hx2 y Hy. destruct (nested c d x) as (Hb & H1 & H2); try done.
  apply in_cidr_spec in Hy as [Hyb Hy]. apply in_cidr_spec. split; [congruence|lia].
Qed.

Lemma nested_eq c d x :
  valid c → valid d → c_len c = c_len d → in_cidr x c = true → in_cidr x d = true → c = d.
Proof.
  intros Hc Hd Hl Hx1 Hx2. destruct (nested c d x) as (Hb & H1 & H2); try done; [lia|].
  assert (blk c = blk d) by (unfold blk; congruence).
  destruct c, d; simpl in *; f_equal; [done|lia|done].
Qed.

(** Members of a disjoint list that share an address are the same member. *)
Lemma disjoint_same l c d x :
  disjoint_blocks l → c ∈ l → d ∈ l → in_cidr x c = true → in_cidr x d = true → c = d.
Proof.
  intros Hd Hc Hdl Hx1 Hx2. destruct (decide (c = d)) as [|Hne]; [done|exfalso].
  apply elem_of_Permutation in Hc as [l' Hp]. rewrite Hp in Hd, Hdl.
  apply elem_of_cons in Hdl as [->|Hdl]; [done|].
  specialize (Hd x). rewrite cov_cons in Hd. pose proof (cov_elem _ _ _ Hdl Hx2).
  unfold cov at 1 in Hd. simpl in Hd. rewrite Hx1 in Hd. lia.
Qed.

Lemma disjoint_NoDup l : Forall valid l → disjoint_blocks l → NoDup l.
Proof.
  induction l as [|c l IH]; intros Hv Hd; [constructor|].
  apply Forall_cons_1 in Hv as [Hc Hv].
  assert (∀ x, (cov l x ≤ 1)%nat) as Hd'.
  { intros x. specialize (Hd x). rewrite cov_cons in Hd. lia. }
  constructor; [|by apply IH]. intros Hin. pose proof (in_cidr_base c Hc) as Hx.
  pose proof (cov_elem _ _ _ Hin Hx). specialize (Hd (c_bits c, c_val c)).
  rewrite cov_cons in Hd. unfold cov at 1 in Hd. simpl in Hd. rewrite Hx in Hd. lia.
Qed.

Lemma disjoint_app l1 l2 : disjoint_blocks (l1 ++ l2) → disjoint_blocks l1 ∧ disjoint_blocks l2.
Proof.
  intros H. split; intros x; specialize (H x); rewrite cov_app in H; lia.
Qed.

(** ** Blocks as [net.IPNet] values and as text *)
Definition net_of (c : cidr) : IPNet :=
  mkIPNet (be_bytes (Z.to_nat (c_bits c `div` 8)) (c_val c)) (CIDRMask (c_len c) (c_bits c)).

Definition text (c : cidr) : string := net_String (net_of c).

(** The IPv4-mapped addresses ::ffff:0:0/96: [net] prints and compares them as
    IPv4 addresses. *)
Definition mapped_lo : Z := 65535 * 2 ^ 32.
Definition mapped_hi : Z := 65536 * 2 ^ 32.

(** The blocks the pool is about: one family of [w] bits, with no IPv4-mapped
    address among the IPv6 ones. *)
Definition inet (w : Z) (c : cidr) : Prop :=
  valid c ∧ c_bits c = w ∧
  (c_bits c = 128 → c_val c + blk c ≤ mapped_lo ∨ mapped_hi ≤ c_val c).

(** The blocks whose text reads back: only their first address counts. *)
Definition readable (c : cidr) : Prop :=
  valid c ∧ (c_bits c = 128 → ¬ mapped_lo ≤ c_val c < mapped_hi).

Lemma inet_valid w c : inet w c → valid c.
Proof. by intros [? _]. Qed.
Lemma inet_readable w c : inet w c → readable c.
Proof. intros (Hv & _ & Hm). pose proof (valid_blk_pos _ Hv). split; [done|]. intros E. destruct (Hm E); lia. Qed.
#[export] Hint Resolve inet_valid inet_readable : nsm.

Lemma Forall_inet_valid w l : Forall (inet w) l → Forall valid l.
Proof. intros H. eapply Forall_impl; [done|]. apply inet_valid. Qed.
#[export] Hint Resolve Forall_inet_valid : nsm.

Lemma inet_bounds w c : inet w c → 0 ≤ c_len c ≤ w ∧ w ≤ 128.
Proof. intros ((Hb & ? & _) & <- & _). lia. Qed.

Lemma inet_v4 c : valid c → c_bits c = 32 → inet 32 c.
Proof. intros Hv Hb. split_and!; [done|done|]. rewrite Hb. done. Qed.

(** The address [v] of a family as [net.ParseCIDR] returns it. *)
Definition ip_of (w v : Z) : IP :=
  if decide (w = 32) then v4InV6Prefix ++ be_bytes 4 v else be_bytes 16 v.

Lemma net_of_Size c : valid c → mask_Size (net_Mask (net_of c)) = (c_len c, c_bits c).
Proof. intros (? & ? & _). by apply mask_Size_CIDRMask. Qed.

Lemma pow256 bits : bits = 32 ∨ bits = 128 → 256 ^ Z.of_nat (Z.to_nat (bits `div` 8)) = 2 ^ bits.
Proof. by intros [-> | ->]. Qed.

Lemma be_val_net_of c : valid c → be_val (net_IP (net_of c)) = c_val c.
Proof.
  intros (Hb & _ & Hv & _). simpl. rewrite be_val_bytes, pow256 by done. by apply Z.mod_small.
Qed.

Lemma net_of_inj c d : valid c → valid d → net_of c = net_of d → c = d.
Proof.
  intros Hc Hd E.
  assert (c_val c = c_val d) by by rewrite <-!be_val_net_of, E.
  pose proof (net_of_Size _ Hc) as H1. pose proof (net_of_Size _ Hd) as H2.
  rewrite E, H2 in H1. destruct c, d; simpl in *; congruence.
Qed.

Lemma be_bytes_add m n v :
  be_bytes (m + n) v = be_bytes m (v `div` 256 ^ Z.of_nat n) ++ be_bytes n v.
Proof.
  induction m as [|m IH]; [done|]. simpl. rewrite IH. f_equal.
  rewrite Nat2Z.inj_add, Z.add_comm, Z.pow_add_r by lia. by rewrite Z.div_div by lia.
Qed.

(** The bytes of an IPv6 address start like an IPv4-mapped one exactly in that
    range. *)
Lemma take_mapped v :
  0 ≤ v < 2 ^ 128 → take 12 (be_bytes 16 v) = v4InV6Prefix ↔ mapped_lo ≤ v < mapped_hi.
Proof.
  intros Hv. change 16%nat with (12 + 4)%nat. rewrite be_bytes_add.
  rewrite take_app_length' by (by rewrite length_be_bytes).
  change (256 ^ Z.of_nat 4) with (2 ^ 32).
  change v4InV6Prefix with (be_bytes 12 65535).
  pose proof (Z.div_mod v (2 ^ 32) ltac:(done)) as Hd.
  pose proof (Z.mod_pos_bound v (2 ^ 32) ltac:(done)) as Hm. unfold mapped_lo, mapped_hi. split.
  - intros E. apply be_bytes_inj in E; [lia| |done].
    change (256 ^ Z.of_nat 12) with (2 ^ 96). split; [apply Z.div_pos; lia|].
    apply Z.div_lt_upper_bound; lia.
  - intros Hr. f_equal. lia.
Qed.

Lemma text_parse c :
  readable c → ParseCIDR (text c) = Some (ip_of (c_bits c) (c_val c), net_of c).
Proof.
  intros [(Hb & Hl & Hv & Hq) Hm]. destruct c as [b v l].
  unfold text, net_of, blk, ip_of in *; cbn [c_bits c_val c_len net_IP] in *.
  destruct Hb as [-> | ->].
  - rewrite decide_True by done. change (Z.to_nat (32 `div` 8)) with 4%nat.
    apply ParseCIDR_net_String_v4; [apply length_be_bytes|apply be_bytes_is_byte|done|].
    rewrite be_val_bytes. by rewrite Z.mod_small.
  - rewrite decide_False by done. change (Z.to_nat (128 `div` 8)) with 16%nat.
    apply ParseCIDR_net_String_v6; [apply length_be_bytes| |apply be_bytes_is_byte|done|].
    + intros E. apply take_mapped in E; [|done]. by apply Hm.
    + rewrite be_val_bytes. by rewrite Z.mod_small.
Qed.

Lemma text_inj c d : readable c → readable d → text c = text d → c = d.
Proof.
  intros Hc Hd E. apply net_of_inj; [by apply Hc|by apply Hd|].
  pose proof (text_parse _ Hc) as H1. pose proof (text_parse _ Hd) as H2.
  rewrite E, H2 in H1. congruence.
Qed.

Lemma child0_inet w c : inet w c → c_len c < w → inet w (child0 c).
Proof.
  intros (? & Hb & Hm) ?. pose proof (blk_double c ltac:(lia)).
  assert (0 < 2 ^ (c_bits c - (c_len c + 1))) by (apply Z.pow_pos_nonneg; lia).
  split_and!; [apply child0_valid; [done|lia]|done|].
  intros E. specialize (Hm E). change (blk (child0 c)) with (2 ^ (c_bits c - (c_len c + 1))).
  simpl. lia.
Qed.
Lemma child1_inet w c : inet w c → c_len c < w → inet w (child1 c).
Proof.
  intros (? & Hb & Hm) ?. pose proof (blk_double c ltac:(lia)).
  assert (0 < 2 ^ (c_bits c - (c_len c + 1))) by (apply Z.pow_pos_nonneg; lia).
  split_and!; [apply child1_valid; [done|lia]|done|].
  intros E. specialize (Hm E). change (blk (child1 c)) with (2 ^ (c_bits c - (c_len c + 1))).
  simpl. lia.
Qed.

(** The parent of two halves that spare the mapped addresses spares them. *)
Lemma parent_inet w c d :
  inet w c → inet w d → c_len c = c_len d → base_val c = base_val d → c ≠ d →
  inet w (parent c).
Proof.
  intros (Hc & Hbc & Hmc) (Hd & Hbd & Hmd) Hl Hbase Hne.
  assert (c_bits c = c_bits d) as Hb by congruence.
  destruct (join_cover c d Hc Hd Hb Hl Hbase Hne) as [Hpos _].
  split_and!; [by apply parent_valid|done|]. intros E.
  change (c_bits c = 128) in E. specialize (Hmc E). rewrite Hb in E.
  specialize (Hmd E). assert (blk c = blk d) as Hblk by (unfold blk; congruence).
  assert (blk (parent c) = 2 * blk c) as ->.
  { destruct Hc as (_ & ? & _). unfold blk; simpl. rewrite <-Z.pow_succ_r by lia. f_equal; lia. }
  assert (c_val c ≠ c_val d) as Hv.
  { intros ?. apply Hne. destruct c, d; simpl in *; congruence. }
  change (c_val (parent c)) with (base_val c).
  assert (mapped_lo < mapped_hi) by done. pose proof (valid_blk_pos _ Hc).
  destruct (base_val_cases c Hc) as [E1|E1], (base_val_cases d Hd) as [E2|E2]; lia.
Qed.
#[export] Hint Resolve child0_inet child1_inet : nsm.
