(* ===== verification/PrefixPool.v ===== *)
(** * The prefix pool (controlplane/pkg/prefix_pool/prefixpool.go)

    Every definition is a function of the source file under its own name.
    The loops over Go maps in [ReleasePrefixes] take the iteration order as
    an argument.  [append(prefixes[:idx], prefixes[idx+1:]...)] writes into
    the backing array of its argument; the only caller inside the package,
    [ExtractPrefixes], passes a private copy, so slices are values here. *)
From S2P Require Import Prelude GoStrings GoNet ConnectionContext.
Local Open Scope go_scope.

(** ** Addresses as integers *)
Definition fromIP (ip : IP) : Z * Z :=
  (be_val ip, if decide (length ip = IPv4len) then 32 else 128).

(** More bytes than the result holds is an index out of range. *)
Definition toIP (ipInt bits : Z) : outcome IP :=
  if ipInt <? 2 ^ bits then Ret (be_bytes (Z.to_nat (bits `div` 8)) ipInt)
  else Panic "index out of range".

Definition setNetIndexInIP (ip : IP) (num prefixLen : Z) : outcome IP :=
  let '(ipInt, totalBits) := fromIP ip in
  if totalBits <? prefixLen then Panic "makeslice: len out of range"
  else toIP (Z.lor ipInt (Z.shiftl num (totalBits - prefixLen))) totalBits.

Definition clearNetIndexInIP (ip : IP) (prefixLen : Z) : outcome IP :=
  let '(ipInt, totalBits) := fromIP ip in
  if totalBits <? prefixLen then Panic "negative bit index"
  else toIP (Z.clearbit ipInt (totalBits - prefixLen)) totalBits.

(** ** Subnets *)
Definition subnet (ipnet : IPNet) (subnet_index : Z) : outcome (result IPNet) :=
  let '(parentLen, addrLen) := mask_Size (net_Mask ipnet) in
  let newPrefixLen := parentLen + 1 in
  if addrLen <? newPrefixLen then
    Ret (Err (Errorf "insufficient address space to extend prefix of %d"))
  else if 2 <? subnet_index `mod` 2 ^ 64 then
    Ret (Err (Errorf "prefix extension does not accommodate a subnet numbered %d"))
  else
    match setNetIndexInIP (net_IP ipnet) subnet_index newPrefixLen with
    | Ret ip => Ret (Ok (mkIPNet ip (CIDRMask newPrefixLen addrLen)))
    | Panic w => Panic w
    end.

(** [1 << (bits - prefixLen)] on uint64: a shift of 64 or more gives 0. *)
Definition addressCount (pr : string) : outcome Z :=
  match ParseCIDR pr with
  | None => Panic "nil pointer dereference"
  | Some (_, network) =>
      let '(prefixLen, bits) := mask_Size (net_Mask network) in
      Ret (2 ^ (bits - prefixLen) `mod` 2 ^ 64)
  end.

Definition AddressCount (prefixes : list string) : outcome Z :=
  foldM (λ c pr, n ← addressCount pr; Ret ((c + n) `mod` 2 ^ 64)) 0 prefixes.

Definition AddressRange (network : IPNet) : outcome (IP * IP) :=
  let firstIP := net_IP network in
  let '(prefixLen, bits) := mask_Size (net_Mask network) in
  if prefixLen =? bits then Ret (firstIP, firstIP)
  else
    let '(firstIPInt, bits) := fromIP firstIP in
    let hostLen := bits - prefixLen in
    lastIP ← toIP (Z.lor (Z.shiftl 1 hostLen - 1) firstIPInt) bits;
    Ret (firstIP, lastIP).

(** The byte loop of [IncrementIP], from the last byte to the first. *)
Fixpoint increment_bytes (rev_ip : list Z) : list Z :=
  match rev_ip with
  | [] => []
  | b :: rest =>
      let b' := (b + 1) `mod` 256 in
      if b' =? 0 then b' :: increment_bytes rest else b' :: rest
  end.

Definition IncrementIP (sourceIp : IP) (ipNet : IPNet) : result IP :=
  let ip := reverse (increment_bytes (reverse sourceIp)) in
  if net_Contains ipNet ip then Ok ip
  else Err (Errorf "Overflowed CIDR while incrementing IP").

(** ** Slices of strings *)
Fixpoint removeDuplicates_go (encountered : gset string) (elements : list string) : list string :=
  match elements with
  | [] => []
  | v :: elements =>
      if decide (v ∈ encountered) then removeDuplicates_go encountered elements
      else v :: removeDuplicates_go ({[v]} ∪ encountered) elements
  end.
Definition removeDuplicates (elements : list string) : list string :=
  removeDuplicates_go ∅ elements.

(** The two-index loop of [reverse]: [i] goes up and [j] down until they meet. *)
Fixpoint reverse_loop (fuel : nat) (values : list string) (i j : nat) (newValues : list string) :
    list string :=
  match fuel with
  | O => newValues
  | S fuel =>
      if (i <=? j)%nat then
        let newValues := <[i := default "" (values !! j)]> newValues in
        let newValues :=
          if decide (i = j) then newValues
          else <[j := default "" (values !! i)]> newValues in
        match j with
        | O => newValues
        | S j' => reverse_loop fuel values (S i) j' newValues
        end
      else newValues
  end.
Definition go_reverse (values : list string) : list string :=
  match length values with
  | O => []
  | S n => reverse_loop (S (S n)) values 0 n (replicate (S n) "")
  end.

(** ** Extraction *)

(** The scan of [ExtractPrefix]: the index of a prefix of the wanted length,
    or the index of the longest shorter one. *)
Fixpoint find_prefix (prefixLen : Z) (idx : nat) (prefixes : list string)
    (max_prefix : Z) (max_prefix_idx : option nat) : nat + option nat :=
  match prefixes with
  | [] => inr max_prefix_idx
  | prefix :: rest =>
      match ParseCIDR prefix with
      | None => find_prefix prefixLen (S idx) rest max_prefix max_prefix_idx
      | Some (_, netip) =>
          let '(parentLen, _) := mask_Size (net_Mask netip) in
          if prefixLen =? parentLen then inl idx
          else if (parentLen <? prefixLen) && ((max_prefix <? parentLen) || (max_prefix =? 0))
          then find_prefix prefixLen (S idx) rest parentLen (Some idx)
          else find_prefix prefixLen (S idx) rest max_prefix max_prefix_idx
      end
  end.

(** The split loop of [ExtractPrefix]: halve the root until it has the wanted
    length, keeping the right halves.  The prefix length grows by one each
    turn and [subnet] fails at the address width, so 130 turns are enough
    ([split_root_spec], [split_root_too_long]). *)
Fixpoint split_root (fuel : nat) (prefixLen : Z) (rootCIDRNet : IPNet) (right_parts : list string) :
    outcome (result (IPNet * list string)) :=
  match fuel with
  | O => Panic "out of fuel"
  | S fuel =>
      let '(rootLen, _) := mask_Size (net_Mask rootCIDRNet) in
      if rootLen =? prefixLen then Ret (Ok (rootCIDRNet, right_parts))
      else
        sub1 ⇐ subnet rootCIDRNet 0;
        sub2 ⇐ subnet rootCIDRNet 1;
        split_root fuel prefixLen sub1 (right_parts ++ [net_String sub2])
  end.
Definition split_fuel : nat := 130.

Definition ExtractPrefix (prefixes : list string) (prefixLen : Z) :
    outcome (result (string * list string)) :=
  match find_prefix prefixLen 0 prefixes 0 None with
  | inl idx => Ret (Ok (default "" (prefixes !! idx), delete idx prefixes))
  | inr None => Ret (Err (Errorf "Failed to find room to have prefix len %d at %v"))
  | inr (Some max_prefix_idx) =>
      match ParseCIDR (default "" (prefixes !! max_prefix_idx)) with
      | None => Panic "nil pointer dereference"
      | Some (_, rootCIDRNet) =>
          '(found, right_parts) ⇐ split_root split_fuel prefixLen rootCIDRNet [];
          Ret (Ok (net_String found,
                   take max_prefix_idx prefixes ++ go_reverse right_parts
                     ++ drop (S max_prefix_idx) prefixes))
      end
  end.

(** [n] more prefixes of one length: all of them or an error. *)
Fixpoint extract_required (n : nat) (prefixLen : Z) (acc newPrefixes : list string) :
    outcome (result (list string * list string)) :=
  match n with
  | O => Ret (Ok (acc, newPrefixes))
  | S n =>
      '(prefix, leftPrefixes) ⇐ ExtractPrefix newPrefixes prefixLen;
      extract_required n prefixLen (acc ++ [prefix]) leftPrefixes
  end.

(** Up to [n] more prefixes of one length: the first failure ends the loop. *)
Fixpoint extract_optional (n : nat) (prefixLen : Z) (acc newPrefixes : list string) :
    outcome (list string * list string) :=
  match n with
  | O => Ret (acc, newPrefixes)
  | S n =>
      match ExtractPrefix newPrefixes prefixLen with
      | Panic w => Panic w
      | Ret (Err _) => Ret (acc, newPrefixes)
      | Ret (Ok (prefix, leftPrefixes)) =>
          extract_optional n prefixLen (acc ++ [prefix]) leftPrefixes
      end
  end.

Fixpoint extract_all_required (requests : list ExtraPrefixRequest) (acc newPrefixes : list string) :
    outcome (result (list string * list string)) :=
  match requests with
  | [] => Ret (Ok (acc, newPrefixes))
  | request :: requests =>
      '(acc, newPrefixes) ⇐
        extract_required (Z.to_nat (epr_RequiredNumber request)) (epr_PrefixLen request) acc newPrefixes;
      extract_all_required requests acc newPrefixes
  end.

Definition extract_all_optional (requests : list ExtraPrefixRequest) (acc newPrefixes : list string) :
    outcome (list string * list string) :=
  foldM (λ '(acc, newPrefixes) request,
    extract_optional
      (Z.to_nat (epr_RequestedNumber request) - Z.to_nat (epr_RequiredNumber request))
      (epr_PrefixLen request) acc newPrefixes)
    (acc, newPrefixes) requests.

Fixpoint check_requests (requests : list (option ExtraPrefixRequest)) : option error :=
  match requests with
  | [] => None
  | request :: requests =>
      match epr_IsValid request with Some e => Some e | None => check_requests requests end
  end.

Definition ExtractPrefixes (prefixes : list string) (requests : list (option ExtraPrefixRequest)) :
    outcome (result (list string * list string)) :=
  match check_requests requests with
  | Some e => Ret (Err e)
  | None =>
      let requests := omap id requests in
      '(acc, newPrefixes) ⇐ extract_all_required requests [] prefixes;
      match extract_all_optional requests acc newPrefixes with
      | Panic w => Panic w
      | Ret (acc, newPrefixes) =>
          match acc with
          | [] => Ret (Err (Errorf "Failed to extract prefixes, there is no available %v"))
          | _ => Ret (Ok (acc, newPrefixes))
          end
      end
  end.

(** ** Release *)

(** The iteration orders of the map loops of [ReleasePrefixes]: the levels of
    round [r], and the values of the table of level [k] in round [r]. *)
Record merge_order := mkMergeOrder {
  level_order : nat → gmap Z (list IPNet) → list Z;
  value_order : nat → Z → gmap string IPNet → list IPNet
}.

Definition merge_order_ok (o : merge_order) : Prop :=
  (∀ r m, level_order o r m ≡ₚ (map_to_list m).*1) ∧
  (∀ r k m, value_order o r k m ≡ₚ (map_to_list m).*2).

Definition default_order : merge_order :=
  mkMergeOrder (λ _ m, (map_to_list m).*1) (λ _ _ m, (map_to_list m).*2).

(** One network of a level: kept in [base] under its text with the last
    prefix bit cleared, or joined with the one that is already there. *)
Definition merge_step (basePrefix : Z) (st : gmap string IPNet * list IPNet * nat)
    (netValue : IPNet) : outcome (gmap string IPNet * list IPNet * nat) :=
  let '(base, parentPrefix, changes) := st in
  ip ← clearNetIndexInIP (net_IP netValue) basePrefix;
  let baseIp := mkIPNet ip (net_Mask netValue) in
  let '(parentLen, addrLen) := mask_Size (net_Mask baseIp) in
  match base !! net_String baseIp with
  | None => Ret (<[net_String baseIp := netValue]> base, parentPrefix, changes)
  | Some _ =>
      Ret (delete (net_String baseIp) base,
           parentPrefix ++ [mkIPNet (net_IP baseIp) (CIDRMask (parentLen - 1) addrLen)],
           S changes)
  end.

Definition merge_level (o : merge_order) (round : nat) (prefixByPrefixLen : gmap Z (list IPNet))
    (st : gmap Z (list IPNet) * nat) (basePrefix : Z) : outcome (gmap Z (list IPNet) * nat) :=
  let '(newPrefixByPrefixLen, changes) := st in
  let value := default [] (prefixByPrefixLen !! basePrefix) in
  let cvalue := default [] (newPrefixByPrefixLen !! basePrefix) ++ value in
  if (length cvalue <? 2)%nat then Ret (<[basePrefix := cvalue]> newPrefixByPrefixLen, changes)
  else
    '(base, parentPrefix, changes) ← foldM (merge_step basePrefix) (∅, [], changes) cvalue;
    let leftPrefixes := value_order o round basePrefix base in
    let new := <[basePrefix := leftPrefixes]> newPrefixByPrefixLen in
    Ret (<[basePrefix - 1 := default [] (new !! (basePrefix - 1)) ++ parentPrefix]> new, changes).

Definition merge_round (o : merge_order) (round : nat) (prefixByPrefixLen : gmap Z (list IPNet)) :
    outcome (gmap Z (list IPNet) * nat) :=
  foldM (merge_level o round prefixByPrefixLen) (∅, O) (level_order o round prefixByPrefixLen).

(** Rounds until one changes nothing.  Each change joins two networks into
    one, so as many rounds as networks are enough ([merge_rounds_total]). *)
Fixpoint merge_rounds (fuel : nat) (o : merge_order) (round : nat)
    (prefixByPrefixLen : gmap Z (list IPNet)) : outcome (list string) :=
  match fuel with
  | O => Panic "out of fuel"
  | S fuel =>
      '(newPrefixByPrefixLen, changes) ← merge_round o round prefixByPrefixLen;
      if (changes =? 0)%nat then
        Ret (net_String <$>
               mjoin ((λ k, default [] (newPrefixByPrefixLen !! k)) <$>
                        level_order o (S round) newPrefixByPrefixLen))
      else merge_rounds fuel o (S round) newPrefixByPrefixLen
  end.

Fixpoint group_by_len (prefixes : list string) (m : gmap Z (list IPNet)) :
    option (gmap Z (list IPNet)) :=
  match prefixes with
  | [] => Some m
  | prefix :: prefixes =>
      '(_, ipnet) ← ParseCIDR prefix;
      let '(parentLen, _) := mask_Size (net_Mask ipnet) in
      group_by_len prefixes (<[parentLen := default [] (m !! parentLen) ++ [ipnet]]> m)
  end.

Definition ReleasePrefixes (o : merge_order) (prefixes released : list string) :
    outcome (result (list string)) :=
  match released with
  | [] => Ret (Ok prefixes)
  | _ =>
      let result := removeDuplicates (prefixes ++ released) in
      match group_by_len result ∅ with
      | None => Ret (Err (Errorf "invalid CIDR address"))
      | Some prefixByPrefixLen =>
          remaining ← merge_rounds (S (length result)) o 0 prefixByPrefixLen;
          Ret (Ok remaining)
      end
  end.

(** ** The pool *)
Record connectionRecord := mkConnectionRecord {
  rec_ipNet : IPNet;
  rec_prefixes : list string
}.

Record prefixPool := mkPrefixPool {
  pool_basePrefixes : list string;
  pool_prefixes : list string;
  pool_connections : gmap string connectionRecord
}.

Definition NewPrefixPool (prefixes : list string) : prefixPool :=
  mkPrefixPool prefixes prefixes ∅.

Definition GetPrefixes (impl : prefixPool) : list string := pool_prefixes impl.

Definition endpoint_request (family : IpFamily_Family) : ExtraPrefixRequest :=
  mkExtraPrefixRequest (Some family)
    (if decide (family = IpFamily_IPV6) then 126 else 30) 1 1.

(** [Extract]: the new pool with the source and destination addresses and the
    extra prefixes; an error leaves the pool as it was. *)
Definition Extract (impl : prefixPool) (connectionId : string) (family : IpFamily_Family)
    (requests : list (option ExtraPrefixRequest)) :
    outcome (result (prefixPool * IPNet * IPNet * list string)) :=
  '(first, remaining) ⇐ ExtractPrefixes (pool_prefixes impl) [Some (endpoint_request family)];
  match first with
  | [] => Panic "index out of range"
  | prefix :: _ =>
      match ParseCIDR prefix with
      | None => Ret (Err (Errorf "invalid CIDR address"))
      | Some (ip, ipNet) =>
          match IncrementIP ip ipNet with
          | Err e => Ret (Err e)
          | Ok src =>
              match IncrementIP src ipNet with
              | Err e => Ret (Err e)
              | Ok dst =>
                  '(requested, remaining) ⇐
                    (match requests with
                     | [] => Ret (Ok ([], remaining))
                     | _ => ExtractPrefixes remaining requests
                     end);
                  Ret (Ok (mkPrefixPool (pool_basePrefixes impl) remaining
                             (<[connectionId := mkConnectionRecord ipNet requested]>
                                (pool_connections impl)),
                           mkIPNet src (net_Mask ipNet), mkIPNet dst (net_Mask ipNet),
                           requested))
              end
          end
      end
  end.

(** [Release]: the record goes before the prefixes are merged back, so an
    error of [ReleasePrefixes] drops them. *)
Definition Release (o : merge_order) (impl : prefixPool) (connectionId : string) :
    outcome (prefixPool * option error) :=
  match pool_connections impl !! connectionId with
  | None => Ret (impl, Some (Errorf "Failed to release connection infomration: %s"))
  | Some conn =>
      let impl := mkPrefixPool (pool_basePrefixes impl) (pool_prefixes impl)
                    (delete connectionId (pool_connections impl)) in
      match ReleasePrefixes o (pool_prefixes impl) (rec_prefixes conn) with
      | Panic w => Panic w
      | Ret (Err e) => Ret (impl, Some e)
      | Ret (Ok remaining) =>
          match ReleasePrefixes o remaining [net_String (rec_ipNet conn)] with
          | Panic w => Panic w
          | Ret (Err e) => Ret (impl, Some e)
          | Ret (Ok remaining) =>
              Ret (mkPrefixPool (pool_basePrefixes impl) remaining (pool_connections impl), None)
          end
      end
  end.

Definition GetConnectionInformation (impl : prefixPool) (connectionId : string) :
    result (string * list string) :=
  match pool_connections impl !! connectionId with
  | None => Err (Errorf "No connection with id: %s is found")
  | Some conn => Ok (net_String (rec_ipNet conn), rec_prefixes conn)
  end.
