(* ===== verification/PrefixPoolLemmas.v ===== *)
(** * The prefix pool on address blocks: lemmas

    Each function of prefixpool.go applied to the texts of valid blocks of one
    address family, stated on the blocks. *)
From S2P Require Import Prelude GoStrings GoNet ConnectionContext Cidr PrefixPool.
Local Open Scope go_scope.

(** ** Bit arithmetic *)
(** Setting the lowest free bit of a block value adds the half block. *)
Lemma lor_half a n :
  0 ≤ n → (2 ^ (n + 1) | a) → Z.lor a (2 ^ n) = a + 2 ^ n.
Proof.
  intros Hn [q ->]. symmetry. apply Z.add_nocarry_lor. apply Z.bits_inj'. intros m Hm.
  rewrite Z.land_spec, Z.bits_0, Z.mul_pow2_bits by lia.
  rewrite Z.pow2_bits_eqb by lia. destruct (Z.eqb_spec n m) as [->|]; [|by rewrite andb_false_r].
  by rewrite Z.testbit_neg_r by lia.
Qed.

(** Clearing the last prefix bit of a block value gives its base. *)
Lemma clearbit_base a n :
  0 ≤ n → (2 ^ n | a) → Z.clearbit a n = a - a `mod` 2 ^ (n + 1).
Proof.
  intros Hn [q ->].
  assert (0 < 2 ^ n) by (apply Z.pow_pos_nonneg; lia).
  rewrite Z.pow_add_r, Z.pow_1_r by lia.
  rewrite (Z.mul_comm (2 ^ n) 2), Z.mul_mod_distr_r by lia.
  pose proof (Z.div_mod q 2 ltac:(lia)) as Hq.
  replace (q * 2 ^ n - q `mod` 2 * 2 ^ n) with (q `div` 2 * 2 ^ (n + 1)).
  2: { rewrite Z.pow_add_r, Z.pow_1_r by lia. nia. }
  apply Z.bits_inj'. intros m Hm.
  rewrite Z.clearbit_eqb, !Z.mul_pow2_bits by lia.
  destruct (Z.eqb_spec n m) as [->|Hne]; simpl.
  - rewrite andb_false_r. by rewrite Z.testbit_neg_r by lia.
  - rewrite andb_true_r. destruct (decide (m < n)); [by rewrite !Z.testbit_neg_r by lia|].
    rewrite <-Z.shiftr_div_pow2 with (n := 1) by lia. rewrite Z.shiftr_spec by lia. f_equal; lia.
Qed.

Lemma fromIP_net_of c : valid c → fromIP (net_IP (net_of c)) = (c_val c, c_bits c).
Proof.
  intros Hc. unfold fromIP. rewrite be_val_net_of by done. f_equal.
  simpl. rewrite length_be_bytes. destruct Hc as ([-> | ->] & _); done.
Qed.

Lemma be_bytes_net_of bits v len :
  be_bytes (Z.to_nat (bits `div` 8)) v = net_IP (net_of (mkCidr bits v len)).
Proof. done. Qed.

Lemma subnet_net_of c i :
  valid c → c_len c < c_bits c → i = 0 ∨ i = 1 →
  subnet (net_of c) i = Ret (Ok (net_of (if decide (i = 0) then child0 c else child1 c))).
Proof.
  intros Hc Hlt Hi. unfold subnet. rewrite net_of_Size by done.
  assert ((c_bits c <? c_len c + 1) = false) as -> by lia.
  assert ((2 <? i `mod` 2 ^ 64) = false) as -> by (destruct Hi as [-> | ->]; done).
  unfold setNetIndexInIP. rewrite fromIP_net_of by done.
  assert ((c_bits c <? c_len c + 1) = false) as -> by lia.
  pose proof (valid_end _ (child1_valid _ Hc Hlt)) as Hend.
  pose proof (valid_blk_pos _ (child1_valid _ Hc Hlt)) as Hpos.
  destruct Hc as (Hb & Hl & Hv & Hq). unfold toIP.
  destruct Hi as [-> | ->].
  - rewrite Z.shiftl_0_l, Z.lor_0_r.
    assert ((c_val c <? 2 ^ c_bits c) = true) as -> by lia. done.
  - rewrite Z.shiftl_1_l, lor_half by (try lia;
      replace (c_bits c - (c_len c + 1) + 1) with (c_bits c - c_len c) by lia; done).
    simpl in Hend, Hpos. unfold blk in Hend, Hpos; simpl in Hend, Hpos.
    assert ((c_val c + 2 ^ (c_bits c - (c_len c + 1)) <? 2 ^ c_bits c) = true) as -> by lia.
    done.
Qed.

Lemma clearNetIndexInIP_net_of c :
  valid c →
  clearNetIndexInIP (net_IP (net_of c)) (c_len c)
  = Ret (be_bytes (Z.to_nat (c_bits c `div` 8)) (base_val c)).
Proof.
  intros Hc. unfold clearNetIndexInIP. rewrite fromIP_net_of by done.
  destruct Hc as (Hb & Hl & Hv & Hq).
  assert ((c_bits c <? c_len c) = false) as -> by lia.
  rewrite clearbit_base by (done || lia). unfold toIP, base_val.
  assert (0 < 2 ^ (c_bits c - c_len c + 1)) by (apply Z.pow_pos_nonneg; lia).
  pose proof (Z.mod_pos_bound (c_val c) (2 ^ (c_bits c - c_len c + 1)) ltac:(lia)).
  by assert ((c_val c - c_val c `mod` 2 ^ (c_bits c - c_len c + 1) <? 2 ^ c_bits c) = true)
    as -> by lia.
Qed.

(** ** The reversal loop *)
Lemma reverse_loop_spec fuel values i j newValues :
  (i + j + 1 = length values)%nat → (j < fuel)%nat → length newValues = length values →
  (∀ k, (k < i ∨ j < k < length values)%nat →
        newValues !! k = values !! (length values - 1 - k)%nat) →
  reverse_loop fuel values i j newValues = reverse values.
Proof.
  revert i j newValues; induction fuel as [|fuel IH]; intros i j nv Hij Hf Hlen Hnv; [lia|].
  assert (∀ k, (k < length values)%nat → reverse values !! k = values !! (length values - 1 - k)%nat)
    as Hrev by (intros k Hk; rewrite reverse_lookup by lia; f_equal; lia).
  assert (∀ l : list string, length l = length values →
    (∀ k, (k < length values)%nat → l !! k = values !! (length values - 1 - k)%nat) →
    l = reverse values) as Hfin.
  { intros l Hl Hk. apply list_eq. intros k. destruct (decide (k < length values)%nat).
    - by rewrite Hk, Hrev.
    - rewrite !lookup_ge_None_2; [done|rewrite length_reverse; lia|lia]. }
  cbn [reverse_loop]. destruct (Nat.leb_spec i j) as [Hle|Hgt].
  - set (nv' := if decide (i = j) then _ else _).
    assert (length nv' = length values) as Hlen'.
    { unfold nv'. case_decide; by rewrite ?length_insert. }
    assert (∀ k, (k ≤ i ∨ j ≤ k < length values)%nat →
              nv' !! k = values !! (length values - 1 - k)%nat) as Hnv'.
    { intros k Hk. unfold nv'.
      destruct (lookup_lt_is_Some_2 values i ltac:(lia)) as [vi Hvi].
      destruct (lookup_lt_is_Some_2 values j ltac:(lia)) as [vj Hvj].
      assert (values !! (length values - 1 - i)%nat = Some vj) as Hvi' by (rewrite <-Hvj; f_equal; lia).
      assert (values !! (length values - 1 - j)%nat = Some vi) as Hvj' by (rewrite <-Hvi; f_equal; lia).
      rewrite Hvi, Hvj. simpl. destruct (decide (k = i)) as [->|Hki].
      - rewrite Hvi'. case_decide; [|rewrite list_lookup_insert_ne by done];
          apply list_lookup_insert_eq; lia.
      - destruct (decide (k = j)) as [->|Hkj].
        + rewrite Hvj', decide_False by done. apply list_lookup_insert_eq. rewrite length_insert. lia.
        + case_decide; rewrite ?list_lookup_insert_ne by done; apply Hnv; lia. }
    destruct j as [|j'].
    + apply Hfin; [done|]. intros k Hk. apply Hnv'. lia.
    + apply IH; [lia|lia|done|]. intros k Hk. apply Hnv'. lia.
  - apply Hfin; [done|]. intros k Hk. apply Hnv. lia.
Qed.

Lemma go_reverse_eq values : go_reverse values = reverse values.
Proof.
  unfold go_reverse. destruct (length values) as [|n] eqn:E.
  - by apply nil_length_inv in E as ->.
  - apply reverse_loop_spec; [lia|lia|rewrite length_replicate; lia|lia].
Qed.

Section family.
(** The family of the blocks: 32 or 128 bits. *)
Context (w : Z).

(** ** The split loop *)
Lemma split_root_spec fuel L c acc :
  inet w c → c_len c ≤ L ≤ w → L - c_len c < Z.of_nat fuel →
  ∃ r rights, split_root fuel L (net_of c) acc = Ret (Ok (net_of r, acc ++ (text <$> rights)))
    ∧ inet w r ∧ Forall (inet w) rights ∧ c_len r = L ∧ r :: rights ≈ [c].
Proof.
  revert c acc; induction fuel as [|fuel IH]; intros c acc Hc HL Hf; [lia|].
  cbn [split_root]. rewrite net_of_Size by eauto with nsm. cbn iota beta.
  destruct (Z.eqb_spec (c_len c) L) as [HE|Hne].
  - exists c, []. rewrite fmap_nil, app_nil_r. split_and!; done.
  - pose proof Hc as (Hv & Hb & _).
    rewrite (subnet_net_of c 0), (subnet_net_of c 1) by (auto; lia). simpl bind_or.
    destruct (IH (child0 c) (acc ++ [net_String (net_of (child1 c))]))
      as (r & rights & -> & Hr & Hrs & Hlen & Hcov); [apply child0_inet; auto; lia|simpl; lia|simpl; lia|].
    exists r, (child1 c :: rights). rewrite <-app_assoc. split_and!; try done.
    + constructor; [apply child1_inet; auto; lia|done].
    + rewrite <-(split_cover c Hv) by lia.
      rewrite (Permutation_swap (child1 c) r rights), Hcov.
      by rewrite (Permutation_swap (child0 c) (child1 c)).
Qed.

(** No block has a prefix longer than its address. *)
Lemma split_root_too_long fuel L c acc :
  inet w c → w < L → w + 1 - c_len c < Z.of_nat fuel →
  ∃ e, split_root fuel L (net_of c) acc = Ret (Err e).
Proof.
  revert c acc; induction fuel as [|fuel IH]; intros c acc Hc HL Hf.
  { destruct Hc as ((_ & ? & _) & ? & _). lia. }
  pose proof Hc as (Hv & Hb & _).
  assert (c_len c ≤ w) by (destruct Hv as (_ & ? & _); lia).
  cbn [split_root]. rewrite net_of_Size by done. cbn iota beta.
  assert ((c_len c =? L) = false) as -> by lia.
  destruct (decide (c_len c = w)) as [E|].
  - unfold subnet. rewrite net_of_Size by done. rewrite E, Hb. assert ((w <? w + 1) = true) as -> by lia. simpl. eauto.
  - rewrite (subnet_net_of c 0), (subnet_net_of c 1) by (auto; lia). simpl bind_or.
    apply IH; [apply child0_inet; auto; lia|done|simpl; lia].
Qed.

(** ** The scan *)
Lemma find_prefix_spec L pre cs max_prefix max_idx :
  Forall (inet w) cs → 0 < L →
  (∀ c, c ∈ pre → c_len c ≠ L) → 0 ≤ max_prefix →
  match max_idx with
  | None => max_prefix = 0 ∧ ∀ c, c ∈ pre → L < c_len c
  | Some i => ∃ c, pre !! i = Some c ∧ c_len c = max_prefix ∧ max_prefix < L ∧
                   ∀ c', c' ∈ pre → c_len c' < L → c_len c' ≤ max_prefix
  end →
  match find_prefix L (length pre) (text <$> cs) max_prefix max_idx with
  | inl i => ∃ c, (pre ++ cs) !! i = Some c ∧ c_len c = L
  | inr None => ∀ c, c ∈ pre ++ cs → L < c_len c
  | inr (Some i) => ∃ c, (pre ++ cs) !! i = Some c ∧ c_len c < L ∧
                    ∀ c', c' ∈ pre ++ cs → c_len c' ≠ L ∧ (c_len c' < L → c_len c' ≤ c_len c)
  end.
Proof.
  revert pre max_prefix max_idx; induction cs as [|d cs IH];
    intros pre mp mi Hcs HL Hpre Hmp Hmi; simpl.
  { rewrite app_nil_r. destruct mi as [i|]; [|naive_solver].
    destruct Hmi as (c & ? & ? & ? & ?). exists c. split_and!; [done|lia|].
    intros c' Hc'. split; [by apply Hpre|]. intros. subst. auto. }
  apply Forall_cons_1 in Hcs as [Hd Hcs]. rewrite text_parse by eauto with nsm.
  rewrite net_of_Size by eauto with nsm. cbn iota beta.
  assert (∀ i c, pre !! i = Some c → (pre ++ d :: cs) !! i = Some c) as Hlk.
  { intros i c Hi. rewrite lookup_app_l by (by eapply lookup_lt_Some). done. }
  destruct (Z.eqb_spec L (c_len d)) as [HE|HE].
  { exists d. split; [|done]. by rewrite list_lookup_middle. }
  assert (∀ c, c ∈ pre ++ [d] → c_len c ≠ L) as Hpre'.
  { intros c [Hc|Hc]%elem_of_app; [by apply Hpre|]. apply list_elem_of_singleton in Hc as ->. lia. }
  assert (0 ≤ c_len d) by (destruct Hd as ((_ & ? & _) & _); lia).
  specialize (IH (pre ++ [d])). rewrite length_app, Nat.add_1_r, <-app_assoc in IH. simpl in IH.
  assert ((pre ++ [d]) !! length pre = Some d) as Hld by by rewrite list_lookup_middle.
  destruct ((c_len d <? L) && ((mp <? c_len d) || (mp =? 0))) eqn:Hsel.
  - apply IH; [done|done|done|done|]. exists d. split_and!; [done|done|lia|].
    intros c' [Hc'|Hc']%elem_of_app Hlt; [|apply list_elem_of_singleton in Hc' as ->; lia].
    destruct mi as [i|]; [|naive_solver lia].
    destruct Hmi as (c & _ & _ & _ & Hmax). specialize (Hmax _ Hc' Hlt). lia.
  - apply IH; [done|done|done|done|]. destruct mi as [i|].
    + destruct Hmi as (c & Hi & Hc & Hlt & Hmax). exists c. split_and!; [|done|done|].
      { rewrite lookup_app_l by (by eapply lookup_lt_Some). done. }
      intros c' [Hc'|Hc']%elem_of_app Hlt'; [by apply Hmax|].
      apply list_elem_of_singleton in Hc' as ->. lia.
    + destruct Hmi as [-> Hall]. split; [done|].
      intros c [Hc|Hc]%elem_of_app; [by apply Hall|]. apply list_elem_of_singleton in Hc as ->. lia.
Qed.

(** ** [ExtractPrefix] on the texts of blocks

    [taken L cs c cs'] says that taking one prefix of [L] bits from the blocks
    [cs] gave [c] and left [cs']: nothing is lost and nothing is invented. *)
Definition taken (L : Z) (cs : list cidr) (c : cidr) (cs' : list cidr) : Prop :=
  inet w c ∧ Forall (inet w) cs' ∧ c_len c = L ∧ c :: cs' ≈ cs.

Lemma lookup_cut {A} (l : list A) i x :
  l !! i = Some x → l = take i l ++ x :: drop (S i) l.
Proof. intros. symmetry. by apply take_drop_middle. Qed.

Lemma ExtractPrefix_ok L cs :
  Forall (inet w) cs → 0 < L ≤ w → (∃ c, c ∈ cs ∧ c_len c ≤ L) →
  ∃ c cs', ExtractPrefix (text <$> cs) L = Ret (Ok (text c, text <$> cs')) ∧ taken L cs c cs'.
Proof.
  intros Hcs HL (c0 & Hc0 & Hle). unfold ExtractPrefix.
  pose proof (find_prefix_spec L [] cs 0 None Hcs ltac:(lia) ltac:(set_solver) ltac:(lia)
    ltac:(split; [done|set_solver])) as Hfind. cbn [length app] in Hfind.
  destruct (find_prefix L 0 (text <$> cs) 0 None) as [i|[i|]].
  - destruct Hfind as (c & Hi & Hlen). pose proof (lookup_cut _ _ _ Hi) as Hcut.
    exists c, (delete i cs). rewrite list_lookup_fmap, Hi, <-list_fmap_delete. split; [done|].
    rewrite delete_take_drop. rewrite Hcut in Hcs. apply Forall_app in Hcs as [H1 H2].
    apply Forall_cons_1 in H2 as [H2 H3]. split_and!; [done|by apply Forall_app|done|].
    rewrite Hcut at 3. by rewrite Permutation_middle.
  - destruct Hfind as (c & Hi & Hlt & _). pose proof (lookup_cut _ _ _ Hi) as Hcut.
    rewrite list_lookup_fmap, Hi. change (default "" (text <$> Some c)) with (text c). rewrite Hcut in Hcs. apply Forall_app in Hcs as [H1 H2].
    apply Forall_cons_1 in H2 as [H2 H3]. rewrite text_parse by eauto with nsm.
    pose proof (inet_bounds _ _ H2).
    destruct (split_root_spec split_fuel L c [] H2 ltac:(lia) ltac:(unfold split_fuel; lia))
      as (r & rights & -> & Hr & Hrs & Hlen & Hcov).
    exists r, (take i cs ++ reverse rights ++ drop (S i) cs). simpl.
    rewrite go_reverse_eq, !fmap_app, fmap_reverse, fmap_take, fmap_drop. split; [done|].
    split_and!; [done|by rewrite !Forall_app, Forall_reverse|done|].
    rewrite Hcut at 3. rewrite reverse_Permutation, Permutation_middle.
    change (r :: rights ++ ?l) with ((r :: rights) ++ l). by rewrite Hcov.
  - specialize (Hfind c0 Hc0). lia.
Qed.

Lemma ExtractPrefix_err L cs :
  Forall (inet w) cs → 0 < L → w < L ∨ (∀ c, c ∈ cs → L < c_len c) →
  ∃ e, ExtractPrefix (text <$> cs) L = Ret (Err e).
Proof.
  intros Hcs HL Hno. unfold ExtractPrefix.
  pose proof (find_prefix_spec L [] cs 0 None Hcs ltac:(lia) ltac:(set_solver) ltac:(lia)
    ltac:(split; [done|set_solver])) as Hfind. cbn [length app] in Hfind.
  destruct (find_prefix L 0 (text <$> cs) 0 None) as [i|[i|]].
  - destruct Hfind as (c & Hi & Hlen). pose proof (list_elem_of_lookup_2 _ _ _ Hi) as Hin.
    destruct Hno as [Hno|Hno]; [|specialize (Hno c Hin); lia].
    rewrite Forall_forall in Hcs. destruct (Hcs c Hin) as ((_ & ? & _) & ? & _). lia.
  - destruct Hfind as (c & Hi & Hlt & _). pose proof (list_elem_of_lookup_2 _ _ _ Hi) as Hin.
    destruct Hno as [Hno|Hno]; [|specialize (Hno c Hin); lia].
    rewrite list_lookup_fmap, Hi. change (default "" (text <$> Some c)) with (text c). rewrite Forall_forall in Hcs.
    rewrite text_parse by eauto with nsm.
    pose proof (inet_bounds _ _ (Hcs c Hin)).
    destruct (split_root_too_long split_fuel L c [] (Hcs c Hin) Hno ltac:(unfold split_fuel; lia))
      as [e ->]. by exists e.
  - eauto.
Qed.

Lemma ExtractPrefix_cases L cs :
  Forall (inet w) cs → 0 < L →
  (∃ c cs', ExtractPrefix (text <$> cs) L = Ret (Ok (text c, text <$> cs')) ∧ taken L cs c cs') ∨
  ((w < L ∨ ∀ c, c ∈ cs → L < c_len c) ∧ ∃ e, ExtractPrefix (text <$> cs) L = Ret (Err e)).
Proof.
  intros Hcs HL. destruct (decide (w < L)) as [?|?].
  { right. split; [by left|]. apply ExtractPrefix_err; auto. }
  destruct (decide (Exists (λ c, c_len c ≤ L) cs)) as [He|He].
  - left. apply ExtractPrefix_ok; [done|lia|]. by apply Exists_exists in He.
  - right. assert (∀ c, c ∈ cs → L < c_len c) as Hno.
    { intros c Hc. apply not_Exists_Forall in He; [|apply _].
      rewrite Forall_forall in He. specialize (He c Hc). simpl in He. lia. }
    split; [by right|]. apply ExtractPrefix_err; auto.
Qed.

(** ** Several prefixes: [taken_all Ls cs ds cs'] chains [taken] over lengths. *)
Definition taken_all (Ls : list Z) (cs ds cs' : list cidr) : Prop :=
  Forall (inet w) ds ∧ Forall (inet w) cs' ∧ c_len <$> ds = Ls ∧ ds ++ cs' ≈ cs.

Lemma taken_all_nil cs : Forall (inet w) cs → taken_all [] cs [] cs.
Proof. intros. repeat split; [constructor|done]. Qed.

Lemma taken_all_snoc Ls cs ds cs1 L c cs2 :
  taken_all Ls cs ds cs1 → taken L cs1 c cs2 → taken_all (Ls ++ [L]) cs (ds ++ [c]) cs2.
Proof.
  intros (Hd & H1 & HL & Hcov) (Hc & H2 & HLc & Hcov2). split_and!; try done.
  - rewrite Forall_app, list.Forall_singleton. done.
  - rewrite fmap_app, HL. simpl. by rewrite HLc.
  - rewrite <-app_assoc. simpl. by rewrite Hcov2.
Qed.

Lemma extract_required_cases n L Ls cs ds cs1 :
  taken_all Ls cs ds cs1 → 0 < L →
  (∃ ds' cs2, extract_required n L (text <$> ds) (text <$> cs1)
                = Ret (Ok (text <$> ds', text <$> cs2)) ∧
              taken_all (Ls ++ replicate n L) cs ds' cs2) ∨
  (∃ e, extract_required n L (text <$> ds) (text <$> cs1) = Ret (Err e)).
Proof.
  revert Ls ds cs1; induction n as [|n IH]; intros Ls ds cs1 Ht HL; simpl.
  { left. rewrite app_nil_r. eauto. }
  destruct (ExtractPrefix_cases L cs1) as [(c & cs2 & -> & Hc)|[_ [e ->]]];
    [by destruct Ht as (_ & ? & _)|done| |by right; exists e].
  simpl. specialize (IH _ _ _ (taken_all_snoc _ _ _ _ _ _ _ Ht Hc) HL).
  rewrite fmap_app, <-app_assoc in IH. exact IH.
Qed.

Lemma extract_optional_total n L Ls cs ds cs1 :
  taken_all Ls cs ds cs1 → 0 < L →
  ∃ m ds' cs2, (m ≤ n)%nat ∧
    extract_optional n L (text <$> ds) (text <$> cs1) = Ret (text <$> ds', text <$> cs2) ∧
    taken_all (Ls ++ replicate m L) cs ds' cs2.
Proof.
  revert Ls ds cs1; induction n as [|n IH]; intros Ls ds cs1 Ht HL; simpl.
  { exists 0%nat, ds, cs1. rewrite app_nil_r. auto. }
  destruct (ExtractPrefix_cases L cs1) as [(c & cs2 & -> & Hc)|[_ [e ->]]];
    [by destruct Ht as (_ & ? & _)|done| |].
  - destruct (IH _ _ _ (taken_all_snoc _ _ _ _ _ _ _ Ht Hc) HL) as (m & ds' & cs3 & Hm & E & Ht').
    rewrite fmap_app in E. exists (S m), ds', cs3. rewrite <-app_assoc in Ht'. auto with lia.
  - exists 0%nat, ds, cs1. rewrite app_nil_r. auto with lia.
Qed.

(** ** [ExtractPrefixes] *)
Definition request_ok (r : ExtraPrefixRequest) : Prop :=
  1 ≤ epr_RequiredNumber r ≤ epr_RequestedNumber r ∧ 1 ≤ epr_PrefixLen r.

Lemma epr_IsValid_None r : epr_IsValid r = None → ∃ r', r = Some r' ∧ request_ok r'.
Proof.
  destruct r as [r|]; [|done]. intros H. exists r. split; [done|].
  unfold epr_IsValid in H. unfold request_ok.
  repeat case_match; try done; lia.
Qed.

Lemma check_requests_None requests :
  check_requests requests = None → ∃ rs, requests = Some <$> rs ∧ Forall request_ok rs.
Proof.
  induction requests as [|r requests IH]; simpl; intros H; [by exists []|].
  destruct (epr_IsValid r) eqn:E; [done|].
  apply epr_IsValid_None in E as (r' & -> & Hr'). destruct (IH H) as (rs & -> & Hrs).
  exists (r' :: rs). auto.
Qed.

Lemma omap_id_Some {A} (l : list A) : omap id (Some <$> l) = l.
Proof. induction l as [|a l IH]; [done|]. cbn. by f_equal. Qed.

(** The prefix lengths asked for, [n r] times for request [r]. *)
Definition lengths_of (n : ExtraPrefixRequest → nat) (rs : list ExtraPrefixRequest) : list Z :=
  mjoin ((λ r, replicate (n r) (epr_PrefixLen r)) <$> rs).

Definition required_count (r : ExtraPrefixRequest) : nat := Z.to_nat (epr_RequiredNumber r).
Definition requested_count (r : ExtraPrefixRequest) : nat := Z.to_nat (epr_RequestedNumber r).

Lemma extract_all_required_cases rs Ls cs ds cs1 :
  Forall request_ok rs → taken_all Ls cs ds cs1 →
  (∃ ds' cs2, extract_all_required rs (text <$> ds) (text <$> cs1)
                = Ret (Ok (text <$> ds', text <$> cs2)) ∧
              taken_all (Ls ++ lengths_of required_count rs) cs ds' cs2) ∨
  (∃ e, extract_all_required rs (text <$> ds) (text <$> cs1) = Ret (Err e)).
Proof.
  revert Ls ds cs1; induction rs as [|r rs IH]; intros Ls ds cs1 Hrs Ht; simpl.
  { left. exists ds, cs1. by rewrite app_nil_r. }
  apply Forall_cons_1 in Hrs as [[_ HL] Hrs].
  destruct (extract_required_cases (required_count r) (epr_PrefixLen r) Ls cs ds cs1)
    as [(ds1 & cs2 & E & Ht1)|[e E]]; [done|lia| |].
  - unfold required_count in E. rewrite E. simpl.
    destruct (IH _ _ _ Hrs Ht1) as [(ds2 & cs3 & E2 & Ht2)|]; [left|by right].
    exists ds2, cs3. rewrite <-app_assoc in Ht2. done.
  - unfold required_count in E. rewrite E. right. by exists e.
Qed.

(** The prefixes beyond the required ones: [ms] of them for each request. *)
Lemma extract_all_optional_total rs Ls cs ds cs1 :
  Forall request_ok rs → taken_all Ls cs ds cs1 →
  ∃ ms ds' cs2,
    extract_all_optional rs (text <$> ds) (text <$> cs1) = Ret (text <$> ds', text <$> cs2) ∧
    Forall2 (λ m r, (m ≤ requested_count r - required_count r)%nat) ms rs ∧
    taken_all (Ls ++ mjoin (zip_with (λ m r, replicate m (epr_PrefixLen r)) ms rs)) cs ds' cs2.
Proof.
  unfold extract_all_optional. revert Ls ds cs1.
  induction rs as [|r rs IH]; intros Ls ds cs1 Hrs Ht; simpl.
  { exists [], ds, cs1. rewrite app_nil_r. auto. }
  apply Forall_cons_1 in Hrs as [[_ HL] Hrs].
  destruct (extract_optional_total (requested_count r - required_count r) (epr_PrefixLen r)
              Ls cs ds cs1) as (m & ds1 & cs2 & Hm & E & Ht1); [done|lia|].
  unfold requested_count, required_count in E. rewrite E. simpl.
  destruct (IH _ _ _ Hrs Ht1) as (ms & ds2 & cs3 & E2 & Hms & Ht2).
  exists (m :: ms), ds2, cs3. rewrite <-app_assoc in Ht2. auto.
Qed.

(** What a successful extraction of valid requests gives: the required
    prefixes of each request in order, then at most as many more as it asks
    for; blocks and remainder cover what the free list covered. *)
Definition extracted (rs : list ExtraPrefixRequest) (cs ds cs' : list cidr) : Prop :=
  ∃ ms, Forall2 (λ m r, (m ≤ requested_count r - required_count r)%nat) ms rs ∧
    taken_all (lengths_of required_count rs
               ++ mjoin (zip_with (λ m r, replicate m (epr_PrefixLen r)) ms rs)) cs ds cs'.

Lemma ExtractPrefixes_cases cs requests :
  Forall (inet w) cs →
  (∃ e, ExtractPrefixes (text <$> cs) requests = Ret (Err e)) ∨
  (∃ rs ds cs', requests = Some <$> rs ∧ Forall request_ok rs ∧
     ExtractPrefixes (text <$> cs) requests = Ret (Ok (text <$> ds, text <$> cs')) ∧
     ds ≠ [] ∧ extracted rs cs ds cs').
Proof.
  intros Hcs. unfold ExtractPrefixes. destruct (check_requests requests) as [e|] eqn:Hchk; [eauto|].
  apply check_requests_None in Hchk as (rs & -> & Hrs). rewrite omap_id_Some.
  destruct (extract_all_required_cases rs [] cs [] cs Hrs (taken_all_nil cs Hcs))
    as [(ds1 & cs1 & E & Ht)|[e E]]; cbn [fmap list_fmap] in E; rewrite E; simpl; [|by eauto].
  destruct (extract_all_optional_total rs _ cs ds1 cs1 Hrs Ht) as (ms & ds2 & cs2 & -> & Hms & Ht2).
  destruct ds2 as [|d ds2]; simpl; [by eauto|]. right.
  exists rs, (d :: ds2), cs2. split_and!; try done. by exists ms.
Qed.

Lemma taken_all_inet Ls cs ds cs' : taken_all Ls cs ds cs' → Forall (inet w) ds ∧ Forall (inet w) cs'.
Proof. by intros (? & ? & _). Qed.

Lemma extracted_spec rs cs ds cs' :
  extracted rs cs ds cs' → Forall (inet w) ds ∧ Forall (inet w) cs' ∧ ds ++ cs' ≈ cs.
Proof. by intros (ms & _ & ? & ? & _ & ?). Qed.
End family.
