(* ===== verification/PrefixPoolMerge.v ===== *)
(** * Releasing prefixes: the merge loop of [ReleasePrefixes]

    The loop joins sibling blocks level by level until nothing changes.  For
    every order in which Go may visit its maps it ends, keeps the covered
    addresses, and leaves a fully merged list, which is unique up to order. *)
From S2P Require Import Prelude GoStrings GoNet ConnectionContext Cidr PrefixPool PrefixPoolLemmas.
From stdpp Require Import options.

(** ** Fully merged lists

    The block with the last prefix bit cleared: siblings share it. *)
Definition base_blk (c : cidr) : cidr := mkCidr (c_bits c) (base_val c) (c_len c).

Definition merged (l : list cidr) : Prop := NoDup (base_blk <$> l).

#[global] Instance merged_Permutation : Proper ((≡ₚ) ==> iff) merged.
Proof. intros l1 l2 H. unfold merged. by rewrite H. Qed.

Definition sibling (c : cidr) : cidr :=
  mkCidr (c_bits c) (2 * base_val c + blk c - c_val c) (c_len c).

Lemma blk_parent c : 0 < c_len c ≤ c_bits c → blk (parent c) = 2 * blk c.
Proof.
  intros. unfold blk, parent; simpl. rewrite <-Z.pow_succ_r by lia. f_equal. lia.
Qed.

Lemma parent_contains c x :
  valid c → 0 < c_len c → in_cidr x c = true → in_cidr x (parent c) = true.
Proof.
  intros Hc Hl Hx. apply in_cidr_spec in Hx as [Hb Hx]. apply in_cidr_spec.
  pose proof (base_val_cases c Hc) as Hcase. destruct Hc as (? & ? & _).
  rewrite blk_parent by lia. simpl. pose proof (blk_pos c ltac:(lia)). lia.
Qed.

Lemma sibling_start c :
  valid c → 0 < c_len c → in_cidr (c_bits c, c_val (sibling c)) (parent c) = true.
Proof.
  intros Hc Hl. apply in_cidr_spec. pose proof (base_val_cases c Hc) as Hcase.
  destruct Hc as (? & ? & _). rewrite blk_parent by lia. simpl.
  pose proof (blk_pos c ltac:(lia)). lia.
Qed.

Lemma start_in c : valid c → in_cidr (c_bits c, c_val c) c = true.
Proof.
  intros (? & ? & _). apply in_cidr_spec. pose proof (blk_pos c ltac:(lia)). simpl. lia.
Qed.

Lemma base_val_sibling_block c e :
  valid c → valid e → 0 < c_len c → c_len e = c_len c →
  in_cidr (c_bits c, c_val (sibling c)) e = true → base_blk e = base_blk c ∧ e ≠ c.
Proof.
  intros Hc He Hl Hlen Hx.
  pose proof (base_val_cases c Hc) as Hcase. pose proof (blk_pos c ltac:(destruct Hc; lia)) as Hpos.
  assert (in_cidr (c_bits c, c_val (sibling c)) (parent e) = true) as Hxe
    by (apply parent_contains; [done|lia|done]).
  pose proof (sibling_start c Hc Hl) as Hxc.
  assert (parent e = parent c) as Hp.
  { eapply nested_eq; [| |simpl; lia|exact Hxe|exact Hxc]; apply parent_valid; auto; lia. }
  injection Hp as Hb1 Hb2 _. split; [unfold base_blk; congruence|]. intros ->.
  apply in_cidr_spec in Hx as [_ Hx]. simpl in Hx. lia.
Qed.

(** A merged list covers a block either by a block that contains it, or not
    at all: it cannot tile the block with smaller ones. *)
Lemma merged_no_tiling l d c :
  Forall valid l → disjoint_blocks l → merged l → valid d →
  (∀ x, in_cidr x d = true → (1 ≤ cov l x)%nat) →
  c ∈ l → c_len d < c_len c → (∃ x, in_cidr x c = true ∧ in_cidr x d = true) → False.
Proof.
  intros Hv Hdis Hm Hd Hcov. rewrite Forall_forall in Hv.
  assert (∀ n c, 128 - c_len c ≤ Z.of_nat n → c ∈ l → c_len d < c_len c →
    (∃ x, in_cidr x c = true ∧ in_cidr x d = true) → False) as Hgo.
  2:{ intros Hc. apply (Hgo (Z.to_nat (128 - c_len c)) c); [|done]. pose proof (Hv c Hc) as [? [? _]]. lia. }
  clear c. induction n as [n IH] using lt_wf_ind. intros c Hn Hc Hlt (x & Hxc & Hxd).
  pose proof (Hv c Hc) as Hvc. assert (0 < c_len c) as Hl by (destruct Hd as (_ & ? & _); lia).
  pose proof (parent_valid c Hvc Hl) as Hvp.
  pose proof (sibling_start c Hvc Hl) as Hsp.
  assert (in_cidr (c_bits c, c_val (sibling c)) d = true) as Hsd.
  { apply (nested_sub d (parent c) x); auto using parent_contains. simpl; lia. }
  destruct (cov_pos _ _ (Hcov _ Hsd)) as (e & He & Hse). pose proof (Hv e He) as Hve.
  destruct (Z.lt_total (c_len e) (c_len c)) as [Hlen|[Hlen|Hlen]].
  - assert (in_cidr x e = true) as Hxe.
    { apply (nested_sub e (parent c) (c_bits c, c_val (sibling c))); auto using parent_contains.
      simpl; lia. }
    rewrite (disjoint_same l c e x) in Hlen by done. lia.
  - destruct (base_val_sibling_block c e) as [Hbase Hne]; try done.
    apply list_elem_of_lookup in Hc as [i Hi], He as [j Hj].
    assert (i = j) as ->.
    { apply (NoDup_lookup (base_blk <$> l) i j (base_blk c)); [done| |];
        rewrite list_lookup_fmap, ?Hi, ?Hj; simpl; congruence. }
    congruence.
  - destruct (Hve) as (? & ? & _).
    apply (IH (Z.to_nat (128 - c_len e)) ltac:(lia) e); [lia|done|lia|eauto].
Qed.

Lemma merged_subset l1 l2 c :
  Forall valid l1 → Forall valid l2 → disjoint_blocks l1 → merged l1 → merged l2 →
  l1 ≈ l2 → c ∈ l1 → c ∈ l2.
Proof.
  intros Hv1 Hv2 Hd1 Hm1 Hm2 Heq Hc.
  assert (disjoint_blocks l2) as Hd2 by (intros x; rewrite <-Heq; apply Hd1).
  pose proof (proj1 (Forall_forall _ _) Hv1) as Hv1'. pose proof (proj1 (Forall_forall _ _) Hv2) as Hv2'.
  pose proof (start_in c (Hv1' c Hc)) as Hx. set (x := (c_bits c, c_val c)) in *.
  pose proof (cov_elem c l1 x Hc Hx) as Hcov. rewrite Heq in Hcov.
  destruct (cov_pos _ _ Hcov) as (d & Hd & Hxd).
  destruct (Z.lt_total (c_len c) (c_len d)) as [Hlen|[Hlen|Hlen]].
  - exfalso. apply (merged_no_tiling l2 c d); try done; [by auto| |eauto].
    intros y Hy. rewrite <-Heq. by apply (cov_elem c).
  - rewrite (nested_eq c d x); auto.
  - exfalso. apply (merged_no_tiling l1 d c); try done; [by auto| |eauto].
    intros y Hy. rewrite Heq. by apply (cov_elem d).
Qed.

(** Fully merged disjoint lists are determined by what they cover. *)
Lemma merged_unique l1 l2 :
  Forall valid l1 → Forall valid l2 → disjoint_blocks l1 → merged l1 → merged l2 →
  l1 ≈ l2 → l1 ≡ₚ l2.
Proof.
  intros Hv1 Hv2 Hd1 Hm1 Hm2 Heq.
  assert (disjoint_blocks l2) as Hd2 by (intros x; rewrite <-Heq; apply Hd1).
  apply NoDup_Permutation; [by apply disjoint_NoDup..|].
  intros c. split; apply merged_subset; done.
Qed.

Section family.
(** The family of the blocks: 32 or 128 bits. *)
Context (w : Z).

(** ** One level: [merge_step] over the networks of one prefix length *)
Definition at_level (k : Z) (c : cidr) : Prop := inet w c ∧ c_len c = k.

Lemma base_blk_valid c : valid c → valid (base_blk c).
Proof.
  intros Hc. pose proof (base_val_cases c Hc) as Hcase.
  destruct Hc as (H1 & H2 & H3 & [q Hq]). pose proof (blk_pos c ltac:(lia)) as Hpos.
  assert (0 ≤ base_val c).
  { unfold base_val. pose proof (Z.mod_le (c_val c) (2 ^ (c_bits c - c_len c + 1))
      ltac:(lia) ltac:(apply Z.pow_pos_nonneg; lia)). lia. }
  split; [done|]. split; [done|]. split; [simpl; lia|].
  change (blk (base_blk c)) with (blk c). simpl.
  destruct Hcase as [E|E]; [by exists q; lia|exists (q - 1); lia].
Qed.

(** A multiple of a power of two inside the mapped range leaves room for that
    power below the end of the range. *)
Lemma mapped_room n q :
  0 ≤ n → mapped_lo ≤ q * 2 ^ (n + 1) < mapped_hi → q * 2 ^ (n + 1) + 2 ^ n < mapped_hi.
Proof.
  intros Hn. unfold mapped_lo, mapped_hi. destruct (decide (n ≤ 31)) as [Hle|Hgt].
  - replace (2 ^ 32) with (2 ^ (31 - n) * 2 ^ (n + 1))
      by (rewrite <-Z.pow_add_r by lia; f_equal; lia).
    rewrite (Z.pow_add_r 2 n 1), Z.pow_1_r by lia.
    assert (0 < 2 ^ n) by (apply Z.pow_pos_nonneg; lia).
    set (P := 2 ^ n) in *. set (K := 2 ^ (31 - n)). intros [_ Hlt].
    assert (q < 65536 * K) by nia. nia.
  - replace (2 ^ (n + 1)) with (2 ^ (n - 32) * 2 ^ 33)
      by (rewrite <-Z.pow_add_r by lia; f_equal; lia).
    set (m := 2 ^ (n - 32)). rewrite Z.mul_assoc. set (k := q * m). lia.
Qed.

(** Clearing the last prefix bit never leads into the mapped addresses. *)
Lemma base_blk_readable c : inet w c → readable (base_blk c).
Proof.
  intros (Hc & _ & Hm). split; [by apply base_blk_valid|]. simpl. intros E Hin.
  specialize (Hm E). pose proof (valid_blk_pos _ Hc) as Hpos.
  destruct (base_val_cases c Hc) as [E1|E1]; [lia|].
  assert (c_len c ≤ c_bits c) by (destruct Hc as (_ & ? & _); lia).
  set (n := c_bits c - c_len c). assert (blk c = 2 ^ n) as Hblk by done.
  assert (base_val c = c_val c `div` 2 ^ (n + 1) * 2 ^ (n + 1)) as Hbase.
  { unfold base_val. fold n. pose proof (Z.div_mod (c_val c) (2 ^ (n + 1))
      ltac:(apply Z.pow_nonzero; unfold n; lia)). lia. }
  rewrite Hbase in Hin. pose proof (mapped_room n _ ltac:(unfold n; lia) Hin). lia.
Qed.

(** The values of a map, in some order. *)
Definition vals {K V} `{Countable K} (m : gmap K V) : list V := (map_to_list m).*2.

Lemma vals_insert {K V} `{Countable K} (m : gmap K V) k v :
  m !! k = None → vals (<[k := v]> m) ≡ₚ v :: vals m.
Proof. intros Hk. unfold vals. by rewrite map_to_list_insert. Qed.

Lemma vals_delete {K V} `{Countable K} (m : gmap K V) k v :
  m !! k = Some v → vals m ≡ₚ v :: vals (delete k m).
Proof. intros Hk. unfold vals. by rewrite <-(map_to_list_delete m k v). Qed.

Lemma vals_fmap {K V W} `{Countable K} (f : V → W) (m : gmap K V) :
  vals (f <$> m) = f <$> vals m.
Proof.
  unfold vals. rewrite map_to_list_fmap. rewrite <-!list_fmap_compose. by apply list_fmap_ext.
Qed.

Lemma elem_of_vals {K V} `{Countable K} (m : gmap K V) v :
  v ∈ vals m ↔ ∃ k, m !! k = Some v.
Proof.
  unfold vals. rewrite list_elem_of_fmap. split.
  - intros ([k v'] & -> & Hk). exists k. by apply elem_of_map_to_list.
  - intros [k Hk]. exists (k, v). by rewrite elem_of_map_to_list.
Qed.

Lemma length_vals_fmap {K V} `{Countable K} (m : gmap K V) : length (vals m) = size m.
Proof. unfold vals. by rewrite length_fmap, length_map_to_list. Qed.

Record step_inv (k : Z) (changes0 : nat) (done : list cidr)
    (st : gmap string IPNet * list IPNet * nat) (B : gmap string cidr) (ps : list cidr) : Prop := {
  si_state : st = (net_of <$> B, net_of <$> ps, (changes0 + length ps)%nat);
  si_key : ∀ s c, B !! s = Some c → s = text (base_blk c) ∧ c ∈ done ∧ at_level k c;
  si_parents : Forall (at_level (k - 1)) ps;
  si_cover : vals B ++ ps ≈ done;
  si_count : (size B + 2 * length ps = length done)%nat
}.

Lemma merge_step_inv k changes0 done c st B ps :
  at_level k c → c ∉ done → step_inv k changes0 done st B ps →
  ∃ B' ps', merge_step k st (net_of c)
      = Ret (net_of <$> B', net_of <$> ps', (changes0 + length ps')%nat) ∧
    step_inv k changes0 (done ++ [c])
      (net_of <$> B', net_of <$> ps', (changes0 + length ps')%nat) B' ps'.
Proof.
  intros [Hc Hk] Hnin [-> Hkey Hps Hcov Hcnt]. unfold merge_step.
  subst k. pose proof Hc as (Hv & Hb & _). cbn iota beta. rewrite clearNetIndexInIP_net_of by done.
  cbn [mbind outcome_bind net_Mask net_IP]. rewrite net_of_Size by done. cbn iota beta.
  change (mkIPNet (be_bytes (Z.to_nat (c_bits c `div` 8)) (base_val c)) (net_Mask (net_of c)))
    with (net_of (base_blk c)).
  change (net_String (net_of (base_blk c))) with (text (base_blk c)).
  rewrite lookup_fmap. destruct (B !! text (base_blk c)) as [d|] eqn:HB; cbn [fmap option_fmap option_map].
  - destruct (Hkey _ _ HB) as (Ht & Hd & Hdk & Hdl).
    apply text_inj in Ht; [|by apply base_blk_readable..]. injection Ht as Hbits Hbase Hlen.
    destruct (join_cover c d) as [Hpos Hjoin];
      [done|by apply Hdk|congruence|congruence|congruence|by intros ->|].
    exists (delete (text (base_blk c)) B), (ps ++ [parent c]). rewrite fmap_delete, fmap_app, length_app.
    assert (changes0 + (length ps + 1) = S (changes0 + length ps))%nat as Hch by lia.
    assert (size (delete (text (base_blk c)) B) = size B - 1)%nat as Hsz
      by (rewrite map_size_delete_Some by eauto; lia).
    assert (0 < size B)%nat by (apply Nat.neq_0_lt_0, map_size_non_empty_iff; intros ->; simplify_map_eq).
    cbn [length]. rewrite Hch. split; [done|]. split.
    + rewrite fmap_delete, fmap_app, length_app. cbn [length]. by rewrite Hch.
    + intros s c' [_ H']%lookup_delete_Some. destruct (Hkey _ _ H') as (? & ? & ?).
      split; [done|]. split; [apply elem_of_app; by left|done].
    + rewrite Forall_app, list.Forall_singleton. split; [done|]. split; [|simpl; lia].
      apply (parent_inet w c d); try done. by intros ->.
    + intros x. specialize (Hcov x). specialize (Hjoin x).
      pose proof (cov_Permutation _ _ x (vals_delete _ _ _ HB)) as Hp.
      rewrite (cov_cons d (vals _)) in Hp. rewrite (cov_cons c [d]) in Hjoin.
      rewrite cov_app in Hcov. rewrite (cov_app done), !(cov_app (vals _)), (cov_app ps). lia.
    + rewrite !length_app. cbn [length]. lia.
  - exists (<[text (base_blk c) := c]> B), ps. rewrite fmap_insert. split; [done|]. split.
    + by rewrite fmap_insert.
    + intros s c' [[<- <-]|[_ H']]%lookup_insert_Some.
      { split; [done|]. split; [apply elem_of_app, or_intror, list_elem_of_here|done]. }
      destruct (Hkey _ _ H') as (? & ? & ?).
      split; [done|]. split; [apply elem_of_app; by left|done].
    + done.
    + intros x. specialize (Hcov x).
      pose proof (cov_Permutation _ _ x (vals_insert _ _ c HB)) as Hp.
      rewrite (cov_cons c (vals _)) in Hp. rewrite cov_app in Hcov.
      rewrite (cov_app done), (cov_app (vals _)). lia.
    + rewrite map_size_insert_None, length_app by done. simpl. lia.
Qed.

Lemma merge_steps k changes0 ds :
  Forall (at_level k) ds → NoDup ds →
  ∃ st B ps, foldM (merge_step k) (∅, [], changes0) (net_of <$> ds) = Ret st ∧
    step_inv k changes0 ds st B ps.
Proof.
  intros Hds Hnd.
  assert (∀ done rest st B ps, done ++ rest = ds → step_inv k changes0 done st B ps →
    ∃ st' B' ps', foldM (merge_step k) st (net_of <$> rest) = Ret st' ∧
      step_inv k changes0 ds st' B' ps') as Hgo.
  { intros done rest. revert done. induction rest as [|c rest IH]; intros done st B ps E Hinv.
    { rewrite app_nil_r in E. subst. by exists st, B, ps. }
    assert (at_level k c) as Hc by (rewrite Forall_forall in Hds; apply Hds; set_solver).
    assert (c ∉ done).
    { rewrite <-E in Hnd. apply NoDup_app in Hnd as (_ & Hx & _). intros Hin. apply (Hx c Hin). set_solver. }
    destruct (merge_step_inv k changes0 done c st B ps) as (B' & ps' & E' & Hinv'); [done..|].
    simpl. rewrite E'. cbn [mbind outcome_bind]. apply (IH (done ++ [c]) _ B' ps'); [|done].
    by rewrite <-app_assoc. }
  apply (Hgo [] ds _ ∅ []); [done|]. split; try done.
  by rewrite fmap_empty, Nat.add_0_r.
Qed.

Lemma step_inv_merged k changes0 ds st B ps :
  step_inv k changes0 ds st B ps → NoDup (base_blk <$> vals B).
Proof.
  intros [_ Hkey _ _ _]. apply (NoDup_fmap_1 text).
  assert (text <$> (base_blk <$> vals B) = (map_to_list B).*1) as ->; [|apply NoDup_fst_map_to_list].
  unfold vals. rewrite <-!list_fmap_compose. apply Forall_fmap_ext_1.
  apply Forall_forall. intros [s c] Hsc%elem_of_map_to_list. simpl.
  by destruct (Hkey _ _ Hsc) as [-> _].
Qed.

(** ** One round over the levels *)
Definition level_get (M : gmap Z (list cidr)) (k : Z) : list cidr := default [] (M !! k).
Definition all_blocks (M : gmap Z (list cidr)) : list cidr := mjoin (vals M).
Definition nets (M : gmap Z (list cidr)) : gmap Z (list IPNet) :=
  (λ cs : list cidr, net_of <$> cs) <$> M.
Definition levelled (M : gmap Z (list cidr)) : Prop := ∀ k, Forall (at_level k) (level_get M k).

Lemma all_blocks_insert M k v :
  all_blocks (<[k := v]> M) ≡ₚ v ++ all_blocks (delete k M).
Proof.
  unfold all_blocks. rewrite <-insert_delete_eq, vals_insert by apply lookup_delete_eq. done.
Qed.

Lemma all_blocks_get M k : all_blocks M ≡ₚ level_get M k ++ all_blocks (delete k M).
Proof.
  unfold level_get. destruct (M !! k) as [v|] eqn:E; simpl.
  - rewrite <-(insert_id M k v) at 1 by done. apply all_blocks_insert.
  - by rewrite delete_id.
Qed.

Lemma nets_get M k : default [] (nets M !! k) = net_of <$> level_get M k.
Proof. unfold nets, level_get. rewrite lookup_fmap. by destruct (M !! k). Qed.

Lemma nets_insert M k v : nets (<[k := v]> M) = <[k := net_of <$> v]> (nets M).
Proof. unfold nets. by rewrite fmap_insert. Qed.

Lemma level_get_insert M k v j :
  level_get (<[k := v]> M) j = if decide (k = j) then v else level_get M j.
Proof. unfold level_get. rewrite lookup_insert. by case_decide. Qed.

Lemma levelled_insert M k v :
  levelled M → Forall (at_level k) v → levelled (<[k := v]> M).
Proof. intros HM Hv j. rewrite level_get_insert. case_decide; [by subst|apply HM]. Qed.

Lemma levels_in_order M order :
  order ≡ₚ (map_to_list M).*1 → mjoin (level_get M <$> order) ≡ₚ all_blocks M.
Proof.
  intros ->. unfold all_blocks, vals. rewrite <-list_fmap_compose.
  assert ((level_get M ∘ fst) <$> map_to_list M = (map_to_list M).*2) as ->; [|done].
  apply Forall_fmap_ext_1, Forall_forall. intros [k v] Hk%elem_of_map_to_list.
  unfold level_get. simpl. by rewrite Hk.
Qed.

Lemma nets_keys M : (map_to_list (nets M)).*1 = (map_to_list M).*1.
Proof.
  unfold nets. rewrite map_to_list_fmap, <-list_fmap_compose. by apply list_fmap_ext.
Qed.

Record level_inv (M : gmap Z (list cidr)) (done : list Z)
    (st : gmap Z (list IPNet) * nat) (N : gmap Z (list cidr)) (changes : nat) : Prop := {
  li_state : st = (nets N, changes);
  li_levelled : levelled N;
  li_cover : all_blocks N ≈ mjoin (level_get M <$> done);
  li_count : (length (all_blocks N) + changes = length (mjoin (level_get M <$> done)))%nat;
  li_merged : changes = 0%nat → ∀ k, merged (level_get N k)
}.

Lemma visited_snoc M done k :
  mjoin (level_get M <$> (done ++ [k])) = mjoin (level_get M <$> done) ++ level_get M k.
Proof. rewrite fmap_app, join_app. simpl. by rewrite app_nil_r. Qed.

Lemma short_merged (l : list cidr) : (length l < 2)%nat → merged l.
Proof.
  unfold merged. destruct l as [|a [|b l]]; simpl; intros; [constructor|apply NoDup_singleton|lia].
Qed.

(** Both branches of the level loop replace the blocks of level [k] by blocks
    that cover the same addresses. *)
Lemma level_keep M done k N changes :
  level_inv M done (nets N, changes) N changes → levelled M →
  (length (level_get N k ++ level_get M k) < 2)%nat →
  level_inv M (done ++ [k]) (nets (<[k := level_get N k ++ level_get M k]> N), changes)
    (<[k := level_get N k ++ level_get M k]> N) changes.
Proof.
  intros [_ HN Hcov Hcnt Hmrg] HM Hlen.
  assert (all_blocks (<[k := level_get N k ++ level_get M k]> N) ≡ₚ all_blocks N ++ level_get M k) as Hp.
  { rewrite all_blocks_insert, (all_blocks_get N k). solve_Permutation. }
  split; [done| | | |].
  - apply levelled_insert; [done|]. rewrite Forall_app. auto.
  - rewrite visited_snoc, Hp. by rewrite Hcov.
  - rewrite visited_snoc, (Permutation_length Hp), !length_app. lia.
  - intros H0 j. rewrite level_get_insert. case_decide; [by apply short_merged|by apply Hmrg].
Qed.

Lemma level_join M done k N changes B ps left :
  level_inv M done (nets N, changes) N changes → levelled M →
  step_inv k changes (level_get N k ++ level_get M k)
    (net_of <$> B, net_of <$> ps, (changes + length ps)%nat) B ps →
  left ≡ₚ vals B →
  let N1 := <[k := left]> N in
  let N2 := <[k - 1 := level_get N1 (k - 1) ++ ps]> N1 in
  level_inv M (done ++ [k]) (nets N2, (changes + length ps)%nat) N2 (changes + length ps).
Proof.
  intros [_ HN Hcov Hcnt Hmrg] HM Hst Hleft N1 N2.
  pose proof (step_inv_merged _ _ _ _ _ _ Hst) as HmB. destruct Hst as [_ Hkey Hps Hcov2 Hcnt2].
  set (rest := all_blocks (delete k N)).
  assert (all_blocks N2 ≡ₚ ps ++ vals B ++ rest) as Hp.
  { unfold N2. rewrite all_blocks_insert, <-app_assoc, (Permutation_app_swap_app _ ps),
      <-all_blocks_get. unfold N1. by rewrite all_blocks_insert, Hleft. }
  pose proof (all_blocks_get N k) as HpN. fold rest in HpN.
  assert (Forall (at_level k) left) as Hlv.
  { rewrite Hleft. apply Forall_forall. intros c [s Hs]%elem_of_vals. by destruct (Hkey s c Hs) as (_ & _ & ?). }
  assert (levelled N1) by by apply levelled_insert.
  split; [done| | | |].
  - apply levelled_insert; [done|]. rewrite Forall_app. auto.
  - rewrite visited_snoc. intros x. rewrite (cov_Permutation _ _ x Hp).
    specialize (Hcov x). rewrite (cov_Permutation _ _ x HpN), cov_app in Hcov.
    specialize (Hcov2 x). rewrite !cov_app in Hcov2. rewrite !cov_app. lia.
  - rewrite visited_snoc, (Permutation_length Hp). rewrite (Permutation_length HpN) in Hcnt.
    pose proof (length_vals_fmap B). rewrite !length_app in *. lia.
  - intros H0 j. destruct ps; [|simpl in H0; lia]. unfold N2. rewrite level_get_insert, app_nil_r.
    assert (∀ i, merged (level_get N1 i)) as Hm1.
    { intros i. unfold N1. rewrite level_get_insert. case_decide; [|by apply Hmrg; lia].
      unfold merged. by rewrite Hleft. }
    case_decide as E; [rewrite E|]; apply Hm1.
Qed.

Lemma merge_level_inv o r M done k N changes :
  merge_order_ok o → levelled M → disjoint_blocks (mjoin (level_get M <$> (done ++ [k]))) →
  level_inv M done (nets N, changes) N changes →
  ∃ N' changes', merge_level o r (nets M) (nets N, changes) k = Ret (nets N', changes') ∧
    level_inv M (done ++ [k]) (nets N', changes') N' changes'.
Proof.
  intros [_ Ho] HM Hdis Hinv. unfold merge_level. rewrite !nets_get, <-fmap_app, length_fmap.
  destruct (Nat.ltb_spec (length (level_get N k ++ level_get M k)) 2) as [Hlt|Hge].
  { rewrite <-nets_insert. eexists _, _. split; [done|]. by apply level_keep. }
  pose proof (li_levelled _ _ _ _ _ Hinv) as HN.
  assert (Forall (at_level k) (level_get N k ++ level_get M k)) as Hlv by by rewrite Forall_app.
  assert (NoDup (level_get N k ++ level_get M k)) as Hnd.
  { apply disjoint_NoDup; [eapply Forall_impl; [exact Hlv|]; intros c [Hc _]; by apply Hc|].
    intros x. specialize (Hdis x). rewrite visited_snoc, cov_app, <-(li_cover _ _ _ _ _ Hinv) in Hdis.
    rewrite (cov_Permutation _ _ x (all_blocks_get N k)), cov_app in Hdis. rewrite cov_app. lia. }
  destruct (merge_steps k changes _ Hlv Hnd) as (st & B & ps & -> & Hst).
  pose proof (si_state _ _ _ _ _ _ Hst) as ->. cbn [mbind outcome_bind].
  specialize (Ho r k (net_of <$> B)). change ((map_to_list ?m).*2) with (vals m) in Ho.
  rewrite vals_fmap in Ho. destruct (Permutation_map_inv _ _ Ho) as (left & Hl & Hperm).
  change (List.map net_of left) with (net_of <$> left) in Hl. rewrite Hl, <-nets_insert, nets_get.
  rewrite <-fmap_app, <-nets_insert. eexists _, _. split; [done|].
  by apply (level_join M done k N changes B ps left).
Qed.

Lemma merge_round_spec o r M :
  merge_order_ok o → levelled M → disjoint_blocks (all_blocks M) →
  ∃ N changes, merge_round o r (nets M) = Ret (nets N, changes) ∧ levelled N ∧
    all_blocks N ≈ all_blocks M ∧
    (length (all_blocks N) + changes = length (all_blocks M))%nat ∧
    (changes = 0%nat → ∀ k, merged (level_get N k)).
Proof.
  intros Ho HM Hdis. unfold merge_round. set (order := level_order o r (nets M)).
  assert (mjoin (level_get M <$> order) ≡ₚ all_blocks M) as Hall.
  { apply levels_in_order. rewrite <-nets_keys. apply Ho. }
  destruct (foldM_inv (merge_level o r (nets M))
    (λ done st, ∃ N changes, level_inv M done st N changes) (∅, 0%nat) order)
    as (st & -> & N & changes & Hinv).
  - exists ∅, 0%nat. split; [done|intros k; constructor|done|done|intros _ k; constructor].
  - intros done k rest st Hsplit (N & changes & Hinv).
    pose proof (li_state _ _ _ _ _ Hinv) as ->.
    destruct (merge_level_inv o r M done k N changes) as (N' & changes' & -> & Hinv'); try done.
    + rewrite <-Hall, Hsplit in Hdis.
      assert (done ++ k :: rest = (done ++ [k]) ++ rest) as E by by rewrite <-app_assoc.
      rewrite E, fmap_app, join_app in Hdis. by apply disjoint_app in Hdis as [? _].
    + eauto.
  - destruct Hinv as [-> HN Hcov Hcnt Hm]. exists N, changes. split_and!; try done.
    + by rewrite Hcov, Hall.
    + by rewrite Hcnt, Hall.
Qed.

Lemma levelled_inet M : levelled M → Forall (inet w) (all_blocks M).
Proof.
  intros HM. apply Forall_forall. intros c (cs & Hc & [k Hk]%elem_of_vals)%list_elem_of_join.
  specialize (HM k). unfold level_get in HM. rewrite Hk in HM. simpl in HM.
  rewrite Forall_forall in HM. by apply HM.
Qed.

(** Distinct levels hold blocks of distinct lengths, so merged levels make a
    merged table. *)
Lemma all_merged M :
  levelled M → (∀ k, merged (level_get M k)) → merged (all_blocks M).
Proof.
  induction M as [|k v M Hk IH] using map_ind; intros HM Hm; [constructor|].
  pose proof (all_blocks_insert M k v) as Hp. rewrite delete_id in Hp by done.
  rewrite Hp. unfold merged. rewrite fmap_app, NoDup_app.
  assert (∀ j, j ≠ k → level_get (<[k := v]> M) j = level_get M j) as Hne.
  { intros j Hj. rewrite level_get_insert. by rewrite decide_False. }
  assert (level_get (<[k := v]> M) k = v) as Hkv by (rewrite level_get_insert; by rewrite decide_True).
  assert (level_get M k = []) as Hk0 by (unfold level_get; by rewrite Hk).
  assert (levelled M) as HM'.
  { intros j. destruct (decide (j = k)) as [->|Hj]; [rewrite Hk0; constructor|]. rewrite <-Hne by done. apply HM. }
  split_and!.
  - rewrite <-Hkv. apply Hm.
  - intros b Hb1 Hb2. apply list_elem_of_fmap in Hb1 as (c1 & -> & Hc1), Hb2 as (c2 & Hb & Hc2).
    specialize (HM k). rewrite Hkv, Forall_forall in HM. destruct (HM c1 Hc1) as [_ Hl1].
    apply list_elem_of_join in Hc2 as (cs & Hc2 & [j Hj]%elem_of_vals).
    assert (j ≠ k) by congruence. specialize (HM' j). unfold level_get in HM'.
    rewrite Hj in HM'. simpl in HM'. rewrite Forall_forall in HM'. destruct (HM' c2 Hc2) as [_ Hl2].
    injection Hb as _ _ Hl. congruence.
  - apply IH; [done|]. intros j. destruct (decide (j = k)) as [->|Hj]; [rewrite Hk0; constructor|].
    rewrite <-Hne by done. apply Hm.
Qed.

Lemma level_texts o r N :
  merge_order_ok o →
  ∃ rs, net_String <$> mjoin ((λ k, default [] (nets N !! k)) <$> level_order o r (nets N)) = text <$> rs
    ∧ rs ≡ₚ all_blocks N.
Proof.
  intros Ho. exists (mjoin (level_get N <$> level_order o r (nets N))). split.
  - change text with (net_String ∘ net_of). rewrite list_fmap_compose. f_equal.
    induction (level_order o r (nets N)) as [|k ks IH]; [done|].
    rewrite !fmap_cons. change (mjoin (?a :: ?b)) with (a ++ mjoin b).
    by rewrite fmap_app, <-IH, nets_get.
  - apply levels_in_order. rewrite <-nets_keys. apply Ho.
Qed.

(** The loop of rounds ends within as many rounds as there are blocks. *)
Lemma merge_rounds_total fuel o r M :
  merge_order_ok o → levelled M → disjoint_blocks (all_blocks M) →
  (length (all_blocks M) < fuel)%nat →
  ∃ rs, merge_rounds fuel o r (nets M) = Ret (text <$> rs) ∧
    Forall (inet w) rs ∧ rs ≈ all_blocks M ∧ merged rs.
Proof.
  intros Ho. revert r M. induction fuel as [|fuel IH]; intros r M HM Hdis Hf; [lia|].
  destruct (merge_round_spec o r M Ho HM Hdis) as (N & changes & E & HN & Hcov & Hcnt & Hm).
  cbn [merge_rounds]. rewrite E. cbn [mbind outcome_bind].
  destruct (Nat.eqb_spec changes 0) as [->|Hch].
  - destruct (level_texts o (S r) N Ho) as (rs & -> & Hrs). exists rs. split; [done|].
    split_and!; [rewrite Hrs; by apply levelled_inet|by rewrite Hrs|rewrite Hrs; apply all_merged; auto].
  - destruct (IH (S r) N HN) as (rs & -> & Hrs & Hcov' & Hm'); [by rewrite Hcov|lia|].
    exists rs. split_and!; try done. by rewrite Hcov'.
Qed.

(** ** [ReleasePrefixes] *)
Lemma removeDuplicates_go_eq seen (l : list string) :
  NoDup l → (∀ x, x ∈ l → x ∉ seen) → removeDuplicates_go seen l = l.
Proof.
  revert seen; induction l as [|x l IH]; intros seen Hnd Hs; [done|]. simpl.
  apply NoDup_cons in Hnd as [Hx Hnd]. rewrite decide_False by (apply Hs; set_solver).
  f_equal. apply IH; [done|]. intros y Hy. specialize (Hs y). set_solver.
Qed.

Lemma group_by_len_spec cs M :
  Forall (inet w) cs → levelled M →
  ∃ M', group_by_len (text <$> cs) (nets M) = Some (nets M') ∧ levelled M' ∧
    all_blocks M' ≡ₚ all_blocks M ++ cs.
Proof.
  revert M; induction cs as [|c cs IH]; intros M Hcs HM.
  { exists M. by rewrite app_nil_r. }
  apply Forall_cons_1 in Hcs as [Hc Hcs]. rewrite fmap_cons. cbn [group_by_len].
  rewrite text_parse by eauto with nsm.
  cbn [mbind option_bind]. rewrite (net_of_Size c) by eauto with nsm. rewrite nets_get.
  change [net_of c] with (net_of <$> [c]). rewrite <-fmap_app, <-nets_insert.
  destruct (IH (<[c_len c := level_get M (c_len c) ++ [c]]> M)) as (M' & -> & HM' & Hp); [done| |].
  - apply levelled_insert; [done|]. rewrite Forall_app, list.Forall_singleton. by split.
  - exists M'. split_and!; [done|done|]. rewrite Hp, all_blocks_insert, (all_blocks_get M (c_len c)).
    solve_Permutation.
Qed.

Lemma ReleasePrefixes_spec o cs ds :
  merge_order_ok o → Forall (inet w) cs → Forall (inet w) ds → disjoint_blocks (cs ++ ds) → ds ≠ [] →
  ∃ rs, ReleasePrefixes o (text <$> cs) (text <$> ds) = Ret (Ok (text <$> rs)) ∧
    Forall (inet w) rs ∧ rs ≈ cs ++ ds ∧ merged rs.
Proof.
  intros Ho Hcs Hds Hdis Hne. unfold ReleasePrefixes.
  destruct (text <$> ds) as [|t ts] eqn:Hds0; [by apply fmap_nil_inv in Hds0|]. rewrite <-Hds0, <-fmap_app.
  assert (Forall (inet w) (cs ++ ds)) as Hall by by rewrite Forall_app.
  assert (NoDup (text <$> (cs ++ ds))) as Hnd.
  { apply NoDup_fmap_2_strong; [|by apply disjoint_NoDup, Hdis; apply (Forall_inet_valid w)].
    rewrite Forall_forall in Hall. intros c d Hc Hd. apply text_inj; eauto with nsm. }
  unfold removeDuplicates. rewrite removeDuplicates_go_eq by (done || set_solver).
  destruct (group_by_len_spec (cs ++ ds) ∅ Hall) as (M & E & HM & Hp); [intros k; constructor|].
  change (nets ∅) with (∅ : gmap Z (list IPNet)) in E. rewrite E. cbn [app] in Hp.
  change (all_blocks ∅) with (@nil cidr) in Hp. cbn [app] in Hp.
  destruct (merge_rounds_total (S (length (text <$> (cs ++ ds)))) o 0 M Ho HM)
    as (rs & -> & Hrs & Hcov & Hm).
  - by rewrite Hp.
  - rewrite (Permutation_length Hp), length_fmap. lia.
  - exists rs. split_and!; try done. by rewrite Hcov, Hp.
Qed.
End family.
