(* ===== verification/PrefixPoolInv.v ===== *)
(** * The prefix pool: addresses of a connection and the pool invariant *)
From S2P Require Import Prelude GoStrings GoNet GoNet6 ConnectionContext Cidr PrefixPool PrefixPoolLemmas PrefixPoolMerge.
From stdpp Require Import options.

(** ** [IncrementIP] adds one *)
Lemma be_val_app l1 l2 : be_val (l1 ++ l2) = be_val l1 * 256 ^ Z.of_nat (length l2) + be_val l2.
Proof.
  induction l1 as [|b l1 IH]; cbn [app be_val]; [lia|]. rewrite IH, length_app, Nat2Z.inj_add, Z.pow_add_r by lia.
  lia.
Qed.

Lemma be_val_snoc l b : be_val (l ++ [b]) = be_val l * 256 + b.
Proof. rewrite be_val_app. simpl. lia. Qed.

Lemma length_increment_bytes l : length (increment_bytes l) = length l.
Proof. induction l as [|b l IH]; simpl; [done|]. case_match; simpl; lia. Qed.

Lemma increment_bytes_is_byte l : Forall is_byte l → Forall is_byte (increment_bytes l).
Proof.
  induction 1 as [|b l Hb Hl IH]; cbn [increment_bytes]; [constructor|].
  assert (is_byte ((b + 1) `mod` 256)) by (apply Z.mod_pos_bound; lia).
  case_match; by constructor.
Qed.

Lemma be_val_increment l :
  Forall is_byte l →
  be_val (reverse (increment_bytes l)) = (be_val (reverse l) + 1) `mod` 256 ^ Z.of_nat (length l).
Proof.
  induction 1 as [|b l Hb Hl IH]; [done|]. cbn [increment_bytes].
  rewrite reverse_cons, be_val_snoc. cbn [length]. rewrite Nat2Z.inj_succ, Z.pow_succ_r by lia.
  pose proof (be_val_bound (reverse l) ltac:(by apply Forall_reverse)) as Hbnd.
  rewrite length_reverse in Hbnd. set (n := 256 ^ Z.of_nat (length l)) in *. unfold is_byte in Hb.
  destruct (Z.eqb_spec ((b + 1) `mod` 256) 0) as [E|E]; rewrite reverse_cons, be_val_snoc.
  - assert (b = 255) as ->.
    { destruct (decide (b = 255)); [done|]. rewrite Z.mod_small in E by lia. lia. }
    rewrite IH, E, Z.add_0_r.
    replace (be_val (reverse l) * 256 + 255 + 1) with (256 * (be_val (reverse l) + 1)) by lia.
    rewrite Z.mul_mod_distr_l by lia. lia.
  - assert (b ≠ 255) by (intros ->; done). rewrite (Z.mod_small (b + 1)) by lia.
    rewrite Z.mod_small by lia. lia.
Qed.

Section family.
(** The family of the pool: 32 or 128 bits. *)
Context (w : Z).

Lemma ip_of_is_byte v : Forall is_byte (ip_of w v).
Proof.
  unfold ip_of. case_decide; [|apply be_bytes_is_byte]. apply Forall_app.
  split; [|apply be_bytes_is_byte]. unfold v4InV6Prefix, is_byte. repeat constructor; lia.
Qed.

Lemma length_ip_of v : length (ip_of w v) = IPv6len.
Proof. unfold ip_of. case_decide; [|apply length_be_bytes]. by rewrite length_app, length_be_bytes. Qed.

Lemma be_val_ip_of v :
  w = 32 ∨ w = 128 → 0 ≤ v < 2 ^ w →
  be_val (ip_of w v) = (if decide (w = 32) then mapped_lo else 0) + v.
Proof.
  unfold ip_of. intros [-> | ->] Hv.
  - rewrite !decide_True by done. rewrite be_val_app, length_be_bytes, be_val_bytes.
    change (256 ^ Z.of_nat 4) with (2 ^ 32). by rewrite (Z.mod_small v) by done.
  - rewrite !decide_False by done. rewrite be_val_bytes.
    change (256 ^ Z.of_nat 16) with (2 ^ 128). by rewrite Z.mod_small by done.
Qed.

Lemma increment_ip_of v :
  w = 32 ∨ w = 128 → 0 ≤ v → v + 1 < 2 ^ w →
  reverse (increment_bytes (reverse (ip_of w v))) = ip_of w (v + 1).
Proof.
  intros Hw Hv Hv1. pose proof (ip_of_is_byte v) as Hb.
  assert (Forall is_byte (reverse (ip_of w v))) as Hbr by by apply Forall_reverse.
  apply be_val_inj.
  - by rewrite length_reverse, length_increment_bytes, length_reverse, !length_ip_of.
  - by apply Forall_reverse, increment_bytes_is_byte.
  - apply ip_of_is_byte.
  - rewrite be_val_increment, reverse_involutive, length_reverse, length_ip_of, !be_val_ip_of
      by (done || lia).
    change (256 ^ Z.of_nat IPv6len) with (2 ^ 128). unfold mapped_lo.
    destruct Hw as [-> | ->]; [rewrite decide_True by done|rewrite decide_False by done];
      rewrite Z.mod_small by lia; lia.
Qed.

(** Two addresses agree under the mask of a block when the one lies in the
    block of the other. *)
Lemma masked_in_cidr c x :
  valid c → 0 ≤ x < 2 ^ c_bits c →
  let n := Z.to_nat (c_bits c `div` 8) in
  bool_decide (zip_with Z.land (be_bytes n (c_val c)) (CIDRMask (c_len c) (c_bits c))
               = zip_with Z.land (be_bytes n x) (CIDRMask (c_len c) (c_bits c)))
  = in_cidr (c_bits c, x) c.
Proof.
  intros (Hb & Hl & Hv & [q Hq]) Hx n. unfold blk in Hq. rewrite CIDRMask_eq by done. fold n.
  set (h := c_bits c - c_len c) in *.
  assert (0 < 2 ^ h) as Hpos by (apply Z.pow_pos_nonneg; lia).
  assert (∀ u, 0 ≤ u < 2 ^ c_bits c →
    be_val (zip_with Z.land (be_bytes n u) (cidr_mask_go n (c_len c))) = u - u `mod` 2 ^ h) as Hmask.
  { intros u Hu. assert (8 * Z.of_nat n = c_bits c) as E8 by (unfold n; by destruct Hb as [-> | ->]).
    pose proof (be_val_mask (be_bytes n u) (c_len c) (be_bytes_is_byte n u)) as H.
    rewrite length_be_bytes, E8 in H. rewrite H by lia. rewrite be_val_bytes.
    unfold n. rewrite pow256 by done. by rewrite (Z.mod_small u) by done. }
  apply eq_true_iff_eq. rewrite bool_decide_eq_true, in_cidr_spec. cbn [fst snd].
  unfold blk. fold h.
  assert (c_val c `mod` 2 ^ h = 0) as Hv0 by (rewrite Hq; apply Z.mod_mul; lia).
  pose proof (Z.mod_pos_bound x (2 ^ h) Hpos) as Hxm. split.
  - intros E. apply (f_equal be_val) in E. rewrite !Hmask, Hv0 in E by done. lia.
  - intros [_ Hin]. apply be_val_inj.
    + by rewrite !length_zip_with, !length_be_bytes.
    + apply zip_land_is_byte; [apply be_bytes_is_byte|apply mask_go_is_byte; lia].
    + apply zip_land_is_byte; [apply be_bytes_is_byte|apply mask_go_is_byte; lia].
    + rewrite !Hmask, Hv0 by done.
      assert (x = (x - c_val c) + q * 2 ^ h) as Hx' by lia.
      rewrite Hx' at 2. rewrite Z.mod_add, Z.mod_small by lia. lia.
Qed.

(** A slice that is not empty replaces the address it was taken from. *)
Lemma To4_default (ip l : IP) : l ≠ [] → match l with [] => ip | z :: l => z :: l end = l.
Proof. by destruct l. Qed.

(** [net_Contains] is membership in the block. *)
Lemma net_Contains_ip_of c x :
  inet w c → 0 ≤ x < 2 ^ w → net_Contains (net_of c) (ip_of w x) = in_cidr (w, x) c.
Proof.
  intros (Hc & Hb & Hm) Hx. subst w. rewrite <-masked_in_cidr by done. cbv zeta.
  pose proof Hc as ([E|E] & Hl & Hv & _); unfold net_Contains, net_of, ip_of; rewrite E in *.
  - change (Z.to_nat (32 `div` 8)) with 4%nat. rewrite decide_True by done.
    rewrite networkNumberAndMask_v4 by (rewrite ?length_be_bytes, ?length_CIDRMask_v4; done).
    rewrite To4_mapped by apply length_be_bytes.
    rewrite To4_default by done. by rewrite decide_True by by rewrite !length_be_bytes.
  - change (Z.to_nat (128 `div` 8)) with 16%nat. rewrite decide_False by done.
    pose proof (valid_blk_pos _ Hc).
    rewrite networkNumberAndMask_v6; [|apply length_be_bytes| |by rewrite length_CIDRMask_v6].
    2: { intros Ht%take_mapped; [|done]. destruct (Hm eq_refl); lia. }
    destruct (decide (mapped_lo ≤ x < mapped_hi)) as [Hin|Hout].
    + pose proof (masked_in_cidr c x Hc) as Hmc. rewrite E in Hmc. cbv zeta in Hmc.
      change (Z.to_nat (128 `div` 8)) with 16%nat in Hmc. rewrite Hmc by done.
      assert (To4 (be_bytes 16 x) = drop 12 (be_bytes 16 x)) as ->.
      { unfold To4. rewrite decide_False by (by rewrite length_be_bytes).
        by rewrite decide_True by (split; [apply length_be_bytes|by apply take_mapped]). }
      rewrite To4_default by done. rewrite decide_False by (rewrite length_drop, !length_be_bytes; done).
      symmetry. apply not_true_iff_false. rewrite in_cidr_spec. cbn [snd].
      intros [_ ?]. destruct (Hm eq_refl); lia.
    + rewrite To4_long; [|apply length_be_bytes|by rewrite take_mapped].
      by rewrite decide_True by by rewrite !length_be_bytes.
Qed.

(** The next address inside the block. *)
Lemma IncrementIP_in_block c v :
  inet w c → 0 ≤ v → in_cidr (w, v + 1) c = true →
  IncrementIP (ip_of w v) (net_of c) = Ok (ip_of w (v + 1)).
Proof.
  intros Hc Hv Hin. pose proof Hc as (Hval & Hb & _). pose proof (valid_end _ Hval) as He.
  rewrite Hb in He. pose proof (proj1 (in_cidr_spec _ _) Hin) as [_ Hr]. cbn [snd] in Hr.
  unfold IncrementIP. rewrite increment_ip_of by (lia || (rewrite <-Hb; apply Hval)).
  rewrite net_Contains_ip_of by (done || lia). by rewrite Hin.
Qed.

(** ** The pool invariant

    [free] are the blocks of the free list and [conns] those of the
    connections; together they tile the base prefixes [base]. *)
Definition conn_blocks (conns : gmap string (cidr * list cidr)) : list cidr :=
  mjoin ((λ r : cidr * list cidr, r.1 :: r.2) <$> vals conns).

Definition record_of (r : cidr * list cidr) : connectionRecord :=
  mkConnectionRecord (net_of r.1) (text <$> r.2).

Record pool_inv (base : list cidr) (impl : prefixPool) (free : list cidr)
    (conns : gmap string (cidr * list cidr)) : Prop := {
  pi_base : pool_basePrefixes impl = text <$> base;
  pi_free : pool_prefixes impl = text <$> free;
  pi_conns : pool_connections impl = record_of <$> conns;
  pi_free_inet : Forall (inet w) free;
  pi_conns_inet : Forall (inet w) (conn_blocks conns);
  pi_tile : free ++ conn_blocks conns ≈ base
}.

(** A pool in a consistent state: its blocks tile its disjoint base prefixes. *)
Definition pool_ok (base : list cidr) (impl : prefixPool) : Prop :=
  disjoint_blocks base ∧ ∃ free conns, pool_inv base impl free conns.

Lemma conn_blocks_insert conns id r :
  conns !! id = None → conn_blocks (<[id := r]> conns) ≡ₚ r.1 :: r.2 ++ conn_blocks conns.
Proof. intros H. unfold conn_blocks. by rewrite vals_insert. Qed.

Lemma conn_blocks_delete conns id r :
  conns !! id = Some r → conn_blocks conns ≡ₚ r.1 :: r.2 ++ conn_blocks (delete id conns).
Proof. intros H. unfold conn_blocks. by rewrite (vals_delete _ _ _ H). Qed.

(** ** One endpoint block: the first extraction of [Extract] *)
Definition endpoint_len (family : IpFamily_Family) : Z := epr_PrefixLen (endpoint_request family).

Lemma ExtractPrefixes_one cs family :
  Forall (inet w) cs →
  (∃ e, ExtractPrefixes (text <$> cs) [Some (endpoint_request family)] = Ret (Err e)) ∨
  (∃ c cs', ExtractPrefixes (text <$> cs) [Some (endpoint_request family)]
              = Ret (Ok ([text c], text <$> cs')) ∧ taken w (endpoint_len family) cs c cs').
Proof.
  intros Hcs. destruct (ExtractPrefixes_cases w cs [Some (endpoint_request family)] Hcs)
    as [?|(rs & ds & cs' & Hrs & _ & E & Hne & ms & Hms & Ht)]; [by left|right].
  destruct rs as [|r [|]]; [done| |done]. injection Hrs as <-.
  apply Forall2_cons_inv_r in Hms as (m & ms' & Hm & Hms & ->).
  apply Forall2_nil_inv_r in Hms as ->.
  destruct Ht as (Hd & Hcs' & HL & Hcov). assert (m = 0%nat) as -> by (destruct family; simpl in Hm; lia).
  assert (c_len <$> ds = [endpoint_len family]) as HL' by (destruct family; exact HL).
  destruct ds as [|c [|]]; [done| |done]. injection HL' as HL'.
  apply Forall_cons_1 in Hd as [Hc _]. exists c, cs'. split; [exact E|]. by split_and!.
Qed.

(** An endpoint block has room for four addresses: of an IPv4 pool only the
    30 bits of the IPv4 family give a block. *)
Lemma endpoint_blk c family :
  inet w c → c_len c = endpoint_len family →
  4 ≤ blk c ∧ c_len c < w ∧ (w = 32 → c_len c = 30).
Proof.
  intros ((Hw & Hlen & _) & Hb & _) Hl.
  assert (c_len c = 30 ∨ c_len c = 126) as Hl' by (rewrite Hl; destruct family; auto).
  unfold blk. destruct Hw as [E|E]; rewrite E in *; subst w; destruct Hl' as [E'|E']; rewrite E' in *;
    split_and!; lia.
Qed.

(** The two addresses after the network address of an endpoint block. *)
Lemma endpoint_addresses c family :
  inet w c → c_len c = endpoint_len family →
  IncrementIP (ip_of w (c_val c)) (net_of c) = Ok (ip_of w (c_val c + 1)) ∧
  IncrementIP (ip_of w (c_val c + 1)) (net_of c) = Ok (ip_of w (c_val c + 2)).
Proof.
  intros Hc Hl. destruct (endpoint_blk _ _ Hc Hl) as [Hblk _].
  pose proof Hc as ((_ & _ & Hv & _) & Hb & _).
  assert (∀ i, 0 ≤ i < 4 → in_cidr (w, c_val c + i) c = true) as Hin.
  { intros i Hi. apply in_cidr_spec. cbn [fst snd]. lia. }
  replace (c_val c + 2) with (c_val c + 1 + 1) by lia.
  split; apply IncrementIP_in_block; try lia; try done; [apply Hin; lia|].
  replace (c_val c + 1 + 1) with (c_val c + 2) by lia. apply Hin. lia.
Qed.

(** What a successful [Extract] for an endpoint block of [L] bits does to a
    pool whose free list is [free]. *)
Record extract_result (L : Z) (free : list cidr) (c : cidr) (ps free' : list cidr) : Prop := {
  er_net : inet w c;
  er_len : c_len c = L;
  er_extra : Forall (inet w) ps;
  er_free : Forall (inet w) free';
  er_cover : c :: ps ++ free' ≈ free
}.

Lemma Extract_cases base impl free conns id family requests :
  pool_inv base impl free conns →
  (∃ e, Extract impl id family requests = Ret (Err e)) ∨
  (∃ c ps free', extract_result (endpoint_len family) free c ps free' ∧
     Extract impl id family requests
     = Ret (Ok (mkPrefixPool (text <$> base) (text <$> free')
                  (<[id := record_of (c, ps)]> (record_of <$> conns)),
                mkIPNet (ip_of w (c_val c + 1)) (net_Mask (net_of c)),
                mkIPNet (ip_of w (c_val c + 2)) (net_Mask (net_of c)),
                text <$> ps))).
Proof.
  intros [Hb Hf Hcn Hf4 _ _]. unfold Extract. rewrite Hf, Hb, Hcn.
  destruct (ExtractPrefixes_one free family Hf4) as [[e ->]|(c & cs' & -> & Hc & Hcs' & Hl & Hcov)];
    cbn [bind_or]; [by left; exists e|].
  pose proof Hc as (_ & Hbc & _). rewrite text_parse, Hbc by eauto with nsm.
  destruct (endpoint_addresses c family Hc Hl) as [-> ->].
  destruct requests as [|r requests]; cbn [bind_or].
  { right. exists c, [], cs'. split; [split; try done; constructor|done]. }
  destruct (ExtractPrefixes_cases w cs' (r :: requests) Hcs')
    as [[e ->]|(rs & ds & cs2 & _ & _ & -> & _ & Hx)]; cbn [bind_or]; [by left; exists e|right].
  apply extracted_spec in Hx as (Hds & Hcs2 & Hcov2). exists c, ds, cs2. split; [|done].
  split; try done. by rewrite Hcov2.
Qed.

Lemma Extract_inv L base impl free conns c ps free' id :
  pool_inv base impl free conns → conns !! id = None → extract_result L free c ps free' →
  pool_inv base (mkPrefixPool (text <$> base) (text <$> free')
                   (<[id := record_of (c, ps)]> (record_of <$> conns)))
    free' (<[id := (c, ps)]> conns).
Proof.
  intros [Hb Hf Hcn Hf4 Hc4 Ht] Hid [Hn Hl He Hfr Hcov]. split; try done; cbn [pool_connections].
  - by rewrite fmap_insert.
  - rewrite conn_blocks_insert by done. constructor; [done|]. by apply Forall_app.
  - rewrite <-Ht, <-Hcov. rewrite conn_blocks_insert by done. cbn [fst snd].
    intros x. rewrite !cov_app, (cov_cons c (ps ++ conn_blocks conns)), (cov_cons c (ps ++ free')), !cov_app. lia.
Qed.

Lemma Release_spec base impl free conns o id c ps :
  merge_order_ok o → disjoint_blocks base → pool_inv base impl free conns → conns !! id = Some (c, ps) →
  ∃ free', Release o impl id
      = Ret (mkPrefixPool (text <$> base) (text <$> free') (record_of <$> delete id conns), None) ∧
    Forall (inet w) free' ∧ free' ≈ free ++ c :: ps ∧ merged free'.
Proof.
  intros Ho Hdis [Hb Hf Hcn Hf4 Hc4 Ht] Hid. unfold Release.
  rewrite Hcn, lookup_fmap, Hid. cbn [fmap option_fmap option_map pool_prefixes pool_basePrefixes].
  pose proof (conn_blocks_delete _ _ _ Hid) as Hp. cbn [fst snd] in Hp.
  rewrite Hp in Hc4. apply Forall_cons_1 in Hc4 as [Hc Hc4]. apply Forall_app in Hc4 as [Hps _].
  rewrite Hf, Hb, <-fmap_delete.
  change (rec_ipNet (record_of (c, ps))) with (net_of c).
  change (rec_prefixes (record_of (c, ps))) with (text <$> ps).
  assert (disjoint_blocks ((free ++ c :: ps) ++ conn_blocks (delete id conns))) as Hd.
  { rewrite <-Ht, Hp in Hdis. rewrite <-app_assoc. done. }
  apply disjoint_app in Hd as [Hd _].
  assert (∃ free1, ReleasePrefixes o (text <$> free) (text <$> ps) = Ret (Ok (text <$> free1)) ∧
            Forall (inet w) free1 ∧ free1 ≈ free ++ ps) as (free1 & -> & Hf1 & Hcov1).
  { destruct (decide (ps = [])) as [->|Hne].
    - exists free. rewrite app_nil_r. done.
    - destruct (ReleasePrefixes_spec w o free ps) as (rs & ? & ? & ? & _); eauto.
      rewrite <-Permutation_middle in Hd. intros x. specialize (Hd x). rewrite cov_cons in Hd. lia. }
  change [net_String (net_of c)] with (text <$> [c]).
  assert (free1 ++ [c] ≈ free ++ c :: ps) as Hcov2.
  { rewrite Hcov1, <-app_assoc. intros x. rewrite !cov_app, (cov_cons c ps). lia. }
  destruct (ReleasePrefixes_spec w o free1 [c]) as (rs & -> & Hrs & Hcov & Hm);
    [done|done|by apply list.Forall_singleton|by rewrite Hcov2|done|].
  exists rs. split_and!; try done. by rewrite Hcov.
Qed.

Lemma Release_inv base impl free conns id c ps free' :
  pool_inv base impl free conns → conns !! id = Some (c, ps) →
  Forall (inet w) free' → free' ≈ free ++ c :: ps →
  pool_inv base (mkPrefixPool (text <$> base) (text <$> free') (record_of <$> delete id conns))
    free' (delete id conns).
Proof.
  intros [Hb Hf Hcn Hf4 Hc4 Ht] Hid Hf' Hcov. pose proof (conn_blocks_delete _ _ _ Hid) as Hp.
  cbn [fst snd] in Hp. split; try done.
  - rewrite Hp in Hc4. apply Forall_cons_1 in Hc4 as [_ Hc4]. by apply Forall_app in Hc4 as [_ ?].
  - rewrite Hcov, <-Ht, Hp. rewrite <-app_assoc. done.
Qed.
End family.
