(* ===== verification/PrefixPoolProps.v ===== *)
(** * Properties of the prefix pool *)
From S2P Require Import Prelude GoStrings GoNet ConnectionContext Cidr PrefixPool PrefixPoolLemmas PrefixPoolMerge PrefixPoolInv.
From stdpp Require Import options.

(** ** Runs of a pool

    One call on the pool; [Extract] is called with an id that holds nothing
    ([Extract_reused_id_leaks] is what happens otherwise). *)
Inductive pool_step : prefixPool → prefixPool → Prop :=
  | step_extract impl id family requests impl' src dst requested :
      pool_connections impl !! id = None →
      Extract impl id family requests = Ret (Ok (impl', src, dst, requested)) →
      pool_step impl impl'
  | step_release impl o id impl' e :
      merge_order_ok o → Release o impl id = Ret (impl', e) → pool_step impl impl'.

Lemma lookup_record (conns : gmap string (cidr * list cidr)) id r :
  (record_of <$> conns) !! id = Some r → ∃ c ps, conns !! id = Some (c, ps) ∧ r = record_of (c, ps).
Proof. rewrite lookup_fmap. intros ([c ps] & Hc & ->)%fmap_Some. eauto. Qed.

Lemma lookup_record_None (conns : gmap string (cidr * list cidr)) id :
  (record_of <$> conns) !! id = None → conns !! id = None.
Proof. rewrite lookup_fmap. by intros ?%fmap_None. Qed.

Lemma pool_step_ok w base impl impl' :
  pool_step impl impl' → pool_ok w base impl → pool_ok w base impl'.
Proof.
  intros Hstep (Hdis & free & conns & Hinv). split; [done|].
  destruct Hstep as [impl id family requests impl' src dst requested Hid E|impl o id impl' e Ho E].
  - destruct (Extract_cases _ _ _ _ _ id family requests Hinv)
      as [[e E']|(c & ps & free' & Hres & E')]; rewrite E' in E; inv_ret.
    pose proof (pi_conns _ _ _ _ _ Hinv) as Hcn. rewrite Hcn in Hid. apply lookup_record_None in Hid.
    eexists _, _. by eapply Extract_inv.
  - pose proof (pi_conns _ _ _ _ _ Hinv) as Hcn. destruct (pool_connections impl !! id) as [r|] eqn:Hid.
    + rewrite Hcn in Hid. apply lookup_record in Hid as (c & ps & Hid & ->).
      destruct (Release_spec _ _ _ _ _ _ _ _ _ Ho Hdis Hinv Hid) as (free' & E' & Hf & Hcov & _).
      rewrite E' in E. inv_ret. eexists _, _. by eapply Release_inv.
    + unfold Release in E. rewrite Hid in E. inv_ret. by exists free, conns.
Qed.

Lemma NewPrefixPool_inv w base :
  Forall (inet w) base → pool_inv w base (NewPrefixPool (text <$> base)) base ∅.
Proof.
  intros Hb. split; try done. change (conn_blocks ∅) with (@nil cidr). by rewrite app_nil_r.
Qed.

Lemma pool_reachable_ok w base impl :
  Forall (inet w) base → disjoint_blocks base →
  rtc pool_step (NewPrefixPool (text <$> base)) impl → pool_ok w base impl.
Proof.
  intros Hb Hd Hr.
  remember (NewPrefixPool (text <$> base)) as p eqn:Hp.
  assert (pool_ok w base p) as Hok by (subst; split; [done|]; eauto using NewPrefixPool_inv).
  clear Hp. induction Hr as [|p q r Hpq _ IH]; [done|]. apply IH. by eapply pool_step_ok.
Qed.

(** The networks a connection holds: its own and its extra prefixes. *)
Definition record_nets (r : connectionRecord) : list IPNet :=
  rec_ipNet r :: omap (λ p, snd <$> ParseCIDR p) (rec_prefixes r).

Lemma record_nets_of w c ps :
  Forall (inet w) ps → record_nets (record_of (c, ps)) = net_of <$> (c :: ps).
Proof.
  intros Hps. unfold record_nets, record_of. cbn [rec_ipNet rec_prefixes fst snd]. rewrite fmap_cons.
  f_equal. induction Hps as [|p ps Hp Hps IH]; [done|]. rewrite !fmap_cons.
  cbn [omap list_omap]. rewrite text_parse by eauto with nsm. cbn. by f_equal.
Qed.

Lemma conn_in_blocks (conns : gmap string (cidr * list cidr)) id c ps d :
  conns !! id = Some (c, ps) → d ∈ c :: ps → d ∈ conn_blocks conns.
Proof.
  intros Hid Hd. rewrite (conn_blocks_delete _ _ _ Hid). cbn [fst snd].
  rewrite app_comm_cons. apply elem_of_app. by left.
Qed.

(** In a consistent pool no address is in two places. *)
Lemma pool_inv_exclusive w base impl free conns id1 id2 c1 ps1 c2 ps2 d1 d2 x :
  disjoint_blocks base → pool_inv w base impl free conns →
  conns !! id1 = Some (c1, ps1) → conns !! id2 = Some (c2, ps2) → id1 ≠ id2 →
  d1 ∈ c1 :: ps1 → d2 ∈ c2 :: ps2 → in_cidr x d1 = true → in_cidr x d2 = true → False.
Proof.
  intros Hdis [_ _ _ _ _ Ht] H1 H2 Hne Hd1 Hd2 Hx1 Hx2.
  pose proof (conn_blocks_delete _ _ _ H1) as Hp. cbn [fst snd] in Hp.
  assert (delete id1 conns !! id2 = Some (c2, ps2)) as H2' by by rewrite lookup_delete_ne.
  specialize (Hdis x). rewrite <-Ht, cov_app, (cov_Permutation _ _ _ Hp), app_comm_cons, cov_app in Hdis.
  pose proof (cov_elem d1 _ x Hd1 Hx1).
  pose proof (cov_elem d2 _ x (conn_in_blocks _ _ _ _ _ H2' Hd2) Hx2). lia.
Qed.

(** ** The properties *)

(** C5: in every pool reached by calls of Extract (with an unused connection
    id) and Release from a new pool over disjoint prefixes of one address
    family (IPv6 ones apart from the IPv4-mapped addresses), whatever the
    iteration order of Go's maps, no address of the family lies in networks
    of two different connections. *)
Theorem pool_connections_share_no_address w base impl id1 id2 r1 r2 n1 n2 x :
  Forall (inet w) base → disjoint_blocks base →
  rtc pool_step (NewPrefixPool (text <$> base)) impl →
  pool_connections impl !! id1 = Some r1 → pool_connections impl !! id2 = Some r2 → id1 ≠ id2 →
  n1 ∈ record_nets r1 → n2 ∈ record_nets r2 → 0 ≤ x < 2 ^ w →
  net_Contains n1 (ip_of w x) && net_Contains n2 (ip_of w x) = false.
Proof.
  intros Hb Hd Hr H1 H2 Hne Hn1 Hn2 Hx.
  destruct (pool_reachable_ok w base impl Hb Hd Hr) as (_ & free & conns & Hinv).
  rewrite (pi_conns _ _ _ _ _ Hinv) in H1, H2.
  apply lookup_record in H1 as (c1 & ps1 & H1 & ->), H2 as (c2 & ps2 & H2 & ->).
  pose proof (pi_conns_inet _ _ _ _ _ Hinv) as H4. rewrite Forall_forall in H4.
  assert (∀ d, d ∈ c1 :: ps1 → inet w d) as Hi1 by eauto using conn_in_blocks.
  assert (∀ d, d ∈ c2 :: ps2 → inet w d) as Hi2 by eauto using conn_in_blocks.
  rewrite (record_nets_of w) in Hn1, Hn2 by (apply Forall_forall; set_solver).
  apply list_elem_of_fmap in Hn1 as (d1 & -> & Hd1), Hn2 as (d2 & -> & Hd2).
  rewrite !(net_Contains_ip_of w) by auto. apply not_true_iff_false. intros [Hx1 Hx2]%andb_true_iff.
  by apply (pool_inv_exclusive w base impl free conns id1 id2 c1 ps1 c2 ps2 d1 d2 (w, x)).
Qed.

(** C26: a new pool over disjoint prefixes of one address family (IPv6 ones
    apart from the IPv4-mapped addresses) never panics and never leaks: in
    every reached pool Extract returns, Release returns, Release of a live
    connection succeeds, and the free prefixes with those of the connections
    tile the base prefixes exactly. *)
Theorem pool_total_and_tiling w base impl :
  Forall (inet w) base → disjoint_blocks base →
  rtc pool_step (NewPrefixPool (text <$> base)) impl →
  (∀ id family requests, ∃ r, Extract impl id family requests = Ret r) ∧
  (∀ o id, merge_order_ok o → ∃ impl' e, Release o impl id = Ret (impl', e) ∧
     (is_Some (pool_connections impl !! id) → e = None ∧ pool_connections impl' = delete id (pool_connections impl))) ∧
  (∃ free conns, pool_prefixes impl = text <$> free ∧ pool_connections impl = record_of <$> conns ∧
     free ++ conn_blocks conns ≈ base).
Proof.
  intros Hb Hd Hr. destruct (pool_reachable_ok w base impl Hb Hd Hr) as (_ & free & conns & Hinv).
  split_and!.
  - intros id family requests.
    destruct (Extract_cases _ _ _ _ _ id family requests Hinv) as [[e ->]|(c & ps & free' & _ & ->)]; eauto.
  - intros o id Ho. pose proof (pi_conns _ _ _ _ _ Hinv) as Hcn.
    destruct (pool_connections impl !! id) as [r|] eqn:Hid.
    + rewrite Hcn in Hid. apply lookup_record in Hid as (c & ps & Hid & ->).
      destruct (Release_spec _ _ _ _ _ _ _ _ _ Ho Hd Hinv Hid) as (free' & -> & _).
      eexists _, _. split; [done|]. intros _. split; [done|]. simpl. by rewrite Hcn, fmap_delete.
    + unfold Release. rewrite Hid. eexists _, _. split; [done|]. by intros [? ?].
  - exists free, conns. destruct Hinv. auto.
Qed.

(** From a consistent pool whose free prefixes are fully merged,
    extracting prefixes for a new connection and releasing them gives back
    the same connections and, up to order, the same free prefixes. *)
Lemma extract_release_roundtrip w base impl free conns o id family requests impl1 src dst requested :
  merge_order_ok o → disjoint_blocks base → pool_inv w base impl free conns → merged free →
  pool_connections impl !! id = None →
  Extract impl id family requests = Ret (Ok (impl1, src, dst, requested)) →
  ∃ impl2, Release o impl1 id = Ret (impl2, None) ∧
    pool_prefixes impl2 ≡ₚ pool_prefixes impl ∧ pool_connections impl2 = pool_connections impl.
Proof.
  intros Ho Hd Hinv Hm Hid E.
  destruct (Extract_cases _ _ _ _ _ id family requests Hinv)
    as [[e E']|(c & ps & free' & Hres & E')]; rewrite E' in E; inv_ret.
  pose proof (pi_conns _ _ _ _ _ Hinv) as Hcn. rewrite Hcn in Hid. apply lookup_record_None in Hid.
  pose proof (Extract_inv _ _ _ _ _ _ _ _ _ _ Hinv Hid Hres) as Hinv1.
  destruct (Release_spec w base _ free' (<[id := (c, ps)]> conns) o id c ps Ho Hd Hinv1)
    as (free2 & -> & Hf2 & Hcov & Hm2); [apply lookup_insert_eq|].
  eexists. split; [done|]. cbn [pool_prefixes pool_connections].
  rewrite delete_insert_id by done. split; [|done]. rewrite (pi_free _ _ _ _ _ Hinv).
  f_equiv. destruct Hres as [_ _ _ _ Hcov1].
  assert (free2 ≈ free) as Heq.
  { rewrite Hcov, <-Hcov1. intros x. rewrite cov_app, app_comm_cons, cov_app. lia. }
  apply merged_unique; try done; [by apply (Forall_inet_valid w)|apply (Forall_inet_valid w); by destruct Hinv|].
  destruct Hinv as [_ _ _ _ _ Ht]. rewrite Heq. rewrite <-Ht in Hd. by apply disjoint_app in Hd as [? _].
Qed.

(** C27: ReleasePrefixes on disjoint prefixes of one address family (IPv6 ones
    apart from the IPv4-mapped addresses) always returns; the result covers
    exactly the addresses of both lists, holds no two mergeable siblings, and does not depend on the iteration order of Go's maps except
    for the order of its elements. *)
Theorem ReleasePrefixes_canonical w o1 o2 cs ds :
  merge_order_ok o1 → merge_order_ok o2 →
  Forall (inet w) cs → Forall (inet w) ds → disjoint_blocks (cs ++ ds) → ds ≠ [] →
  ∃ rs1 rs2, ReleasePrefixes o1 (text <$> cs) (text <$> ds) = Ret (Ok (text <$> rs1)) ∧
    ReleasePrefixes o2 (text <$> cs) (text <$> ds) = Ret (Ok (text <$> rs2)) ∧
    rs1 ≡ₚ rs2 ∧ rs1 ≈ cs ++ ds ∧ merged rs1.
Proof.
  intros Ho1 Ho2 Hcs Hds Hdis Hne.
  destruct (ReleasePrefixes_spec w o1 cs ds) as (rs1 & E1 & H1 & Hc1 & Hm1); [done..|].
  destruct (ReleasePrefixes_spec w o2 cs ds) as (rs2 & E2 & H2 & Hc2 & Hm2); [done..|].
  exists rs1, rs2. split_and!; try done.
  apply merged_unique; try done; [by apply (Forall_inet_valid w)..|by rewrite Hc1|by rewrite Hc1, Hc2].
Qed.

(** C28: on prefixes of one address family (IPv6 ones apart from the
    IPv4-mapped addresses) ExtractPrefix finds a prefix of the wanted length
    exactly when some free prefix is at least as large; it then returns a prefix of exactly
    that length and leaves the rest of the addresses, none lost and none
    twice.  Otherwise it returns an error; it never panics or loops. *)
Theorem ExtractPrefix_complete w cs L :
  Forall (inet w) cs → 0 < L →
  ((L ≤ w ∧ ∃ c, c ∈ cs ∧ c_len c ≤ L) ∧
     ∃ c cs', ExtractPrefix (text <$> cs) L = Ret (Ok (text c, text <$> cs')) ∧
       c_len c = L ∧ Forall (inet w) (c :: cs') ∧ c :: cs' ≈ cs) ∨
  (¬ (L ≤ w ∧ ∃ c, c ∈ cs ∧ c_len c ≤ L) ∧
     ∃ e, ExtractPrefix (text <$> cs) L = Ret (Err e)).
Proof.
  intros Hcs HL. destruct (decide (L ≤ w ∧ Exists (λ c, c_len c ≤ L) cs)) as [[? He]|Hno].
  - left. apply Exists_exists in He. split; [done|].
    destruct (ExtractPrefix_ok w L cs) as (c & cs' & E & Hc & Hcs' & Hl & Hcov); [done|lia|done|].
    exists c, cs'. split_and!; try done. by constructor.
  - right. rewrite Exists_exists in Hno. split; [done|]. apply (ExtractPrefix_err w); [done|done|].
    destruct (decide (w < L)) as [|Hl]; [by left|right]. intros c Hc.
    destruct (decide (L < c_len c)); [done|]. exfalso. apply Hno. split; [lia|]. exists c. split; [done|lia].
Qed.

(** A successful ExtractPrefixes answers valid requests only, with the
    required number of prefixes of each request first and then at most the
    requested number in all; results and remaining prefixes cover exactly
    the addresses of the free prefixes. *)
Lemma ExtractPrefixes_counts w cs requests :
  Forall (inet w) cs →
  (∃ e, ExtractPrefixes (text <$> cs) requests = Ret (Err e)) ∨
  (∃ rs ds cs' ms, requests = Some <$> rs ∧ Forall request_ok rs ∧
     ExtractPrefixes (text <$> cs) requests = Ret (Ok (text <$> ds, text <$> cs')) ∧
     ds ++ cs' ≈ cs ∧ Forall (inet w) (ds ++ cs') ∧
     Forall2 (λ m r, (required_count r + m ≤ requested_count r)%nat) ms rs ∧
     c_len <$> ds = lengths_of required_count rs
                    ++ mjoin (zip_with (λ m r, replicate m (epr_PrefixLen r)) ms rs)).
Proof.
  intros Hcs. destruct (ExtractPrefixes_cases w cs requests Hcs)
    as [?|(rs & ds & cs' & -> & Hrs & E & _ & ms & Hms & Hd & Hcs' & HL & Hcov)]; [by left|right].
  exists rs, ds, cs', ms. split_and!; try done; [by apply Forall_app|].
  clear -Hms Hrs. induction Hms as [|m r ms rs Hm _ IH]; [constructor|].
  apply Forall_cons_1 in Hrs as [[Hr _] Hrs]. constructor; [|by apply IH].
  unfold required_count, requested_count in *. lia.
Qed.

(** The first and the last address of a block. *)
Lemma AddressRange_net_of c :
  valid c → c_len c < c_bits c →
  AddressRange (net_of c)
  = Ret (net_IP (net_of c), be_bytes (Z.to_nat (c_bits c `div` 8)) (c_val c + blk c - 1)).
Proof.
  intros Hc Hl. pose proof (valid_end _ Hc) as He. unfold AddressRange.
  rewrite net_of_Size by done. cbn iota beta. rewrite (proj2 (Z.eqb_neq _ _)) by lia.
  rewrite fromIP_net_of by done. cbn iota beta. destruct Hc as (_ & Hlen & Hv & [q Hq]).
  unfold blk in *. set (h := c_bits c - c_len c) in *.
  assert (Z.shiftl 1 h - 1 = Z.ones h) as -> by (rewrite Z.ones_equiv, Z.shiftl_1_l; lia).
  assert (Z.lor (Z.ones h) (c_val c) = c_val c + 2 ^ h - 1) as ->.
  { rewrite Z.lor_comm, <-Z.add_nocarry_lor, Z.ones_equiv; [lia|].
    rewrite Z.land_ones, Hq by lia. apply Z.mod_mul. apply Z.pow_nonzero; lia. }
  unfold toIP. by rewrite (proj2 (Z.ltb_lt _ _)) by lia.
Qed.

(** The addresses Extract hands out are the first and second host address of
    a network of the length of the asked family (30 bits whenever the pool is
    an IPv4 pool): both inside the network recorded for the connection,
    neither its first nor its last address. *)
Lemma Extract_addresses w base impl free conns id family requests impl' src dst requested :
  pool_inv w base impl free conns →
  Extract impl id family requests = Ret (Ok (impl', src, dst, requested)) →
  ∃ c, inet w c ∧ c_len c = endpoint_len family ∧ (w = 32 → c_len c = 30) ∧
    src = mkIPNet (ip_of w (c_val c + 1)) (net_Mask (net_of c)) ∧
    dst = mkIPNet (ip_of w (c_val c + 2)) (net_Mask (net_of c)) ∧
    net_Contains (net_of c) (net_IP src) = true ∧ net_Contains (net_of c) (net_IP dst) = true ∧
    pool_connections impl' !! id = Some (mkConnectionRecord (net_of c) requested) ∧
    ∃ last, AddressRange (net_of c)
      = Ret (be_bytes (Z.to_nat (w `div` 8)) (c_val c), be_bytes (Z.to_nat (w `div` 8)) last) ∧
      c_val c + 2 < last < 2 ^ w.
Proof.
  intros Hinv E. destruct (Extract_cases _ _ _ _ _ id family requests Hinv)
    as [[e E']|(c & ps & free' & [Hc Hl _ _ _] & E')]; rewrite E' in E; inv_ret.
  exists c. pose proof Hc as (Hval & Hb & _). pose proof (valid_end _ Hval) as He. rewrite Hb in He.
  destruct (endpoint_blk _ _ _ Hc Hl) as (Hblk & Hlt & H30).
  assert (0 ≤ c_val c) by (destruct Hval as (_ & _ & ? & _); lia).
  assert (∀ i, 0 ≤ i < 4 → net_Contains (net_of c) (ip_of w (c_val c + i)) = true) as Hin.
  { intros i Hi. rewrite net_Contains_ip_of by (done || lia). apply in_cidr_spec. cbn [fst snd]. lia. }
  split_and!; try done; [apply Hin; lia..|by cbn; rewrite lookup_insert_eq|].
  rewrite AddressRange_net_of by (done || lia). exists (c_val c + blk c - 1).
  unfold net_of. rewrite Hb. split; [done|lia].
Qed.

(** ** What the pool does not promise *)

(** The pool after a successful Extract, and after a Release. *)
Definition pool_of (r : outcome (result (prefixPool * IPNet * IPNet * list string))) : prefixPool :=
  match r with Ret (Ok (p, _, _, _)) => p | _ => NewPrefixPool [] end.
Definition succeeds (r : outcome (result (prefixPool * IPNet * IPNet * list string))) : bool :=
  match r with Ret (Ok _) => true | _ => false end.

Lemma pool_of_eq r : succeeds r = true → ∃ src dst q, r = Ret (Ok (pool_of r, src, dst, q)).
Proof. destruct r as [[[[[p s] d] q]|]|]; try done. simpl. eauto. Qed.

(** Extract on an id that already holds prefixes forgets them: they are
    neither free nor held, and releasing the id does not bring them back. *)
Lemma Extract_reused_id_leaks :
  let p0 := NewPrefixPool ["10.20.0.0/29"] in
  let p1 := pool_of (Extract p0 "1" IpFamily_IPV4 []) in
  let p2 := pool_of (Extract p1 "1" IpFamily_IPV4 []) in
  succeeds (Extract p0 "1" IpFamily_IPV4 []) = true ∧
  succeeds (Extract p1 "1" IpFamily_IPV4 []) = true ∧
  match Release default_order p2 "1" with
  | Ret (p3, None) => pool_prefixes p3 = ["10.20.0.4/30"] ∧ size (pool_connections p3) = 0%nat
  | _ => False
  end.
Proof. split_and!; vm_compute; [done..|split; reflexivity]. Qed.

(** An unparsable prefix among the free ones makes Release fail after it
    dropped the record of the connection: its network is lost. *)
Lemma Release_error_drops_record :
  let p0 := NewPrefixPool ["10.20.0.0/24"; "10.20.1.0"] in
  let p1 := pool_of (Extract p0 "1" IpFamily_IPV4 []) in
  succeeds (Extract p0 "1" IpFamily_IPV4 []) = true ∧
  match Release default_order p1 "1" with
  | Ret (p2, Some _) => size (pool_connections p2) = 0%nat ∧
                      bool_decide ("10.20.0.0/30" ∈ pool_prefixes p2) = false
  | _ => False
  end.
Proof. split; vm_compute; [done|split; reflexivity]. Qed.

(** The address family of a request is checked but not used: an IPv4 request
    for a /120-sized number of bits takes an IPv6 prefix and the other way
    round. *)
Lemma ExtractPrefixes_ignores_family :
  ExtractPrefixes ["fd00::/16"] [Some (mkExtraPrefixRequest (Some IpFamily_IPV4) 16 1 1)]
  = Ret (Ok (["fd00::/16"], [])).
Proof. vm_compute. reflexivity. Qed.

(** An IPv6 prefix that holds IPv4-mapped addresses turns into an IPv4 one: the
    upper half of ::fffe:0:0/95 goes back to the free prefixes as the whole
    IPv4 address space. *)
Lemma ExtractPrefix_mapped_escapes :
  ExtractPrefix ["::fffe:0:0/95"] 96 = Ret (Ok ("::fffe:0:0/96", ["0.0.0.0/0"])).
Proof. vm_compute. reflexivity. Qed.

(** The address count of a large IPv6 prefix is 0: the shift leaves uint64. *)
Lemma addressCount_wraps : addressCount "fd00::/64" = Ret 0.
Proof. vm_compute. reflexivity. Qed.

(** ** Witnesses *)
Definition demo_base : list cidr := [mkCidr 32 169082880 24].
Definition demo_pool : prefixPool := NewPrefixPool ["10.20.0.0/24"].
Definition demo_pool1 : prefixPool := pool_of (Extract demo_pool "1" IpFamily_IPV4 []).
Definition demo_pool2 : prefixPool :=
  pool_of (Extract demo_pool1 "2" IpFamily_IPV4
             [Some (mkExtraPrefixRequest (Some IpFamily_IPV4) 28 1 2)]).

Definition inetb (w : Z) (c : cidr) : bool :=
  ((w =? 32) || (w =? 128)) && (c_bits c =? w) && (0 <=? c_len c) && (c_len c <=? w) && (0 <=? c_val c)
  && (c_val c <? 2 ^ w) && (c_val c `mod` blk c =? 0)
  && ((w =? 32) || (c_val c + blk c <=? mapped_lo) || (mapped_hi <=? c_val c)).

Lemma blocks_inet w l : forallb (inetb w) l = true → Forall (inet w) l.
Proof.
  induction l as [|c l IH]; [constructor|]. cbn [forallb]. unfold inetb at 1. rewrite !andb_true_iff.
  intros [(((((((Hw & Hb) & Hl) & Hl') & Hv) & Hv') & Hm) & Ho) H]. constructor; [|auto].
  apply Z.eqb_eq in Hb. subst w. split_and!; [|done|lia]. split; [lia|].
  split; [lia|]. split; [lia|]. apply Z.mod_divide; [|lia].
  unfold blk. apply Z.pow_nonzero; lia.
Qed.

Lemma demo_base_ok : Forall (inet 32) demo_base.
Proof. apply blocks_inet. reflexivity. Qed.
Lemma demo_base_disjoint : disjoint_blocks demo_base.
Proof. intros x. unfold demo_base, cov. simpl. case_match; lia. Qed.
Lemma default_order_ok : merge_order_ok default_order.
Proof. by split. Qed.

Lemma demo_step1 : pool_step demo_pool demo_pool1.
Proof.
  destruct (pool_of_eq (Extract demo_pool "1" IpFamily_IPV4 [])) as (s & d & q & E); [vm_compute; done|].
  eapply (step_extract demo_pool "1" IpFamily_IPV4 []); [done|exact E].
Qed.

Lemma demo_run : rtc pool_step (NewPrefixPool (text <$> demo_base)) demo_pool2.
Proof.
  apply (rtc_l _ _ demo_pool1); [exact demo_step1|].
  destruct (pool_of_eq (Extract demo_pool1 "2" IpFamily_IPV4
    [Some (mkExtraPrefixRequest (Some IpFamily_IPV4) 28 1 2)])) as (s & d & q & E); [vm_compute; done|].
  apply rtc_once. eapply step_extract; [|exact E]. vm_compute; done.
Qed.

Lemma demo_inv : pool_inv 32 demo_base demo_pool demo_base ∅.
Proof. exact (NewPrefixPool_inv 32 demo_base demo_base_ok). Qed.

Definition demo_record (id : string) : connectionRecord :=
  default (mkConnectionRecord (net_of (mkCidr 32 0 0)) []) (pool_connections demo_pool2 !! id).
Lemma demo_record_eq id :
  bool_decide (is_Some (pool_connections demo_pool2 !! id)) = true →
  pool_connections demo_pool2 !! id = Some (demo_record id).
Proof. intros [r Hr]%bool_decide_eq_true. unfold demo_record. by rewrite Hr. Qed.

Lemma pool_connections_share_no_address_witness :
  net_Contains (rec_ipNet (demo_record "1")) (ip_of 32 169082881)
  && net_Contains (rec_ipNet (demo_record "2")) (ip_of 32 169082881) = false.
Proof.
  apply (pool_connections_share_no_address 32 demo_base demo_pool2 "1" "2" (demo_record "1") (demo_record "2")
           _ _ 169082881 demo_base_ok demo_base_disjoint demo_run);
    [apply demo_record_eq; vm_compute; reflexivity|apply demo_record_eq; vm_compute; reflexivity
    |discriminate|left|left|split; [lia|reflexivity]].
Defined.

Lemma pool_total_and_tiling_witness :
  ∃ r, Extract demo_pool2 "3" IpFamily_IPV4 [] = Ret r.
Proof.
  exact (proj1 (pool_total_and_tiling 32 demo_base demo_pool2 demo_base_ok demo_base_disjoint demo_run)
           "3" IpFamily_IPV4 []).
Defined.

(** fd00:: *)
Definition ula : Z := Z.shiftl 64768 112.

Lemma ReleasePrefixes_canonical_witness :
  ∃ rs1 rs2, ReleasePrefixes default_order ["fd00::/64"] ["fd00:0:0:1::/64"] = Ret (Ok (text <$> rs1)) ∧
    ReleasePrefixes default_order ["fd00::/64"] ["fd00:0:0:1::/64"] = Ret (Ok (text <$> rs2)) ∧
    rs1 ≡ₚ rs2 ∧ rs1 ≈ [mkCidr 128 ula 64; mkCidr 128 (ula + 2 ^ 64) 64] ∧ merged rs1.
Proof.
  apply (ReleasePrefixes_canonical 128 default_order default_order
           [mkCidr 128 ula 64] [mkCidr 128 (ula + 2 ^ 64) 64] default_order_ok default_order_ok);
    [apply blocks_inet; reflexivity|apply blocks_inet; reflexivity| |discriminate].
  intros x. unfold cov, in_cidr, blk. cbn [app sum_list_with c_bits c_val c_len].
  change (2 ^ (128 - 64)) with (2 ^ 64). generalize ula. intros v. repeat case_match; lia.
Defined.

Lemma ExtractPrefix_complete_witness :
  ∃ c cs', ExtractPrefix ["fd00::/16"] 64 = Ret (Ok (text c, text <$> cs')) ∧ c_len c = 64.
Proof.
  destruct (ExtractPrefix_complete 128 [mkCidr 128 ula 16] 64) as [[_ (c & cs' & E & Hl & _)]|[Hno _]].
  - apply blocks_inet. reflexivity.
  - reflexivity.
  - exists c, cs'. by split.
  - exfalso. apply Hno. split; [lia|]. exists (mkCidr 128 ula 16). split; [left|simpl; lia].
Defined.
