(* ===== verification/Converter.v ===== *)
(** * Converters of the vpp-agent dataplane (dataplane/vppagent/pkg/converter)

    A cross connect becomes one request to the vpp-agent: an interface per
    end, and a pair of one-way cross connects between them.  The records are
    the parts of the agent's messages that the converters fill in.  The type
    and the type-specific part of an interface are one constructor. *)
From Stdlib Require Import Ascii.
From S2P Require Import Prelude GoStrings GoNet ConnectionContext Apis.

(** ** Key-value strings (pkg/tools/tools.go) *)
Definition parseKV (kv : string) (kvsep : Ascii.ascii) : string * string :=
  match Split kv kvsep with
  | [k; v] => (Trim k, Trim v)
  | _ => (Trim "", Trim "")
  end.
Definition ParseKVStringToMap (input : string) (sep kvsep : Ascii.ascii) : gmap string string :=
  foldl (λ result pair, let '(k, v) := parseKV pair kvsep in <[k := v]> result) ∅ (Split input sep).

(** ** Messages of the vpp-agent *)
Inductive VppLink :=
  | TapV2 (HostIfName : string)
  | Afpacket (HostIfName : string)
  | Memif (Master : bool) (SocketFilename : string)
  | VxlanTunnel (SrcAddress DstAddress : string) (Vni : Z).
Record VppInterface := mkVppInterface {
  if_Name : string;
  if_Enabled : bool;
  if_IpAddresses : list string;
  if_Link : VppLink
}.
Inductive LinuxLink :=
  | AutoTap (TempIfName : string)
  | Veth (PeerIfName : string).
Record LinuxInterface := mkLinuxInterface {
  lif_Name : string;
  lif_Enabled : bool;
  lif_Description : string;
  lif_IpAddresses : list string;
  lif_HostIfName : string;
  lif_Namespace : option string;     (* the file of the namespace *)
  lif_Link : LinuxLink
}.
Record LinuxRoute := mkLinuxRoute {
  lrt_Name : string;
  lrt_DstIpAddr : string;
  lrt_Description : string;
  lrt_Interface : string;
  lrt_Namespace : string;
  lrt_GwAddr : string
}.
Record LinuxArpEntry := mkLinuxArpEntry {
  arp_Name : string;
  arp_IpAddr : string;
  arp_Interface : string;
  arp_HwAddress : string;
  arp_Namespace : string
}.
Record StaticRoute := mkStaticRoute {
  srt_DstIpAddr : string;
  srt_Description : string;
  srt_NextHopAddr : string;
  srt_OutgoingInterface : string
}.
Record XConnectPair := mkXConnectPair { xc_Receive : string; xc_Transmit : string }.

Record PortRange := mkPortRange { pr_LowerPort : Z; pr_UpperPort : Z }.
Record IcmpRule := mkIcmpRule { icmp_CodeRange : Z * Z; icmp_TypeRange : Z * Z }.
Record IpRule := mkIpRule {
  ipr_Ip : option (string * string);             (* destination and source network *)
  ipr_Icmp : option IcmpRule;
  ipr_Tcp : option (PortRange * PortRange);      (* destination and source ports *)
  ipr_Udp : option (PortRange * PortRange)
}.
Record AclRule := mkAclRule { acl_RuleName : string; acl_Action : Z; acl_Match : IpRule }.
Record Acl := mkAcl { acl_Name : string; acl_Rules : list AclRule; acl_Egress : list string; acl_Ingress : list string }.

Record DataRequest := mkDataRequest {
  dr_Interfaces : list VppInterface;
  dr_LinuxInterfaces : list LinuxInterface;
  dr_LinuxRoutes : list LinuxRoute;
  dr_LinuxArpEntries : list LinuxArpEntry;
  dr_StaticRoutes : list StaticRoute;
  dr_XCons : list XConnectPair;
  dr_AccessLists : list Acl
}.
Definition empty_DataRequest : DataRequest := mkDataRequest [] [] [] [] [] [] [].
Definition dr_app (a b : DataRequest) : DataRequest :=
  mkDataRequest (dr_Interfaces a ++ dr_Interfaces b) (dr_LinuxInterfaces a ++ dr_LinuxInterfaces b)
    (dr_LinuxRoutes a ++ dr_LinuxRoutes b) (dr_LinuxArpEntries a ++ dr_LinuxArpEntries b)
    (dr_StaticRoutes a ++ dr_StaticRoutes b) (dr_XCons a ++ dr_XCons b) (dr_AccessLists a ++ dr_AccessLists b).

(** What [ToDataRequest] returns: the request, which can be nil, and an error. *)
Definition converted : Type := option DataRequest * option error.
(** The converters append to the request in place. *)
Definition appending (rv : option DataRequest) (more : DataRequest) : converted :=
  (Some (dr_app (default empty_DataRequest rv) more), None).

(** ** Parameters (converter.go) *)
Inductive ConnectionContextSide := NEITHER | SOURCE | DESTINATION.
#[global] Instance ConnectionContextSide_eq_dec : EqDecision ConnectionContextSide.
Proof. solve_decision. Defined.
Record ConnectionConversionParameters := mkParameters {
  cp_Terminate : bool;
  cp_Side : ConnectionContextSide;
  cp_Name : string;
  cp_BaseDir : string
}.

(** The host: the file of a network namespace by inode, whether
    /dev/vhost-net exists, making a directory, and the unique id that is
    generated while an interface is converted. *)
Record Host := mkHost {
  host_resolve : Z → result string;
  host_vhost_net : bool;
  host_mkdir : string → option error;
  host_xid : string → string
}.

Definition substring_from (n : nat) (s : string) : string := String.substring n (String.length s - n) s.
(** [TempIfName]: the first seven and the last four characters of an id. *)
Definition TempIfName (guid : string) : outcome string :=
  if decide (String.length guid < 16)%nat then Panic "slice bounds out of range"
  else Ret (String.substring 0 7 guid +:+ substring_from 16 guid).

Definition extractCleanIPAddress (addr : string) : string :=
  match ParseCIDR addr with
  | Some (ip, _) => ip_String ip
  | None => addr
  end.

Definition indexed_name (name kind : string) (idx : nat) : string :=
  name +:+ kind +:+ FormatUint (Z.of_nat idx) 10.

(** ** Kernel interfaces (kernel_connection_converter.go) *)
Definition kernel_addresses (side : ConnectionContextSide) (ctx : ConnectionContext) : list string :=
  match side with
  | DESTINATION => [ctx_DstIpAddr ctx]
  | SOURCE => [ctx_SrcIpAddr ctx]
  | NEITHER => []
  end.
Definition kernel_routes (name filepath : string) (ctx : ConnectionContext) : list LinuxRoute :=
  imap (λ idx route, mkLinuxRoute (indexed_name name "_route_" idx) (route_Prefix route)
    ("Route to " +:+ route_Prefix route) name filepath (extractCleanIPAddress (ctx_DstIpAddr ctx))) (ctx_Routes ctx).
Definition kernel_neighbors (name filepath : string) (ctx : ConnectionContext) : list LinuxArpEntry :=
  imap (λ idx nb, mkLinuxArpEntry (indexed_name name "_arp_" idx) (nb_Ip nb) name (nb_HardwareAddress nb) filepath)
    (ctx_IpNeighbors ctx).
(** The interfaces of both kinds: a tap, or a pair of veths with a packet
    socket on one of them. *)
Definition kernel_interfaces (vhost_net : bool) (name tmpIface filepath : string) (addrs : list string)
    (m : option LocalMechanism) : list VppInterface * list LinuxInterface :=
  let description := lm_param InterfaceDescriptionKey m in
  let ifname := lm_param InterfaceNameKey m in
  if vhost_net then
    ([mkVppInterface name true [] (TapV2 tmpIface)],
     [mkLinuxInterface name true description addrs ifname (Some filepath) (AutoTap tmpIface)])
  else
    ([mkVppInterface name true [] (Afpacket tmpIface)],
     [mkLinuxInterface tmpIface true description addrs tmpIface None (Veth ifname);
      mkLinuxInterface name true description addrs ifname (Some filepath) (Veth tmpIface)]).

Definition kernel_ToDataRequest (host : Host) (c : LocalConnection) (p : ConnectionConversionParameters)
    (rv : option DataRequest) (connect : bool) : outcome converted :=
  match lc_IsComplete (Some c) with
  | Some e => Ret (rv, Some e)
  | None =>
      if decide (lm_Type <$> lc_Mechanism c = Some KERNEL_INTERFACE) then
        let filepath := lm_NetNsFileName (host_resolve host) (lc_Mechanism c) in
        match filepath, connect with
        | Err e, true => Ret (None, Some e)
        | _, _ =>
            let filepath := match filepath with Ok f => f | Err _ => "" end in
            match TempIfName (host_xid host (cp_Name p)), lc_Context c with
            | Panic w, _ => Panic w
            | _, None => Panic "nil pointer dereference"
            | Ret tmpIface, Some ctx =>
                let '(ifs, lifs) := kernel_interfaces (host_vhost_net host) (cp_Name p) tmpIface filepath
                                      (kernel_addresses (cp_Side p) ctx) (lc_Mechanism c) in
                let is_source := bool_decide (cp_Side p = SOURCE) in
                Ret (appending rv (mkDataRequest ifs lifs
                  (if is_source then kernel_routes (cp_Name p) filepath ctx else [])
                  (if is_source then kernel_neighbors (cp_Name p) filepath ctx else []) [] [] []))
            end
        end
      else Ret (rv, Some (Errorf "KernelConnectionConverter cannot be used on Connection.Mechanism.Type %s"))
  end.

(** ** Shared memory interfaces (memif_interface_converter.go) *)
Definition memif_socket (c : LocalConnection) (p : ConnectionConversionParameters) : string :=
  path_Join [cp_BaseDir p; lm_GetSocketFilename (lc_Mechanism c)].
Definition memif_isMaster (p : ConnectionConversionParameters) : bool :=
  if decide (cp_Side p = DESTINATION) then cp_Terminate p else negb (cp_Terminate p).
(** The addresses, which only a terminating end carries. *)
Definition memif_addresses (c : LocalConnection) (p : ConnectionConversionParameters) : outcome (list string) :=
  match cp_Terminate p, cp_Side p, lc_Context c with
  | true, DESTINATION, Some ctx => Ret [ctx_DstIpAddr ctx]
  | true, SOURCE, Some ctx => Ret [ctx_SrcIpAddr ctx]
  | true, NEITHER, _ | false, _, _ => Ret []
  | _, _, None => Panic "nil pointer dereference"
  end.
Definition memif_routes (name : string) (ctx : option ConnectionContext) : list StaticRoute :=
  match ctx with
  | None => []
  | Some ctx => (λ route, mkStaticRoute (route_Prefix route) ("Route to " +:+ route_Prefix route)
                            (extractCleanIPAddress (ctx_DstIpAddr ctx)) name) <$> ctx_Routes ctx
  end.

Definition memif_ToDataRequest (host : Host) (c : LocalConnection) (p : ConnectionConversionParameters)
    (rv : option DataRequest) (connect : bool) : outcome converted :=
  let socket := memif_socket c p in
  match (if memif_isMaster p then host_mkdir host (path_Dir socket) else None) with
  | Some e => Ret (None, Some e)
  | None =>
      match memif_addresses c p with
      | Panic w => Panic w
      | Ret addrs =>
          if decide (cp_Name p = "") then
            Ret (None, Some (Errorf "ConnnectionConversionParameters.Name cannot be empty"))
          else
            Ret (appending rv (mkDataRequest
              [mkVppInterface (cp_Name p) true addrs (Memif (memif_isMaster p) (path_Join [socket]))] [] [] []
              (if decide (cp_Side p = SOURCE) then memif_routes (cp_Name p) (lc_Context c) else []) [] []))
      end
  end.

(** ** Tunnels (remote_connection_converter.go) *)
Definition or_empty (r : result string) : string := match r with Ok s => s | Err _ => "" end.
Definition remote_ToDataRequest (c : RemoteConnection) (name : string) (side : ConnectionContextSide)
    (rv : option DataRequest) : converted :=
  match rc_IsComplete (Some c) with
  | Some e => (rv, Some e)
  | None =>
      if decide (rm_Type <$> rc_Mechanism c = Some VXLAN) then
        let m := rc_Mechanism c in
        let srcip := or_empty (if decide (side = SOURCE) then rm_DstIP m else rm_SrcIP m) in
        let dstip := or_empty (if decide (side = SOURCE) then rm_SrcIP m else rm_DstIP m) in
        let vni := match rm_VNI m with Ok v => v | Err _ => 0 end in
        appending rv (mkDataRequest [mkVppInterface name true [] (VxlanTunnel srcip dstip vni)] [] [] [] [] [] [])
      else (rv, Some (Errorf "RemoteConnectionConverter supports only VXLAN. Attempt to use Connection.Mechanism.Type %s"))
  end.

(** ** Choosing a converter (local_connection_converter.go) *)

(** There is no converter for the other mechanisms: calling the nil interface panics. *)
Definition local_ToDataRequest (host : Host) (c : LocalConnection) (p : ConnectionConversionParameters)
    (rv : option DataRequest) (connect : bool) : outcome converted :=
  match lm_Type <$> lc_Mechanism c with
  | Some KERNEL_INTERFACE => kernel_ToDataRequest host c p rv connect
  | Some MEM_INTERFACE => memif_ToDataRequest host c p rv connect
  | _ => Panic "nil pointer dereference"
  end.

(** ** Cross connects (cross_connect_converter.go) *)
Definition convert_end (host : Host) (baseDir id prefix : string) (side : ConnectionContextSide)
    (c : option NSMConnection) (rv : DataRequest) (connect : bool) : outcome converted :=
  match c with
  | None => Ret (Some rv, None)
  | Some (LocalConn c) =>
      let p := mkParameters false side (prefix +:+ id) (path_Join [baseDir; lm_GetWorkspace (lc_Mechanism c)]) in
      local_ToDataRequest host c p (Some rv) connect
  | Some (RemoteConn c) => Ret (remote_ToDataRequest c (prefix +:+ id) side (Some rv))
  end.
Definition last_two {A} (l : list A) : option (A * A) :=
  match reverse l with b :: a :: _ => Some (a, b) | _ => None end.

Definition xcon_ToDataRequest (host : Host) (baseDir : string) (c : CrossConnect) (rv : option DataRequest)
    (connect : bool) : outcome converted :=
  match xcon_IsComplete (Some c) with
  | Some e => Ret (rv, Some e)
  | None =>
      let fail e := Some (Wrapf "Error Converting CrossConnect %v: %s" e) in
      match convert_end host baseDir (xcon_Id c) "SRC-" SOURCE (xcon_Source c) (default empty_DataRequest rv) connect with
      | Panic w => Panic w
      | Ret (rv, Some e) => Ret (rv, fail e)
      | Ret (None, None) => Panic "nil pointer dereference"
      | Ret (Some rv, None) =>
          match convert_end host baseDir (xcon_Id c) "DST-" DESTINATION (xcon_Destination c) rv connect with
          | Panic w => Panic w
          | Ret (rv, Some e) => Ret (rv, fail e)
          | Ret (None, None) => Panic "nil pointer dereference"
          | Ret (Some rv, None) =>
              match last_two (dr_Interfaces rv) with
              | None => Ret (None, Some (Errorf "Did not create enough interfaces to cross connect, expected at least 2, got %d"))
              | Some (a, b) =>
                  Ret (appending (Some rv) (mkDataRequest [] [] [] [] []
                    [mkXConnectPair (if_Name a) (if_Name b); mkXConnectPair (if_Name b) (if_Name a)] []))
              end
          end
      end
  end.

(** ** Access lists (acl_converter.go) *)
Section acl.
Context (AclAction_value : gmap string Z).

Definition getAction (parsed : gmap string string) : result Z :=
  match parsed !! "action" with
  | None => Err (Errorf "Rule should have 'action' set.")
  | Some action_name =>
      match AclAction_value !! ToUpper action_name with
      | None => Err (Errorf "Rule should have a valid 'action'.")
      | Some action => Ok action
      end
  end.

(** A network that is given has to be a CIDR. *)
Definition bad_cidr (net : option string) : bool :=
  match net with None => false | Some n => match ParseCIDR n with None => true | Some _ => false end end.
Definition getIp (parsed : gmap string string) : result (option (string * string)) :=
  let dstNet := parsed !! "dstnet" in
  let srcNet := parsed !! "srcnet" in
  if bad_cidr dstNet then Err (Errorf "dstnet is not a valid CIDR [%v]. Failed with: %v")
  else if bad_cidr srcNet then Err (Errorf "srcnet is not a valid CIDR [%v]. Failed with: %v")
  else match dstNet, srcNet with
       | None, None => Ok None
       | _, _ => Ok (Some (default "" dstNet, default "" srcNet))
       end.

Definition getIcmp (parsed : gmap string string) : result (option IcmpRule) :=
  match parsed !! "icmptype" with
  | None => Ok None
  | Some icmpType =>
      match ParseUint icmpType 8 with
      | None => Err (Errorf "Failed parsing icmptype [%v] with: %v")
      | Some t => Ok (Some (mkIcmpRule (0, 65535) (t, t)))
      end
  end.

(** The port, whether the key is there, and the error. *)
Definition getPort (name : string) (parsed : gmap string string) : Z * bool * option error :=
  match parsed !! name with
  | None => (0, false, None)
  | Some port =>
      match ParseUint port 16 with
      | None => (0, true, Some (Errorf "Failed parsing %s [%v] with: %v"))
      | Some p => (p, true, None)
      end
  end.

(** Both protocols; an error of the upper port returns the error of the
    lower port, which is nil. *)
Definition get_ports (low up : string) (parsed : gmap string string) : result (option (PortRange * PortRange)) :=
  let '(lowerPort, lpFound, lpErr) := getPort low parsed in
  if negb lpFound then Ok None
  else match lpErr with
  | Some e => Err e
  | None =>
      let '(upperPort, upFound, upErr) := getPort up parsed in
      if negb upFound then Ok None
      else match upErr with
      | Some _ => match lpErr with Some e => Err e | None => Ok None end
      | None => Ok (Some (mkPortRange lowerPort upperPort, mkPortRange 0 65535))
      end
  end.
Definition getTcp := get_ports "tcplowport" "tcpupport".
Definition getUdp := get_ports "udplowport" "udpupport".

Definition getIpRule (parsed : gmap string string) : result IpRule :=
  match getIp parsed with
  | Err e => Err e
  | Ok ip =>
      match getIcmp parsed with
      | Err e => Err e
      | Ok icmp =>
          match getTcp parsed with
          | Err e => Err e
          | Ok tcp =>
              match getUdp parsed with
              | Err e => Err e
              | Ok udp => Ok (mkIpRule ip icmp tcp udp)
              end
          end
      end
  end.
(** [getMatch] only wraps the rule. *)
Definition getMatch (parsed : gmap string string) : result IpRule := getIpRule parsed.

Definition getRule (name rule : string) : result AclRule :=
  let parsed := ParseKVStringToMap rule ","%char "="%char in
  match getAction parsed with
  | Err e => Err e
  | Ok action => match getMatch parsed with Err e => Err e | Ok m => Ok (mkAclRule name action m) end
  end.

Record aclConverter := mkAclConverter {
  aclc_Name : string;
  aclc_Rules : gmap string string;
  aclc_IngressInterface : string
}.
(** The loop over the rules: an access list is appended for every rule. *)
Fixpoint acl_loop (c : aclConverter) (rules : list AclRule) (order : list (string * string)) (rv : DataRequest) :
    converted :=
  match order with
  | [] => (Some rv, None)
  | (name, rule) :: order =>
      match getRule name rule with
      | Err e => (None, Some e)
      | Ok r =>
          let rules := rules ++ [r] in
          acl_loop c rules order
            (dr_app rv (mkDataRequest [] [] [] [] [] [] [mkAcl (aclc_Name c) rules [] [aclc_IngressInterface c]]))
      end
  end.
Definition acl_ToDataRequest (c : option aclConverter) (order : list (string * string)) (rv : option DataRequest) : converted :=
  match c with
  | None => (rv, Some (Errorf "aclConverter cannot be nil"))
  | Some c => acl_loop c [] order (default empty_DataRequest rv)
  end.
End acl.
