(* ===== verification/ConverterProps.v ===== *)
(** * Correctness of the converters

    What the request for a cross connect contains, that its removal names the
    same things, that the two ends of a tunnel match, and what the access
    list converter accepts. *)
From Stdlib Require Import Ascii.
From S2P Require Import Prelude GoStrings GoNet ConnectionContext Apis Converter.


(** ** Requests that are closed *)

(** Everything a request refers to is configured by the request: routes and
    neighbors name its Linux interfaces, static routes and cross connects its
    interfaces, and the two halves of a kernel interface carry the same
    temporary name. *)
Record closed (rv : DataRequest) : Prop := {
  cl_routes r : r ∈ dr_LinuxRoutes rv → lrt_Interface r ∈ lif_Name <$> dr_LinuxInterfaces rv;
  cl_arps a : a ∈ dr_LinuxArpEntries rv → arp_Interface a ∈ lif_Name <$> dr_LinuxInterfaces rv;
  cl_static r : r ∈ dr_StaticRoutes rv → srt_OutgoingInterface r ∈ if_Name <$> dr_Interfaces rv;
  cl_xcons x : x ∈ dr_XCons rv → xc_Receive x ∈ if_Name <$> dr_Interfaces rv ∧ xc_Transmit x ∈ if_Name <$> dr_Interfaces rv;
  cl_halves i : i ∈ dr_Interfaces rv →
    match if_Link i with
    | TapV2 t => ∃ l, l ∈ dr_LinuxInterfaces rv ∧ lif_Name l = if_Name i ∧ lif_Link l = AutoTap t
    | Afpacket t => ∃ l, l ∈ dr_LinuxInterfaces rv ∧ lif_Name l = if_Name i ∧ lif_Link l = Veth t
    | _ => True
    end
}.
Lemma closed_empty : closed empty_DataRequest.
Proof. split; cbn; intros x Hx; by apply not_elem_of_nil in Hx. Qed.
Lemma closed_app a b : closed a → closed b → closed (dr_app a b).
Proof.
  intros Ha Hb. split; cbn; intros x; rewrite !elem_of_app; intros [Hx|Hx];
    rewrite ?fmap_app, ?elem_of_app.
  - left. by apply Ha.
  - right. by apply Hb.
  - left. by apply Ha.
  - right. by apply Hb.
  - left. by apply Ha.
  - right. by apply Hb.
  - split; left; by apply (cl_xcons _ Ha).
  - split; right; by apply (cl_xcons _ Hb).
  - pose proof (cl_halves _ Ha x Hx) as H. destruct (if_Link x); try done; destruct H as (l & Hl & ?);
      exists l; rewrite elem_of_app; auto.
  - pose proof (cl_halves _ Hb x Hx) as H. destruct (if_Link x); try done; destruct H as (l & Hl & ?);
      exists l; rewrite elem_of_app; auto.
Qed.

(** ** What one end contributes *)
Definition supported (c : NSMConnection) : bool :=
  match c with
  | LocalConn c => bool_decide (lm_Type <$> lc_Mechanism c = Some KERNEL_INTERFACE) ||
                   bool_decide (lm_Type <$> lc_Mechanism c = Some MEM_INTERFACE)
  | RemoteConn c => bool_decide (rm_Type <$> rc_Mechanism c = Some VXLAN)
  end.
(** The library xid prints its ids as 20 characters. *)
Definition xid_ok (host : Host) : Prop := ∀ n, String.length (host_xid host n) = 20%nat.

(** What the host can refuse to an end: the namespace of a kernel interface
    while connecting, and the directory of the socket of a shared memory
    source. *)
Definition end_error (host : Host) (baseDir : string) (side : ConnectionContextSide) (connect : bool)
    (c : NSMConnection) : option error :=
  match c with
  | RemoteConn _ => None
  | LocalConn c =>
      let m := lc_Mechanism c in
      match lm_Type <$> m with
      | Some KERNEL_INTERFACE =>
          match lm_NetNsFileName (host_resolve host) m with
          | Err e => if connect then Some e else None
          | Ok _ => None
          end
      | Some MEM_INTERFACE =>
          if decide (side = SOURCE)
          then host_mkdir host (path_Dir (path_Join [path_Join [baseDir; lm_GetWorkspace m]; lm_GetSocketFilename m]))
          else None
      | _ => None
      end
  end.
Definition xcon_error (host : Host) (baseDir : string) (connect : bool) (src dst : NSMConnection) : option error :=
  match end_error host baseDir SOURCE connect src with
  | Some e => Some e
  | None => end_error host baseDir DESTINATION connect dst
  end.

(** The part of a request that one end of a cross connect contributes. *)
Record end_part (name : string) (more : DataRequest) : Prop := {
  ep_interface : if_Name <$> dr_Interfaces more = [name];
  ep_xcons : dr_XCons more = [];
  ep_closed : closed more
}.

Lemma TempIfName_ok host n : xid_ok host → ∃ t, TempIfName (host_xid host n) = Ret t.
Proof. intros H. unfold TempIfName. rewrite decide_False by (rewrite (H n); lia). eauto. Qed.
Lemma lc_IsComplete_elim c : lc_IsComplete (Some c) = None →
  is_Some (lc_Context c) ∧ ∀ m, lc_Mechanism c = Some m → lm_IsValid (Some m) = None.
Proof.
  unfold lc_IsComplete, lc_IsValid. case_decide; [done|]. destruct (lc_Mechanism c) as [m|].
  - destruct (lm_IsValid (Some m)) eqn:E; [done|]. cbn. case_decide; [done|].
    destruct (lc_Context c); [|done]. intros _. split; [eauto|]. naive_solver.
  - case_decide; [done|]. destruct (lc_Context c); [|done]. intros _. split; [eauto|]. naive_solver.
Qed.

Lemma kernel_part vhost name tmp f addrs m side ctx ifs lifs :
  kernel_interfaces vhost name tmp f addrs m = (ifs, lifs) →
  end_part name (mkDataRequest ifs lifs (if bool_decide (side = SOURCE) then kernel_routes name f ctx else [])
    (if bool_decide (side = SOURCE) then kernel_neighbors name f ctx else []) [] [] []).
Proof.
  intros E. assert (if_Name <$> ifs = [name] ∧ name ∈ lif_Name <$> lifs) as [Hi Hl].
  { destruct vhost; cbn in E; simplify_eq; cbn; split; try done; [apply list_elem_of_here|].
    apply list_elem_of_further, list_elem_of_here. }
  split; [done..|]. split; cbn; try (intros x Hx; by apply not_elem_of_nil in Hx).
  - intros r. case_bool_decide; [|by intros ?%not_elem_of_nil].
    intros (i & a & -> & _)%elem_of_lookup_imap_1. done.
  - intros r. case_bool_decide; [|by intros ?%not_elem_of_nil].
    intros (i & a & -> & _)%elem_of_lookup_imap_1. done.
  - intros i Hin. destruct vhost; cbn in E; simplify_eq; apply list_elem_of_singleton in Hin as ->; cbn;
      eexists; split; [apply list_elem_of_here|done|apply list_elem_of_further, list_elem_of_here|done].
Qed.

Lemma memif_part name addrs master socket side ctx :
  end_part name (mkDataRequest [mkVppInterface name true addrs (Memif master socket)] [] [] []
    (if decide (side = SOURCE) then memif_routes name ctx else []) [] []).
Proof.
  split; [done..|]. split; cbn; try (intros x Hx; by apply not_elem_of_nil in Hx).
  - intros r. case_decide; [|by intros ?%not_elem_of_nil]. unfold memif_routes.
    destruct ctx as [ctx|]; [|by intros ?%not_elem_of_nil].
    intros (y & -> & _)%list_elem_of_fmap. apply list_elem_of_here.
  - intros i ->%list_elem_of_singleton. done.
Qed.
Lemma vxlan_part name src dst vni :
  end_part name (mkDataRequest [mkVppInterface name true [] (VxlanTunnel src dst vni)] [] [] [] [] [] []).
Proof.
  split; [done..|]. split; cbn; try (intros x Hx; by apply not_elem_of_nil in Hx).
  intros i ->%list_elem_of_singleton. done.
Qed.

Lemma kernel_end host c side name dir baseDir rv connect : xid_ok host →
  lm_Type <$> lc_Mechanism c = Some KERNEL_INTERFACE → lc_IsComplete (Some c) = None →
  match end_error host baseDir side connect (LocalConn c) with
  | Some e => kernel_ToDataRequest host c (mkParameters false side name dir) (Some rv) connect = Ret (None, Some e)
  | None => ∃ more, kernel_ToDataRequest host c (mkParameters false side name dir) (Some rv) connect =
              Ret (Some (dr_app rv more), None) ∧ end_part name more
  end.
Proof.
  intros Hh Ht Hc. unfold end_error, kernel_ToDataRequest. cbv zeta. rewrite Hc, Ht. rewrite decide_True by done.
  destruct (lc_IsComplete_elim _ Hc) as [[ctx Hctx] Hm]. cbn [cp_Name cp_Side].
  destruct (TempIfName_ok host name Hh) as [t Htmp]. rewrite Htmp, Hctx.
  destruct (lm_NetNsFileName _ _) as [f|e], connect; try done;
    destruct (kernel_interfaces _ _ _ _ _ _) as [ifs lifs] eqn:E;
    (eexists; split; [done|]; by eapply kernel_part).
Qed.
Lemma memif_end host c side name baseDir rv connect : side ≠ NEITHER → name ≠ "" →
  lm_Type <$> lc_Mechanism c = Some MEM_INTERFACE →
  let p := mkParameters false side name (path_Join [baseDir; lm_GetWorkspace (lc_Mechanism c)]) in
  match end_error host baseDir side connect (LocalConn c) with
  | Some e => memif_ToDataRequest host c p (Some rv) connect = Ret (None, Some e)
  | None => ∃ more, memif_ToDataRequest host c p (Some rv) connect = Ret (Some (dr_app rv more), None) ∧ end_part name more
  end.
Proof.
  intros Hside Hn Ht p. unfold end_error, memif_ToDataRequest, memif_addresses, memif_isMaster, memif_socket. cbv zeta.
  rewrite Ht. cbn [p cp_Name cp_Terminate cp_Side cp_BaseDir negb]. rewrite (decide_False (P := name = "")) by done.
  destruct side; [done| |].
  - rewrite (decide_True (P := SOURCE = SOURCE)), (decide_False (P := SOURCE = DESTINATION)) by done.
    destruct (host_mkdir _ _); [done|]. eexists. split; [done|]. apply (memif_part _ _ _ _ SOURCE).
  - rewrite (decide_True (P := DESTINATION = DESTINATION)), (decide_False (P := DESTINATION = SOURCE)) by done.
    eexists. split; [done|]. apply (memif_part _ _ _ _ DESTINATION).
Qed.

Lemma convert_end_cases host baseDir id prefix side c rv connect :
  xid_ok host → side ≠ NEITHER → prefix +:+ id ≠ "" → nc_IsComplete c = None → supported c = true →
  match end_error host baseDir side connect c with
  | Some e => convert_end host baseDir id prefix side (Some c) rv connect = Ret (None, Some e)
  | None => ∃ more, convert_end host baseDir id prefix side (Some c) rv connect = Ret (Some (dr_app rv more), None) ∧
              end_part (prefix +:+ id) more
  end.
Proof.
  intros Hh Hside Hn Hc Hs. destruct c as [c|c]; cbn in Hc, Hs.
  - unfold convert_end, local_ToDataRequest. apply orb_true_iff in Hs as [Hs|Hs]; apply bool_decide_eq_true in Hs;
      rewrite Hs; [by apply kernel_end|by apply memif_end].
  - apply bool_decide_eq_true in Hs. unfold convert_end, remote_ToDataRequest. rewrite Hc, decide_True by done.
    eexists. split; [done|]. apply vxlan_part.
Qed.

(** ** Whole requests *)
Lemma dr_app_empty_l a : dr_app empty_DataRequest a = a.
Proof. by destruct a. Qed.
Lemma fmap_singleton_inv {A B} (f : A → B) l y : f <$> l = [y] → ∃ x, l = [x] ∧ f x = y.
Proof. destruct l as [|x [|]]; naive_solver. Qed.

(** The pair of cross connects between two interfaces. *)
Definition xcon_pair (a b : string) : list XConnectPair := [mkXConnectPair a b; mkXConnectPair b a].
Lemma xcon_ToDataRequest_eq host baseDir c src dst more1 more2 connect a b :
  xcon_IsComplete (Some c) = None → xcon_Source c = Some src → xcon_Destination c = Some dst →
  convert_end host baseDir (xcon_Id c) "SRC-" SOURCE (Some src) empty_DataRequest connect = Ret (Some (dr_app empty_DataRequest more1), None) →
  convert_end host baseDir (xcon_Id c) "DST-" DESTINATION (Some dst) more1 connect = Ret (Some (dr_app more1 more2), None) →
  if_Name <$> dr_Interfaces more1 = [a] → if_Name <$> dr_Interfaces more2 = [b] →
  xcon_ToDataRequest host baseDir c None connect =
    Ret (Some (dr_app (dr_app more1 more2) (mkDataRequest [] [] [] [] [] (xcon_pair a b) [])), None).
Proof.
  intros Hc Hs Hd E1 E2 Ha Hb. unfold xcon_ToDataRequest. rewrite Hc, Hs, Hd. cbn [default]. rewrite E1, dr_app_empty_l, E2.
  destruct (fmap_singleton_inv _ _ _ Ha) as (x & Hx & <-). destruct (fmap_singleton_inv _ _ _ Hb) as (y & Hy & <-).
  cbn [dr_app dr_Interfaces]. rewrite Hx, Hy. done.
Qed.

Lemma xcon_converts host baseDir c src dst connect :
  xid_ok host → xcon_IsComplete (Some c) = None → xcon_Source c = Some src → xcon_Destination c = Some dst →
  supported src = true → supported dst = true →
  match xcon_error host baseDir connect src dst with
  | Some e => xcon_ToDataRequest host baseDir c None connect =
                Ret (None, Some (Wrapf "Error Converting CrossConnect %v: %s" e))
  | None => ∃ rv, xcon_ToDataRequest host baseDir c None connect = Ret (Some rv, None) ∧
      if_Name <$> dr_Interfaces rv = ["SRC-" +:+ xcon_Id c; "DST-" +:+ xcon_Id c] ∧
      dr_XCons rv = xcon_pair ("SRC-" +:+ xcon_Id c) ("DST-" +:+ xcon_Id c) ∧ closed rv
  end.
Proof.
  intros Hh Hc Es Ed Ss Sd. destruct (xcon_complete_elim _ Hc) as (s & d & _ & _ & Hs & Hd & Cs & Cd). simplify_eq.
  pose proof (convert_end_cases host baseDir (xcon_Id c) "SRC-" SOURCE src empty_DataRequest connect Hh) as C1.
  unfold xcon_error. destruct (end_error host baseDir SOURCE connect src) as [e|].
  { unfold xcon_ToDataRequest. rewrite Hc, Es. cbn [default]. by rewrite C1 by done. }
  destruct C1 as (m1 & E1 & [I1 X1 K1]); [done..|].
  pose proof (convert_end_cases host baseDir (xcon_Id c) "DST-" DESTINATION dst m1 connect Hh) as C2.
  destruct (end_error host baseDir DESTINATION connect dst) as [e|].
  { unfold xcon_ToDataRequest. rewrite Hc, Es, Ed. cbn [default]. by rewrite E1, dr_app_empty_l, C2 by done. }
  destruct C2 as (m2 & E2 & [I2 X2 K2]); [done..|].
  eexists. split; [by eapply xcon_ToDataRequest_eq|]. cbn [dr_app dr_Interfaces dr_XCons].
  rewrite !fmap_app, I1, I2, X1, X2. split_and!; [done..|].
  split; intros x; cbn [dr_app dr_LinuxRoutes dr_LinuxArpEntries dr_StaticRoutes dr_XCons dr_Interfaces dr_LinuxInterfaces];
    rewrite ?app_nil_r; [by apply (closed_app _ _ K1 K2)..| |by apply (closed_app _ _ K1 K2)].
  rewrite X1, X2. cbn [app]. rewrite fmap_app, I1, I2. cbn [app].
  intros [->|[->|[]%not_elem_of_nil]%elem_of_cons]%elem_of_cons; cbn; rewrite !elem_of_cons; auto.
Qed.

(** C13: a complete cross connect between kernel, shared memory or VXLAN ends
    is converted exactly when the host lets it: with ids of 20 characters, as
    the library xid makes them, the conversion fails if and only if the
    namespace of a kernel end cannot be resolved while connecting, or the
    socket directory of a shared memory source cannot be made, and then that
    error is reported and there is no request.  Otherwise the request has one
    interface per end, in order, the two one-way cross connects between them,
    and nothing in it refers to an interface that it does not configure. *)
Theorem xcon_request_closed host baseDir c src dst connect :
  xid_ok host → xcon_IsComplete (Some c) = None → xcon_Source c = Some src → xcon_Destination c = Some dst →
  supported src = true → supported dst = true →
  match xcon_error host baseDir connect src dst with
  | Some e => xcon_ToDataRequest host baseDir c None connect =
                Ret (None, Some (Wrapf "Error Converting CrossConnect %v: %s" e))
  | None => ∃ rv, xcon_ToDataRequest host baseDir c None connect = Ret (Some rv, None) ∧
      if_Name <$> dr_Interfaces rv = ["SRC-" +:+ xcon_Id c; "DST-" +:+ xcon_Id c] ∧
      dr_XCons rv = xcon_pair ("SRC-" +:+ xcon_Id c) ("DST-" +:+ xcon_Id c) ∧ closed rv
  end.
Proof. apply xcon_converts. Qed.

(** ** Tearing down *)

(** The keys under which the agent finds what a request configures. *)
Definition keys (rv : DataRequest) : list string * list XConnectPair * list string * list string * list StaticRoute :=
  (if_Name <$> dr_Interfaces rv, dr_XCons rv, lrt_Name <$> dr_LinuxRoutes rv, arp_Name <$> dr_LinuxArpEntries rv, dr_StaticRoutes rv).
Definition linux_keys (rv : DataRequest) : list string := lif_Name <$> dr_LinuxInterfaces rv.
(** The Linux interfaces in the namespaces of pods: all but the temporary
    halves of the veth pairs that are used without /dev/vhost-net. *)
Definition pod_keys (rv : DataRequest) : list string :=
  lif_Name <$> filter (λ l, is_Some (lif_Namespace l)) (dr_LinuxInterfaces rv).
Record same_keys (vhost : bool) (a b : DataRequest) : Prop := {
  sk_keys : keys a = keys b;
  sk_pods : pod_keys a = pod_keys b;
  sk_linux : vhost = true → linux_keys a = linux_keys b
}.
Lemma same_keys_app vhost a b a' b' :
  same_keys vhost a a' → same_keys vhost b b' → same_keys vhost (dr_app a b) (dr_app a' b').
Proof.
  intros [K1 P1 L1] [K2 P2 L2]. unfold keys, linux_keys, pod_keys in *. simplify_eq. split; unfold keys, linux_keys, pod_keys.
  - cbn [dr_app dr_Interfaces dr_XCons dr_LinuxRoutes dr_LinuxArpEntries dr_StaticRoutes]. rewrite !fmap_app. congruence.
  - cbn [dr_app dr_LinuxInterfaces]. rewrite !filter_app, !fmap_app. congruence.
  - intros Hv. cbn [dr_app dr_LinuxInterfaces]. rewrite !fmap_app, L1, L2 by done. done.
Qed.

Lemma imap_names {A B} (f g : nat → A → B) (h : B → string) l :
  (∀ i x, h (f i x) = h (g i x)) → h <$> imap f l = h <$> imap g l.
Proof.
  revert f g. induction l as [|x l IH]; intros f g Hfg; [done|]. cbn. f_equal; [apply Hfg|]. apply IH. intros; apply Hfg.
Qed.
Lemma kernel_same_keys vhost name t1 t2 f1 f2 addrs m side ctx :
  let part t f := let '(ifs, lifs) := kernel_interfaces vhost name t f addrs m in
    mkDataRequest ifs lifs (if bool_decide (side = SOURCE) then kernel_routes name f ctx else [])
      (if bool_decide (side = SOURCE) then kernel_neighbors name f ctx else []) [] [] [] in
  same_keys vhost (part t1 f1) (part t2 f2).
Proof.
  assert (lrt_Name <$> kernel_routes name f1 ctx = lrt_Name <$> kernel_routes name f2 ctx) as Hr by by apply imap_names.
  assert (arp_Name <$> kernel_neighbors name f1 ctx = arp_Name <$> kernel_neighbors name f2 ctx) as Ha by by apply imap_names.
  destruct vhost; split; try done; unfold keys, kernel_interfaces; case_bool_decide; cbn; by rewrite ?Hr, ?Ha.
Qed.

(** What a converter that succeeds returned. *)
Lemma kernel_returns host c p rv connect o : kernel_ToDataRequest host c p (Some rv) connect = Ret (Some o, None) →
  ∃ t f ctx, lc_Context c = Some ctx ∧
    o = dr_app rv (let '(ifs, lifs) := kernel_interfaces (host_vhost_net host) (cp_Name p) t f
                     (kernel_addresses (cp_Side p) ctx) (lc_Mechanism c) in
      mkDataRequest ifs lifs (if bool_decide (cp_Side p = SOURCE) then kernel_routes (cp_Name p) f ctx else [])
        (if bool_decide (cp_Side p = SOURCE) then kernel_neighbors (cp_Name p) f ctx else []) [] [] []).
Proof.
  unfold kernel_ToDataRequest. destruct (lc_IsComplete _); [done|]. case_decide; [|done].
  destruct (lm_NetNsFileName _ _) as [f|e], connect; try done;
    destruct (TempIfName _) as [t|]; try done; destruct (lc_Context c) as [ctx|]; try done;
    destruct (kernel_interfaces _ _ _ _ _ _) as [ifs lifs] eqn:E; intros [= <-];
    eexists t, _, ctx; (split; [done|]); by rewrite E.
Qed.
Lemma convert_end_keys h1 h2 baseDir id prefix side c rv1 rv2 b1 b2 o1 o2 :
  host_vhost_net h1 = host_vhost_net h2 →
  convert_end h1 baseDir id prefix side c rv1 b1 = Ret (Some o1, None) →
  convert_end h2 baseDir id prefix side c rv2 b2 = Ret (Some o2, None) →
  ∃ m1 m2, o1 = dr_app rv1 m1 ∧ o2 = dr_app rv2 m2 ∧ same_keys (host_vhost_net h1) m1 m2.
Proof.
  intros Hv. destruct c as [[c|c]|]; cbn [convert_end].
  - unfold local_ToDataRequest. destruct (lm_Type <$> lc_Mechanism c) as [[]|]; try done.
    + intros (t1 & f1 & x1 & Hx1 & ->)%kernel_returns (t2 & f2 & x2 & Hx2 & ->)%kernel_returns. simplify_eq.
      eexists _, _. split_and!; [done..|]. rewrite Hv. apply kernel_same_keys.
    + unfold memif_ToDataRequest, memif_addresses. cbn [cp_Terminate cp_Name cp_Side].
      destruct (if memif_isMaster _ then host_mkdir h1 _ else None); [done|].
      destruct (if memif_isMaster _ then host_mkdir h2 _ else None); [done|].
      case_decide; [done|]. intros [= <-] [= <-]. eexists _, _. split_and!; [done..|]. by split.
  - unfold remote_ToDataRequest. destruct (rc_IsComplete _); [done|]. case_decide; [|done].
    intros [= <-] [= <-]. eexists _, _. split_and!; [done..|]. by split.
  - intros [= <-] [= <-]. exists empty_DataRequest, empty_DataRequest.
    split_and!; [by destruct rv1; unfold dr_app; cbn; rewrite !app_nil_r|by destruct rv2; unfold dr_app; cbn; rewrite !app_nil_r|by split].
Qed.

Lemma xcon_returns host baseDir c connect rv : xcon_ToDataRequest host baseDir c None connect = Ret (Some rv, None) →
  ∃ m1 m2 a b, convert_end host baseDir (xcon_Id c) "SRC-" SOURCE (xcon_Source c) empty_DataRequest connect = Ret (Some m1, None) ∧
    convert_end host baseDir (xcon_Id c) "DST-" DESTINATION (xcon_Destination c) m1 connect = Ret (Some m2, None) ∧
    last_two (dr_Interfaces m2) = Some (a, b) ∧
    rv = dr_app m2 (mkDataRequest [] [] [] [] [] (xcon_pair (if_Name a) (if_Name b)) []).
Proof.
  unfold xcon_ToDataRequest. destruct (xcon_IsComplete _); [done|]. cbn [default].
  destruct (convert_end _ _ _ "SRC-" _ _ _ _) as [[[m1|] [e|]]|] eqn:E1; try done.
  destruct (convert_end _ _ _ "DST-" _ _ _ _) as [[[m2|] [e|]]|] eqn:E2; try done.
  destruct (last_two _) as [[a b]|] eqn:El; [|done]. intros [= <-]. by exists m1, m2, a, b.
Qed.
Lemma last_two_fmap {A B} (f : A → B) l : last_two (f <$> l) = (λ '(a, b), (f a, f b)) <$> last_two l.
Proof. unfold last_two. rewrite <- fmap_reverse. by destruct (reverse l) as [|? [|]]. Qed.

(** The request that removes a cross connect names exactly what the
    request that created it configured: the same interfaces, cross connects,
    routes and neighbors, the same Linux interfaces in pods, and the same
    Linux interfaces at all when the host has /dev/vhost-net; whatever the
    host answers in between. *)
Lemma teardown_names_setup h1 h2 baseDir c rv1 rv2 :
  host_vhost_net h1 = host_vhost_net h2 →
  xcon_ToDataRequest h1 baseDir c None true = Ret (Some rv1, None) →
  xcon_ToDataRequest h2 baseDir c None false = Ret (Some rv2, None) →
  keys rv1 = keys rv2 ∧ pod_keys rv1 = pod_keys rv2 ∧ (host_vhost_net h1 = true → linux_keys rv1 = linux_keys rv2).
Proof.
  intros Hv (m1 & m2 & a & b & E1 & E2 & El & ->)%xcon_returns (n1 & n2 & a' & b' & F1 & F2 & Fl & ->)%xcon_returns.
  destruct (convert_end_keys _ _ _ _ _ _ _ _ _ _ _ _ _ Hv E1 F1) as (p1 & p2 & -> & -> & K1).
  destruct (convert_end_keys _ _ _ _ _ _ _ _ _ _ _ _ _ Hv E2 F2) as (q1 & q2 & -> & -> & K2).
  rewrite !dr_app_empty_l in *. pose proof (same_keys_app _ _ _ _ _ K1 K2) as K.
  assert (if_Name a = if_Name a' ∧ if_Name b = if_Name b') as [Ha Hb].
  { assert (if_Name <$> dr_Interfaces (dr_app p1 q1) = if_Name <$> dr_Interfaces (dr_app p2 q2)) as E.
    { pose proof (sk_keys _ _ _ K) as E. by injection E. }
    pose proof (last_two_fmap if_Name (dr_Interfaces (dr_app p1 q1))) as G1.
    pose proof (last_two_fmap if_Name (dr_Interfaces (dr_app p2 q2))) as G2.
    rewrite E in G1. rewrite G1, El, Fl in G2. cbn in G2. by simplify_eq. }
  rewrite Ha, Hb. set (x := mkDataRequest _ _ _ _ _ _ _).
  destruct (same_keys_app _ _ _ _ _ K (Build_same_keys (host_vhost_net h1) x x eq_refl eq_refl (λ _, eq_refl))) as [G1 G2 G3]. done.
Qed.

(** With veth pairs the temporary name is also the key of an interface, and
    every conversion makes a new one: the removal names an interface that was
    never created. *)
Lemma veth_teardown_misses c ctx h1 h2 p rv f1 t1 t2 :
  lm_Type <$> lc_Mechanism c = Some KERNEL_INTERFACE → lc_IsComplete (Some c) = None → lc_Context c = Some ctx →
  lm_NetNsFileName (host_resolve h1) (lc_Mechanism c) = Ok f1 → host_vhost_net h1 = false → host_vhost_net h2 = false →
  TempIfName (host_xid h1 (cp_Name p)) = Ret t1 → TempIfName (host_xid h2 (cp_Name p)) = Ret t2 → t1 ≠ t2 →
  ∃ o1 o2, kernel_ToDataRequest h1 c p (Some rv) true = Ret (Some (dr_app rv o1), None) ∧
    kernel_ToDataRequest h2 c p (Some rv) false = Ret (Some (dr_app rv o2), None) ∧
    t2 ∈ linux_keys o2 ∧ (t2 ≠ cp_Name p → t2 ∉ linux_keys o1).
Proof.
  intros Ht Hc Hx F1 V1 V2 T1 T2 Hne.
  unfold kernel_ToDataRequest. rewrite Hc, F1, T1, T2, Hx, V1, V2. rewrite !decide_True by done.
  destruct (lm_NetNsFileName (host_resolve h2) _); (eexists _, _; split_and!; [done|done|apply list_elem_of_here|]);
    intros Hn; unfold linux_keys; cbn; intros [E|[E|[]%not_elem_of_nil]%elem_of_cons]%elem_of_cons; congruence.
Qed.

(** The converter has no case for the remaining mechanisms of a complete connection. *)
Lemma local_ToDataRequest_nil host c p rv connect : lm_Type <$> lc_Mechanism c = Some SRIOV_INTERFACE →
  local_ToDataRequest host c p rv connect = Panic "nil pointer dereference".
Proof. intros E. unfold local_ToDataRequest. by rewrite E. Qed.

(** ** Tunnels *)

Lemma rc_mechanism_valid c m : rc_IsComplete (Some c) = None → rc_Mechanism c = Some m → rm_isValid (Some m) = None.
Proof.
  intros Hc Hm. apply rc_IsComplete_valid in Hc. unfold rc_IsValid in Hc. rewrite Hm in Hc. case_decide; [done|].
  by destruct (rm_isValid (Some m)).
Qed.
Lemma tunnel_ends c n1 n2 : rc_IsComplete (Some c) = None → rm_Type <$> rc_Mechanism c = Some VXLAN →
  ∃ ps src dst text vni, rc_Mechanism c = Some (mkRemoteMechanism VXLAN (Some ps)) ∧
    ps !! VXLANSrcIP = Some src ∧ ps !! VXLANDstIP = Some dst ∧ ps !! VXLANVNI = Some text ∧
    ParseUint text 24 = Some vni ∧ 0 ≤ vni < 2 ^ 24 ∧ ParseIP src ≠ [] ∧ ParseIP dst ≠ [] ∧
    remote_ToDataRequest c n1 DESTINATION None =
      (Some (mkDataRequest [mkVppInterface n1 true [] (VxlanTunnel src dst vni)] [] [] [] [] [] []), None) ∧
    remote_ToDataRequest c n2 SOURCE None =
      (Some (mkDataRequest [mkVppInterface n2 true [] (VxlanTunnel dst src vni)] [] [] [] [] [] []), None).
Proof.
  intros Hc Ht. destruct (rc_Mechanism c) as [m|] eqn:Hm; [|done]. pose proof (rc_mechanism_valid c m Hc Hm) as Hv.
  unfold remote_ToDataRequest. rewrite Hc, Hm. rewrite !decide_True by done.
  destruct m as [t [ps|]]; cbn in Ht; simplify_eq.
  apply rm_isValid_vxlan in Hv as (src & dst & vni & n & Hs & Hd & Hn & Is & Id & Iv).
  exists ps, src, dst, vni, n. unfold rm_SrcIP, rm_DstIP, rm_VNI, getIPParameter. cbn [rm_Parameters]. rewrite Hs, Hd, Hn, Iv.
  pose proof (ParseUint_range _ 24 _ ltac:(done) Iv).
  split_and!; try done; try lia; destruct (ParseIP src), (ParseIP dst); done.
Qed.

(** C36: the two managers of a VXLAN connection configure the two ends of one
    tunnel from the parameters of its mechanism.  The manager of the client,
    for which the connection is the destination, gets the tunnel from the
    source address of the mechanism to its destination address; the other
    manager gets the one from the destination address to the source address.
    Both have the network identifier of the mechanism, which fits in 24 bits,
    and both addresses are valid. *)
Theorem vxlan_ends_mirrored c n1 n2 : rc_IsComplete (Some c) = None → rm_Type <$> rc_Mechanism c = Some VXLAN →
  ∃ ps src dst text vni, rc_Mechanism c = Some (mkRemoteMechanism VXLAN (Some ps)) ∧
    ps !! VXLANSrcIP = Some src ∧ ps !! VXLANDstIP = Some dst ∧ ps !! VXLANVNI = Some text ∧
    ParseUint text 24 = Some vni ∧ 0 ≤ vni < 2 ^ 24 ∧ ParseIP src ≠ [] ∧ ParseIP dst ≠ [] ∧
    remote_ToDataRequest c n1 DESTINATION None =
      (Some (mkDataRequest [mkVppInterface n1 true [] (VxlanTunnel src dst vni)] [] [] [] [] [] []), None) ∧
    remote_ToDataRequest c n2 SOURCE None =
      (Some (mkDataRequest [mkVppInterface n2 true [] (VxlanTunnel dst src vni)] [] [] [] [] [] []), None).
Proof. apply tunnel_ends. Qed.

(** ** Access lists *)
Definition port_range_ok (r : PortRange) : Prop := 0 ≤ pr_LowerPort r < 2 ^ 16 ∧ 0 ≤ pr_UpperPort r < 2 ^ 16.
Definition network_ok (n : string) : Prop := n = "" ∨ is_Some (ParseCIDR n).
Record ip_rule_ok (r : IpRule) : Prop := {
  ok_ip d s : ipr_Ip r = Some (d, s) → network_ok d ∧ network_ok s;
  ok_icmp i : ipr_Icmp r = Some i → ∃ t, icmp_TypeRange i = (t, t) ∧ 0 ≤ t < 2 ^ 8;
  ok_tcp d s : ipr_Tcp r = Some (d, s) → port_range_ok d ∧ port_range_ok s;
  ok_udp d s : ipr_Udp r = Some (d, s) → port_range_ok d ∧ port_range_ok s
}.

Lemma getPort_range name parsed p : getPort name parsed = (p, true, None) → 0 ≤ p < 2 ^ 16.
Proof.
  unfold getPort. destruct (parsed !! name) as [s|]; [|done]. destruct (ParseUint s 16) eqn:E; [|done].
  intros [= <-]. by eapply ParseUint_range; [|done].
Qed.
Lemma get_ports_ok low up parsed d s : get_ports low up parsed = Ok (Some (d, s)) → port_range_ok d ∧ port_range_ok s.
Proof.
  unfold get_ports. destruct (getPort low parsed) as [[l []] []] eqn:El; try done.
  destruct (getPort up parsed) as [[u []] []] eqn:Eu; try done. cbn. intros [= <- <-].
  apply getPort_range in El, Eu. unfold port_range_ok. cbn. lia.
Qed.
Lemma bad_cidr_ok o : bad_cidr o = false → network_ok (default "" o).
Proof. destruct o as [n|]; [|by left]. cbn. destruct (ParseCIDR n) eqn:E; [|done]. right. by eexists. Qed.
Lemma getIpRule_ok parsed r : getIpRule parsed = Ok r → ip_rule_ok r.
Proof.
  unfold getIpRule. destruct (getIp parsed) as [ip|] eqn:Ei; [|done]. destruct (getIcmp parsed) as [ic|] eqn:Ec; [|done].
  destruct (getTcp parsed) as [tc|] eqn:Et; [|done]. destruct (getUdp parsed) as [ud|] eqn:Eu; [|done].
  intros [= <-]. split; cbn; intros; subst; [| |by eapply get_ports_ok..].
  - unfold getIp in Ei. destruct (bad_cidr (parsed !! "dstnet")) eqn:B1; [done|].
    destruct (bad_cidr (parsed !! "srcnet")) eqn:B2; [done|]. apply bad_cidr_ok in B1, B2.
    by destruct (parsed !! "dstnet"), (parsed !! "srcnet"); simplify_eq.
  - unfold getIcmp in Ec. destruct (parsed !! "icmptype") as [t|]; [|done].
    destruct (ParseUint t 8) as [n|] eqn:En; [|done]. simplify_eq. exists n. split; [done|].
    by eapply ParseUint_range; [|done].
Qed.
Lemma acl_loop_spec act c order acc rv0 rv : acl_loop act c acc order rv0 = (Some rv, None) →
  ∃ rules, Forall2 (λ nr a, getRule act nr.1 nr.2 = Ok a) order rules ∧
    dr_AccessLists rv = dr_AccessLists rv0 ++
      ((λ k, mkAcl (aclc_Name c) (acc ++ take (S k) rules) [] [aclc_IngressInterface c]) <$> seq 0 (length order)).
Proof.
  revert acc rv0. induction order as [|[n r] order IH]; intros acc rv0; cbn [acl_loop].
  - intros [= <-]. exists []. split; [constructor|]. cbn. by rewrite app_nil_r.
  - destruct (getRule act n r) as [a|] eqn:Er; [|done]. intros (rules & HF & E)%IH.
    exists (a :: rules). split; [by constructor|]. rewrite E. cbn [dr_app dr_AccessLists length seq].
    rewrite <- app_assoc. f_equal. cbn. f_equal. rewrite <- fmap_S_seq, <- list_fmap_compose.
    apply list_fmap_ext. intros i k Hk. cbn. by rewrite <- app_assoc.
Qed.

(** C37: when the access list converter succeeds, every rule was parsed, its
    ports fit in 16 bits, its ICMP type in 8 bits and its networks are empty
    or valid; the request has one access list per rule, each with all rules
    up to that one, so that only the last one has them all. *)
Theorem acl_lists_exact act c order rv : acl_ToDataRequest act (Some c) order None = (Some rv, None) →
  ∃ rules, Forall2 (λ nr a, getRule act nr.1 nr.2 = Ok a) order rules ∧
    Forall (λ a, ip_rule_ok (acl_Match a)) rules ∧
    dr_AccessLists rv =
      (λ k, mkAcl (aclc_Name c) (take (S k) rules) [] [aclc_IngressInterface c]) <$> seq 0 (length order).
Proof.
  intros (rules & HF & E)%acl_loop_spec. exists rules. split_and!; [done| |done].
  clear E. induction HF as [|[n r] a order rules Hr HF IH]; constructor; [|done]. unfold getRule in Hr. cbn in Hr.
  destruct (getAction _ _); [|done]. unfold getMatch in Hr. destruct (getIpRule _) eqn:E; [|done].
  simplify_eq. by eapply getIpRule_ok.
Qed.

(** A rule with a malformed upper port is accepted as a rule without ports. *)
Lemma malformed_upper_port low up parsed l s : parsed !! low = Some l → is_Some (ParseUint l 16) →
  parsed !! up = Some s → ParseUint s 16 = None → get_ports low up parsed = Ok None.
Proof. intros Hl [n Hn] Hu Hs. unfold get_ports, getPort. by rewrite Hl, Hn, Hu, Hs. Qed.

(** ** Key-value strings *)
Definition printed (kv : string * string) : string := kv.1 +:+ String "=" kv.2.
Definition kv_ok (s : string) : Prop := lacks "," s = true ∧ lacks "=" s = true ∧ Trim s = s.

Lemma parseKV_printed kv : kv_ok kv.1 → kv_ok kv.2 → parseKV (printed kv) "=" = kv.
Proof.
  destruct kv as [k v]. intros (_ & Hk & Tk) (_ & Hv & Tv). cbn [fst snd] in *. unfold parseKV, printed. cbn [fst snd].
  change (k +:+ String "=" v) with (joined "=" [k; v]). rewrite Split_joined; [by rewrite Tk, Tv|done|].
  by repeat constructor.
Qed.
Lemma foldl_insert_pairs (l : list (string * string)) (m : gmap string string) : NoDup l.*1 →
  (∀ k, k ∈ l.*1 → m !! k = None) →
  foldl (λ result kv, <[kv.1 := kv.2]> result) m l = list_to_map l ∪ m.
Proof.
  revert m. induction l as [|[k v] l IH]; intros m Hnd Hm; cbn; [by rewrite left_id_L by apply _|].
  apply NoDup_cons in Hnd as [Hk Hnd]. rewrite IH; [|done|].
  - rewrite <- insert_union_r; [by rewrite <- insert_union_l|]. by apply not_elem_of_list_to_map_1.
  - intros k' Hk'. rewrite lookup_insert_ne by (intros ->; done). apply Hm. by apply list_elem_of_further.
Qed.

(** Labels and rules are read back as they are written: parsing the list
    of pairs key=value separated by commas gives the map with these pairs,
    when the keys are distinct and neither keys nor values have separators or
    blanks around them. *)
Lemma ParseKV_roundtrip l : l ≠ [] → NoDup l.*1 → Forall (λ kv, kv_ok kv.1 ∧ kv_ok kv.2) l →
  ParseKVStringToMap (joined "," (printed <$> l)) "," "=" = list_to_map l.
Proof.
  intros Hl Hnd HF. unfold ParseKVStringToMap. rewrite Split_joined.
  - assert (∀ m, foldl (λ result pair, let '(k, v) := parseKV pair "=" in <[k:=v]> result) m (printed <$> l) =
                 foldl (λ result kv, <[kv.1 := kv.2]> result) m l) as ->.
    { clear Hl Hnd. induction HF as [|kv l [Hk Hv] HF IH]; intros m; [done|]. cbn. rewrite parseKV_printed by done.
      rewrite IH. by destruct kv. }
    rewrite foldl_insert_pairs; [by rewrite right_id_L by apply _|done|]. intros k _. apply lookup_empty.
  - by destruct l.
  - apply Forall_fmap. eapply Forall_impl; [done|]. intros [k v] [(Hk & _) (Hv & _)]. cbn in *.
    unfold printed, lacks in *. rewrite str_all_app. cbn. by rewrite Hk, Hv.
Qed.

(** ** Witnesses *)
Module Conversion.
Definition kernel : LocalMechanism :=
  mkLocalMechanism KERNEL_INTERFACE (Some (list_to_map [(NetNsInodeKey, "4026"); (InterfaceNameKey, "eth1")])).
Definition vxlan : RemoteMechanism :=
  mkRemoteMechanism VXLAN (Some (list_to_map [(VXLANSrcIP, "10.0.0.1"); (VXLANDstIP, "10.0.0.2"); (VXLANVNI, "7")])).
Definition ctx : ConnectionContext :=
  mkConnectionContext "10.1.0.1/30" "10.1.0.2/30" true true [mkRoute "8.8.8.8/30"] [] [] [] [].
Definition src : LocalConnection := mkLocalConnection "1" "icmp" (Some kernel) (Some ctx) ∅ State_UP.
Definition dst : RemoteConnection :=
  mkRemoteConnection "r1" "icmp" (Some vxlan) (Some ctx) ∅ "nsm-1" "nsm-2" "nse-1" State_UP.
Definition xcon : CrossConnect := mkCrossConnect "1" "IP" (Some (LocalConn src)) (Some (RemoteConn dst)).
Definition host (guid : string) : Host := mkHost (λ _, Ok "/proc/7/ns/net") true (λ _, None) (λ _, guid).
Lemma host_xid_ok guid : String.length guid = 20%nat → xid_ok (host guid).
Proof. intros H n. exact H. Qed.
Definition guid1 : string := "9m4e2mr0ui3e8a215n4g".
Definition guid2 : string := "9m4e2mr0ui3e8a215n5g".
Definition converter : aclConverter := mkAclConverter "acl" ∅ "SRC-1".
Definition actions : gmap string Z := list_to_map [("DENY", 0); ("PERMIT", 1); ("REFLECT", 2)].
Definition rules : list (string * string) :=
  [("web", "action=permit,dstnet=10.0.0.0/8,tcplowport=80,tcpupport=443"); ("ping", "action=reflect, icmptype=8")].
Definition acls : DataRequest := default empty_DataRequest (acl_ToDataRequest actions (Some converter) rules None).1.
End Conversion.

Lemma xcon_request_closed_witness : ∃ rv,
  xcon_ToDataRequest (Conversion.host Conversion.guid1) "/var" Conversion.xcon None true = Ret (Some rv, None) ∧
  if_Name <$> dr_Interfaces rv = ["SRC-1"; "DST-1"] ∧ dr_XCons rv = xcon_pair "SRC-1" "DST-1" ∧ closed rv.
Proof.
  pose proof (xcon_request_closed (Conversion.host Conversion.guid1) "/var" Conversion.xcon (LocalConn Conversion.src)
    (RemoteConn Conversion.dst) true (Conversion.host_xid_ok Conversion.guid1 eq_refl) ltac:(by vm_compute) eq_refl eq_refl
    ltac:(by vm_compute) ltac:(by vm_compute)) as H.
  assert (xcon_error (Conversion.host Conversion.guid1) "/var" true (LocalConn Conversion.src) (RemoteConn Conversion.dst) = None)
    as E by by vm_compute.
  rewrite E in H. exact H.
Defined.
Lemma vxlan_ends_mirrored_witness : ∃ ps src dst text vni,
  rc_Mechanism Conversion.dst = Some (mkRemoteMechanism VXLAN (Some ps)) ∧
  ps !! VXLANSrcIP = Some src ∧ ps !! VXLANDstIP = Some dst ∧ ps !! VXLANVNI = Some text ∧
  ParseUint text 24 = Some vni ∧ 0 ≤ vni < 2 ^ 24 ∧ ParseIP src ≠ [] ∧ ParseIP dst ≠ [] ∧
  remote_ToDataRequest Conversion.dst "DST-1" DESTINATION None =
    (Some (mkDataRequest [mkVppInterface "DST-1" true [] (VxlanTunnel src dst vni)] [] [] [] [] [] []), None) ∧
  remote_ToDataRequest Conversion.dst "SRC-5" SOURCE None =
    (Some (mkDataRequest [mkVppInterface "SRC-5" true [] (VxlanTunnel dst src vni)] [] [] [] [] [] []), None).
Proof. apply (vxlan_ends_mirrored Conversion.dst "DST-1" "SRC-5"); by vm_compute. Defined.
Lemma acl_lists_exact_witness : ∃ rules,
  Forall2 (λ nr a, getRule Conversion.actions nr.1 nr.2 = Ok a) Conversion.rules rules ∧
  Forall (λ a, ip_rule_ok (acl_Match a)) rules ∧
  dr_AccessLists Conversion.acls = (λ k, mkAcl "acl" (take (S k) rules) [] ["SRC-1"]) <$> seq 0 2.
Proof. apply (acl_lists_exact Conversion.actions Conversion.converter Conversion.rules). by vm_compute. Defined.
