(* ===== verification/Mesh.v ===== *)
(** * Two managers

    A client's request at one manager ends at an endpoint of another one.
    The manager that the client asks is a run of [Request] in an environment
    that answers anything; the other one serves the calls of that run, in
    their order, and does what else reaches it in between.  The theorems
    compare the tables and the tunnels of the two. *)
From S2P Require Import Prelude GoStrings GoNet ConnectionContext Apis Vni Selector Model NsmState Nsm NsmHeal Nsmd NsmLemmas NsmInv NsmRequest NsmProps Converter ConverterProps.

(** ** The peer *)
Definition to_peer (c : call) : bool :=
  match c with RemoteNsmRequest _ _ | RemoteNsmClose _ _ => true | _ => false end.

(** The ids of the request and of the next connection are not in use: the
    request is for a new connection, and the counter of 64 bits has not come
    round to an id that is still held. *)
Definition fresh_for (s : nsm_state) (id : string) : Prop :=
  table s !! id = None ∧ table s !! next_id s = None.

(** [serves calls s s']: from [s] to [s'] the peer answered the calls, latest
    first, as they are recorded. *)
Inductive serves `{!Environment} : history → nsm_state → nsm_state → Prop :=
  | serves_none s : serves [] s s
  | serves_own log s s1 s2 : serves log s s1 → nsm_step s1 s2 → serves log s s2
  | serves_other c log s s1 : to_peer c = false → serves log s s1 → serves (c :: log) s s1
  | serves_request fuel ex r res log s s1 s2 :
      serves log s s1 → fresh_for s1 (default "" (rc_Id <$> rr_Connection r)) →
      remote_Request fuel ex r s1 = Ret (s2, res) → serves (RemoteNsmRequest r res :: log) s s2
  | serves_close c e log s s1 s2 :
      serves log s s1 → remote_Close c s1 = Ret (s2, e) → serves (RemoteNsmClose c e :: log) s s2.

Section peer.
Context `{!Environment}.

Lemma reachable_steps s s' : reachable s → rtc nsm_step s s' → reachable s'.
Proof. intros Hs. induction 1 as [|s s1 s2 H1 _ IH]; [done|]. apply IH. by eapply reachable_step. Qed.
Lemma serves_reachable calls s s' : reachable s → serves calls s s' → reachable s'.
Proof.
  intros Hs. induction 1 as [| | |fuel ex r res log s s1 s2 _ IH _ E|c e log s s1 s2 _ IH E]; try done.
  - by eapply reachable_step; [apply IHserves|].
  - by apply IHserves.
  - eapply reachable_step; [by apply IH|]. by eapply step_remote_Request.
  - eapply reachable_step; [by apply IH|]. by eapply step_remote_Close.
Qed.
(** The latest call that reached the peer. *)
Lemma serves_last after c before s s' : Forall (λ c, to_peer c = false) after → to_peer c = true →
  serves (after ++ c :: before) s s' → ∃ s1 s2, serves before s s1 ∧ rtc nsm_step s2 s' ∧
  match c with
  | RemoteNsmRequest r res => ∃ fuel ex, fresh_for s1 (default "" (rc_Id <$> rr_Connection r)) ∧
      remote_Request fuel ex r s1 = Ret (s2, res)
  | RemoteNsmClose c e => remote_Close c s1 = Ret (s2, e)
  | _ => False
  end.
Proof.
  intros Ha Hp Hs. remember (after ++ _) as calls eqn:Ec. revert after Ha Ec.
  induction Hs as [|log s s1 s2 Hs IH Hstep|c' log s s1 Hc Hs IH|fuel ex r' res' log s s1 s2 Hs IH Hf E|c' e log s s1 s2 Hs IH E];
    intros after Ha Ec.
  - by destruct after.
  - destruct (IH after Ha Ec) as (s3 & s4 & ? & ? & ?). exists s3, s4. split_and!; try done. by eapply rtc_r.
  - destruct after as [|c2 after]; cbn in Ec; simplify_eq; [congruence|]. apply (IH after); [by inversion Ha|done].
  - destruct after as [|c2 after]; cbn in Ec; simplify_eq; [|by inversion Ha]. exists s1, s2.
    split; [done|]. split; [apply rtc_refl|by exists fuel, ex].
  - destruct after as [|c2 after]; cbn in Ec; simplify_eq; [|by inversion Ha]. exists s1, s2.
    split; [done|]. by split; [apply rtc_refl|].
Qed.

(** What a request that the peer granted leaves in its table. *)
Record granted (s s' : nsm_state) (rd : RemoteConnection) (p : positive) (cc : ClientConnection) (x : CrossConnect) : Prop := {
  gr_table : table s' = <[next_id s := p]> (table s);
  gr_object : st_conns s' !! p = Some cc;
  gr_ready : cc_ConnectionState cc = ClientConnection_Ready;
  gr_xcon : cc_Xcon cc = Some x;
  gr_source : xcon_Source x = Some (RemoteConn rd)
}.
Lemma remote_Request_granted fuel ex r s s' rd :
  reachable s → fresh_for s (default "" (rc_Id <$> rr_Connection r)) → remote_Request fuel ex r s = Ret (s', Ok rd) →
  ∃ p cc x, granted s s' rd p cc x.
Proof.
  intros Hr [Hreq Hid]. destruct (reachable_ok _ Hr) as [Hok Hpk]. destruct (reachable_listeners _ Hr) as [l Hl].
  unfold remote_Request, Request, mbind, M_bind, getS, GetClientConnection.
  change (m_clientConnections (st_model s)) with (table s).
  replace (nr_GetConnectionId (RemoteReq r)) with (default "" (rc_Id <$> rr_Connection r)) by done.
  rewrite Hreq. destruct (request fuel ex (RemoteReq r) None s) as [[s1 [conn|e]]|] eqn:E; [|done|done].
  destruct (wp_Ret _ _ _ _ _ (request_new fuel ex (RemoteReq r) s Hok Hpk (ex_intro _ l Hl) Hid) E)
    as [_ (p & req' & _ & cc & x & x0 & log & Hc & _ & Hst & _ & Hx & Hsrc & _ & Ht & _)].
  destruct conn as [c|c]; [done|]. intros [= <- <-]. exists p, cc, x. by split.
Qed.

Lemma remote_Close_removes c s s' e q cc :
  reachable s → table s !! rc_Id c = Some q → st_conns s !! q = Some cc →
  cc_ConnectionState cc ≠ ClientConnection_Closing → remote_Close c s = Ret (s', e) → table s' = delete (rc_Id c) (table s).
Proof.
  intros Hr Hid Hq Hst. destruct (reachable_ok _ Hr) as [Hok _]. destruct (reachable_listeners _ Hr) as [l Hl].
  destruct (tk_table _ Hok _ _ Hid) as (cc' & Hcc' & Hn). simplify_eq.
  assert (owns s q (rc_Id c) (cc_RemoteNsm cc)) as Ho.
  { exists cc. split_and!; try done. apply (tk_fresh_conns _ Hok). by eexists. }
  unfold remote_Close, mbind, M_bind, getS, GetClientConnection, Close. change (m_clientConnections (st_model s)) with (table s).
  rewrite Hid. destruct (close q true s) as [[s1 e1]|] eqn:E; [|done]. intros [= <- <-].
  destruct (wp_Ret _ _ _ _ _ (close_spec q _ _ s Ho (ex_intro _ l Hl) Hid) E) as [_ (cc' & Hcc2 & Hrem)].
  simplify_eq. rewrite decide_False in Hrem by done. by destruct Hrem as [[Ht _] _].
Qed.
End peer.

(** ** The manager that is asked *)
Section asker.
Context `{!Environment}.

Lemma wp_both {A} (m : M A) (Q1 Q2 : nsm_state → A → Prop) s : wp m Q1 s → wp m Q2 s → wp m (λ s' a, Q1 s' a ∧ Q2 s' a) s.
Proof. unfold wp. destruct (m s) as [[]|]; naive_solver. Qed.

(** The peer is not called. *)
Definition unasked (s s' : nsm_state) : Prop :=
  ∃ calls, st_log s' = calls ++ st_log s ∧ Forall (λ c, to_peer c = false) calls.
#[local] Instance unasked_preorder : PreOrder unasked.
Proof.
  split; [intros s; by exists []|]. intros s1 s2 s3 (c1 & E1 & H1) (c2 & E2 & H2). exists (c2 ++ c1).
  by rewrite E2, E1, app_assoc, Forall_app.
Qed.
Lemma unasked_same s s' : st_log s' = st_log s → unasked s s'.
Proof. by exists []. Qed.
Lemma emit_unasked c : to_peer c = false → within unasked (emit c).
Proof. intros Hc s. exists [c]. split; [done|]. by rewrite Forall_singleton. Qed.
Hint Resolve emit_unasked : within.
Hint Extern 1 (to_peer _ = false) => reflexivity : within.
Ltac unasked_tac := G_auto; try (by apply unasked_same).
Lemma mon_notify_all_unasked ns : within unasked (mon_notify_all ns).
Proof.
  assert (∀ n, within unasked (mon_notify n)).
  { intros []; cbn [mon_notify]; unfold mon_ClientConnectionAdded, mon_ClientConnectionUpdated,
      mon_ClientConnectionDeleted, mon_DataplaneAdded; unasked_tac. }
  induction ns; cbn [mon_notify_all]; unasked_tac.
Qed.
Hint Resolve mon_notify_all_unasked : within.
Lemma srv_Add_unasked p : within unasked (srv_AddClientConnection p).
Proof. unfold srv_AddClientConnection, run_model. unasked_tac. Qed.

(** An answer of an endpoint on the other manager is the last call of the
    negotiation. *)
Definition answered (s s' : nsm_state) (p : positive) : Prop :=
  ∃ cc x dst, st_conns s' !! p = Some cc ∧ cc_Xcon cc = Some x ∧ xcon_Destination x = Some dst ∧ nc_IsComplete dst = None ∧
    ∀ rd, dst = RemoteConn rd → ∃ r before, st_log s' = RemoteNsmRequest r (Ok rd) :: before ++ st_log s.
Lemma client_Request_answer client message s :
  wp (client_Request client message) (λ s' res, ∀ rd, res = Ok (RemoteConn rd) →
    ∃ r, st_log s' = RemoteNsmRequest r (Ok rd) :: st_log s) s.
Proof.
  unfold client_Request. destruct client, message as [r|r]; try done; apply wp_bind, wp_ask; cbn.
  - by destruct (env_EndpointRequest _ _).
  - destruct (env_RemoteNsmRequest _ _) as [c|e]; intros rd [= <-]. by exists r.
Qed.
Lemma updateConnectionParameters_remote nse ep s rd :
  wp (updateConnectionParameters nse ep) (λ s' dst, s' = s ∧ (dst = RemoteConn rd → nse = RemoteConn rd)) s.
Proof.
  unfold updateConnectionParameters. apply wp_isLocal. case_bool_decide; [|done]. apply wp_bind. cbn.
  destruct (WorkspaceByEndpoint _ _) as [w|], nse as [c|c]; cbn; try done.
  by destruct (lc_Mechanism c) as [[t [ps|]]|].
Qed.
Lemma performNSERequest_answered ep c req dp x s :
  wp (performNSERequest ep c req dp x) (λ s' r, ∀ p, r = Ok p → answered s s' p) s.
Proof.
  unfold performNSERequest. apply (wp_bind_within frame); [eauto with within|]. intros s1 client H1.
  destruct client as [client|e]; [|done]. apply wp_isLocal.
  apply (wp_bind_within frame); [G_auto|]. intros s2 message H2.
  assert (frame s s2) as Hs2 by by transitivity s1. destruct (fr_log _ _ (fr_others _ _ Hs2)) as [before Hb].
  apply wp_bindR. eapply wp_mono; [apply client_Request_answer|]. intros s3 [nse|e] H3; [|done].
  unfold validateNSEConnection. destruct (nc_IsComplete nse) as [e|] eqn:Ec; cbn; [done|].
  destruct (nc_UpdateContext c (nc_GetContext nse)) as [c' [e|]] eqn:Eu; [done|].
  apply wp_bind, wp_intro. intros s4 dst Ed.
  pose proof (λ rd, wp_Ret _ _ _ _ _ (updateConnectionParameters_remote nse ep s3 rd) Ed) as Hdst.
  destruct (wp_Ret _ _ _ _ _ (updateConnectionParameters_spec nse ep s3 Ec) Ed) as (-> & Hcomplete & _).
  apply wp_bind. eapply wp_mono; [apply createCrossConnect_spec|].
  intros ? y (-> & -> & _). cbn. intros p [= <-]. eexists _, _, dst. split; [apply lookup_insert_eq|].
  split_and!; [done..|]. intros rd Hrd. destruct (Hdst rd) as [_ Hn]. destruct (H3 rd ltac:(by rewrite Hn)) as [r Hr].
  exists r, before. by rewrite <- Hb.
Qed.
Lemma answered_frame s0 s1 s2 p : frame s0 s1 → answered s1 s2 p → answered s0 s2 p.
Proof.
  intros Hf (cc & x & dst & ? & ? & ? & ? & Hrd). exists cc, x, dst. split_and!; try done. intros rd E.
  destruct (Hrd rd E) as (r & before & Hl). destruct (fr_log _ _ (fr_others _ _ Hf)) as [c0 E0].
  exists r, (before ++ c0). by rewrite Hl, E0, app_assoc.
Qed.
Lemma findConnectNSE_answered fuel ex ignore err last req c x dp s :
  wp (findConnectNSE fuel ex ignore err last req c x dp) (λ s' r, ∀ p, r = Ok p → answered s s' p) s.
Proof.
  revert ignore err last s; induction fuel as [|fuel IH]; intros ignore err last s; [done|]. cbn [findConnectNSE].
  apply (wp_bind_within frame); [eauto with within|]. intros s1 prev H1.
  apply (wp_bind_within frame); [destruct prev; G_auto|]. intros s2 [ep e] H2.
  assert (frame s s2) as Hs2 by by transitivity s1. cbn [fst snd].
  destruct e as [e|]; [done|]. apply wp_bind. eapply wp_mono.
  { apply wp_both; [apply performNSERequest_answered|apply performNSERequest_spec]. }
  intros s3 r [Ha [H3 _]]. assert (frame s s3) as Hs3 by by transitivity s2. cbn beta. destruct r as [p|e].
  - intros ? [= <-]. apply answered_frame with s2; [done|]. by apply Ha.
  - destruct (ep ≫= _) as [nse|]; [|done]. eapply wp_mono; [apply IH|]. intros s4 r Hr p Hp.
    apply answered_frame with s3; [done|]. by apply Hr.
Qed.

(** Programming the dataplane of a connection does not reach the peer. *)
Lemma program_or_close_unasked p cc s : st_conns s !! p = Some cc →
  wp (program_or_close p) (λ s' e, e = None →
    unasked s s' ∧ ∃ res calls, st_log s' = calls ++ DataplaneRequest (cc_Xcon cc) res :: st_log s) s.
Proof.
  intros Hp. unfold program_or_close. apply wp_bind. eapply wp_mono; [by apply program_dataplane_spec|].
  intros s1 [e1|] [_ He1]; cbn beta iota.
  2: { destruct He1 as (x & _ & Hl). intros _. split; [eexists [_]; split; [done|by rewrite Forall_singleton]|by eexists _, []]. }
  destruct He1 as [Hc1 Hl1]. apply wp_bind. eapply wp_mono; [by apply program_dataplane_spec|].
  intros s2 [e2|] [_ He2]; cbn beta iota.
  { unfold wp, mbind, M_bind. destruct (close p true s2) as [[s3 ?]|]; [|done]. destruct (read_cc p s3) as [[s4 cc4]|]; [|done].
    by destruct (srv_DeleteClientConnection _ s4) as [[]|]. }
  destruct He2 as (x & _ & Hl2). intros _. rewrite Hl1 in Hl2. split; [|eexists _, [_]; exact Hl2].
  eexists [_; _]. split; [exact Hl2|by repeat constructor].
Qed.
Lemma finish_request_unasked req p cc s : one_listener s → st_conns s !! p = Some cc →
  wp (finish_request req p None) (λ s' res, ∀ conn, res = Ok conn →
    unasked s s' ∧ ∃ r calls calls0, st_log s' = calls ++ DataplaneRequest (cc_Xcon cc) r :: calls0 ++ st_log s) s.
Proof.
  intros Hl Hp. unfold finish_request. apply wp_bind. eapply wp_modify; [exact Hp|].
  set (s1 := set_conns s _ _). set (cc1 := cc_set_Request cc (Some req)) in *.
  assert (st_conns s1 !! p = Some cc1) as Hp1 by apply lookup_insert_eq.
  destruct (srv_Add_spec p cc1 s1 Hp1 Hl) as (s2 & E2 & [_ Hc2] & _). rewrite <- Hc2 in Hp1.
  assert (unasked s1 s2) as (calls0 & Hl2 & Hf2) by exact (within_Ret _ _ _ _ _ (srv_Add_unasked p) E2).
  apply wp_bind. unfold wp at 1. rewrite E2. apply wp_bind. eapply wp_mono; [by apply (program_or_close_unasked p cc1 s2)|].
  intros s3 [e|] H3; [done|]. destruct (H3 eq_refl) as [(calls & Hl3 & Hf3) (res & calls1 & Hl3')].
  eapply (wp_within unasked); [unfold return_source, modify_cc, write_cc; unasked_tac|].
  intros s4 a (calls4 & Hl4 & Hf4) conn _. split.
  - exists (calls4 ++ calls ++ calls0). split; [by rewrite Hl4, Hl3, Hl2, !app_assoc|by rewrite !Forall_app].
  - exists res, (calls4 ++ calls1), calls0. by rewrite Hl4, Hl3', Hl2, app_assoc.
Qed.

(** The calls of a request that succeeds: the dataplane is sent a cross
    connect whose destination is complete, and when that is on another
    manager, it is the answer to the last call to that manager. *)
Record asked (calls : history) (x : CrossConnect) (dst : NSMConnection) : Prop := {
  as_sent : ∃ r, DataplaneRequest (Some x) r ∈ calls;
  as_destination : xcon_Destination x = Some dst;
  as_complete : nc_IsComplete dst = None;
  as_answer rd : dst = RemoteConn rd →
    ∃ after r before, calls = after ++ RemoteNsmRequest r (Ok rd) :: before ∧ Forall (λ c, to_peer c = false) after
}.
Lemma finish_request_asked req p s s7 : one_listener s7 → frame s s7 → answered s s7 p →
  wp (finish_request req p None) (λ s' res, ∀ conn, res = Ok conn →
    ∃ calls x dst, st_log s' = calls ++ st_log s ∧ asked calls x dst) s7.
Proof.
  intros Hl Hf (cc & x & dst & Hcc & Hx & Hd & Hcomplete & Hrd).
  destruct (fr_log _ _ (fr_others _ _ Hf)) as [calls7 E7].
  eapply wp_mono; [by apply finish_request_unasked|]. intros s8 res H8 conn Hres.
  destruct (H8 conn Hres) as [(after & Ea & Hfa) (r & c1 & c2 & Es)]. exists (after ++ calls7), x, dst.
  split; [by rewrite Ea, E7, app_assoc|]. rewrite Hx in Es. split; try done.
  - exists r. rewrite Ea in Es. change (c1 ++ DataplaneRequest (Some x) r :: c2 ++ st_log s7) with
      (c1 ++ ([DataplaneRequest (Some x) r] ++ c2) ++ st_log s7) in Es. rewrite (app_assoc c1) in Es.
    apply app_inv_tail in Es. rewrite Es. set_solver.
  - intros rd E. destruct (Hrd rd E) as (rr & before & Hl7). exists after, rr, before. split; [|done]. f_equal.
    rewrite E7 in Hl7. change (RemoteNsmRequest rr (Ok rd) :: before ++ st_log s) with
      ((RemoteNsmRequest rr (Ok rd) :: before) ++ st_log s) in Hl7. by apply app_inv_tail in Hl7.
Qed.
Lemma request_asked fuel ex req s : one_listener s →
  wp (request fuel ex req None) (λ s' res, ∀ conn, res = Ok conn →
    ∃ calls x dst, st_log s' = calls ++ st_log s ∧ asked calls x dst) s.
Proof.
  intros Hl. unfold request. destruct (nr_IsValid req) as [e|]; [done|].
  apply wp_bind. unfold wp at 1, lift. destruct (newConnection req) as [c|]; [|done].
  apply wp_createConnectionId.
  set (s1 := set_model s _). assert (frame s s1) as H1 by apply (bs_id (R:=frame)).
  apply wp_bindR. eapply (wp_within frame); [eauto with within|]. intros s2 [dp|e] H2;
    (assert (frame s s2) as Hs2 by by transitivity s1); [|done].
  apply (wp_bind_within frame); [eauto with within|]. intros s3 d H3. assert (frame s s3) as Hs3 by by transitivity s2.
  apply wp_check_none.
  apply (wp_bind_within frame); [eauto with within|]. intros s4 d' H4. assert (frame s s4) as Hs4 by by transitivity s3.
  apply (wp_bind_within frame); [eauto with within|]. intros s5 m H5. assert (frame s s5) as Hs5 by by transitivity s4.
  destruct m as [[c' req']|e]; [|done].
  apply wp_bindR. eapply (wp_within frame); [eauto with within|]. intros s6 [[]|e] H6;
    (assert (frame s s6) as Hs6 by by transitivity s5); [|done].
  apply wp_bind. eapply wp_mono; [apply wp_both; [apply findConnectNSE_answered|apply findConnectNSE_spec]|].
  intros s7 res [Ha [H7 _]]. assert (frame s s7) as Hs7 by by transitivity s6. cbn beta.
  destruct res as [p|e]; [|done]. apply finish_request_asked; [|done|].
  - eapply one_listener_frame; [by apply fr_others|done].
  - apply answered_frame with s6; [done|]. by apply Ha.
Qed.

(** Closing tells the peer about a destination that is on it. *)
Lemma ask_unasked {A} (answer : history → A) c : (∀ a, to_peer (c a) = false) → within unasked (ask answer c).
Proof. intros Hc s. eexists [_]. split; [done|]. by rewrite Forall_singleton. Qed.
Hint Resolve ask_unasked : within.
Lemma close_tail_unasked p id (nseError : option error) : within unasked
  (dpCloseError ← (e ← closeDataplane p; srv_DeleteClientConnection id;; mret e);
   modify_cc p (λ cc, cc_set_State cc ClientConnection_Closed);;
   mret (match nseError, dpCloseError with None, None => None | _, _ => Some (Errorf "Close error: %v") end)).
Proof.
  unfold closeDataplane, sr_DataplaneConnection, srv_DeleteClientConnection, run_model, modify_cc, write_cc. unasked_tac.
Qed.
Lemma close_tells p cc x rd s : st_conns s !! p = Some cc → cc_ConnectionState cc ≠ ClientConnection_Closing →
  cc_Xcon cc = Some x → xcon_Destination x = Some (RemoteConn rd) →
  nsm_name s ≠ reg_NsmName (cc_Endpoint cc) → is_Some (cc_Endpoint cc ≫= reg_NetworkServiceManager) →
  (∀ h nsm, env_DialRemoteNsm h nsm = None) →
  wp (close p true) (λ s' _, ∃ after e before, st_log s' = after ++ RemoteNsmClose rd e :: before ++ st_log s ∧
    Forall (λ c, to_peer c = false) after) s.
Proof.
  intros Hp Hst Hx Hd Hname [nsm Hnsm] Hdial. unfold close. apply wp_read_cc. intros cc' Hcc'. simplify_eq.
  rewrite decide_False by done. apply wp_bind. eapply wp_modify; [exact Hp|].
  set (s1 := set_conns s _ _). unfold createNSEClient. apply wp_bind, wp_isLocal.
  rewrite bool_decide_eq_false_2 by done. apply wp_bindR. unfold sr_RemoteNetworkServiceClient.
  apply wp_bind, wp_ask. rewrite Hdial, Hnsm. cbn beta iota. unfold wp at 1. cbn [mret M_ret].
  apply wp_bind. unfold close_destination. rewrite Hx.
  assert ((Some x ≫= xcon_GetLocalDestination) = None) as -> by (cbn; unfold xcon_GetLocalDestination; by rewrite Hd).
  assert ((Some x ≫= xcon_GetRemoteDestination) = Some rd) as -> by (cbn; unfold xcon_GetRemoteDestination; by rewrite Hd).
  apply wp_bind. unfold wp at 1. cbn [mret M_ret client_Close]. apply wp_ask.
  eapply wp_mono; [apply close_tail_unasked|]. intros s' _ (after & Hl & Hf). eexists after, _, [_]. split; [exact Hl|done].
Qed.
End asker.

(** ** Agreement *)
(** C3: a client's request at one manager, in whatever environment, that
    succeeds: the dataplane is sent a cross connect, and when its destination
    is on another manager, then that manager, while it served the calls of
    the request, came to hold a ready connection whose source is exactly that
    destination; so both dataplanes are asked for the two ends of one tunnel,
    with the same network identifier and the addresses swapped. *)
Theorem mesh_tunnel_agrees (EA EB : Environment) fuel ex req s s' conn calls sB sB' :
  @reachable EA s → table s !! nr_GetConnectionId req = None →
  @Request EA fuel ex req s = Ret (s', Ok conn) → st_log s' = calls ++ st_log s →
  @reachable EB sB → @serves EB calls sB sB' →
  ∃ x dst, (∃ r, DataplaneRequest (Some x) r ∈ calls) ∧ xcon_Destination x = Some dst ∧
  ∀ rd, dst = RemoteConn rd →
    (∃ before sB1 sB2 p cc y, @serves EB before sB sB1 ∧ granted sB1 sB2 rd p cc y ∧ rtc (@nsm_step EB) sB2 sB') ∧
    (rm_Type <$> rc_Mechanism rd = Some VXLAN → ∀ n1 n2, ∃ a b vni,
       remote_ToDataRequest rd n1 DESTINATION None =
         (Some (mkDataRequest [mkVppInterface n1 true [] (VxlanTunnel a b vni)] [] [] [] [] [] []), None) ∧
       remote_ToDataRequest rd n2 SOURCE None =
         (Some (mkDataRequest [mkVppInterface n2 true [] (VxlanTunnel b a vni)] [] [] [] [] [] []), None)).
Proof.
  intros Hr Hreq E Hcalls HrB Hserves. destruct (reachable_listeners _ Hr) as [l Hl].
  revert E. unfold Request, mbind, M_bind, getS, GetClientConnection. unfold table in Hreq. rewrite Hreq. intros E.
  destruct (wp_Ret _ _ _ _ _ (request_asked fuel ex req s (ex_intro _ l Hl)) E conn eq_refl) as (calls' & x & dst & Hc & Ha).
  rewrite Hcalls in Hc. apply app_inv_tail in Hc as <-. exists x, dst. split_and!; [apply Ha..|]. intros rd ->. split.
  - destruct (as_answer _ _ _ Ha rd eq_refl) as (after & r & before & -> & Hafter).
    destruct (serves_last _ (RemoteNsmRequest r (Ok rd)) _ _ _ Hafter eq_refl Hserves) as (sB1 & sB2 & Hs1 & Hrest & fuelB & exB & Hfresh & E2).
    pose proof (serves_reachable _ _ _ HrB Hs1) as Hr1.
    destruct (remote_Request_granted _ _ _ _ _ _ Hr1 Hfresh E2) as (p & cc & y & Hg). by exists before, sB1, sB2, p, cc, y.
  - intros Hv n1 n2. destruct (tunnel_ends rd n1 n2 (as_complete _ _ _ Ha) Hv) as (_ & a & b & _ & vni & _ & _ & _ & _ & _ & _ & _ & _ & H1 & H2).
    by exists a, b, vni.
Qed.

(** C11: closing a connection whose destination is on another manager removes
    it here, and while that manager served the calls of the close, it was
    told the connection and removed its own entry for it, unless it was
    closing it already; what the dataplanes and the endpoint answer does not
    matter. *)
Theorem mesh_close_agrees (EA EB : Environment) id p cc x rd s s' e calls sB sB' :
  @reachable EA s → table s !! id = Some p → st_conns s !! p = Some cc →
  cc_ConnectionState cc ≠ ClientConnection_Closing → cc_Xcon cc = Some x → xcon_Destination x = Some (RemoteConn rd) →
  nsm_name s ≠ reg_NsmName (cc_Endpoint cc) → is_Some (cc_Endpoint cc ≫= reg_NetworkServiceManager) →
  (∀ h nsm, @env_DialRemoteNsm EA h nsm = None) →
  @Close EA p s = Ret (s', e) → st_log s' = calls ++ st_log s → @reachable EB sB → @serves EB calls sB sB' →
  table s' = delete id (table s) ∧
  ∃ before sB1 sB2 err, @serves EB before sB sB1 ∧ @remote_Close EB rd sB1 = Ret (sB2, err) ∧ rtc (@nsm_step EB) sB2 sB' ∧
    ∀ q ccB, table sB1 !! rc_Id rd = Some q → st_conns sB1 !! q = Some ccB →
      cc_ConnectionState ccB ≠ ClientConnection_Closing → table sB2 = delete (rc_Id rd) (table sB1).
Proof.
  intros Hr Hid Hp Hst Hx Hd Hname Hnsm Hdial E Hcalls HrB Hserves.
  destruct (reachable_ok _ Hr) as [Hok _]. destruct (reachable_listeners _ Hr) as [l Hl].
  destruct (tk_table _ Hok _ _ Hid) as (cc' & Hcc' & Hn). simplify_eq. split.
  - assert (owns s p (cc_ConnectionId cc) (cc_RemoteNsm cc)) as Ho.
    { exists cc. split_and!; try done. apply (tk_fresh_conns _ Hok). by eexists. }
    destruct (wp_Ret _ _ _ _ _ (close_spec p _ _ s Ho (ex_intro _ l Hl) Hid) E) as [_ (cc' & Hcc2 & Hrem)].
    simplify_eq. rewrite decide_False in Hrem by done. by destruct Hrem as [[Ht _] _].
  - destruct (wp_Ret _ _ _ _ _ (close_tells p cc x rd s Hp Hst Hx Hd Hname Hnsm Hdial) E) as (after & e' & before & Hlog & Ha).
    assert (calls = after ++ RemoteNsmClose rd e' :: before) as ->.
    { rewrite Hcalls in Hlog. apply (app_inv_tail (st_log s)). by rewrite Hlog, <- app_assoc. }
    destruct (serves_last _ (RemoteNsmClose rd e') _ _ _ Ha eq_refl Hserves) as (sB1 & sB2 & Hs1 & Hrest & E2).
    pose proof (serves_reachable _ _ _ HrB Hs1) as Hr1. exists before, sB1, sB2, e'. split_and!; [done..|].
    intros q ccB Hq HqB HstB. by eapply (remote_Close_removes rd sB1 sB2).
Qed.

(** ** Two managers that meet *)
Lemma serves_unasked `{!Environment} after log s s' :
  Forall (λ c, to_peer c = false) after → serves log s s' → serves (after ++ log) s s'.
Proof. induction 1; intros Hs; [done|]. cbn. apply serves_other; [done|]. by apply IHForall. Qed.
Lemma not_to_peer l : forallb (λ c, negb (to_peer c)) l = true → Forall (λ c, to_peer c = false) l.
Proof.
  intros Hl. apply list.Forall_forall. intros c Hc%list_elem_of_In. rewrite forallb_forall in Hl. by apply negb_true_iff, Hl.
Qed.
Lemma serves_one `{!Environment} fuel ex after r res before s s' :
  forallb (λ c, negb (to_peer c)) (after ++ before) = true → fresh_for s (default "" (rc_Id <$> rr_Connection r)) →
  remote_Request fuel ex r s = Ret (s', res) → serves (after ++ RemoteNsmRequest r res :: before) s s'.
Proof.
  rewrite forallb_app. intros [Ha Hb]%andb_prop Hf E.
  apply serves_unasked; [by apply not_to_peer|]. eapply serves_request; [|done..].
  rewrite <- (app_nil_r before). apply serves_unasked; [by apply not_to_peer|]. apply serves_none.
Qed.
Lemma serves_close_one `{!Environment} after c e before s s' :
  forallb (λ c, negb (to_peer c)) (after ++ before) = true →
  remote_Close c s = Ret (s', e) → serves (after ++ RemoteNsmClose c e :: before) s s'.
Proof.
  rewrite forallb_app. intros [Ha Hb]%andb_prop E. apply serves_unasked; [by apply not_to_peer|]. eapply serves_close; [|done].
  rewrite <- (app_nil_r before). apply serves_unasked; [by apply not_to_peer|]. apply serves_none.
Qed.

Module Meeting.
Import Net.
Definition dataplaneB : Dataplane :=
  mkDataplane "dpB" "dpB.sock" [kernel] [mkRemoteMechanism VXLAN (Some {[VXLANSrcIP := "10.0.0.2"]})].
Definition dataplaneA : Dataplane :=
  mkDataplane "dp" "dp.sock" [kernel] [mkRemoteMechanism VXLAN (Some {[VXLANSrcIP := "10.0.0.1"]})].
Definition base : Environment := env true.
Definition EB : Environment := {|
  env_DialDataplane := @env_DialDataplane base;
  env_DataplaneRequest := @env_DataplaneRequest base;
  env_DataplaneClose := @env_DataplaneClose base;
  env_DialEndpoint := @env_DialEndpoint base;
  env_EndpointRequest _ r := Ok (mkLocalConnection (default "" (lc_Id <$> lr_Connection r)) "icmp" (Some kernel) (Some ctx) ∅ State_UP);
  env_EndpointClose := @env_EndpointClose base;
  env_DialRemoteNsm := @env_DialRemoteNsm base;
  env_RemoteNsmRequest _ _ := Err (Errorf "no manager");
  env_RemoteNsmClose := @env_RemoteNsmClose base;
  env_DialRegistry := @env_DialRegistry base;
  env_FindNetworkService := @env_FindNetworkService base;
  env_WaitForDataplane := @env_WaitForDataplane base;
  env_RegisterNSE _ r := Ok (mkNSERegistration (reg_NetworkService r) (Some (manager "nsm-2")) (reg_NetworkserviceEndpoint r));
  env_RemoveNSE := @env_RemoveNSE base;
  env_dataplane_order := @env_dataplane_order base;
  env_connection_order := @env_connection_order base
|}.
Definition registration : NSERegistration := mkNSERegistration (Some service) None (Some endpoint).
Definition sB0 : nsm_state := initial (Some (manager "nsm-2")) 1 NewVniAllocator ∅.
Definition sB1 : nsm_state := after (srv_AddDataplane dataplaneB) sB0.
Definition sB : nsm_state := after (@RegisterNSE EB "ws" "tcp:2" registration) sB1.
Definition servedB (r : RemoteRequest) : result RemoteConnection :=
  match result_of (@remote_Request EB 5 [] r) sB with Some res => res | None => Err (Errorf "unavailable") end.
Definition EA : Environment := {|
  env_DialDataplane := @env_DialDataplane base;
  env_DataplaneRequest := @env_DataplaneRequest base;
  env_DataplaneClose := @env_DataplaneClose base;
  env_DialEndpoint := @env_DialEndpoint base;
  env_EndpointRequest := @env_EndpointRequest base;
  env_EndpointClose := @env_EndpointClose base;
  env_DialRemoteNsm := @env_DialRemoteNsm base;
  env_RemoteNsmRequest _ := servedB;
  env_RemoteNsmClose := @env_RemoteNsmClose base;
  env_DialRegistry := @env_DialRegistry base;
  env_FindNetworkService := @env_FindNetworkService base;
  env_WaitForDataplane := @env_WaitForDataplane base;
  env_RegisterNSE := @env_RegisterNSE base;
  env_RemoveNSE := @env_RemoveNSE base;
  env_dataplane_order := @env_dataplane_order base;
  env_connection_order := @env_connection_order base
|}.
Definition sA : nsm_state := after (srv_AddDataplane dataplaneA) s0.
Definition sA' : nsm_state := after (@Request EA 5 [] client_request) sA.
Definition connA : NSMConnection :=
  match result_of (@Request EA 5 [] client_request) sA with Some (Ok c) => c | _ => conn end.
Definition callsA : history := take (length (st_log sA') - length (st_log sA)) (st_log sA').
Definition requestA : RemoteRequest :=
  match callsA !! 2%nat with Some (RemoteNsmRequest r _) => r | _ => mkRemoteRequest None [] end.
Definition sB' : nsm_state := after (@remote_Request EB 5 [] requestA) sB.

Lemma reachable_sA : @reachable EA sA.
Proof.
  eapply (@reachable_step EA s0); [apply reachable_init|].
  apply (@step_AddDataplane EA _ _ dataplaneA). apply run_eq. by vm_compute.
Qed.
Lemma reachable_sB : @reachable EB sB.
Proof.
  eapply (@reachable_step EB sB1); [eapply (@reachable_step EB sB0); [apply reachable_init|]|].
  - apply (@step_AddDataplane EB _ _ dataplaneB). apply run_eq. by vm_compute.
  - assert (is_Some (result_of (@RegisterNSE EB "ws" "tcp:2" registration) sB1)) as [r Hr] by by vm_compute; eexists.
    exact (@step_RegisterNSE EB _ _ "ws" "tcp:2" registration r (run_eq _ _ _ Hr)).
Qed.
Lemma asks : @Request EA 5 [] client_request sA = Ret (sA', Ok connA).
Proof.
  assert (result_of (@Request EA 5 [] client_request) sA = Some (Ok connA)) as E by by vm_compute. exact (run_eq _ _ _ E).
Qed.
Lemma grants : @remote_Request EB 5 [] requestA sB = Ret (sB', servedB requestA).
Proof.
  assert (result_of (@remote_Request EB 5 [] requestA) sB = Some (servedB requestA)) as E by by vm_compute.
  exact (run_eq _ _ _ E).
Qed.
Lemma meets : @serves EB callsA sB sB'.
Proof.
  assert (callsA = take 2 callsA ++ RemoteNsmRequest requestA (servedB requestA) :: drop 3 callsA) as -> by by vm_compute.
  apply (@serves_one EB 5 []); [by vm_compute|split; by vm_compute|exact grants].
Qed.

(** The client closes the connection. *)
Definition ccA : ClientConnection :=
  default (mkClientConnection "" None None None None ClientConnection_Closed None) (st_conns sA' !! 2%positive).
Definition xA : CrossConnect := default (mkCrossConnect "" "" None None) (cc_Xcon ccA).
Definition rdA : RemoteConnection :=
  match xcon_Destination xA with
  | Some (RemoteConn c) => c
  | _ => mkRemoteConnection "" "" None None ∅ "" "" "" State_UP
  end.
Definition sA2 : nsm_state := after (@Close EA 2) sA'.
Definition callsA2 : history := take (length (st_log sA2) - length (st_log sA')) (st_log sA2).
Definition sB2 : nsm_state := after (@remote_Close EB rdA) sB'.
Lemma reachable_sA' : @reachable EA sA'.
Proof. eapply reachable_step; [apply reachable_sA|]. eapply step_Request, asks. Qed.
Lemma reachable_sB' : @reachable EB sB'.
Proof. eapply reachable_step; [apply reachable_sB|]. eapply step_remote_Request, grants. Qed.
Lemma closes : @Close EA 2 sA' = Ret (sA2, None).
Proof. assert (result_of (@Close EA 2) sA' = Some None) as E by by vm_compute. exact (run_eq _ _ _ E). Qed.
Lemma releases : @remote_Close EB rdA sB' = Ret (sB2, None).
Proof. assert (result_of (@remote_Close EB rdA) sB' = Some None) as E by by vm_compute. exact (run_eq _ _ _ E). Qed.
Lemma parts : @serves EB callsA2 sB' sB2.
Proof.
  assert (callsA2 = take 4 callsA2 ++ RemoteNsmClose rdA None :: drop 5 callsA2) as -> by by vm_compute.
  apply (@serves_close_one EB); [by vm_compute|exact releases].
Qed.
End Meeting.

Lemma mesh_tunnel_agrees_witness :
  ∃ x dst, (∃ r, DataplaneRequest (Some x) r ∈ Meeting.callsA) ∧ xcon_Destination x = Some dst ∧
  ∀ rd, dst = RemoteConn rd →
    (∃ before sB1 sB2 p cc y, @serves Meeting.EB before Meeting.sB sB1 ∧ granted sB1 sB2 rd p cc y ∧
       rtc (@nsm_step Meeting.EB) sB2 Meeting.sB') ∧
    (rm_Type <$> rc_Mechanism rd = Some VXLAN → ∀ n1 n2, ∃ a b vni,
       remote_ToDataRequest rd n1 DESTINATION None =
         (Some (mkDataRequest [mkVppInterface n1 true [] (VxlanTunnel a b vni)] [] [] [] [] [] []), None) ∧
       remote_ToDataRequest rd n2 SOURCE None =
         (Some (mkDataRequest [mkVppInterface n2 true [] (VxlanTunnel b a vni)] [] [] [] [] [] []), None)).
Proof.
  apply (mesh_tunnel_agrees Meeting.EA Meeting.EB 5 [] Net.client_request Meeting.sA Meeting.sA' Meeting.connA
           Meeting.callsA Meeting.sB Meeting.sB').
  - exact Meeting.reachable_sA.
  - vm_compute. reflexivity.
  - exact Meeting.asks.
  - vm_compute. reflexivity.
  - exact Meeting.reachable_sB.
  - exact Meeting.meets.
Defined.
Lemma mesh_close_agrees_witness : table Meeting.sA2 = delete "1" (table Meeting.sA') ∧
  ∃ before sB1 sB2 err, @serves Meeting.EB before Meeting.sB' sB1 ∧ @remote_Close Meeting.EB Meeting.rdA sB1 = Ret (sB2, err) ∧
    rtc (@nsm_step Meeting.EB) sB2 Meeting.sB2 ∧
    ∀ q ccB, table sB1 !! rc_Id Meeting.rdA = Some q → st_conns sB1 !! q = Some ccB →
      cc_ConnectionState ccB ≠ ClientConnection_Closing → table sB2 = delete (rc_Id Meeting.rdA) (table sB1).
Proof.
  apply (mesh_close_agrees Meeting.EA Meeting.EB "1" 2 Meeting.ccA Meeting.xA Meeting.rdA Meeting.sA' Meeting.sA2 None
           Meeting.callsA2 Meeting.sB' Meeting.sB2).
  - exact Meeting.reachable_sA'.
  - vm_compute. reflexivity.
  - vm_compute. reflexivity.
  - vm_compute. discriminate.
  - vm_compute. reflexivity.
  - vm_compute. reflexivity.
  - vm_compute. discriminate.
  - vm_compute. eexists. reflexivity.
  - reflexivity.
  - exact Meeting.closes.
  - vm_compute. reflexivity.
  - exact Meeting.reachable_sB'.
  - exact Meeting.parts.
Defined.
