(* ===== verification/VppAgent.v ===== *)
(** * The vpp-agent dataplane (dataplane/vppagent/pkg, dataplane/pkg/memifproxy)

    The agent serves cross connects: two shared memory ends are joined by a
    proxy between their sockets, everything else becomes a request to the
    vpp-agent.  The answers of the vpp-agent and of the operating system are
    parameters; the calls are kept in a log, latest first. *)
From S2P Require Import Prelude GoStrings GoNet ConnectionContext Apis Converter.

(** ** The proxy (memif_proxy.go) *)
Inductive channel := ChanNil | ChanOpen | ChanClosed.
Record Proxy := mkProxy {
  px_sourceSocket : string;
  px_targetSocket : string;
  px_stopCh : channel;
  px_started : bool          (* the goroutine was started *)
}.
Definition NewProxy (sourceSocket targetSocket : string) : Proxy := mkProxy sourceSocket targetSocket ChanNil false.
(** [resolve] is [net.ResolveUnixAddr]. *)
Definition px_Start (resolve : string → option error) (mp : Proxy) : Proxy * option error :=
  let mp := mkProxy (px_sourceSocket mp) (px_targetSocket mp) ChanOpen (px_started mp) in
  match resolve (px_sourceSocket mp) with
  | Some e => (mp, Some e)
  | None =>
      match resolve (px_targetSocket mp) with
      | Some e => (mp, Some e)
      | None => (mkProxy (px_sourceSocket mp) (px_targetSocket mp) ChanOpen true, None)
      end
  end.
Definition px_Stop (mp : Proxy) : outcome Proxy :=
  match px_stopCh mp with
  | ChanNil => Panic "close of nil channel"
  | ChanClosed => Panic "close of closed channel"
  | ChanOpen => Ret (mkProxy (px_sourceSocket mp) (px_targetSocket mp) ChanClosed (px_started mp))
  end.

(** *** The transfer of packets *)
Definition bufferSize : nat := 128.
Definition cmsgSize : nat := 24.
Notation packet := (list Z * list Z)%type.   (* data and control message *)

(** What one turn of the loop meets: whether the stop channel is closed, what
    is received, at most the size of the buffers, and whether sending works. *)
Record turn := mkTurn { t_stop : bool; t_recv : result packet; t_send : option error }.
(** Receiving overwrites the start of a buffer. *)
Definition overwrite (buf new : list Z) : list Z := take (length buf) new ++ drop (length new) buf.
(** The packet that is sent: whole buffers, or nothing. *)
Definition sent (n : list Z) (buf : list Z) : list Z := match n with [] => [] | _ => buf end.
(** The packets that are forwarded, and whether the loop was left. *)
Fixpoint transfer (turns : list turn) (dataBuffer cmsgBuffer : list Z) : list packet * bool :=
  match turns with
  | [] => ([], false)
  | t :: turns =>
      if t_stop t then transfer turns dataBuffer cmsgBuffer   (* break leaves the select only *)
      else match t_recv t with
      | Err _ => ([], true)
      | Ok (data, cmsg) =>
          let dataBuffer := overwrite dataBuffer data in
          let cmsgBuffer := overwrite cmsgBuffer cmsg in
          match t_send t with
          | Some _ => ([], true)
          | None =>
              let '(packets, returned) := transfer turns dataBuffer cmsgBuffer in
              ((sent data dataBuffer, sent cmsg cmsgBuffer) :: packets, returned)
          end
      end
  end.
Definition run_transfer (turns : list turn) : list packet * bool :=
  transfer turns (replicate bufferSize 0) (replicate cmsgSize 0).

(** ** The direct connector (memif_direct_connection.go) *)

(** Proxies are objects; the map holds their addresses. *)
Record DirectMemifConnector := mkConnector {
  dm_proxyMap : gmap string positive;
  dm_heap : gmap positive Proxy;
  dm_next : positive;
  dm_baseDir : string
}.
Definition NewDirectMemifConnector (baseDir : string) : DirectMemifConnector := mkConnector ∅ ∅ 1 baseDir.

Definition xcon_src_mechanism (x : CrossConnect) : option LocalMechanism := xcon_GetLocalSource x ≫= lc_Mechanism.
Definition xcon_dst_mechanism (x : CrossConnect) : option LocalMechanism := xcon_GetLocalDestination x ≫= lc_Mechanism.
Definition dm_socket (d : DirectMemifConnector) (m : option LocalMechanism) : string :=
  path_Join [dm_baseDir d; lm_GetWorkspace m; lm_GetSocketFilename m].

Section agent.
Context (resolve : string → option error) (host : Host).

Definition dm_connect (d : DirectMemifConnector) (x : CrossConnect) :
    DirectMemifConnector * option CrossConnect * option error :=
  match dm_proxyMap d !! xcon_Id x with
  | Some _ => (d, Some x, None)
  | None =>
      let dstSocket := dm_socket d (xcon_dst_mechanism x) in
      let srcSocket := dm_socket d (xcon_src_mechanism x) in
      match host_mkdir host (path_Dir srcSocket) with
      | Some e => (d, None, Some e)
      | None =>
          let p := dm_next d in
          let '(proxy, err) := px_Start resolve (NewProxy srcSocket dstSocket) in
          let heap := <[p := proxy]> (dm_heap d) in
          match err with
          | Some e => (mkConnector (dm_proxyMap d) heap (Pos.succ p) (dm_baseDir d), None, Some e)
          | None => (mkConnector (<[xcon_Id x := p]> (dm_proxyMap d)) heap (Pos.succ p) (dm_baseDir d), Some x, None)
          end
      end
  end.
Definition dm_disconnect (d : DirectMemifConnector) (x : CrossConnect) : outcome DirectMemifConnector :=
  match dm_proxyMap d !! xcon_Id x with
  | None => Ret d
  | Some p =>
      match dm_heap d !! p with
      | None => Panic "nil pointer dereference"
      | Some proxy =>
          match px_Stop proxy with
          | Panic w => Panic w
          | Ret proxy => Ret (mkConnector (delete (xcon_Id x) (dm_proxyMap d)) (<[p := proxy]> (dm_heap d)) (dm_next d) (dm_baseDir d))
          end
      end
  end.
Definition dm_ConnectOrDisConnect (d : DirectMemifConnector) (x : CrossConnect) (connect : bool) :
    outcome (DirectMemifConnector * option CrossConnect * option error) :=
  if connect then Ret (dm_connect d x)
  else match dm_disconnect d x with Panic w => Panic w | Ret d => Ret (d, Some x, None) end.

(** ** The agent (vppagent.go) *)
Record Mechanisms := mkMechanisms {
  mech_remote : list RemoteMechanism;
  mech_local : list LocalMechanism
}.
(** Calls to the vpp-agent and to the monitor of cross connects. *)
Inductive agent_call :=
  | AgentResync
  | AgentPut (rv : DataRequest)
  | AgentDel (rv : DataRequest)
  | MonitorUpdate (x : option CrossConnect)
  | MonitorDelete (x : option CrossConnect).
Record VPPAgent := mkVPPAgent {
  va_mechanisms : Mechanisms;
  va_connector : DirectMemifConnector;
  va_baseDir : string;
  va_log : list agent_call
}.
Definition va_call (v : VPPAgent) (c : agent_call) : VPPAgent :=
  mkVPPAgent (va_mechanisms v) (va_connector v) (va_baseDir v) (c :: va_log v).

(** Dialling the vpp-agent, and its answers to [Put] and [Del]. *)
Context (dial : list agent_call → option error) (put del : list agent_call → DataRequest → option error).

Definition initial_mechanisms (srcIP : IP) : Mechanisms :=
  mkMechanisms [mkRemoteMechanism VXLAN (Some {[VXLANSrcIP := ip_String srcIP]})]
    [mkLocalMechanism KERNEL_INTERFACE None; mkLocalMechanism MEM_INTERFACE None].
Definition reset (v : VPPAgent) : VPPAgent :=
  match dial (va_log v) with Some _ => v | None => va_call v AgentResync end.
Definition mgmt_request (srcIPNet : IPNet) (mgmtIfaceName : string) : DataRequest :=
  mkDataRequest [mkVppInterface "mgmt" true [net_String srcIPNet] (Afpacket mgmtIfaceName)] [] [] [] [] [] [].
Definition programMgmtInterface (srcIPNet : IPNet) (mgmtIfaceName : string) (v : VPPAgent) : VPPAgent :=
  match dial (va_log v) with
  | Some _ => v
  | None => va_call v (AgentPut (mgmt_request srcIPNet mgmtIfaceName))
  end.
Definition NewVPPAgent (baseDir : string) (srcIP : IP) (srcIPNet : IPNet) (mgmtIfaceName : string) : VPPAgent :=
  programMgmtInterface srcIPNet mgmtIfaceName
    (reset (mkVPPAgent (initial_mechanisms srcIP) (NewDirectMemifConnector baseDir) baseDir [])).

(** [MonitorMechanisms]: what is sent, until a send fails, and the mechanisms
    afterwards.  [oks] says which sends work. *)
Fixpoint monitor_updates (m : Mechanisms) (updates : list (Mechanisms * bool)) : Mechanisms * list Mechanisms :=
  match updates with
  | [] => (m, [])
  | (u, true) :: updates => let '(m, sent) := monitor_updates u updates in (m, u :: sent)
  | (u, false) :: _ => (u, [])
  end.
Definition MonitorMechanisms (v : VPPAgent) (first_ok : bool) (updates : list (Mechanisms * bool)) :
    VPPAgent * list Mechanisms :=
  if first_ok then
    let '(m, sent) := monitor_updates (va_mechanisms v) updates in
    (mkVPPAgent m (va_connector v) (va_baseDir v) (va_log v), va_mechanisms v :: sent)
  else (v, []).

Definition both_memif (x : CrossConnect) : bool :=
  bool_decide (lm_Type <$> xcon_src_mechanism x = Some MEM_INTERFACE) &&
  bool_decide (lm_Type <$> xcon_dst_mechanism x = Some MEM_INTERFACE).

Definition ConnectOrDisConnect (v : VPPAgent) (x : CrossConnect) (connect : bool) :
    outcome (VPPAgent * option CrossConnect * option error) :=
  if both_memif x then
    match dm_ConnectOrDisConnect (va_connector v) x connect with
    | Panic w => Panic w
    | Ret (d, x', e) => Ret (mkVPPAgent (va_mechanisms v) d (va_baseDir v) (va_log v), x', e)
    end
  else match dial (va_log v) with
  | Some e => Ret (v, None, Some e)
  | None =>
      match xcon_ToDataRequest host (va_baseDir v) x None connect with
      | Panic w => Panic w
      | Ret (_, Some e) => Ret (v, None, Some e)
      | Ret (None, None) => Panic "nil pointer dereference"
      | Ret (Some dataChange, None) =>
          if connect then Ret (va_call v (AgentPut dataChange), Some x, put (va_log v) dataChange)
          else Ret (va_call v (AgentDel dataChange), Some x, del (va_log v) dataChange)
      end
  end.

(** [Request] and [Close]; the monitor is told in any case. *)
Definition va_Request (v : VPPAgent) (x : CrossConnect) : outcome (VPPAgent * option CrossConnect * option error) :=
  match ConnectOrDisConnect v x true with
  | Panic w => Panic w
  | Ret (v, xcon, err) => Ret (va_call v (MonitorUpdate xcon), xcon, err)
  end.
Definition va_Close (v : VPPAgent) (x : CrossConnect) : outcome (VPPAgent * option error) :=
  match ConnectOrDisConnect v x false with
  | Panic w => Panic w
  | Ret (v, xcon, _) => Ret (va_call v (MonitorDelete xcon), None)
  end.
End agent.

(** ** Probes (probes.go) *)
Record va_probes := mkVaProbes { srcIPOK : bool; validIPOK : bool; ifNameOK : bool; socketCleanOK : bool; socketListenOK : bool }.
Definition SetSrcIPFailed (p : va_probes) := mkVaProbes false (validIPOK p) (ifNameOK p) (socketCleanOK p) (socketListenOK p).
Definition SetValidIPFailed (p : va_probes) := mkVaProbes (srcIPOK p) false (ifNameOK p) (socketCleanOK p) (socketListenOK p).
Definition SetExtractIFNameFailed (p : va_probes) := mkVaProbes (srcIPOK p) (validIPOK p) false (socketCleanOK p) (socketListenOK p).
Definition SetSocketCleanFailed (p : va_probes) := mkVaProbes (srcIPOK p) (validIPOK p) (ifNameOK p) false (socketListenOK p).
Definition SetSocketListenFailed (p : va_probes) := mkVaProbes (srcIPOK p) (validIPOK p) (ifNameOK p) (socketCleanOK p) false.
Definition va_readiness (p : va_probes) : Z :=
  if srcIPOK p && validIPOK p && ifNameOK p && socketCleanOK p && socketListenOK p then 200 else 503.
