(* ===== verification/VppAgentProps.v ===== *)
(** * Correctness of the vpp-agent dataplane *)
From S2P Require Import Prelude GoStrings GoNet ConnectionContext Apis Converter ConverterProps VppAgent.

(** ** Packets *)
Lemma overwrite_same buf new : length new = length buf → overwrite buf new = new.
Proof. intros E. unfold overwrite. rewrite <- E, firstn_all, E, drop_all. apply app_nil_r. Qed.
Lemma overwrite_length buf new : (length new ≤ length buf)%nat → length (overwrite buf new) = length buf.
Proof. intros Hl. unfold overwrite. rewrite length_app, length_take, length_drop. lia. Qed.

(** A turn that receives full buffers, or no control message, and sends them. *)
Definition full_turn (t : turn) : Prop :=
  t_send t = None ∧ ∃ data cmsg, t_recv t = Ok (data, cmsg) ∧ length data = bufferSize ∧ (cmsg = [] ∨ length cmsg = cmsgSize).
Definition received (t : turn) : option packet :=
  if t_stop t then None else match t_recv t with Ok p => Some p | Err _ => None end.

Lemma transfer_full turns dbuf cbuf : length dbuf = bufferSize → length cbuf = cmsgSize →
  (∀ t, t ∈ turns → t_stop t = false → full_turn t) → transfer turns dbuf cbuf = (omap received turns, false).
Proof.
  revert dbuf cbuf. induction turns as [|t turns IH]; intros dbuf cbuf Hd Hc Hf; [done|]. cbn [transfer omap list_omap].
  assert (∀ t, t ∈ turns → t_stop t = false → full_turn t) as Hf' by (intros; apply Hf; [by apply list_elem_of_further|done]).
  unfold received at 1. destruct (t_stop t) eqn:Es; [by apply IH|].
  destruct (Hf t (list_elem_of_here _ _) Es) as (Hsend & data & cmsg & -> & Hdata & Hcmsg). rewrite Hsend.
  rewrite (overwrite_same dbuf data) by congruence. rewrite IH; [|done| |done].
  - do 2 f_equal. f_equal; [by destruct data|]. destruct Hcmsg as [->|Hl]; [done|].
    rewrite overwrite_same by congruence. by destruct cmsg.
  - destruct Hcmsg as [->|Hl]; [by rewrite overwrite_length by (cbn; lia)|]. by rewrite overwrite_same by congruence.
Qed.

(** The proxy of two shared memory ends forwards what it receives, in
    order and unchanged, as long as every packet fills the buffers, as the
    messages of the memif protocol do. *)
Lemma memif_transfer_exact turns :
  (∀ t, t ∈ turns → t_stop t = false → full_turn t) → run_transfer turns = (omap received turns, false).
Proof. apply transfer_full; by rewrite length_replicate. Qed.

(** Once the stop channel is closed nothing more is forwarded, but the loop is
    never left: the goroutine spins, however many turns it takes. *)
Lemma stopped_transfer_spins n dbuf cbuf f :
  transfer ((λ i, mkTurn true (f i).1 (f i).2) <$> seq 0 n) dbuf cbuf = ([], false).
Proof. generalize 0%nat. induction n as [|n IH]; intros k; [done|]. cbn. apply IH. Qed.

(** A packet that is shorter than the buffer leaves with the whole buffer. *)
Lemma short_packet_padded data : data ≠ [] → (length data ≤ bufferSize)%nat →
  (λ p, length p.1) <$> (run_transfer [mkTurn false (Ok (data, [])) None]).1 = [bufferSize].
Proof.
  intros Hd Hl. cbn. f_equal. destruct data as [|z data]; [done|].
  change (length (overwrite (replicate bufferSize 0) (z :: data)) = bufferSize).
  rewrite overwrite_length; by rewrite length_replicate.
Qed.

(** ** Proxies *)
(** A proxy that was started without an error and has not been told to stop.
    Whether its goroutines are still there is another matter: they end by
    themselves when a socket fails, and spin when they are told to stop. *)
Definition unstopped (px : Proxy) : Prop := px_started px = true ∧ px_stopCh px = ChanOpen.
Record connector_ok (d : DirectMemifConnector) : Prop := {
  co_map id p : dm_proxyMap d !! id = Some p → ∃ px, dm_heap d !! p = Some px ∧ unstopped px;
  co_inj id1 id2 p : dm_proxyMap d !! id1 = Some p → dm_proxyMap d !! id2 = Some p → id1 = id2;
  co_unstopped p px : dm_heap d !! p = Some px → unstopped px → ∃ id, dm_proxyMap d !! id = Some p;
  co_fresh p : is_Some (dm_heap d !! p) → (p < dm_next d)%positive
}.

Lemma connector_ok_new baseDir : connector_ok (NewDirectMemifConnector baseDir).
Proof. split; cbn; intros *; rewrite ?lookup_empty; naive_solver. Qed.

Lemma px_Start_unstopped resolve a b px e : px_Start resolve (NewProxy a b) = (px, e) →
  (unstopped px ↔ e = None).
Proof.
  unfold px_Start, unstopped. cbn. destruct (resolve a); [intros [= <- <-]; naive_solver|].
  destruct (resolve b); intros [= <- <-]; naive_solver.
Qed.
Lemma dm_connect_ok resolve host d x : connector_ok d → connector_ok (dm_connect resolve host d x).1.1.
Proof.
  intros Hok. unfold dm_connect. destruct (dm_proxyMap d !! xcon_Id x) as [p|] eqn:Ex; [done|].
  destruct (host_mkdir _ _); [done|]. destruct (px_Start _ _) as [px e] eqn:Es.
  apply px_Start_unstopped in Es.
  assert (dm_heap d !! dm_next d = None) as Hn.
  { destruct (dm_heap d !! dm_next d) eqn:E; [|done]. pose proof (co_fresh _ Hok (dm_next d) ltac:(by eexists)). lia. }
  assert (∀ id, dm_proxyMap d !! id ≠ Some (dm_next d)) as Hm.
  { intros id E. destruct (co_map _ Hok _ _ E) as (? & ? & _). congruence. }
  assert (∀ p, is_Some (<[dm_next d:=px]> (dm_heap d) !! p) → (p < Pos.succ (dm_next d))%positive) as Hf.
  { intros p [q Hq]. apply lookup_insert_Some in Hq as [[<- _]|[_ Hq]]; [lia|].
    pose proof (co_fresh _ Hok p ltac:(by eexists)). lia. }
  destruct e as [e|]; split; cbn; try done.
  - intros id p E. destruct (co_map _ Hok _ _ E) as (q & Hq & Hr). exists q. rewrite lookup_insert_ne; [done|congruence].
  - apply Hok.
  - intros p q [[<- <-]|[_ Hq]]%lookup_insert_Some Hr; [naive_solver|by apply (co_unstopped _ Hok _ _ Hq)].
  - intros id p [[<- <-]|[Hid E]]%lookup_insert_Some; [exists px; rewrite lookup_insert_eq; naive_solver|].
    destruct (co_map _ Hok _ _ E) as (q & Hq & Hr). exists q. rewrite lookup_insert_ne; [done|congruence].
  - intros i j p [[<- <-]|[Hi E]]%lookup_insert_Some [[<- Ep]|[Hj F]]%lookup_insert_Some; try done.
    + by apply Hm in F.
    + subst. by apply Hm in E.
    + by apply (co_inj _ Hok i j p).
  - intros p q [[<- <-]|[_ Hq]]%lookup_insert_Some Hr; [exists (xcon_Id x); by rewrite lookup_insert_eq|].
    destruct (co_unstopped _ Hok _ _ Hq Hr) as [id Hid]. exists id. rewrite lookup_insert_ne; [done|congruence].
Qed.
Lemma dm_disconnect_ok d x : connector_ok d →
  ∃ d', dm_disconnect d x = Ret d' ∧ connector_ok d' ∧ dm_proxyMap d' = delete (xcon_Id x) (dm_proxyMap d).
Proof.
  intros Hok. unfold dm_disconnect. destruct (dm_proxyMap d !! xcon_Id x) as [p|] eqn:Ex.
  2: { exists d. split_and!; [done|done|]. by rewrite delete_id. }
  destruct (co_map _ Hok _ _ Ex) as (px & Hp & Hr). rewrite Hp. unfold px_Stop. rewrite (proj2 Hr).
  eexists. split; [done|]. split; [|done]. split; cbn.
  - intros id q [Hid E]%lookup_delete_Some. destruct (co_map _ Hok _ _ E) as (px' & Hq & Hr').
    exists px'. split; [|done]. rewrite lookup_insert_ne; [done|]. intros <-. by apply Hid, (co_inj _ Hok _ _ p).
  - intros i j q [_ Hi]%lookup_delete_Some [_ Hj]%lookup_delete_Some. by apply (co_inj _ Hok i j q).
  - intros q px' [[<- <-]|[Hq Hq']]%lookup_insert_Some Hr'; [by destruct Hr'|].
    destruct (co_unstopped _ Hok _ _ Hq' Hr') as [id Hid]. exists id. rewrite lookup_delete_ne; [done|congruence].
  - intros q Hq. apply (co_fresh _ Hok). destruct (decide (p = q)) as [->|]; [by eexists|by rewrite lookup_insert_ne in Hq].
Qed.

(** A history of the connector: each operation with the answers of the
    operating system that it meets. *)
Record connector_op := mkOp { op_resolve : string → option error; op_host : Host; op_xcon : CrossConnect; op_connect : bool }.
Definition connector_step (d : DirectMemifConnector) (o : connector_op) : outcome DirectMemifConnector :=
  match dm_ConnectOrDisConnect (op_resolve o) (op_host o) d (op_xcon o) (op_connect o) with
  | Panic w => Panic w
  | Ret (d, _, _) => Ret d
  end.

Lemma connector_step_ok d o : connector_ok d → ∃ d', connector_step d o = Ret d' ∧ connector_ok d'.
Proof.
  intros Hok. unfold connector_step, dm_ConnectOrDisConnect. destruct (op_connect o).
  - destruct (dm_connect _ _ _ _) as [[d' ?] ?] eqn:E. eexists. split; [done|].
    pose proof (dm_connect_ok (op_resolve o) (op_host o) d (op_xcon o) Hok) as H. by rewrite E in H.
  - destruct (dm_disconnect_ok d (op_xcon o) Hok) as (d' & -> & ? & _). eauto.
Qed.
Lemma connector_run_ok ops d : connector_ok d → ∃ d', foldM connector_step d ops = Ret d' ∧ connector_ok d'.
Proof.
  revert d. induction ops as [|o ops IH]; intros d Hok; [by exists d|]. cbn.
  destruct (connector_step_ok d o Hok) as (d1 & -> & Hok1). by apply IH.
Qed.

(** C38: whatever is connected and disconnected, and whatever the operating
    system answers, the connector never panics, in particular it never stops
    a proxy twice; and its map has, each under one cross connect, exactly the
    proxies that were started without an error and have not been told to stop,
    so that no proxy is forgotten before it is told to stop. *)
Theorem memif_proxies_exact baseDir ops : ∃ d, foldM connector_step (NewDirectMemifConnector baseDir) ops = Ret d ∧
  (∀ p px, dm_heap d !! p = Some px → unstopped px ↔ ∃ id, dm_proxyMap d !! id = Some p) ∧
  (∀ id1 id2 p, dm_proxyMap d !! id1 = Some p → dm_proxyMap d !! id2 = Some p → id1 = id2).
Proof.
  destruct (connector_run_ok ops _ (connector_ok_new baseDir)) as (d & E & Hok). exists d. split_and!; [done| |apply Hok].
  intros p px Hp. split; [by apply (co_unstopped _ Hok)|]. intros [id Hid].
  destruct (co_map _ Hok _ _ Hid) as (px' & Hp' & ?). by simplify_eq.
Qed.

(** ** Requests and closes *)
Section agent.
Context (resolve : string → option error) (dial : list agent_call → option error).
Context (put del : list agent_call → DataRequest → option error).

(** C25: a cross connect between kernel, shared memory and VXLAN ends, not
    both of them shared memory, on a host whose vpp-agent can be reached, whose
    ids are those of the library xid, and whose /dev/vhost-net does not come or
    go between the two calls.  Unless the host refuses the conversion, the
    request is one [Put]; closing is one [Del] that names all interfaces, cross
    connects, routes, neighbors and Linux interfaces in pods that the [Put]
    configured and nothing else; with /dev/vhost-net it names the same Linux
    interfaces at all.  Both are reported to the monitor.  When the host
    refuses the conversion, nothing is sent, the monitor is told about a nil
    cross connect, a request returns the error and a close hides it. *)
Theorem request_close_teardown h1 h2 v x src dst :
  xid_ok h1 → xid_ok h2 → host_vhost_net h1 = host_vhost_net h2 → (∀ log, dial log = None) →
  xcon_IsComplete (Some x) = None → xcon_Source x = Some src → xcon_Destination x = Some dst →
  supported src = true → supported dst = true → both_memif x = false →
  match xcon_error h1 (va_baseDir v) true src dst with
  | Some e => va_Request resolve h1 dial put del v x =
      Ret (va_call v (MonitorUpdate None), None, Some (Wrapf "Error Converting CrossConnect %v: %s" e))
  | None => ∃ rv1, let v1 := va_call (va_call v (AgentPut rv1)) (MonitorUpdate (Some x)) in
      va_Request resolve h1 dial put del v x = Ret (v1, Some x, put (va_log v) rv1) ∧
      match xcon_error h2 (va_baseDir v) false src dst with
      | Some _ => va_Close resolve h2 dial put del v1 x = Ret (va_call v1 (MonitorDelete None), None)
      | None => ∃ rv2,
          va_Close resolve h2 dial put del v1 x = Ret (va_call (va_call v1 (AgentDel rv2)) (MonitorDelete (Some x)), None) ∧
          keys rv1 = keys rv2 ∧ pod_keys rv1 = pod_keys rv2 ∧ (host_vhost_net h1 = true → linux_keys rv1 = linux_keys rv2)
      end
  end.
Proof.
  intros H1 H2 Hv Hdial Hc Hs Hd Ss Sd Hb.
  pose proof (xcon_converts h1 (va_baseDir v) x src dst true H1 Hc Hs Hd Ss Sd) as C1.
  pose proof (xcon_converts h2 (va_baseDir v) x src dst false H2 Hc Hs Hd Ss Sd) as C2.
  unfold va_Request, va_Close, ConnectOrDisConnect. rewrite Hb, !Hdial.
  destruct (xcon_error h1 _ _ _ _) as [e|]; [by rewrite C1|]. destruct C1 as (rv1 & E1 & _). exists rv1. cbv zeta.
  rewrite E1, Hdial. split; [done|]. cbn [va_call va_baseDir].
  destruct (xcon_error h2 _ _ _ _) as [e|]; [by rewrite C2|]. destruct C2 as (rv2 & E2 & _). exists rv2. rewrite E2.
  split; [done|]. by apply (teardown_names_setup h1 h2 (va_baseDir v) x).
Qed.

(** When the vpp-agent cannot be reached, a request tells the monitor about a
    nil cross connect, and a close that removed nothing succeeds. *)
Lemma unreachable_agent h v x e : both_memif x = false → dial (va_log v) = Some e →
  va_Request resolve h dial put del v x = Ret (va_call v (MonitorUpdate None), None, Some e) ∧
  va_Close resolve h dial put del v x = Ret (va_call v (MonitorDelete None), None).
Proof. intros Hb Hd. unfold va_Request, va_Close, ConnectOrDisConnect. by rewrite Hb, Hd. Qed.
End agent.

(** ** Witnesses *)
Lemma request_close_teardown_witness :
  let agent := NewVPPAgent (λ _, None) "/var" [10; 0; 0; 1] (mkIPNet [10; 0; 0; 1] (CIDRMask 24 32)) "eth0" in
  let ok := λ (_ : list agent_call) (_ : DataRequest), None in
  ∃ rv1, let v1 := va_call (va_call agent (AgentPut rv1)) (MonitorUpdate (Some Conversion.xcon)) in
    va_Request (λ _, None) (Conversion.host Conversion.guid1) (λ _, None) ok ok agent Conversion.xcon =
      Ret (v1, Some Conversion.xcon, None) ∧
    ∃ rv2, va_Close (λ _, None) (Conversion.host Conversion.guid2) (λ _, None) ok ok v1 Conversion.xcon =
        Ret (va_call (va_call v1 (AgentDel rv2)) (MonitorDelete (Some Conversion.xcon)), None) ∧
      keys rv1 = keys rv2 ∧ pod_keys rv1 = pod_keys rv2 ∧ (true = true → linux_keys rv1 = linux_keys rv2).
Proof.
  intros agent ok.
  pose proof (request_close_teardown (λ _, None) (λ _, None) ok ok (Conversion.host Conversion.guid1)
    (Conversion.host Conversion.guid2) agent Conversion.xcon (LocalConn Conversion.src) (RemoteConn Conversion.dst)
    (Conversion.host_xid_ok Conversion.guid1 eq_refl) (Conversion.host_xid_ok Conversion.guid2 eq_refl) eq_refl
    (λ _, eq_refl) ltac:(by vm_compute) eq_refl eq_refl ltac:(by vm_compute) ltac:(by vm_compute) ltac:(by vm_compute)) as H.
  assert (∀ g b, xcon_error (Conversion.host g) (va_baseDir agent) b (LocalConn Conversion.src) (RemoteConn Conversion.dst) = None)
    as E by by intros g []; vm_compute.
  rewrite !E in H. exact H.
Defined.
