(* ===== verification/Node.v ===== *)
(** * A node: namespaces, cross connect monitor and manager

    The dataplane's process as [NewServer] (dataplane/vppagent/pkg/vppagent/server.go)
    sets it up, with the manager of the node as a second recipient of its
    monitor of cross connects.  The agent's reports are updates and deletions
    like any other.  The check of network namespaces finds a client
    gone, the monitor server passes the update on, and the manager closes the
    connection of the client. *)
From S2P Require Import Prelude GoStrings GoNet ConnectionContext Apis Converter Monitor InodeMonitor VppAgent Model NsmState Nsm NsmHeal Nsmd NsmLemmas NsmInv NsmRequest NsmProps.

(** ** The process of the dataplane *)
Section server.
Context (dial : list agent_call → option error).

(** The monitor server, the agent, and the inode server waiting to be taken
    as a recipient. *)
Definition NewServer (baseDir : string) (srcIP : IP) (srcIPNet : IPNet) (mgmtIfaceName : string) :
    option (VPPAgent * monitorServerImpl CrossConnectEvent * MonitorNetNsInodeServer) :=
  let monitor := NewMonitorServer in
  let vppagent := NewVPPAgent dial baseDir srcIP srcIPNet mgmtIfaceName in
  (λ monitor, (vppagent, monitor, NewMonitorNetNsInodeServer)) <$> AddRecipient monitor self.
End server.

(** The stream of the manager is the other recipient. *)
Definition manager : recipient := 2%positive.
Record node := mkNode {
  nd_sys : monitor_system;
  nd_stream : list CrossConnectEvent      (* sent to the manager, not received yet *)
}.
Definition node_exec (a : action) (n : node) : option node :=
  match a, deliver (sys_server (nd_sys n)) with
  | DeliverMsg, Some (r, msg, m) =>
      if decide (r = manager) then
        Some (mkNode (mkSystem m (sys_inode (nd_sys n)) (sys_pending (nd_sys n))) (nd_stream n ++ option_list msg))
      else (λ s, mkNode s (nd_stream n)) <$> exec DeliverMsg (nd_sys n)
  | _, _ => (λ s, mkNode s (nd_stream n)) <$> exec a (nd_sys n)
  end.
Definition node_step (n n' : node) : Prop := ∃ a, node_exec a n = Some n'.

(** A check of the namespaces leaves its updates to be pushed. *)
Definition node_copy (n : node) : gmap string CrossConnect := in_crossConnects (sys_inode (nd_sys n)).
Definition node_check (live : result (list Z)) (order : list (string * CrossConnect)) (n : node) : node :=
  let '(m, ups, _) := checkCrossConnectLiveness live order (node_copy n) in
  mkNode (mkSystem (sys_server (nd_sys n)) (mkInodeServer m (in_crossConnectEventCh (sys_inode (nd_sys n)))) ups) (nd_stream n).

Record quiet (n : node) : Prop := {
  qt_recipients : ms_recipients (sys_server (nd_sys n)) = [self; manager];
  qt_new : ms_newMonitorRecipientCh (sys_server (nd_sys n)) = [];
  qt_closed : ms_closedMonitorRecipientCh (sys_server (nd_sys n)) = [];
  qt_events : ms_eventCh (sys_server (nd_sys n)) = [];
  qt_outbox : ms_outbox (sys_server (nd_sys n)) = [];
  qt_pending : sys_pending (nd_sys n) = [];
  qt_handled : in_crossConnectEventCh (sys_inode (nd_sys n)) = [];
  qt_stream : nd_stream n = []
}.

(** ** Updates on their way *)
Definition update_event (x : CrossConnect) : CrossConnectEvent := mkCrossConnectEvent EVENT_UPDATE {[xcon_Id x := x]}.
Lemma convert_update x : Convert (event_of UPDATE (XconEntity x)) = Ok (update_event x).
Proof.
  unfold Convert, CrossConnectEventConverter, convert_with, event_of. cbn [ev_EventType ev_Entities convertType].
  rewrite convert_xcons by (intros k e [<- <-]%lookup_singleton_Some; by exists x).
  unfold update_event. repeat f_equal. apply map_eq. intros k. unfold xcons. rewrite lookup_omap.
  destruct (decide (k = xcon_Id x)) as [->|]; [by rewrite !lookup_singleton_eq|by rewrite !lookup_singleton_ne].
Qed.

(** What the manager has got and will get is the list of updates, in order. *)
Record flowing (ups : list CrossConnect) (n : node) : Prop := {
  fl_recipients : ms_recipients (sys_server (nd_sys n)) = [self; manager];
  fl_new : ms_newMonitorRecipientCh (sys_server (nd_sys n)) = [];
  fl_closed : ms_closedMonitorRecipientCh (sys_server (nd_sys n)) = [];
  fl_outbox : Forall (λ p, (p.1 = self ∨ p.1 = manager) ∧ is_Some p.2) (ms_outbox (sys_server (nd_sys n)));
  fl_updates : ∃ xs, ms_eventCh (sys_server (nd_sys n)) = (λ x, event_of UPDATE (XconEntity x)) <$> xs ∧
    nd_stream n ++ messages_to manager (ms_outbox (sys_server (nd_sys n))) ++
      (update_event <$> xs ++ sys_pending (nd_sys n)) = update_event <$> ups
}.
(** What the inode server still has to read, and a bound on the steps. *)
Definition unread (n : node) : nat :=
  length (sys_pending (nd_sys n)) + length (ms_eventCh (sys_server (nd_sys n))) +
  length (messages_to self (ms_outbox (sys_server (nd_sys n)))) + length (in_crossConnectEventCh (sys_inode (nd_sys n))).
Definition cost (n : node) : nat :=
  6 * length (sys_pending (nd_sys n)) + 5 * length (ms_eventCh (sys_server (nd_sys n))) +
  2 * length (ms_outbox (sys_server (nd_sys n))) + length (in_crossConnectEventCh (sys_inode (nd_sys n))).

(** Which messages of the outbox are whose. *)
#[local] Arguments messages_to : simpl never.
Lemma messages_to_cons r q msg l :
  messages_to r ((q, msg) :: l) = (if decide (q = r) then option_list msg else []) ++ messages_to r l.
Proof. unfold messages_to. cbn. by destruct (decide (q = r)), msg. Qed.
Ltac sort_messages :=
  rewrite ?messages_to_cons, ?(decide_True (P := self = self)), ?(decide_False (P := manager = self)),
    ?(decide_True (P := manager = manager)), ?(decide_False (P := self = manager)) by done; cbn.
Ltac weigh := sort_messages; change (messages_to self []) with (@nil CrossConnectEvent) in *; cbn; lia.

Lemma send_update x rs : send (event_of UPDATE (XconEntity x)) rs = (λ r, (r, Some (update_event x))) <$> rs.
Proof. unfold send. by rewrite convert_update. Qed.

Lemma serve_flows ups c n n' : flowing ups n → node_exec (ServeCase c) n = Some n' →
  flowing ups n' ∧ (unread n' ≤ unread n)%nat ∧ (cost n' < cost n)%nat.
Proof.
  intros [Hr Hn Hc Ho (xs & He & Hu)]. cbn. intros (s & (m & Hm & ->)%fmap_Some & ->)%fmap_Some.
  unfold Serve in Hm. destruct (ms_outbox _) eqn:Eo; [|done].
  destruct c; rewrite ?Hn, ?Hc in Hm; [done..|]. rewrite He in Hm. destruct xs as [|x xs]; [done|]. cbn in Hm.
  rewrite Hr, send_update in Hm. simplify_eq. split.
  - split; cbn; [done..| |].
    + apply list.Forall_cons; split; [split; [by left|by eexists]|]. apply list.Forall_singleton. split; [by right|by eexists].
    + exists xs. split; [done|]. rewrite <- Hu. sort_messages. done.
  - unfold unread, cost. cbn. rewrite He, Eo, !length_fmap. cbn. weigh.
Qed.
Lemma deliver_flows ups n n' : flowing ups n → node_exec DeliverMsg n = Some n' →
  flowing ups n' ∧ (unread n' ≤ unread n)%nat ∧ (cost n' < cost n)%nat.
Proof.
  intros [Hr Hn Hc Ho (xs & He & Hu)]. cbn. unfold deliver.
  destruct (ms_outbox (sys_server (nd_sys n))) as [|[r msg] out] eqn:Eo; [done|].
  apply list.Forall_cons in Ho as [[[Hs|Hs] [e Hm]] Ho]; cbn in Hs, Hm; subst.
  - rewrite decide_False by done. cbn. rewrite decide_True by done.
    intros (s & ([i err] & (ch & Hch & [= -> ->])%fmap_Some & ->)%fmap_Some & ->)%fmap_Some.
    apply enqueue_Some in Hch as [_ ->]. split; [split; cbn; [done..|]; exists xs; rewrite <- Hu; by sort_messages|].
    unfold unread, cost. cbn. rewrite Eo, length_app. cbn. weigh.
  - rewrite decide_True by done. intros [= <-]. split.
    + split; cbn; [done..|]. exists xs. split; [done|]. rewrite <- Hu. sort_messages. by rewrite <- !app_assoc.
    + unfold unread, cost. cbn. rewrite Eo. cbn. weigh.
Qed.
Lemma push_flows ups n n' : flowing ups n → node_exec PushUpdate n = Some n' →
  flowing ups n' ∧ (unread n' ≤ unread n)%nat ∧ (cost n' < cost n)%nat.
Proof.
  intros [Hr Hn Hc Ho (xs & He & Hu)]. cbn. destruct (sys_pending (nd_sys n)) as [|x pending] eqn:Ep; [done|].
  intros (s & (m & (ch & Hch & ->)%fmap_Some & ->)%fmap_Some & ->)%fmap_Some. apply enqueue_Some in Hch as [_ ->]. split.
  - split; cbn; [done..|]. exists (xs ++ [x]). rewrite He, fmap_app. split; [done|]. rewrite <- Hu. by rewrite <- app_assoc.
  - unfold unread, cost. cbn. rewrite Ep, length_app. cbn. lia.
Qed.
Lemma handle_flows ups n n' : flowing ups n → node_exec HandleNext n = Some n' →
  flowing ups n' ∧ (unread n' ≤ unread n)%nat ∧ (cost n' < cost n)%nat.
Proof.
  intros [Hr Hn Hc Ho (xs & He & Hu)]. cbn. destruct (sys_pending (nd_sys n)) eqn:Ep; [|done].
  destruct (in_crossConnectEventCh _) as [|e ch] eqn:Ech; [done|]. intros [= <-].
  split; [split; cbn; [done..|]; by exists xs|]. unfold unread, cost. cbn. rewrite Ep, Ech. cbn. lia.
Qed.
Lemma node_step_flows ups n n' : flowing ups n → node_step n n' →
  flowing ups n' ∧ (unread n' ≤ unread n)%nat ∧ (cost n' < cost n)%nat.
Proof. intros Hn [[] E]; [by eapply serve_flows|by eapply deliver_flows|by eapply push_flows|by eapply handle_flows]. Qed.
Lemma node_run_flows ups j n n' : flowing ups n → nsteps node_step j n n' →
  flowing ups n' ∧ (unread n' ≤ unread n)%nat ∧ (j + cost n' ≤ cost n)%nat.
Proof.
  intros Hn Hrun. induction Hrun as [n|j n1 n2 n3 Hstep _ IH]; [auto with lia|].
  destruct (node_step_flows _ _ _ Hn Hstep) as (H2 & Hu & Hc). destruct (IH H2) as (H3 & ? & ?). split; [done|lia].
Qed.

(** With fewer than 22 updates somebody can always go on until the manager
    has all of them. *)
Lemma node_progress ups n : flowing ups n → (unread n < 22)%nat →
  (∃ n', node_step n n') ∨ nd_stream n = update_event <$> ups.
Proof.
  intros [Hr Hn Hc Ho (xs & He & Hu)] Hlt.
  destruct (ms_outbox (sys_server (nd_sys n))) as [|[r msg] out] eqn:Eo.
  - destruct xs as [|x xs].
    + destruct (sys_pending (nd_sys n)) as [|x pending] eqn:Ep; [right; rewrite <- Hu; cbn; by rewrite app_nil_r|].
      left. eexists _, PushUpdate. cbn. rewrite Ep. unfold Update, enqueue. rewrite He. done.
    + left. eexists _, (ServeCase NewEvent). cbn. unfold Serve. rewrite Eo, He. done.
  - apply list.Forall_cons in Ho as [[[Hs|Hs] [e Hm]] Ho]; cbn in Hs, Hm; subst.
    2: { left. eexists _, DeliverMsg. cbn. unfold deliver. by rewrite Eo, decide_True. }
    destruct (SendMsg (sys_inode (nd_sys n)) (Some e)) as [[i err]|] eqn:Es.
    { left. eexists _, DeliverMsg. cbn. unfold deliver. rewrite Eo, decide_False by done. cbn.
      rewrite decide_True by done. cbn in Es. by rewrite Es. }
    apply fmap_None, enqueue_None in Es. unfold defaultSize in Es.
    destruct (sys_pending (nd_sys n)) as [|x pending] eqn:Ep.
    + destruct (in_crossConnectEventCh (sys_inode (nd_sys n))) as [|e' ch] eqn:Ech; [cbn in Es; lia|].
      left. eexists _, HandleNext. cbn. by rewrite Ep, Ech.
    + destruct (Update (sys_server (nd_sys n)) (XconEntity x)) as [m|] eqn:Eu.
      * left. eexists _, PushUpdate. cbn. by rewrite Ep, Eu.
      * apply fmap_None, enqueue_None in Eu. unfold unread, defaultSize in *. rewrite Ep, Eo in Hlt. cbn in Hlt.
        rewrite messages_to_cons, decide_True in Hlt by done. cbn in Hlt. lia.
Qed.

Lemma quiet_flows n m ups : quiet n →
  flowing ups (mkNode (mkSystem (sys_server (nd_sys n)) (mkInodeServer m (in_crossConnectEventCh (sys_inode (nd_sys n)))) ups) (nd_stream n)).
Proof.
  intros []. split; cbn; [done..|by rewrite qt_outbox0|]. exists []. rewrite qt_events0, qt_outbox0, qt_stream0. done.
Qed.
Lemma quiet_unread n m ups : quiet n →
  unread (mkNode (mkSystem (sys_server (nd_sys n)) (mkInodeServer m (in_crossConnectEventCh (sys_inode (nd_sys n)))) ups) (nd_stream n)) = length ups.
Proof. intros []. unfold unread. cbn. rewrite qt_events0, qt_outbox0, qt_handled0. weigh. Qed.

(** ** What a check reports *)
Lemma check_one_reports inodes x c : xcon_GetLocalSource x = Some c → checkConnectionLiveness c inodes = Ok true →
  down_source x c ∈ (check_one inodes x).1.2.
Proof.
  intros Hc Hl. unfold check_one. rewrite Hc, Hl. cbn [fst snd].
  repeat case_match; cbn; set_solver.
Qed.
Lemma check_all_reports inodes order m k x c :
  (∀ k x c, (k, x) ∈ order → local_end x c → is_Some (inode_of c)) → (k, x) ∈ order →
  xcon_GetLocalSource x = Some c → checkConnectionLiveness c inodes = Ok true →
  down_source x c ∈ (check_all inodes order m).1.2.
Proof.
  revert m; induction order as [|[k' y] order IH]; intros m Hp Hk Hc Hl; [by apply not_elem_of_nil in Hk|]. cbn [check_all].
  destruct (check_one_spec inodes y) as (y' & ups & Ey & _).
  { intros c'. apply (Hp k' y c'). apply list_elem_of_here. }
  rewrite Ey. specialize (IH (<[k' := y']> m)). destruct (check_all inodes order _) as [[m' rest] err] eqn:E.
  cbn in *. apply elem_of_app. apply elem_of_cons in Hk as [[= <- <-]|Hk].
  - left. pose proof (check_one_reports _ _ _ Hc Hl) as Hr. by rewrite Ey in Hr.
  - right. apply IH; [|done..]. intros k2 x2 c2 Hin. apply (Hp k2). by apply elem_of_cons; right.
Qed.

(** ** What the manager makes of it *)
Section manager.
Context `{!Environment}.

Record closed_entry (s : nsm_state) (p : positive) (id : string) (r : option NetworkServiceManager) : Prop := {
  ce_owns : owns s p id r;
  ce_listener : one_listener s;
  ce_closed : cc_ConnectionState <$> st_conns s !! p = Some ClientConnection_Closed
}.
Lemma closed_modify s p id r f cc : closed_entry s p id r → st_conns s !! p = Some cc → benign f →
  cc_ConnectionState (f cc) = cc_ConnectionState cc →
  closed_entry (set_conns s (<[p := f cc]> (st_conns s)) (st_next s)) p id r.
Proof.
  intros [Ho Hl Hc] Hp Hf Hst. pose proof (fr_others _ _ (frame_modify p f cc s Hp Hf)) as Hfr. split.
  - by eapply owns_frame.
  - by eapply one_listener_frame.
  - cbn. rewrite lookup_insert_eq. cbn. rewrite Hst. by rewrite Hp in Hc.
Qed.
(** [UpdateClientConnection] brings the entry back. *)
Lemma wp_update_closed s p id r : closed_entry s p id r →
  wp (srv_UpdateClientConnection p) (λ s' _, closed_entry s' p id r ∧ st_conns s' = st_conns s ∧
    table s' = <[id := p]> (table s) ∧ st_remotePeers s' = st_remotePeers s) s.
Proof.
  intros [Ho Hl Hc]. destruct Ho as (cc & Hp & Hlt & <- & <-).
  destruct (srv_Update_spec p cc s Hp Hl) as (s' & E & [Hf Hconns] & Ht & Hr). unfold wp. rewrite E.
  split_and!; try done. split; [eapply owns_frame; [done|by exists cc]|by eapply one_listener_frame|by rewrite Hconns].
Qed.
(** The destination of a closed connection is marked and not healed. *)
Lemma wp_dst_down_closed fuel ex s p id r : closed_entry s p id r →
  wp (UpdateClientConnectionDstStateDown fuel ex p) (λ s' _, closed_entry s' p id r ∧
    table s' = <[id := p]> (table s) ∧ st_remotePeers s' = st_remotePeers s) s.
Proof.
  intros Hc. destruct (ce_owns _ _ _ _ Hc) as (cc & Hp & _). unfold UpdateClientConnectionDstStateDown.
  apply wp_bind. eapply wp_modify; [exact Hp|]. apply wp_bind.
  assert (cc_ConnectionState (set_destination_state cc State_DOWN) = cc_ConnectionState cc) as Hst.
  { unfold set_destination_state. repeat case_match; by destruct cc. }
  eapply wp_mono; [eapply wp_update_closed, (closed_modify s p id r (λ cc, set_destination_state cc State_DOWN)); eauto with within|].
  intros s1 _ (H1 & _ & Ht & Hr). cbn in Ht, Hr. unfold Heal. apply wp_read_cc. intros cc1 Hcc1.
  pose proof (ce_closed _ _ _ _ H1) as Hc1. rewrite Hcc1 in Hc1. injection Hc1 as Hc1.
  by rewrite decide_True by (by rewrite Hc1).
Qed.

(** The connection is closed and removed, and then put back. *)
Lemma wp_src_down p id cc s : owns s p id (cc_RemoteNsm cc) → one_listener s → table s !! id = Some p →
  st_conns s !! p = Some cc → cc_ConnectionState cc ≠ ClientConnection_Closing →
  wp (UpdateClientConnectionSrcStateDown p) (λ s' _, closed_entry s' p id (cc_RemoteNsm cc) ∧
    table s' = delete id (table s) ∧ st_remotePeers s' = peer_dec (cc_RemoteNsm cc) (st_remotePeers s)) s.
Proof.
  intros Ho Hl Hid Hp Hst. unfold UpdateClientConnectionSrcStateDown. apply wp_read_cc. intros cc0 Hcc0. simplify_eq.
  destruct (_ ≫= xcon_GetLocalSource); [|done]. apply wp_bind. eapply wp_modify; [exact Hp|].
  pose proof (frame_modify p (λ cc, set_source_state cc State_DOWN) cc s Hp (benign_source _)) as H1.
  set (cc1 := set_source_state cc State_DOWN) in *. set (s1 := set_conns s _ _) in *.
  assert (st_conns s1 !! p = Some cc1) as Hp1 by apply lookup_insert_eq.
  assert (cc_ConnectionState cc1 = cc_ConnectionState cc ∧ cc_ConnectionId cc1 = cc_ConnectionId cc) as [Hs1 Hid1].
  { unfold cc1, set_source_state. repeat case_match; by destruct cc. }
  assert (cc_ConnectionId cc = id) as Hcid by (destruct Ho as (? & ? & _ & ? & _); by simplify_eq).
  destruct (srv_Update_spec p cc1 s1 Hp1) as (s2 & E2 & [H2 Hconns2] & Ht2 & Hr2); [by eapply one_listener_frame; eauto with within|].
  apply wp_bind. unfold wp at 1. rewrite E2. rewrite Hid1, Hcid in Ht2.
  assert (frame0 s s2) as H02 by (transitivity s1; [apply H1|done]).
  assert (table s2 = table s) as Ht02 by (rewrite Ht2, (fr_table _ _ H1); by apply insert_id).
  apply wp_bind. unfold Close. eapply wp_mono.
  { apply (close_spec p id (cc_RemoteNsm cc) s2); [by eapply owns_frame|by eapply one_listener_frame|by rewrite Ht02]. }
  intros s3 e [H3 (cc2 & Hcc2 & Hrem)]. rewrite Hconns2, Hp1 in Hcc2. injection Hcc2 as <-.
  rewrite decide_False in Hrem by by rewrite Hs1. destruct Hrem as [[Ht3 Hr3] Hc3]. cbn.
  split_and!; [split; [by eapply owns_frame, owns_frame|by eapply one_listener_frame, one_listener_frame|done]| |].
  - by rewrite Ht3, Ht02.
  - by rewrite Hr3, Hr2, (fr_peers _ _ H1).
Qed.

Lemma vanished_source fuel ex x src p cc s s' : reachable s → xcon_GetLocalSource x = Some src →
  lc_State src = State_DOWN → table s !! lc_Id src = Some p → st_conns s !! p = Some cc →
  cc_ConnectionState cc ≠ ClientConnection_Closing →
  handle_dataplane_event fuel ex EVENT_UPDATE [x] s = Ret (s', ()) →
  table s' = table s ∧ st_remotePeers s' = peer_dec (cc_RemoteNsm cc) (st_remotePeers s) ∧
  ∃ cc', st_conns s' !! p = Some cc' ∧ cc_ConnectionState cc' = ClientConnection_Closed ∧ cc_Xcon cc' = Some x.
Proof.
  intros Hr Hsrc Hdown Hid Hp Hst E. destruct (reachable_ok _ Hr) as [Hok _]. destruct (reachable_listeners _ Hr) as [l Hl].
  destruct (tk_table _ Hok _ _ Hid) as (cc' & Hcc' & Hn). simplify_eq.
  assert (owns s p (lc_Id src) (cc_RemoteNsm cc)) as Ho.
  { exists cc. split_and!; try done. apply (tk_fresh_conns _ Hok). by eexists. }
  revert E. apply (λ w, wp_Ret _ (λ s' _, _ ∧ _ ∧ _) _ _ _ w). cbn [handle_dataplane_event].
  assert (GetClientConnectionByXcon x s = Ret (s, Some p)) as Hget.
  { unfold GetClientConnectionByXcon, mbind, M_bind, getS, mret, M_ret, GetClientConnection.
    unfold xcon_GetLocalSource in Hsrc. destruct (xcon_Source x) as [[c|]|]; [|done..]. cbn in Hsrc |- *. simplify_eq.
    unfold table in Hid. by rewrite Hid. }
  apply wp_bind. unfold handle_dataplane_xcon. apply wp_bind. unfold wp at 1. rewrite Hget, Hsrc, decide_True by done.
  apply wp_bind. eapply wp_mono; [apply (wp_src_down p (lc_Id src) cc); [done|by exists l|done..]|].
  intros s1 _ (H1 & Ht1 & Hr1). cbn beta. apply wp_bind.
  set (Q := λ (s2 : nsm_state) (_ : ()), closed_entry s2 p (lc_Id src) (cc_RemoteNsm cc) ∧
    <[lc_Id src := p]> (table s2) = table s ∧ st_remotePeers s2 = st_remotePeers s1).
  apply (wp_mono _ Q).
  { assert (Q s1 ()) as HQ by (split_and!; [done|by rewrite Ht1, insert_delete_id|done]).
    destruct (xcon_GetLocalDestination x) as [dst|]; [|exact HQ]. case_decide; [|exact HQ].
    eapply wp_mono; [by apply wp_dst_down_closed|]. intros s2 [] (H2 & Ht2 & Hr2). split_and!; [done| |done].
    rewrite Ht2, insert_insert_eq. apply HQ. }
  intros s2 _ (H2 & Ht2 & Hr2). cbn beta. destruct (ce_owns _ _ _ _ H2) as (cc2 & Hp2 & _).
  apply wp_bind. eapply wp_modify; [exact Hp2|]. apply wp_bind.
  eapply wp_mono; [eapply wp_update_closed, (closed_modify s2 p _ _ (λ cc, cc_set_Xcon cc (Some x))); [done|done|auto with within|by destruct cc2]|].
  intros s3 _ (H3 & Hc3 & Ht3 & Hr3). cbn in Ht3, Hr3, Hc3 |- *. unfold emit. cbn.
  split_and!; [etrans; [exact Ht3|exact Ht2]|etrans; [exact Hr3|]; by rewrite Hr2|].
  exists (cc_set_Xcon cc2 (Some x)). split_and!; [|  |by destruct cc2].
  { change (st_conns s3 !! p = Some (cc_set_Xcon cc2 (Some x))). by rewrite Hc3, lookup_insert_eq. }
  pose proof (ce_closed _ _ _ _ H2) as Hcl. rewrite Hp2 in Hcl. injection Hcl as Hcl. by destruct cc2.
Qed.

(** C9: when the network namespace of a client is gone, the next check of the
    node finds it, under four conditions.  The node is quiet: the recipients of
    its monitor are its own check and the manager, every message was delivered
    and read, and no update is pending.  The inode parameter of
    every local end that the check looks at parses; one that does not ends the
    check with an error ([liveness_check_aborts]).  The client's end is up.
    The check has fewer than 22 updates; from 22 on the goroutines can wait for
    each other for ever, as InodeMonitor.v shows.  Then, in whatever order
    the goroutines of the dataplane take their steps, they stop after
    boundedly many, and when they stop the manager has been sent exactly the
    updates, in order, the one for the client among them.  A manager in a
    reachable state that has the connection in its table and is not closing
    it, once its handling of that update returns, has closed the connection
    and counted it off at its peer; but it has put the closed connection back
    into its table, where it stays. *)
Theorem vanished_client n live order k x c inode :
  quiet n → is_range_of order (node_copy n) →
  (∀ k x c, node_copy n !! k = Some x → local_end x c → is_Some (inode_of c)) →
  node_copy n !! k = Some x → xcon_GetLocalSource x = Some c → inode_of c = Some inode →
  inode ∉ live → lc_State c = State_UP →
  let n0 := node_check (Ok live) order n in
  let ups := sys_pending (nd_sys n0) in
  (length ups < 22)%nat →
  (∀ j n', nsteps node_step j n0 n' → (j ≤ cost n0)%nat ∧
     ((∃ n'', node_step n' n'') ∨ nd_stream n' = update_event <$> ups)) ∧
  down_source x c ∈ ups ∧
  ∀ fuel ex p cc s s', reachable s → table s !! lc_Id c = Some p → st_conns s !! p = Some cc →
    cc_ConnectionState cc ≠ ClientConnection_Closing →
    handle_dataplane_event fuel ex EVENT_UPDATE [down_source x c] s = Ret (s', ()) →
    table s' = table s ∧ st_remotePeers s' = peer_dec (cc_RemoteNsm cc) (st_remotePeers s) ∧
    ∃ cc', st_conns s' !! p = Some cc' ∧ cc_ConnectionState cc' = ClientConnection_Closed ∧
           cc_Xcon cc' = Some (down_source x c).
Proof.
  intros Hq Ho Hp Hx Hc Hi Hlive Hup n0 ups Hlt. split_and!.
  - intros j n' Hrun. assert (flowing ups n0) as Hf.
    { unfold ups, n0, node_check. destruct (checkCrossConnectLiveness _ _ _) as [[m ups0] e]. exact (quiet_flows n m ups0 Hq). }
    destruct (node_run_flows _ _ _ _ Hf Hrun) as (Hf' & Hu & Hcost). split; [lia|]. apply node_progress; [done|].
    assert (unread n0 = length ups) as Hn0; [|lia]. unfold ups, n0, node_check.
    destruct (checkCrossConnectLiveness _ _ _) as [[m ups0] e]. exact (quiet_unread n m ups0 Hq).
  - unfold ups, n0, node_check, checkCrossConnectLiveness.
    assert (down_source x c ∈ (check_all (NewInodeSet live) order (node_copy n)).1.2) as Hr.
    { assert (∀ k x, (k, x) ∈ order ↔ node_copy n !! k = Some x) as Hel.
      { intros k' x'. destruct (range_NoDup _ _ Ho) as [Hnd <-]. by rewrite elem_of_list_to_map. }
      apply (check_all_reports _ _ _ k); [|by apply Hel|done|].
      - intros k' x' c' Hin. apply (Hp k'). by apply Hel.
      - unfold checkConnectionLiveness. fold (inode_of c). rewrite Hi. unfold Contains, NewInodeSet.
        rewrite bool_decide_false by (by rewrite elem_of_list_to_set). by rewrite Hup. }
    by destruct (check_all _ _ _) as [[m ups0] e].
  - intros fuel ex p cc s s' Hr. by apply (vanished_source fuel ex _ (lc_set_State c State_DOWN)).
Qed.
End manager.

(** ** A node from its start

    The manager of [Net] has asked its dataplane for one cross connect, to a
    peer; then the namespace of the client disappears. *)
Module Gone.
Definition xcon : CrossConnect :=
  default (mkCrossConnect "" "" None None) (cc_Xcon Runs.cc1).
Definition client : LocalConnection :=
  default (mkLocalConnection "" "" None None ∅ State_DOWN) (xcon_GetLocalSource xcon).
Definition run (acts : list action) (n : node) : option node := foldl (λ o a, o ≫= node_exec a) (Some n) acts.
Definition in_server (f : monitorServerImpl CrossConnectEvent → option (monitorServerImpl CrossConnectEvent)) (n : node) : option node :=
  (λ m, mkNode (mkSystem m (sys_inode (nd_sys n)) (sys_pending (nd_sys n))) (nd_stream n)) <$> f (sys_server (nd_sys n)).
(** The manager subscribes, the agent reports the cross connect, and both
    recipients read their messages. *)
Definition started : option node :=
  '(_, monitor, inodes) ← NewServer (λ _, None) "/run" [10; 0; 0; 1] (mkIPNet [10; 0; 0; 1] [255; 255; 255; 0]) "eth0";
  n ← run [ServeCase NewRecipient; DeliverMsg; HandleNext] (mkNode (mkSystem monitor inodes []) []);
  n ← in_server (λ m, AddRecipient m manager) n;
  n ← run [ServeCase NewRecipient; DeliverMsg] n;
  n ← in_server (λ m, Update m (XconEntity xcon)) n;
  n ← run [ServeCase NewEvent; DeliverMsg; DeliverMsg; HandleNext] n;
  Some (mkNode (nd_sys n) []).
Definition idle : node := default (mkNode (mkSystem NewMonitorServer NewMonitorNetNsInodeServer []) []) started.
Lemma idle_quiet : quiet idle.
Proof. split; by vm_compute. Qed.
Lemma idle_copy : node_copy idle = {["1" := xcon]}.
Proof. by vm_compute. Qed.
Definition told : M () := @handle_dataplane_event (Net.env true) 5 [] EVENT_UPDATE [down_source xcon client].
Lemma told_eq : told (Net.s2 true) = Ret (Net.after told (Net.s2 true), ()).
Proof. assert (Net.result_of told (Net.s2 true) = Some ()) as E by by vm_compute. exact (Net.run_eq _ _ _ E). Qed.
Lemma client_eq : xcon_GetLocalSource xcon = Some client ∧ inode_of client = Some 4026 ∧ lc_Id client = "1" ∧ lc_State client = State_UP.
Proof. by vm_compute. Qed.
Lemma ends_parse c : local_end xcon c → is_Some (inode_of c).
Proof.
  destruct client_eq as (Hc & Hi & _).
  assert (xcon_GetLocalDestination xcon = None) as Hd by by vm_compute.
  revert Hc Hi Hd. generalize client xcon. intros client x Hc Hi Hd [E|E]; [|congruence].
  rewrite Hc in E. injection E as <-. by exists 4026.
Qed.
End Gone.

Lemma vanished_client_witness :
  let n0 := node_check (Ok [1; 2]) [("1", Gone.xcon)] Gone.idle in
  down_source Gone.xcon Gone.client ∈ sys_pending (nd_sys n0) ∧
  (∀ j n', nsteps node_step j n0 n' → (j ≤ cost n0)%nat ∧
     ((∃ n'', node_step n' n'') ∨ nd_stream n' = [update_event (down_source Gone.xcon Gone.client)])) ∧
  let s' := Net.after Gone.told (Net.s2 true) in
  table s' !! "1" = Some 2%positive ∧ st_remotePeers s' = ∅.
Proof.
  destruct Gone.client_eq as (Hc & Hi & Hid & Hup).
  destruct (@vanished_client (Net.env true) Gone.idle [1; 2] [("1", Gone.xcon)] "1" Gone.xcon Gone.client 4026
    Gone.idle_quiet) as (Hrun & Hin & Hclose).
  - rewrite Gone.idle_copy. unfold is_range_of. by rewrite map_to_list_singleton.
  - rewrite Gone.idle_copy. intros k x c [_ <-]%lookup_singleton_Some. apply Gone.ends_parse.
  - by rewrite Gone.idle_copy.
  - exact Hc.
  - exact Hi.
  - apply (bool_decide_unpack _). by vm_compute.
  - exact Hup.
  - apply Nat.ltb_lt. by vm_compute.
  - split; [exact Hin|]. split.
    + intros j n' Hj. destruct (Hrun j n' Hj) as [Hb [Hs|Hs]]; (split; [exact Hb|]); [by left|right].
      rewrite Hs. by vm_compute.
    + destruct (Hclose 5%nat [] 2%positive Runs.cc1 (Net.s2 true) (Net.after Gone.told (Net.s2 true)) Net.reachable_s2) as (Ht & Hr & _).
      * rewrite Hid. exact Runs.s2_table.
      * exact Runs.cc1_eq.
      * by rewrite Runs.cc1_ready.
      * exact Gone.told_eq.
      * cbv zeta. rewrite Ht, Hr. split; [exact Runs.s2_table|by vm_compute].
Defined.
