(* ===== verification/RegistrarClient.v ===== *)
(** * The dataplane's side of the registrar (dataplane/impl/dataplaneregistrarclient)

    A dataplane registers with the manager, watches a liveness stream, and
    registers again when the stream fails.  One goroutine is active at a
    time: [register], or the [livenessMonitor] that it started. *)
From S2P Require Import Prelude.

Inductive callback := OnConnect | OnDisconnect.
#[global] Instance callback_eq_dec : EqDecision callback.
Proof. solve_decision. Defined.

(** What runs: the loop of [register], a monitor that opens its stream, the
    loop of the monitor, or nothing. *)
Inductive activity := Registering | Opening | Monitoring | Ended.
#[global] Instance activity_eq_dec : EqDecision activity.
Proof. solve_decision. Defined.

Record dataplaneRegistration := mkRegistration {
  dr_onConnect : bool;          (* the callbacks that are not nil *)
  dr_onDisconnect : bool;
  dr_cancelled : bool;          (* the context *)
  dr_activity : activity;
  dr_calls : list callback      (* the callbacks that ran, latest first *)
}.
Definition dr_with (dr : dataplaneRegistration) (a : activity) (calls : list callback) : dataplaneRegistration :=
  mkRegistration (dr_onConnect dr) (dr_onDisconnect dr) (dr_cancelled dr) a (calls ++ dr_calls dr).

Definition Register (onConnect onDisconnect : bool) : dataplaneRegistration :=
  mkRegistration onConnect onDisconnect false Registering [].

(** [tryRegistration]: the errors of the socket file, of the connection and
    of the registrar. *)
Definition tryRegistration (stat check request : option error) (dr : dataplaneRegistration) :
    dataplaneRegistration * option error :=
  match stat with
  | Some e => (dr, Some e)
  | None =>
      match check with
      | Some e => (dr, Some e)
      | None =>
          match request with
          | Some e => (dr, Some e)
          | None => (dr_with dr Opening (if dr_onConnect dr then [OnConnect] else []), None)
          end
      end
  end.
(** One turn of the loop of [register]. *)
Definition register_turn (stat check request : option error) (dr : dataplaneRegistration) : dataplaneRegistration :=
  if dr_cancelled dr then dr_with dr Ended []
  else (tryRegistration stat check request dr).1.

(** [livenessMonitor]: opening the stream, and one turn of its loop. *)
Definition liveness_open (e : option error) (dr : dataplaneRegistration) : dataplaneRegistration :=
  match e with Some _ => dr_with dr Ended [] | None => dr_with dr Monitoring [] end.
Definition liveness_turn (recv : option error) (dr : dataplaneRegistration) : outcome dataplaneRegistration :=
  if dr_cancelled dr then Ret (dr_with dr Ended (if dr_onDisconnect dr then [OnDisconnect] else []))
  else match recv with
  | None => Ret dr
  | Some _ =>
      if dr_onConnect dr then
        if dr_onDisconnect dr then Ret (dr_with dr Registering [OnDisconnect])
        else Panic "nil pointer dereference"
      else Ret (dr_with dr Registering [])
  end.

(** [Close]: cancels, and asks the registrar, if it answers, to forget the dataplane. *)
Definition dr_Close (check : option error) (dr : dataplaneRegistration) : dataplaneRegistration * bool :=
  (mkRegistration (dr_onConnect dr) (dr_onDisconnect dr) true (dr_activity dr) (dr_calls dr),
   match check with Some _ => false | None => true end).

(** What can happen next. *)
Inductive event :=
  | RegisterTurn (stat check request : option error)
  | LivenessOpen (e : option error)
  | LivenessTurn (recv : option error)
  | Closing (check : option error).
Definition client_step (dr : dataplaneRegistration) (e : event) : outcome dataplaneRegistration :=
  match e, dr_activity dr with
  | RegisterTurn stat check request, Registering => Ret (register_turn stat check request dr)
  | LivenessOpen e, Opening => Ret (liveness_open e dr)
  | LivenessTurn recv, Monitoring => liveness_turn recv dr
  | Closing check, _ => Ret (dr_Close check dr).1
  | _, _ => Ret dr
  end.

(** ** Properties *)

(** The callbacks, latest first, alternate and the first one is [OnConnect]. *)
Fixpoint alternating (calls : list callback) : Prop :=
  match calls with
  | [] => True
  | OnConnect :: calls => head calls ≠ Some OnConnect ∧ alternating calls
  | OnDisconnect :: calls => head calls = Some OnConnect ∧ alternating calls
  end.
Record client_ok (dr : dataplaneRegistration) : Prop := {
  ck_connect : dr_onConnect dr = true;
  ck_disconnect : dr_onDisconnect dr = true;
  ck_calls : alternating (dr_calls dr);
  ck_up : dr_activity dr = Opening ∨ dr_activity dr = Monitoring → head (dr_calls dr) = Some OnConnect;
  ck_down : dr_activity dr = Registering → head (dr_calls dr) ≠ Some OnConnect
}.
Lemma client_step_ok dr e : client_ok dr → ∃ dr', client_step dr e = Ret dr' ∧ client_ok dr'.
Proof.
  destruct dr as [oc od c a calls]. intros [Hc Hd Ha Hu Hw]. cbn in *. subst.
  destruct e as [stat check request|e|recv|check], a; cbn; try (eexists; split; [done|by split; cbn]);
    unfold register_turn, tryRegistration, liveness_open, liveness_turn; cbn;
    repeat case_match; simplify_eq; (eexists; split; [done|]); split; cbn; naive_solver.
Qed.

(** A client with both callbacks never panics; the callbacks alternate,
    starting with the connection, and while the client registers no
    connection is open. *)
Lemma registrar_callbacks_alternate events : ∃ dr, foldM client_step (Register true true) events = Ret dr ∧
  alternating (dr_calls dr) ∧ (dr_activity dr = Registering → head (dr_calls dr) ≠ Some OnConnect).
Proof.
  assert (∀ dr, client_ok dr → ∃ dr', foldM client_step dr events = Ret dr' ∧ client_ok dr') as Hrun.
  { induction events as [|e events IH]; intros dr Hok; [by exists dr|]. cbn.
    destruct (client_step_ok dr e Hok) as (dr1 & -> & Hok1). by apply IH. }
  destruct (Hrun (Register true true)) as (dr & E & Hok); [by split; naive_solver|].
  exists dr. split_and!; [done|apply Hok..].
Qed.

(** A monitor that cannot open its stream gives up: the client never registers again. *)
Lemma lost_registration dr e events : dr_activity dr = Opening →
  dr_activity <$> (match foldM client_step dr (LivenessOpen (Some e) :: events) with Ret dr => Some dr | Panic _ => None end) = Some Ended.
Proof.
  intros Ha. cbn. rewrite Ha. cbn. assert (dr_activity (dr_with dr Ended []) = Ended) as Hend by done.
  revert Hend. generalize (dr_with dr Ended []). clear. induction events as [|ev events IH]; intros dr Hd; cbn; [by rewrite Hd|].
  destruct ev; cbn; rewrite Hd; apply IH; done.
Qed.
(** With only the first callback, losing the stream calls the missing one. *)
Lemma missing_disconnect e : foldM client_step (Register true false)
  [RegisterTurn None None None; LivenessOpen None; LivenessTurn (Some e)] = Panic "nil pointer dereference".
Proof. done. Qed.
