(* ===== verification/Registration.v ===== *)
(** * A dataplane and its manager

    The registrar client of a dataplane (RegistrarClient) together with the
    registrar server of the manager (Nsmd): the answers the client gets are
    those of the server, in the state the manager is in.  Also the parts of
    the server that only serve: the liveness stream and the start. *)
From S2P Require Import Prelude GoStrings GoNet ConnectionContext Apis Vni Selector Model NsmState Nsm NsmHeal Nsmd NsmLemmas NsmInv NsmRequest NsmProps NsmdProps RegistrarClient.

(** ** The server (dataplanes.go) *)

(** The liveness stream: [sends] are the results of the messages, one every
    five seconds; how many were sent and the error that ended the call, if
    any of the sends so far failed. *)
Fixpoint RequestLiveness (sends : list (option error)) : nat * option error :=
  match sends with
  | [] => (0%nat, None)
  | Some e :: _ => (0%nat, Some e)
  | None :: sends => let '(n, e) := RequestLiveness sends in (S n, e)
  end.

(** What is left of the start: an error, a server that waits to be stopped,
    one that waits for its stop to be confirmed, or one that returned.  On
    the channel without a buffer the confirmation waits for a receiver. *)
Inductive registrar_life :=
  | NotStarted (e : error) (serving : bool)
  | WaitsForStop
  | WaitsForReceiver
  | StoppedServer.
Definition startDataplaneRegistrarServer (cleanup listen check : option error) (stopped receiver : bool) : registrar_life :=
  match cleanup, listen, check with
  | Some e, _, _ | _, Some e, _ => NotStarted e false
  | _, _, Some e => NotStarted e true
  | None, None, None =>
      if stopped then (if receiver then StoppedServer else WaitsForReceiver) else WaitsForStop
  end.

(** ** The two together *)
Section system.
Context `{!Environment, !EnvironmentLaws} (name socket : string).

Record system := mkSystem { sys_nsm : nsm_state; sys_client : dataplaneRegistration }.

(** One turn of [register]: the request reaches the manager when the client
    goes on and finds the socket and the connection in order. *)
Definition registration_turn (stat check : option error) (sys : system) : outcome system :=
  let dr := sys_client sys in
  match dr_cancelled dr, stat, check with
  | false, None, None =>
      match RequestDataplaneRegistration name socket (sys_nsm sys) with
      | Panic w => Panic w
      | Ret (s, (_, err)) => Ret (mkSystem s (register_turn None None err dr))
      end
  | _, _, _ => Ret (mkSystem (sys_nsm sys) (register_turn stat check None dr))
  end.
(** [Close] asks the manager to forget the dataplane. *)
Definition close_turn fuel ex (check : option error) (sys : system) : outcome system :=
  let '(dr, asks) := dr_Close check (sys_client sys) in
  if asks then
    match RequestDataplaneUnRegistration fuel ex name (sys_nsm sys) with
    | Panic w => Panic w
    | Ret (s, _) => Ret (mkSystem s dr)
    end
  else Ret (mkSystem (sys_nsm sys) dr).

(** The manager may also crash: a new one knows nothing. *)
Inductive system_step : system → system → Prop :=
  | sys_manager s s' dr : nsm_step s s' → system_step (mkSystem s dr) (mkSystem s' dr)
  | sys_restart s dr nsm l v w : system_step (mkSystem s dr) (mkSystem (initial nsm l v w) dr)
  | sys_register stat check sys sys' : dr_activity (sys_client sys) = Registering →
      registration_turn stat check sys = Ret sys' → system_step sys sys'
  | sys_open e s dr dr' : client_step dr (LivenessOpen e) = Ret dr' → system_step (mkSystem s dr) (mkSystem s dr')
  | sys_liveness e s dr dr' : client_step dr (LivenessTurn e) = Ret dr' → system_step (mkSystem s dr) (mkSystem s dr')
  | sys_close fuel ex check sys sys' : close_turn fuel ex check sys = Ret sys' → system_step sys sys'.
Definition system_start (nsm : option NetworkServiceManager) l v w : system :=
  mkSystem (initial nsm l v w) (Register true true).
Definition system_reachable (sys : system) : Prop := ∃ nsm l v w, rtc system_step (system_start nsm l v w) sys.

Lemma client_event_ok dr e dr' : client_step dr e = Ret dr' → client_ok dr → client_ok dr'.
Proof. intros E Hok. destruct (client_step_ok dr e Hok) as (dr1 & E1 & H1). congruence. Qed.
Lemma registering_ok stat check request dr : dr_activity dr = Registering → client_ok dr →
  client_ok (register_turn stat check request dr).
Proof. intros Ha. apply (client_event_ok dr (RegisterTurn stat check request)). unfold client_step. by rewrite Ha. Qed.
Lemma closing_ok check dr : client_ok dr → client_ok (dr_Close check dr).1.
Proof. by apply (client_event_ok dr (Closing check)). Qed.

Lemma system_step_ok sys sys' : system_step sys sys' →
  reachable (sys_nsm sys) ∧ client_ok (sys_client sys) → reachable (sys_nsm sys') ∧ client_ok (sys_client sys').
Proof.
  intros Hst [Hr Hok]. destruct Hst as [s s' dr Hs|s dr nsm l v w|stat check sys sys' Ha E|e s dr dr' E|e s dr dr' E|fuel ex check sys sys' E];
    cbn [sys_nsm sys_client] in *.
  - split; [by eapply reachable_step|done].
  - split; [apply reachable_init|done].
  - unfold registration_turn in E. destruct (dr_cancelled _), stat, check; inv_ret; cbn; try (split; [done|by apply registering_ok]).
    destruct (RequestDataplaneRegistration name socket (sys_nsm sys)) as [[s1 [ok err]]|] eqn:Ereg; inv_ret; cbn.
    split; [|by apply registering_ok]. eapply reachable_step; [done|]. by eapply step_RegisterDataplane.
  - split; [done|]. by eapply client_event_ok.
  - split; [done|]. by eapply client_event_ok.
  - unfold close_turn in E. pose proof (closing_ok check _ Hok) as Hok'.
    destruct (dr_Close check (sys_client sys)) as [dr asks]. destruct asks; inv_ret; cbn in *; [|by split].
    destruct (RequestDataplaneUnRegistration fuel ex name (sys_nsm sys)) as [[s1 ok]|] eqn:Ereg; inv_ret; cbn.
    split; [|done]. eapply reachable_step; [done|]. by eapply step_UnRegisterDataplane.
Qed.
Lemma system_ok sys : system_reachable sys → reachable (sys_nsm sys) ∧ client_ok (sys_client sys).
Proof.
  intros (nsm & l & v & w & HR).
  apply (rtc_ind_r (λ y, reachable (sys_nsm y) ∧ client_ok (sys_client y)) _) in HR; [done| |].
  - split; [apply reachable_init|]. split; cbn; naive_solver.
  - intros y z _ Hst Hy. by eapply system_step_ok.
Qed.

(** C20: whatever the manager, the client and a crash of the manager did before, a
    turn of a running client against a working registrar is exact: while the
    manager knows the name nothing changes and the client tries again; else
    the manager gets one entry for a new dataplane with this socket, which it
    starts to watch, and the client is connected.  And when the liveness
    stream of a connected client fails and the manager does not know it, as
    after a crash, the next such turn registers it again, after the
    disconnection was reported and with the connection reported last. *)
Theorem dataplane_registers_again sys : system_reachable sys → dr_cancelled (sys_client sys) = false →
  let registers dr s sys' := ∃ d,
    st_dps s !! d = None ∧ st_dps (sys_nsm sys') = <[d := mkDataplane name socket [] []]> (st_dps s) ∧
    m_dataplanes (st_model (sys_nsm sys')) = <[name := d]> (m_dataplanes (st_model s)) ∧
    name ∈ st_watched (sys_nsm sys') ∧
    sys_client sys' = dr_with dr Opening [OnConnect] in
  let known := is_Some (m_dataplanes (st_model (sys_nsm sys)) !! name) in
  (dr_activity (sys_client sys) = Registering → ∃ sys', registration_turn None None sys = Ret sys' ∧
     (known → sys' = sys) ∧ (¬ known → registers (sys_client sys) (sys_nsm sys) sys')) ∧
  (dr_activity (sys_client sys) = Monitoring → ¬ known → ∀ e, ∃ dr sys',
     client_step (sys_client sys) (LivenessTurn (Some e)) = Ret dr ∧
     registration_turn None None (mkSystem (sys_nsm sys) dr) = Ret sys' ∧
     registers dr (sys_nsm sys) sys' ∧
     dr_calls (sys_client sys') = OnConnect :: OnDisconnect :: dr_calls (sys_client sys)).
Proof.
  intros HR Hc registers known. destruct (system_ok sys HR) as [Hr Hok].
  assert (∀ dr, dr_cancelled dr = false → dr_onConnect dr = true → ∃ sys', registration_turn None None (mkSystem (sys_nsm sys) dr) = Ret sys' ∧
    (known → sys' = mkSystem (sys_nsm sys) dr) ∧ (¬ known → registers dr (sys_nsm sys) sys')) as Hturn.
  { intros dr Hcd Hoc. pose proof (dataplane_names_unique name socket _ Hr) as Hu.
    unfold registration_turn; cbn. rewrite Hcd. unfold known. destruct (m_dataplanes _ !! name) as [d0|].
    - destruct Hu as (e & ->). eexists. split; [done|]. split; [|intros []; by eexists]. intros _.
      unfold register_turn, tryRegistration. by rewrite Hcd.
    - destruct Hu as (s' & d & -> & Hd & Hdps & Hm & Hw). eexists. split; [done|]. split; [by intros []|]. intros _.
      exists d. cbn. unfold register_turn, tryRegistration. rewrite Hcd, Hoc. cbn. split_and!; [done..| |done].
      rewrite Hw. set_solver. }
  split.
  - intros Ha. destruct (Hturn (sys_client sys) Hc (ck_connect _ Hok)) as (sys' & E & H1 & H2).
    destruct sys as [s dr]. by exists sys'.
  - intros Ha Hk e. exists (dr_with (sys_client sys) Registering [OnDisconnect]).
    destruct (Hturn (dr_with (sys_client sys) Registering [OnDisconnect])) as (sys' & E & _ & H2);
      [done|apply Hok|]. exists sys'. specialize (H2 Hk). split_and!; [|done|done|].
    + unfold client_step, liveness_turn. rewrite Ha, Hc, (ck_connect _ Hok), (ck_disconnect _ Hok). done.
    + destruct H2 as (d & _ & _ & _ & _ & ->). done.
Qed.

(** When the manager drops a dataplane because its stream of mechanisms
    failed, the liveness stream goes on: the client makes no further request
    and the dataplane stays unknown. *)
Lemma dropped_dataplane_stays_unknown sys n : dr_activity (sys_client sys) = Monitoring → dr_cancelled (sys_client sys) = false →
  foldM client_step (sys_client sys) (replicate n (LivenessTurn None)) = Ret (sys_client sys).
Proof.
  intros Ha Hc. induction n as [|n IH]; [done|]. rewrite replicate_S. cbn [foldM].
  assert (client_step (sys_client sys) (LivenessTurn None) = Ret (sys_client sys)) as ->; [|apply IH].
  unfold client_step. rewrite Ha. unfold liveness_turn. by rewrite Hc.
Qed.
End system.

(** A call for liveness ends with the first message that cannot be sent. *)
Lemma liveness_until_error n e rest : RequestLiveness (replicate n None ++ Some e :: rest) = (n, Some e).
Proof. induction n as [|n IH]; cbn; [done|by rewrite IH]. Qed.
Lemma liveness_never_ends n : RequestLiveness (replicate n None) = (n, None).
Proof. induction n as [|n IH]; cbn; [done|by rewrite IH]. Qed.
(** A server whose socket does not answer is reported as failed and goes on serving. *)
Lemma registrar_failed_check_serves e s r : startDataplaneRegistrarServer None None (Some e) s r = NotStarted e true.
Proof. done. Qed.

(** A dataplane that is connected when the manager is replaced. *)
Module Replaced.
Import Net.
#[local] Existing Instance Registration.env_laws.
#[local] Instance the_env : Environment := env true.
Definition manager0 : nsm_state := initial None 1 (mkVniAllocator ∅) ∅.
Definition connected : dataplaneRegistration := mkRegistration true true false Monitoring [OnConnect].
Definition sys : system := mkSystem manager0 connected.
Lemma sys_reachable : system_reachable "dp" "dp.sock" sys.
Proof.
  exists None, 1%positive, (mkVniAllocator ∅), ∅. unfold system_start.
  eapply rtc_l; [eapply (sys_register _ _ None None); [reflexivity|vm_compute; reflexivity]|].
  eapply rtc_l; [eapply (sys_open _ _ None); reflexivity|].
  apply rtc_once. apply sys_restart.
Qed.

Lemma dataplane_registers_again_witness : ∃ sys',
  registration_turn "dp" "dp.sock" None None (mkSystem manager0 (dr_with connected Registering [OnDisconnect])) = Ret sys' ∧
  is_Some (m_dataplanes (st_model (sys_nsm sys')) !! "dp") ∧
  dr_calls (sys_client sys') = [OnConnect; OnDisconnect; OnConnect].
Proof.
  destruct (dataplane_registers_again "dp" "dp.sock" sys sys_reachable eq_refl) as [_ Hagain].
  destruct (Hagain eq_refl ltac:(by intros []) (Errorf "gone")) as (dr & sys' & E & E' & (d & _ & _ & Hm & _) & Hcalls).
  injection E as <-. exists sys'. split_and!; [exact E'| |exact Hcalls].
  rewrite Hm, lookup_insert_eq. by eexists.
Defined.
End Replaced.
