(* ===== verification/DeepCopy.v ===== *)
(** * Deep copies of the resources (k8s/pkg/apis/networkservice/v1/zz_generated.deepcopy.go)

    The generated copying functions walk pointers, slices and maps, so that
    they are modelled on a heap: a location holds a map, the backing array of
    a slice or a struct made by [new].  A nil pointer, slice or map is [None].
    [DeepCopyInto] gives the struct it writes to its argument.  The metadata
    of an object ([ObjectMeta]), its cells and its copying function belong to
    Kubernetes and are arguments, and so is [metav1.Time].  A dangling or
    ill-typed location, which Go does not have, stops a function ([None]).

    [Deep] states what it is to read a structure through the heap, [copier]
    what a copying function promises; both are closed under pointers, maps
    and slices, and every type of the package gets its copier from there. *)
From S2P Require Import Prelude.

Notation loc := positive.

(** ** The structs of types.go, as they lie in memory *)
Record TypeMeta := mkTypeMeta { tm_Kind : string; tm_APIVersion : string }.
Record Destination := mkDestination { DestinationSelector : option loc; Weight : Z }.
Record Match := mkMatch { SourceSelector : option loc; Routes : option loc }.
Record NetworkServiceSpec := mkNetworkServiceSpec { Payload : string; Matches : option loc }.
Record NetworkServiceStatus := mkNetworkServiceStatus {}.
Record NetworkServiceEndpointSpec := mkEndpointSpec { es_NetworkServiceName : string; es_NsmName : string }.
Record NetworkServiceEndpointStatus := mkEndpointStatus { es_State : string }.
Record NetworkServiceManagerSpec := mkManagerSpec {}.

Section heap.
Context {ObjectMeta MetaCell Time ListMeta : Type}.

Record NetworkServiceManagerStatus := mkManagerStatus { LastSeen : Time; URL : string; State : string }.

Record NetworkService := mkNetworkService {
  ns_TypeMeta : TypeMeta; ns_ObjectMeta : ObjectMeta;
  ns_Spec : NetworkServiceSpec; ns_Status : NetworkServiceStatus
}.
Record NetworkServiceEndpoint := mkNetworkServiceEndpoint {
  nse_TypeMeta : TypeMeta; nse_ObjectMeta : ObjectMeta;
  nse_Spec : NetworkServiceEndpointSpec; nse_Status : NetworkServiceEndpointStatus
}.
Record NetworkServiceManager := mkNetworkServiceManager {
  nsm_TypeMeta : TypeMeta; nsm_ObjectMeta : ObjectMeta;
  nsm_Spec : NetworkServiceManagerSpec; nsm_Status : NetworkServiceManagerStatus
}.
(** The three lists differ in the elements of the array only. *)
Record ObjectList := mkObjectList { l_TypeMeta : TypeMeta; l_ListMeta : ListMeta; l_Items : option loc }.

Inductive cell :=
  | CMap (m : gmap string string)
  | CPointers (l : list (option loc))
  | CDestination (d : Destination)
  | CMatch (m : Match)
  | CSpec (s : NetworkServiceSpec)
  | CStatus (s : NetworkServiceStatus)
  | CService (s : NetworkService)
  | CServices (l : list NetworkService)
  | CEndpointSpec (s : NetworkServiceEndpointSpec)
  | CEndpointStatus (s : NetworkServiceEndpointStatus)
  | CEndpoint (e : NetworkServiceEndpoint)
  | CEndpoints (l : list NetworkServiceEndpoint)
  | CManagerSpec (s : NetworkServiceManagerSpec)
  | CManagerStatus (s : NetworkServiceManagerStatus)
  | CManager (m : NetworkServiceManager)
  | CManagers (l : list NetworkServiceManager)
  | CList (l : ObjectList)
  | CMeta (c : MetaCell).

Notation heap := (gmap loc cell).

(** ** Programs on the heap *)
Definition H (A : Type) : Type := heap → option (A * heap).
#[global] Instance H_ret : MRet H := λ A a h, Some (a, h).
#[global] Instance H_bind : MBind H := λ A B f m h, m h ≫= λ '(a, h'), f a h'.

Definition alloc (c : cell) : H loc := λ h, let l := fresh (dom h) in Some (l, <[l := c]> h).
Definition cell_at {A} (get : cell → option A) (h : heap) (l : loc) : option A := h !! l ≫= get.
Definition load {A} (get : cell → option A) (l : loc) : H A := λ h, (λ a, (a, h)) <$> cell_at get h l.
Definition store (l : loc) (c : cell) : H unit := λ h,
  match h !! l with Some _ => Some ((), <[l := c]> h) | None => None end.

Definition get_map (c : cell) : option (gmap string string) := match c with CMap m => Some m | _ => None end.
Definition get_pointers (c : cell) : option (list (option loc)) := match c with CPointers l => Some l | _ => None end.
Definition get_Destination (c : cell) : option Destination := match c with CDestination d => Some d | _ => None end.
Definition get_Match (c : cell) : option Match := match c with CMatch m => Some m | _ => None end.
Definition get_Spec (c : cell) : option NetworkServiceSpec := match c with CSpec s => Some s | _ => None end.
Definition get_Status (c : cell) : option NetworkServiceStatus := match c with CStatus s => Some s | _ => None end.
Definition get_Service (c : cell) : option NetworkService := match c with CService s => Some s | _ => None end.
Definition get_Services (c : cell) : option (list NetworkService) := match c with CServices l => Some l | _ => None end.
Definition get_EndpointSpec (c : cell) : option NetworkServiceEndpointSpec :=
  match c with CEndpointSpec s => Some s | _ => None end.
Definition get_EndpointStatus (c : cell) : option NetworkServiceEndpointStatus :=
  match c with CEndpointStatus s => Some s | _ => None end.
Definition get_Endpoint (c : cell) : option NetworkServiceEndpoint := match c with CEndpoint e => Some e | _ => None end.
Definition get_Endpoints (c : cell) : option (list NetworkServiceEndpoint) :=
  match c with CEndpoints l => Some l | _ => None end.
Definition get_ManagerSpec (c : cell) : option NetworkServiceManagerSpec :=
  match c with CManagerSpec s => Some s | _ => None end.
Definition get_ManagerStatus (c : cell) : option NetworkServiceManagerStatus :=
  match c with CManagerStatus s => Some s | _ => None end.
Definition get_Manager (c : cell) : option NetworkServiceManager := match c with CManager m => Some m | _ => None end.
Definition get_Managers (c : cell) : option (list NetworkServiceManager) :=
  match c with CManagers l => Some l | _ => None end.
Definition get_List (c : cell) : option ObjectList := match c with CList l => Some l | _ => None end.

(** ** The loops of the copying functions

    The elements of a slice, each written to its place of the new array. *)
Section slices.
Context {A : Type} (get : cell → option (list A)) (mk : list A → cell) (zero : A) (copy : A → H A).

Fixpoint copy_elements (out : loc) (i : nat) (elements : list A) : H unit :=
  match elements with
  | [] => mret ()
  | a :: elements =>
      b ← copy a;
      outs ← load get out;
      _ ← store out (mk (<[i := b]> outs));
      copy_elements out (S i) elements
  end.
Definition copy_slice (inp : option loc) : H (option loc) :=
  match inp with
  | None => mret None
  | Some l =>
      elements ← load get l;
      out ← alloc (mk (replicate (length elements) zero));
      _ ← copy_elements out 0 elements;
      mret (Some out)
  end.
End slices.

(** [DeepCopy] of every type: nil gives nil; else a new struct is filled. *)
Definition new_copy {A} (get : cell → option A) (mk : A → cell) (zero : A) (into : A → H A) (inp : option loc) :
    H (option loc) :=
  match inp with
  | None => mret None
  | Some l =>
      out ← alloc (mk zero);
      a ← load get l;
      b ← into a;
      _ ← store out (mk b);
      mret (Some out)
  end.
(** [DeepCopyObject] wraps the pointer in an interface unless it is nil. *)
Definition as_object (copy : option loc → H (option loc)) (inp : option loc) : H (option loc) :=
  c ← copy inp;
  mret (match c with Some l => Some l | None => None end).

(** ** Reading a structure through the heap

    [val] is what a value stands for, all pointers followed, when none of
    them dangles; [reach] is the locations this reading depends on. *)
Record Deep (A V : Type) := mkDeep {
  val : heap → A → option V;
  reach : heap → A → gset loc;
  reach_dom : ∀ h a v, val h a = Some v → reach h a ⊆ dom h;
  val_local : ∀ h h' a v, val h a = Some v → (∀ l, l ∈ reach h a → h' !! l = h !! l) →
    val h' a = Some v ∧ reach h' a = reach h a
}.
Arguments mkDeep {A V} _ _ _ _.
Arguments val {A V} _ _ _.
Arguments reach {A V} _ _ _.
Arguments reach_dom {A V} _ _ _ _ _.
Arguments val_local {A V} _ _ _ _ _ _ _.

(** A copying function: the old heap is left alone, the copy reads as the
    original and reaches new locations only. *)
Definition copier {A V} (D : Deep A V) (copy : A → H A) : Prop :=
  ∀ h a v, val D h a = Some v →
    ∃ b h', copy a h = Some (b, h') ∧ h ⊆ h' ∧ val D h' b = Some v ∧ reach D h' b ## dom h.

Lemma val_mono {A V} (D : Deep A V) h h' a v :
  val D h a = Some v → h ⊆ h' → val D h' a = Some v ∧ reach D h' a = reach D h a.
Proof.
  intros Hv Hsub. apply val_local; [done|]. intros l Hl.
  apply (reach_dom D _ _ _ Hv), elem_of_dom in Hl as [c Hc]. rewrite Hc. by eapply lookup_weaken.
Qed.
Lemma val_insert {A V} (D : Deep A V) h l c a v :
  val D h a = Some v → l ∉ reach D h a →
  val D (<[l := c]> h) a = Some v ∧ reach D (<[l := c]> h) a = reach D h a.
Proof. intros Hv Hl. apply val_local; [done|]. intros l' Hl'. apply lookup_insert_ne. set_solver. Qed.

(** Values without pointers; pairs; structs seen as tuples; what a pointer
    points to; the elements of an array. *)
Program Definition flat (A : Type) : Deep A A := mkDeep (λ _ a, Some a) (λ _ _, ∅) _ _.
Next Obligation. set_solver. Qed.
Next Obligation. done. Qed.

Program Definition deep_pair {A B V W} (D : Deep A V) (E : Deep B W) : Deep (A * B) (V * W) :=
  mkDeep (λ h p, v ← val D h p.1; w ← val E h p.2; Some (v, w))
         (λ h p, reach D h p.1 ∪ reach E h p.2) _ _.
Next Obligation.
  intros A B V W D E h [a b] [v w]; simpl. intros (v' & Hv & (w' & Hw & [= -> ->])%bind_Some)%bind_Some.
  apply union_subseteq; split; by eapply reach_dom.
Qed.
Next Obligation.
  intros A B V W D E h h' [a b] [v w]; simpl. intros (v' & Hv & (w' & Hw & [= -> ->])%bind_Some)%bind_Some Hl.
  destruct (val_local D h h' a v) as [-> ->]; [done|set_solver|].
  destruct (val_local E h h' b w) as [-> ->]; [done|set_solver|]. done.
Qed.

Program Definition deep_via {A B V} (f : A → B) (D : Deep B V) : Deep A V :=
  mkDeep (λ h a, val D h (f a)) (λ h a, reach D h (f a)) _ _.
Next Obligation. intros A B V f D h a v. apply reach_dom. Qed.
Next Obligation. intros A B V f D h h' a v. apply val_local. Qed.

Program Definition deep_ptr {A V} (get : cell → option A) (D : Deep A V) : Deep (option loc) (option V) :=
  mkDeep (λ h p, match p with
                 | None => Some None
                 | Some l => a ← cell_at get h l; v ← val D h a; Some (Some v)
                 end)
         (λ h p, match p with
                 | None => ∅
                 | Some l => {[l]} ∪ from_option (reach D h) ∅ (cell_at get h l)
                 end) _ _.
Next Obligation.
  intros A V get D h [l|] v; simpl; [|set_solver].
  intros (a & Ha & (w & Hw & _)%bind_Some)%bind_Some. rewrite Ha.
  apply bind_Some in Ha as (c & Hc & _). apply union_subseteq; split; [|by eapply reach_dom].
  apply singleton_subseteq_l, elem_of_dom. by exists c.
Qed.
Next Obligation.
  intros A V get D h h' [l|] v; simpl; [|done].
  intros (a & Ha & (w & Hw & [= <-])%bind_Some)%bind_Some Hl.
  unfold cell_at in *. rewrite (Hl l), Ha in * by set_solver. simpl.
  destruct (val_local D h h' a w) as [-> ->]; [done|set_solver|]. done.
Qed.

Program Definition deep_list {A V} (D : Deep A V) : Deep (list A) (list V) :=
  mkDeep (λ h l, mapM (val D h) l) (λ h l, ⋃ (reach D h <$> l)) _ _.
Next Obligation.
  intros A V D h l; induction l as [|a l IH]; intros v; simpl; [set_solver|].
  intros (w & Hw & (ws & Hws & _)%bind_Some)%bind_Some.
  apply union_subseteq; split; [by eapply reach_dom|by eapply IH].
Qed.
Next Obligation.
  intros A V D h h' l; induction l as [|a l IH]; intros v; simpl; [done|].
  intros (w & Hw & (ws & Hws & [= <-])%bind_Some)%bind_Some Hl.
  destruct (val_local D h h' a w) as [-> ->]; [done|set_solver|]. simpl.
  destruct (IH ws) as [-> E]; [done|set_solver|]. split; [done|by f_equal].
Qed.

(** ** Copying functions compose *)
Lemma copier_ext {A V} (D : Deep A V) c c' : (∀ a h, c' a h = c a h) → copier D c → copier D c'.
Proof. intros E Hc h a v Hv. rewrite E. by apply Hc. Qed.
Lemma copier_flat A : copier (flat A) mret.
Proof. intros h a v [= ->]. exists v, h. simpl. split_and!; [done|done|done|set_solver]. Qed.
Lemma copier_pair {A B V W} (D : Deep A V) (E : Deep B W) c d :
  copier D c → copier E d → copier (deep_pair D E) (λ '(a, b), a' ← c a; b' ← d b; mret (a', b')).
Proof.
  intros Hc Hd h [a b] [v w]; simpl. intros (v' & Hv & (w' & Hw & [= -> ->])%bind_Some)%bind_Some.
  destruct (Hc h a v Hv) as (a' & h1 & Ea & S1 & V1 & R1).
  destruct (Hd h1 b w) as (b' & h2 & Eb & S2 & V2 & R2); [by eapply val_mono|].
  destruct (val_mono D h1 h2 a' v V1 S2) as [V1' R1'].
  exists (a', b'), h2. unfold mbind, H_bind. rewrite Ea; simpl. rewrite Eb; simpl.
  rewrite V1', V2, R1'. simpl. apply subseteq_dom in S1 as D1.
  split_and!; [done|by etrans|done|set_solver].
Qed.
Lemma copier_via {A B V} (f : A → B) (g : B → A) (D : Deep B V) c :
  (∀ b, f (g b) = b) → copier D c → copier (deep_via f D) (λ a, b ← c (f a); mret (g b)).
Proof.
  intros Hfg Hc h a v Hv. destruct (Hc h (f a) v Hv) as (b & h' & E & HS & HV & HR).
  exists (g b), h'. unfold mbind, H_bind. rewrite E; simpl. rewrite Hfg. done.
Qed.
Lemma alloc_new h c : ∃ l, alloc c h = Some (l, <[l := c]> h) ∧ l ∉ dom h.
Proof. exists (fresh (dom h)). split; [done|apply is_fresh]. Qed.
#[local] Opaque alloc.

Lemma copier_new {A V} (D : Deep A V) get mk zero into :
  (∀ a, get (mk a) = Some a) → copier D into → copier (deep_ptr get D) (new_copy get mk zero into).
Proof.
  intros Hget Hc h [l|] v; simpl; [|intros [= <-]; exists None, h; split_and!; [done|done|done|set_solver]].
  intros (a & Ha & (w & Hw & [= <-])%bind_Some)%bind_Some.
  destruct (alloc_new h (mk zero)) as (out & Ealloc & Hout).
  assert (h ⊆ <[out := mk zero]> h) as S0 by (apply insert_subseteq; by apply not_elem_of_dom).
  destruct (Hc (<[out := mk zero]> h) a w) as (b & h2 & Eb & S2 & V2 & R2); [by eapply val_mono|].
  assert (h2 !! out = Some (mk zero)) as L2 by (eapply lookup_weaken; [|done]; apply lookup_insert_eq).
  destruct (val_insert D h2 out (mk b) b w) as [V3 R3]; [done|set_solver|].
  assert (l ≠ out). { intros ->. apply bind_Some in Ha as (c & Hc' & _). by apply elem_of_dom_2 in Hc'. }
  exists (Some out), (<[out := mk b]> h2). unfold new_copy, mbind, H_bind. rewrite Ealloc; simpl. unfold load, cell_at in *.
  rewrite lookup_insert_ne, Ha by done; simpl. rewrite Eb; simpl. unfold store. rewrite L2; simpl.
  rewrite lookup_insert_eq. simpl. rewrite Hget; simpl. rewrite V3, R3; simpl.
  split_and!; [done| |done|set_solver].
  apply insert_subseteq_r; [by apply not_elem_of_dom|by etrans].
Qed.

(** The loop over a slice, with [copied] already in place. *)
Lemma copy_elements_spec {A V} (D : Deep A V) get mk zero copy (h0 : heap) out elements :
  (∀ l, get (mk l) = Some l) → copier D copy →
  ∀ h copied vs ws,
  h0 ⊆ h → out ∉ dom h0 →
  h !! out = Some (mk (copied ++ replicate (length elements) zero)) →
  val (deep_list D) h copied = Some vs → reach (deep_list D) h copied ## ({[out]} ∪ dom h0) →
  val (deep_list D) h0 elements = Some ws →
  ∃ copies h', copy_elements get mk copy out (length copied) elements h = Some ((), h') ∧
    h0 ⊆ h' ∧ h' !! out = Some (mk copies) ∧ val (deep_list D) h' copies = Some (vs ++ ws) ∧
    reach (deep_list D) h' copies ## ({[out]} ∪ dom h0).
Proof.
  intros Hget Hc. induction elements as [|a elements IH]; intros h copied vs ws S0 Hout Hl Hvs HR Hws.
  { simpl in Hws. injection Hws as <-. exists copied, h. simpl in Hl. by rewrite !app_nil_r in *. }
  simpl in Hws. apply bind_Some in Hws as (w & Hw & (ws' & Hws' & [= <-])%bind_Some).
  destruct (Hc h a w) as (b & h1 & Eb & S1 & V1 & R1); [by eapply val_mono|].
  destruct (val_mono (deep_list D) h h1 copied vs Hvs S1) as [Hvs1 HR1].
  assert (out ∈ dom h) as Hin by (by apply elem_of_dom_2 in Hl).
  apply subseteq_dom in S0 as S0'.
  assert (h1 !! out = Some (mk (copied ++ replicate (length (a :: elements)) zero))) as Hl1
    by (by eapply lookup_weaken).
  set (h2 := <[out := mk (copied ++ b :: replicate (length elements) zero)]> h1).
  destruct (val_insert (deep_list D) h1 out (mk (copied ++ b :: replicate (length elements) zero)) copied vs)
    as [Hvs2 HR2]; [done|set_solver|].
  destruct (val_insert D h1 out (mk (copied ++ b :: replicate (length elements) zero)) b w)
    as [V2 R2]; [done|set_solver|]. fold h2 in Hvs2, HR2, V2, R2.
  destruct (IH h2 (copied ++ [b]) (vs ++ [w]) ws') as (copies & h' & E & P).
  - apply insert_subseteq_r; [by apply not_elem_of_dom|by etrans].
  - done.
  - unfold h2. rewrite lookup_insert_eq, <- app_assoc. done.
  - apply mapM_app_Some; [done|]. simpl. by rewrite V2.
  - simpl in *. rewrite fmap_app, union_list_app. simpl. rewrite HR2, R2. set_solver.
  - done.
  - exists copies, h'. rewrite <- app_assoc in P. split; [|done].
    simpl. unfold mbind, H_bind, load, cell_at, store in *. rewrite Eb; simpl. rewrite Hl1; simpl.
    rewrite Hget; simpl. rewrite Hl1; simpl. rewrite length_app, Nat.add_1_r in E. simpl in E.
    rewrite insert_app_r_alt, Nat.sub_diag by lia. exact E.
Qed.
Lemma copier_slice {A V} (D : Deep A V) get mk zero copy :
  (∀ l, get (mk l) = Some l) → copier D copy →
  copier (deep_ptr get (deep_list D)) (copy_slice get mk zero copy).
Proof.
  intros Hget Hc h [l|] v; [|intros [= <-]; exists None, h; simpl; split_and!; [done|done|done|set_solver]].
  intros (elements & Hl & (ws & Hws & [= <-])%bind_Some)%bind_Some.
  destruct (alloc_new h (mk (replicate (length elements) zero))) as (out & Ealloc & Hout).
  destruct (copy_elements_spec D get mk zero copy h out elements Hget Hc
    (<[out := mk (replicate (length elements) zero)]> h) [] [] ws) as (copies & h' & E & S' & L' & V' & R').
  - by apply insert_subseteq, not_elem_of_dom.
  - done.
  - by rewrite lookup_insert_eq.
  - done.
  - simpl. set_solver.
  - done.
  - exists (Some out), h'. unfold copy_slice, mbind, H_bind, load. rewrite Hl; simpl. rewrite Ealloc; simpl.
    simpl in E. rewrite E; simpl. unfold cell_at. rewrite L'; simpl. rewrite Hget; simpl. simpl in V'.
    rewrite V'. simpl in R'. split_and!; [done|done|done|set_solver].
Qed.

(** ** Copying maps: [order] is the order in which Go ranges over a map. *)
Context (order : gmap string string → list (string * string)).

Fixpoint copy_entries (out : loc) (entries : list (string * string)) : H unit :=
  match entries with
  | [] => mret ()
  | (key, v) :: entries =>
      m ← load get_map out;
      _ ← store out (CMap (<[key := v]> m));
      copy_entries out entries
  end.
Definition copy_map (inp : option loc) : H (option loc) :=
  match inp with
  | None => mret None
  | Some l =>
      m ← load get_map l;
      out ← alloc (CMap ∅);
      _ ← copy_entries out (order m);
      mret (Some out)
  end.

Lemma copy_entries_spec out entries h m :
  h !! out = Some (CMap m) →
  copy_entries out entries h
    = Some ((), <[out := CMap (foldl (λ m kv, <[kv.1 := kv.2]> m) m entries)]> h).
Proof.
  revert h m; induction entries as [|[k v] entries IH]; intros h m Hm; simpl.
  - by rewrite insert_id.
  - unfold mbind, H_bind, load, cell_at, store. rewrite Hm; simpl. rewrite Hm; simpl.
    erewrite IH by apply lookup_insert_eq. by rewrite insert_insert_eq.
Qed.
Lemma foldl_insert_union (entries : list (string * string)) (m : gmap string string) :
  NoDup entries.*1 → foldl (λ m kv, <[kv.1 := kv.2]> m) m entries = list_to_map entries ∪ m.
Proof.
  revert m; induction entries as [|[k v] entries IH]; intros m; simpl; [by rewrite (left_id_L ∅ (∪))|].
  intros [Hk Hnd]%NoDup_cons. rewrite IH by done. rewrite <- insert_union_l. symmetry.
  apply insert_union_r. by apply not_elem_of_list_to_map_1.
Qed.

Context (order_ranges : ∀ m, is_range_of (order m) m).

Lemma copied_entries m : foldl (λ m kv, <[kv.1 := kv.2]> m) ∅ (order m) = m.
Proof.
  assert (NoDup (order m).*1) as Hnd by (rewrite (order_ranges m); apply NoDup_fst_map_to_list).
  rewrite foldl_insert_union, (right_id_L ∅ (∪)) by done.
  rewrite (list_to_map_proper _ (map_to_list m)); [apply list_to_map_to_list|done|apply order_ranges].
Qed.
Lemma copier_map : copier (deep_ptr get_map (flat _)) copy_map.
Proof.
  intros h [l|] v; simpl; [|intros [= <-]; exists None, h; split_and!; [done|done|done|set_solver]].
  intros (m & Hm & [= <-])%bind_Some.
  destruct (alloc_new h (CMap ∅)) as (out & Ealloc & Hout).
  exists (Some out), (<[out := CMap m]> h). unfold copy_map, mbind, H_bind, load. rewrite Hm; simpl.
  rewrite Ealloc; simpl. rewrite (copy_entries_spec out _ _ ∅) by apply lookup_insert_eq. simpl.
  rewrite insert_insert_eq, copied_entries. unfold cell_at. rewrite lookup_insert_eq. simpl.
  split_and!; [done|by apply insert_subseteq, not_elem_of_dom|done|set_solver].
Qed.

(** ** The copying functions *)
Context (ObjectMeta_DeepCopyInto : ObjectMeta → H ObjectMeta) (Time_DeepCopyInto : Time → Time).
Context (zero_ObjectMeta : ObjectMeta) (zero_Time : Time) (zero_ListMeta : ListMeta).

Definition zero_TypeMeta : TypeMeta := mkTypeMeta "" "".
Definition zero_Destination : Destination := mkDestination None 0.
Definition zero_Match : Match := mkMatch None None.
Definition zero_Spec : NetworkServiceSpec := mkNetworkServiceSpec "" None.
Definition zero_Service : NetworkService :=
  mkNetworkService zero_TypeMeta zero_ObjectMeta zero_Spec mkNetworkServiceStatus.
Definition zero_EndpointSpec : NetworkServiceEndpointSpec := mkEndpointSpec "" "".
Definition zero_EndpointStatus : NetworkServiceEndpointStatus := mkEndpointStatus "".
Definition zero_Endpoint : NetworkServiceEndpoint :=
  mkNetworkServiceEndpoint zero_TypeMeta zero_ObjectMeta zero_EndpointSpec zero_EndpointStatus.
Definition zero_ManagerStatus : NetworkServiceManagerStatus := mkManagerStatus zero_Time "" "".
Definition zero_Manager : NetworkServiceManager :=
  mkNetworkServiceManager zero_TypeMeta zero_ObjectMeta mkManagerSpec zero_ManagerStatus.
Definition zero_List : ObjectList := mkObjectList zero_TypeMeta zero_ListMeta None.

Definition Destination_DeepCopyInto (inp : Destination) : H Destination :=
  selector ← copy_map (DestinationSelector inp);
  mret (mkDestination selector (Weight inp)).
Definition Destination_DeepCopy : option loc → H (option loc) :=
  new_copy get_Destination CDestination zero_Destination Destination_DeepCopyInto.

Definition Match_DeepCopyInto (inp : Match) : H Match :=
  selector ← copy_map (SourceSelector inp);
  routes ← copy_slice get_pointers CPointers None
             (new_copy get_Destination CDestination zero_Destination Destination_DeepCopyInto) (Routes inp);
  mret (mkMatch selector routes).
Definition Match_DeepCopy : option loc → H (option loc) :=
  new_copy get_Match CMatch zero_Match Match_DeepCopyInto.

Definition NetworkServiceSpec_DeepCopyInto (inp : NetworkServiceSpec) : H NetworkServiceSpec :=
  matches ← copy_slice get_pointers CPointers None
              (new_copy get_Match CMatch zero_Match Match_DeepCopyInto) (Matches inp);
  mret (mkNetworkServiceSpec (Payload inp) matches).
Definition NetworkServiceSpec_DeepCopy : option loc → H (option loc) :=
  new_copy get_Spec CSpec zero_Spec NetworkServiceSpec_DeepCopyInto.
Definition NetworkServiceStatus_DeepCopyInto (inp : NetworkServiceStatus) : H NetworkServiceStatus := mret inp.
Definition NetworkServiceStatus_DeepCopy : option loc → H (option loc) :=
  new_copy get_Status CStatus mkNetworkServiceStatus NetworkServiceStatus_DeepCopyInto.

Definition NetworkService_DeepCopyInto (inp : NetworkService) : H NetworkService :=
  meta ← ObjectMeta_DeepCopyInto (ns_ObjectMeta inp);
  spec ← NetworkServiceSpec_DeepCopyInto (ns_Spec inp);
  mret (mkNetworkService (ns_TypeMeta inp) meta spec (ns_Status inp)).
Definition NetworkService_DeepCopy : option loc → H (option loc) :=
  new_copy get_Service CService zero_Service NetworkService_DeepCopyInto.
Definition NetworkService_DeepCopyObject : option loc → H (option loc) := as_object NetworkService_DeepCopy.
Definition NetworkServiceList_DeepCopyInto (inp : ObjectList) : H ObjectList :=
  items ← copy_slice get_Services CServices zero_Service NetworkService_DeepCopyInto (l_Items inp);
  mret (mkObjectList (l_TypeMeta inp) (l_ListMeta inp) items).
Definition NetworkServiceList_DeepCopy : option loc → H (option loc) :=
  new_copy get_List CList zero_List NetworkServiceList_DeepCopyInto.
Definition NetworkServiceList_DeepCopyObject : option loc → H (option loc) := as_object NetworkServiceList_DeepCopy.

Definition NetworkServiceEndpointSpec_DeepCopyInto (inp : NetworkServiceEndpointSpec) : H NetworkServiceEndpointSpec :=
  mret inp.
Definition NetworkServiceEndpointSpec_DeepCopy : option loc → H (option loc) :=
  new_copy get_EndpointSpec CEndpointSpec zero_EndpointSpec NetworkServiceEndpointSpec_DeepCopyInto.
Definition NetworkServiceEndpointStatus_DeepCopyInto (inp : NetworkServiceEndpointStatus) :
    H NetworkServiceEndpointStatus := mret inp.
Definition NetworkServiceEndpointStatus_DeepCopy : option loc → H (option loc) :=
  new_copy get_EndpointStatus CEndpointStatus zero_EndpointStatus NetworkServiceEndpointStatus_DeepCopyInto.
Definition NetworkServiceEndpoint_DeepCopyInto (inp : NetworkServiceEndpoint) : H NetworkServiceEndpoint :=
  meta ← ObjectMeta_DeepCopyInto (nse_ObjectMeta inp);
  mret (mkNetworkServiceEndpoint (nse_TypeMeta inp) meta (nse_Spec inp) (nse_Status inp)).
Definition NetworkServiceEndpoint_DeepCopy : option loc → H (option loc) :=
  new_copy get_Endpoint CEndpoint zero_Endpoint NetworkServiceEndpoint_DeepCopyInto.
Definition NetworkServiceEndpoint_DeepCopyObject : option loc → H (option loc) :=
  as_object NetworkServiceEndpoint_DeepCopy.
Definition NetworkServiceEndpointList_DeepCopyInto (inp : ObjectList) : H ObjectList :=
  items ← copy_slice get_Endpoints CEndpoints zero_Endpoint NetworkServiceEndpoint_DeepCopyInto (l_Items inp);
  mret (mkObjectList (l_TypeMeta inp) (l_ListMeta inp) items).
Definition NetworkServiceEndpointList_DeepCopy : option loc → H (option loc) :=
  new_copy get_List CList zero_List NetworkServiceEndpointList_DeepCopyInto.
Definition NetworkServiceEndpointList_DeepCopyObject : option loc → H (option loc) :=
  as_object NetworkServiceEndpointList_DeepCopy.

Definition NetworkServiceManagerSpec_DeepCopyInto (inp : NetworkServiceManagerSpec) : H NetworkServiceManagerSpec :=
  mret inp.
Definition NetworkServiceManagerSpec_DeepCopy : option loc → H (option loc) :=
  new_copy get_ManagerSpec CManagerSpec mkManagerSpec NetworkServiceManagerSpec_DeepCopyInto.
Definition NetworkServiceManagerStatus_DeepCopyInto (inp : NetworkServiceManagerStatus) :
    H NetworkServiceManagerStatus :=
  mret (mkManagerStatus (Time_DeepCopyInto (LastSeen inp)) (URL inp) (State inp)).
Definition NetworkServiceManagerStatus_DeepCopy : option loc → H (option loc) :=
  new_copy get_ManagerStatus CManagerStatus zero_ManagerStatus NetworkServiceManagerStatus_DeepCopyInto.
Definition NetworkServiceManager_DeepCopyInto (inp : NetworkServiceManager) : H NetworkServiceManager :=
  meta ← ObjectMeta_DeepCopyInto (nsm_ObjectMeta inp);
  status ← NetworkServiceManagerStatus_DeepCopyInto (nsm_Status inp);
  mret (mkNetworkServiceManager (nsm_TypeMeta inp) meta (nsm_Spec inp) status).
Definition NetworkServiceManager_DeepCopy : option loc → H (option loc) :=
  new_copy get_Manager CManager zero_Manager NetworkServiceManager_DeepCopyInto.
Definition NetworkServiceManager_DeepCopyObject : option loc → H (option loc) :=
  as_object NetworkServiceManager_DeepCopy.
Definition NetworkServiceManagerList_DeepCopyInto (inp : ObjectList) : H ObjectList :=
  items ← copy_slice get_Managers CManagers zero_Manager NetworkServiceManager_DeepCopyInto (l_Items inp);
  mret (mkObjectList (l_TypeMeta inp) (l_ListMeta inp) items).
Definition NetworkServiceManagerList_DeepCopy : option loc → H (option loc) :=
  new_copy get_List CList zero_List NetworkServiceManagerList_DeepCopyInto.
Definition NetworkServiceManagerList_DeepCopyObject : option loc → H (option loc) :=
  as_object NetworkServiceManagerList_DeepCopy.

(** ** The types of the package *)
Definition deep_Destination : Deep Destination (option (gmap string string) * Z) :=
  deep_via (λ d, (DestinationSelector d, Weight d)) (deep_pair (deep_ptr get_map (flat _)) (flat Z)).
Definition deep_Match : Deep Match (option (gmap string string) * option (list (option (option (gmap string string) * Z)))) :=
  deep_via (λ m, (SourceSelector m, Routes m))
    (deep_pair (deep_ptr get_map (flat _)) (deep_ptr get_pointers (deep_list (deep_ptr get_Destination deep_Destination)))).
Definition deep_Spec :=
  deep_via (λ s, (Payload s, Matches s))
    (deep_pair (flat string) (deep_ptr get_pointers (deep_list (deep_ptr get_Match deep_Match)))).

Context {MetaVal : Type} (deep_meta : Deep ObjectMeta MetaVal).
Definition deep_Service :=
  deep_via (λ s, (ns_TypeMeta s, ns_ObjectMeta s, ns_Spec s, ns_Status s))
    (deep_pair (deep_pair (deep_pair (flat _) deep_meta) deep_Spec) (flat _)).
Definition deep_Endpoint :=
  deep_via (λ e, (nse_TypeMeta e, nse_ObjectMeta e, nse_Spec e, nse_Status e))
    (deep_pair (deep_pair (deep_pair (flat _) deep_meta) (flat _)) (flat _)).
Definition deep_Manager :=
  deep_via (λ m, (nsm_TypeMeta m, nsm_ObjectMeta m, nsm_Spec m, nsm_Status m))
    (deep_pair (deep_pair (deep_pair (flat _) deep_meta) (flat _)) (flat _)).
Definition deep_List {A V} (get : cell → option (list A)) (D : Deep A V) :=
  deep_via (λ l, (l_TypeMeta l, l_ListMeta l, l_Items l))
    (deep_pair (deep_pair (flat _) (flat _)) (deep_ptr get (deep_list D))).

(** What Kubernetes documents of its own copying functions. *)
Context (meta_copies : copier deep_meta ObjectMeta_DeepCopyInto) (time_copies : ∀ t, Time_DeepCopyInto t = t).

Tactic Notation "struct_copier" uconstr(f) uconstr(g) :=
  eapply copier_ext; [|eapply (copier_via f g)]; [shelve|..].
Ltac struct_ext :=
  intros [] ?; try match goal with |- ?f _ _ = _ => unfold f end; unfold mbind, H_bind, mret, H_ret; simpl;
  repeat match goal with |- context [?f ?x ?h ≫= _] => destruct (f x h) as [[]|]; simpl end; done.

Lemma copier_Destination : copier deep_Destination Destination_DeepCopyInto.
Proof.
  struct_copier (λ d, (DestinationSelector d, Weight d)) (λ p, mkDestination p.1 p.2).
  - by intros [].
  - apply copier_pair; [apply copier_map|apply copier_flat].
  Unshelve. struct_ext.
Qed.
Lemma copier_Match : copier deep_Match Match_DeepCopyInto.
Proof.
  struct_copier (λ m, (SourceSelector m, Routes m)) (λ p, mkMatch p.1 p.2).
  - by intros [].
  - apply copier_pair; [apply copier_map|].
    apply (copier_slice _ _ CPointers None); [done|].
    apply (copier_new _ _ CDestination zero_Destination); [done|apply copier_Destination].
  Unshelve. struct_ext.
Qed.
Lemma copier_Spec : copier deep_Spec NetworkServiceSpec_DeepCopyInto.
Proof.
  struct_copier (λ s, (Payload s, Matches s)) (λ p, mkNetworkServiceSpec p.1 p.2).
  - by intros [].
  - apply copier_pair; [apply copier_flat|].
    apply (copier_slice _ _ CPointers None); [done|].
    apply (copier_new _ _ CMatch zero_Match); [done|apply copier_Match].
  Unshelve. struct_ext.
Qed.
Lemma copier_Service : copier deep_Service NetworkService_DeepCopyInto.
Proof.
  struct_copier (λ s, (ns_TypeMeta s, ns_ObjectMeta s, ns_Spec s, ns_Status s))
    (λ p, mkNetworkService p.1.1.1 p.1.1.2 p.1.2 p.2).
  - by intros [[[]]].
  - repeat apply copier_pair; [apply copier_flat|apply meta_copies|apply copier_Spec|apply copier_flat].
  Unshelve. struct_ext.
Qed.
Lemma copier_Endpoint : copier deep_Endpoint NetworkServiceEndpoint_DeepCopyInto.
Proof.
  struct_copier (λ e, (nse_TypeMeta e, nse_ObjectMeta e, nse_Spec e, nse_Status e))
    (λ p, mkNetworkServiceEndpoint p.1.1.1 p.1.1.2 p.1.2 p.2).
  - by intros [[[]]].
  - repeat apply copier_pair; [apply copier_flat|apply meta_copies|apply copier_flat|apply copier_flat].
  Unshelve. struct_ext.
Qed.
Lemma copier_ManagerStatus : copier (flat _) NetworkServiceManagerStatus_DeepCopyInto.
Proof.
  eapply copier_ext; [|apply copier_flat]. intros [] ?. unfold NetworkServiceManagerStatus_DeepCopyInto; simpl.
  by rewrite time_copies.
Qed.
Lemma copier_Manager : copier deep_Manager NetworkServiceManager_DeepCopyInto.
Proof.
  struct_copier (λ m, (nsm_TypeMeta m, nsm_ObjectMeta m, nsm_Spec m, nsm_Status m))
    (λ p, mkNetworkServiceManager p.1.1.1 p.1.1.2 p.1.2 p.2).
  - by intros [[[]]].
  - repeat apply copier_pair; [apply copier_flat|apply meta_copies|apply copier_flat|apply copier_ManagerStatus].
  Unshelve. struct_ext.
Qed.
Lemma copier_List {A V} get mk zero (D : Deep A V) into :
  (∀ l, get (mk l) = Some l) → copier D into →
  copier (deep_List get D) (λ inp : ObjectList, items ← copy_slice get mk zero into (l_Items inp);
                                   mret (mkObjectList (l_TypeMeta inp) (l_ListMeta inp) items)).
Proof.
  intros Hget Hc. struct_copier (λ l, (l_TypeMeta l, l_ListMeta l, l_Items l))
    (λ p, mkObjectList p.1.1 p.1.2 p.2).
  - by intros [[]].
  - repeat apply copier_pair; [apply copier_flat|apply copier_flat|by apply (copier_slice _ _ mk zero)].
  Unshelve. struct_ext.
Qed.
Lemma copier_object {V} (D : Deep (option loc) V) copy : copier D copy → copier D (as_object copy).
Proof.
  apply copier_ext. intros a h. unfold as_object, mbind, H_bind.
  by destruct (copy a h) as [[[]]|].
Qed.

(** A copy reads as its original, and no write through the one shows in the
    other. *)
Definition detached {A V} (D : Deep A V) (copy : A → H A) : Prop :=
  ∀ h a v, val D h a = Some v →
    ∃ b h', copy a h = Some (b, h') ∧ h ⊆ h' ∧ val D h' b = Some v ∧
      (∀ l c, l ∈ reach D h' a → val D (<[l := c]> h') b = Some v) ∧
      (∀ l c, l ∈ reach D h' b → val D (<[l := c]> h') a = Some v).
Lemma copier_detached {A V} (D : Deep A V) copy : copier D copy → detached D copy.
Proof.
  intros Hc h a v Hv. destruct (Hc h a v Hv) as (b & h' & E & S' & V' & R').
  destruct (val_mono D h h' a v Hv S') as [Va Ra]. pose proof (reach_dom D h a v Hv).
  exists b, h'. split_and!; [done..| |]; intros l c Hl; (apply val_insert; [done|set_solver]).
Qed.

(** C15: [DeepCopyObject] of each of the six kinds of object (a network
    service, an endpoint, a manager and the lists of them) returns for every
    object in memory, nil pointers and absent maps and slices included; the
    memory it found is unchanged, the copy reads as the original through all
    its pointers, and a write to any cell of the one leaves what the other
    reads as it was. *)
Theorem deep_copies_detached :
  detached (deep_ptr get_Service deep_Service) NetworkService_DeepCopyObject ∧
  detached (deep_ptr get_Endpoint deep_Endpoint) NetworkServiceEndpoint_DeepCopyObject ∧
  detached (deep_ptr get_Manager deep_Manager) NetworkServiceManager_DeepCopyObject ∧
  detached (deep_ptr get_List (deep_List get_Services deep_Service)) NetworkServiceList_DeepCopyObject ∧
  detached (deep_ptr get_List (deep_List get_Endpoints deep_Endpoint)) NetworkServiceEndpointList_DeepCopyObject ∧
  detached (deep_ptr get_List (deep_List get_Managers deep_Manager)) NetworkServiceManagerList_DeepCopyObject.
Proof.
  split_and!; apply copier_detached, copier_object, copier_new; try done.
  - apply copier_Service.
  - apply copier_Endpoint.
  - apply copier_Manager.
  - apply copier_List; [done|apply copier_Service].
  - apply copier_List; [done|apply copier_Endpoint].
  - apply copier_List; [done|apply copier_Manager].
Qed.
End heap.
Arguments val {_ _ _ _ A V} _ _ _.
Arguments reach {_ _ _ _ A V} _ _ _.

(** A network service with one match that has one route, metadata being a
    name and labels. *)
Module Memory.
Notation Meta := (string * option loc)%type.
Notation mcell := (@cell Meta Empty_set Z ()).
Definition meta_copy : Meta → @H Meta Empty_set Z () Meta :=
  λ '(name, labels), n ← mret name; l ← copy_map map_to_list labels; mret (n, l).
Definition deep_meta : @Deep Meta Empty_set Z () Meta (string * option (gmap string string)) :=
  deep_pair (flat string) (deep_ptr get_map (flat _)).
Definition memory : gmap loc mcell :=
  list_to_map [
    (1%positive, CService (mkNetworkService zero_TypeMeta ("secure", Some 2%positive)
                             (mkNetworkServiceSpec "IP" (Some 3%positive)) mkNetworkServiceStatus));
    (2%positive, CMap {[ "tier" := "gold" ]});
    (3%positive, CPointers [Some 4%positive; None]);
    (4%positive, CMatch (mkMatch (Some 5%positive) (Some 6%positive)));
    (5%positive, CMap {[ "app" := "vpn" ]});
    (6%positive, CPointers [Some 7%positive]);
    (7%positive, CDestination (mkDestination None 1))].
Lemma map_to_list_ranges (m : gmap string string) : is_range_of (map_to_list m) m.
Proof. unfold is_range_of. done. Qed.
Lemma meta_copies : copier deep_meta meta_copy.
Proof. apply copier_pair; [apply copier_flat|apply copier_map, map_to_list_ranges]. Qed.

Definition deep_service := deep_ptr get_Service (deep_Service deep_meta).
Definition secure :=
  Some (zero_TypeMeta, ("secure", Some ({[ "tier" := "gold" ]} : gmap string string)),
        ("IP", Some [Some (Some ({[ "app" := "vpn" ]} : gmap string string), Some [Some (@None (gmap string string), 1)]); None]),
        mkNetworkServiceStatus).
Lemma memory_secure : val deep_service memory (Some 1%positive) = Some secure.
Proof. vm_compute. reflexivity. Qed.
Lemma memory_reach : 7%positive ∈ reach deep_service memory (Some 1%positive).
Proof. apply (bool_decide_unpack _). by vm_compute. Qed.

Lemma deep_copies_detached_witness :
  ∃ b h',
    NetworkService_DeepCopyObject map_to_list meta_copy ("", None) (Some 1%positive) memory = Some (b, h') ∧
    val deep_service h' b = Some secure ∧
    val deep_service (<[7%positive := CDestination (mkDestination None 2)]> h') b = Some secure.
Proof.
  destruct (deep_copies_detached map_to_list map_to_list_ranges meta_copy (λ t, t) ("", None) 0 ()
              deep_meta meta_copies (λ t, eq_refl)) as [Hcopy _].
  destruct (Hcopy memory (Some 1%positive) _ memory_secure) as (b & h' & E & Hsub & HV & HW & _).
  exists b, h'. split; [exact E|]. split; [exact HV|]. apply HW.
  destruct (val_mono deep_service memory h' _ _ memory_secure Hsub) as [_ Hreach].
  change (7%positive ∈ reach deep_service h' (Some 1%positive)). rewrite Hreach. exact memory_reach.
Defined.
End Memory.
