(* ===== verification/K8sClient.v ===== *)
(** * The generated clients (k8s/pkg/networkservice/clientset)

    A typed client turns a call into one request to the API server: a verb
    and the calls that build the request, in the order of the code.  The REST
    client that carries it out, the answers it decodes, and the types of the
    options (k8s.io/apimachinery, k8s.io/client-go) are arguments.  The fake
    clients, which the tests of the registry use, turn the same calls into
    actions for an object tracker, an argument too, whose state has the place
    of the state of the server.

    Both implement [Interface]; [fake_clients_simulate] shows that a test over
    a tracker sees what the code would see over a server with the same
    objects. *)
From S2P Require Import Prelude GoStrings.

Section clients.
(** The options of k8s.io/apimachinery/pkg/apis/meta/v1: the code reads one
    field of the list options and sets another. *)
Context {ListOptions GetOptions DeleteOptions : Type}.
Context (TimeoutSeconds : ListOptions → option Z) (set_Watch : ListOptions → ListOptions).

(** ** Requests *)
Inductive verb := GET | POST | PUT | DELETE | PATCH (pt : string).
Inductive params := PGet (o : GetOptions) | PList (o : ListOptions).

(** [A] is the type of the objects: a network service, an endpoint or a
    manager; [W] is the type of the watches. *)
Context {A ListMeta W Server : Type} (object_Name : A → string) (zero : A) (zero_ListMeta : ListMeta).

Inductive request_body := BObject (a : A) | BOptions (o : option DeleteOptions) | BData (data : string).
Inductive request_step :=
  | Namespace (ns : string)
  | Resource (resource : string)
  | Name (name : string)
  | SubResource (subresources : list string)
  | VersionedParams (p : params)
  | Timeout (d : Z)
  | Body (b : request_body).
(** How a request is ended: its answer is decoded, only its error is read, or
    it stays open as a watch. *)
Inductive request_end := Do_Into | Do_Error | Do_Watch.
Record Request := mkRequest { rq_verb : verb; rq_steps : list request_step; rq_end : request_end }.

Record object_list := mkObjects { o_ListMeta : ListMeta; o_Items : list A }.
Record rest_Interface := mkRest {
  rest_Into : Request → A → Server → A * option error * Server;
  rest_IntoList : Request → object_list → Server → object_list * option error * Server;
  rest_Error : Request → Server → option error * Server;
  rest_Watch : Request → Server → option W * option error * Server
}.

(** time.Duration(seconds) * time.Second, on 64 bits. *)
Definition timeout_of (opts : ListOptions) : Z :=
  match TimeoutSeconds opts with Some s => wrap_i64 (s * 1000000000) | None => 0 end.

(** ** The interface of a typed client; network services have no status to update. *)
Record Interface (S : Type) := mkInterface {
  Create : A → S → outcome (option A * option error * S);
  Update : A → S → outcome (option A * option error * S);
  UpdateStatus : option (A → S → outcome (option A * option error * S));
  Delete : string → option DeleteOptions → S → outcome (option error * S);
  DeleteCollection : option DeleteOptions → ListOptions → S → outcome (option error * S);
  Get : string → GetOptions → S → outcome (option A * option error * S);
  List : ListOptions → S → outcome (option object_list * option error * S);
  Watch : ListOptions → S → outcome (option W * option error * S);
  Patch : string → string → string → list string → S → outcome (option A * option error * S)
}.
Arguments mkInterface {S} _ _ _ _ _ _ _ _ _.

(** ** The typed clients *)
Record typed_client := mkTypedClient { client : option rest_Interface; ns : string }.

(** [result] is a new empty object, which the answer is decoded into. *)
Definition into (c : typed_client) (v : verb) (steps : list request_step) (s : Server) :
    outcome (option A * option error * Server) :=
  match client c with
  | None => Panic "nil pointer dereference"
  | Some rest => let '(result, err, s) := rest_Into rest (mkRequest v steps Do_Into) zero s in Ret (Some result, err, s)
  end.
Definition into_list (c : typed_client) (v : verb) (steps : list request_step) (s : Server) :
    outcome (option object_list * option error * Server) :=
  match client c with
  | None => Panic "nil pointer dereference"
  | Some rest =>
      let '(result, err, s) := rest_IntoList rest (mkRequest v steps Do_Into) (mkObjects zero_ListMeta []) s in
      Ret (Some result, err, s)
  end.
Definition only_error (c : typed_client) (v : verb) (steps : list request_step) (s : Server) :
    outcome (option error * Server) :=
  match client c with
  | None => Panic "nil pointer dereference"
  | Some rest => Ret (rest_Error rest (mkRequest v steps Do_Error) s)
  end.
Definition watch (c : typed_client) (v : verb) (steps : list request_step) (s : Server) :
    outcome (option W * option error * Server) :=
  match client c with
  | None => Panic "nil pointer dereference"
  | Some rest => Ret (rest_Watch rest (mkRequest v steps Do_Watch) s)
  end.

Definition networkServices (c : typed_client) : Interface Server := {|
  Get := λ name options,
    into c GET [Namespace (ns c); Resource "networkservices"; Name name; VersionedParams (PGet options)];
  List := λ opts,
    let timeout := timeout_of opts in
    into_list c GET [Namespace (ns c); Resource "networkservices"; VersionedParams (PList opts); Timeout timeout];
  Watch := λ opts,
    let timeout := timeout_of opts in
    let opts := set_Watch opts in
    watch c GET [Namespace (ns c); Resource "networkservices"; VersionedParams (PList opts); Timeout timeout];
  Create := λ networkService,
    into c POST [Namespace (ns c); Resource "networkservices"; Body (BObject networkService)];
  Update := λ networkService,
    into c PUT [Namespace (ns c); Resource "networkservices"; Name (object_Name networkService);
                Body (BObject networkService)];
  UpdateStatus := None;
  Delete := λ name options,
    only_error c DELETE [Namespace (ns c); Resource "networkservices"; Name name; Body (BOptions options)];
  DeleteCollection := λ options listOptions,
    let timeout := timeout_of listOptions in
    only_error c DELETE [Namespace (ns c); Resource "networkservices"; VersionedParams (PList listOptions);
                         Timeout timeout; Body (BOptions options)];
  Patch := λ name pt data subresources,
    into c (PATCH pt) [Namespace (ns c); Resource "networkservices"; SubResource subresources; Name name;
                       Body (BData data)]
|}.

Definition networkServiceEndpoints (c : typed_client) : Interface Server := {|
  Get := λ name options,
    into c GET [Namespace (ns c); Resource "networkserviceendpoints"; Name name; VersionedParams (PGet options)];
  List := λ opts,
    let timeout := timeout_of opts in
    into_list c GET [Namespace (ns c); Resource "networkserviceendpoints"; VersionedParams (PList opts); Timeout timeout];
  Watch := λ opts,
    let timeout := timeout_of opts in
    let opts := set_Watch opts in
    watch c GET [Namespace (ns c); Resource "networkserviceendpoints"; VersionedParams (PList opts); Timeout timeout];
  Create := λ networkServiceEndpoint,
    into c POST [Namespace (ns c); Resource "networkserviceendpoints"; Body (BObject networkServiceEndpoint)];
  Update := λ networkServiceEndpoint,
    into c PUT [Namespace (ns c); Resource "networkserviceendpoints"; Name (object_Name networkServiceEndpoint);
                Body (BObject networkServiceEndpoint)];
  UpdateStatus := Some (λ networkServiceEndpoint,
    into c PUT [Namespace (ns c); Resource "networkserviceendpoints"; Name (object_Name networkServiceEndpoint);
                SubResource ["status"]; Body (BObject networkServiceEndpoint)]);
  Delete := λ name options,
    only_error c DELETE [Namespace (ns c); Resource "networkserviceendpoints"; Name name; Body (BOptions options)];
  DeleteCollection := λ options listOptions,
    let timeout := timeout_of listOptions in
    only_error c DELETE [Namespace (ns c); Resource "networkserviceendpoints"; VersionedParams (PList listOptions);
                         Timeout timeout; Body (BOptions options)];
  Patch := λ name pt data subresources,
    into c (PATCH pt) [Namespace (ns c); Resource "networkserviceendpoints"; SubResource subresources; Name name;
                       Body (BData data)]
|}.

Definition networkServiceManagers (c : typed_client) : Interface Server := {|
  Get := λ name options,
    into c GET [Namespace (ns c); Resource "networkservicemanagers"; Name name; VersionedParams (PGet options)];
  List := λ opts,
    let timeout := timeout_of opts in
    into_list c GET [Namespace (ns c); Resource "networkservicemanagers"; VersionedParams (PList opts); Timeout timeout];
  Watch := λ opts,
    let timeout := timeout_of opts in
    let opts := set_Watch opts in
    watch c GET [Namespace (ns c); Resource "networkservicemanagers"; VersionedParams (PList opts); Timeout timeout];
  Create := λ networkServiceManager,
    into c POST [Namespace (ns c); Resource "networkservicemanagers"; Body (BObject networkServiceManager)];
  Update := λ networkServiceManager,
    into c PUT [Namespace (ns c); Resource "networkservicemanagers"; Name (object_Name networkServiceManager);
                Body (BObject networkServiceManager)];
  UpdateStatus := Some (λ networkServiceManager,
    into c PUT [Namespace (ns c); Resource "networkservicemanagers"; Name (object_Name networkServiceManager);
                SubResource ["status"]; Body (BObject networkServiceManager)]);
  Delete := λ name options,
    only_error c DELETE [Namespace (ns c); Resource "networkservicemanagers"; Name name; Body (BOptions options)];
  DeleteCollection := λ options listOptions,
    let timeout := timeout_of listOptions in
    only_error c DELETE [Namespace (ns c); Resource "networkservicemanagers"; VersionedParams (PList listOptions);
                         Timeout timeout; Body (BOptions options)];
  Patch := λ name pt data subresources,
    into c (PATCH pt) [Namespace (ns c); Resource "networkservicemanagers"; SubResource subresources; Name name;
                       Body (BData data)]
|}.

(** ** The fake clients: actions of k8s.io/client-go/testing *)
Record GroupVersionResource := mkGVR { gvr_Group : string; gvr_Version : string; gvr_Resource : string }.
Record GroupVersionKind := mkGVK { gvk_Group : string; gvk_Version : string; gvk_Kind : string }.
Inductive action :=
  | NewGetAction (r : GroupVersionResource) (ns name : string)
  | NewListAction (r : GroupVersionResource) (k : GroupVersionKind) (ns : string) (opts : ListOptions)
  | NewWatchAction (r : GroupVersionResource) (ns : string) (opts : ListOptions)
  | NewCreateAction (r : GroupVersionResource) (ns : string) (a : A)
  | NewUpdateAction (r : GroupVersionResource) (ns : string) (a : A)
  | NewUpdateSubresourceAction (r : GroupVersionResource) (subresource ns : string) (a : A)
  | NewDeleteAction (r : GroupVersionResource) (ns name : string)
  | NewDeleteCollectionAction (r : GroupVersionResource) (ns : string) (opts : ListOptions)
  | NewPatchSubresourceAction (r : GroupVersionResource) (ns name pt data : string) (subresources : list string).

(** What the tracker returns: an object of the type, a list of them, or an
    object of another type, on which the type assertions panic. *)
Inductive fake_object := FObject (a : A) | FList (l : object_list) | FOther.
Context {Selector Tracker : Type}.
Record fake_Interface := mkFake {
  Invokes : action → fake_object → Tracker → option fake_object * option error * Tracker;
  InvokesWatch : action → Tracker → option W * option error * Tracker
}.
(** The label selector of list options, and the labels of an object. *)
Context (ExtractLabel : ListOptions → option Selector) (Everything : Selector).
Context (Matches : Selector → gmap string string → bool) (object_Labels : A → gmap string string).

Record fake_client := mkFakeClient { Fake : fake_Interface; fake_ns : string }.
Definition invokes (c : fake_client) (a : action) (default : fake_object) (s : Tracker) :
    outcome (option A * option error * Tracker) :=
  let '(obj, err, s) := Invokes (Fake c) a default s in
  match obj with
  | None => Ret (None, err, s)
  | Some (FObject o) => Ret (Some o, err, s)
  | Some _ => Panic "interface conversion"
  end.
Definition invokes_list (c : fake_client) (a : action) (opts : ListOptions) (s : Tracker) :
    outcome (option object_list * option error * Tracker) :=
  let '(obj, err, s) := Invokes (Fake c) a (FList (mkObjects zero_ListMeta [])) s in
  match obj with
  | None => Ret (None, err, s)
  | Some (FList l) =>
      let label := match ExtractLabel opts with Some label => label | None => Everything end in
      let items := foldl (λ items item, if Matches label (object_Labels item) then items ++ [item] else items)
                     [] (o_Items l) in
      Ret (Some (mkObjects (o_ListMeta l) items), err, s)
  | Some _ => Panic "interface conversion"
  end.

Definition networkservicesResource : GroupVersionResource := mkGVR "networkservicemesh.io" "v1" "networkservices".
Definition networkservicesKind : GroupVersionKind := mkGVK "networkservicemesh.io" "v1" "NetworkService".
Definition FakeNetworkServices (c : fake_client) : Interface Tracker := {|
  Get := λ name options, invokes c (NewGetAction networkservicesResource (fake_ns c) name) (FObject zero);
  List := λ opts,
    invokes_list c (NewListAction networkservicesResource networkservicesKind (fake_ns c) opts) opts;
  Watch := λ opts s, Ret (InvokesWatch (Fake c) (NewWatchAction networkservicesResource (fake_ns c) opts) s);
  Create := λ obj, invokes c (NewCreateAction networkservicesResource (fake_ns c) obj) (FObject zero);
  Update := λ obj, invokes c (NewUpdateAction networkservicesResource (fake_ns c) obj) (FObject zero);
  UpdateStatus := None;
  Delete := λ name options s,
    let '(_, err, s) := Invokes (Fake c) (NewDeleteAction networkservicesResource (fake_ns c) name) (FObject zero) s in
    Ret (err, s);
  DeleteCollection := λ options listOptions s,
    let action := NewDeleteCollectionAction networkservicesResource (fake_ns c) listOptions in
    let '(_, err, s) := Invokes (Fake c) action (FList (mkObjects zero_ListMeta [])) s in
    Ret (err, s);
  Patch := λ name pt data subresources,
    invokes c (NewPatchSubresourceAction networkservicesResource (fake_ns c) name pt data subresources) (FObject zero)
|}.

Definition networkserviceendpointsResource : GroupVersionResource := mkGVR "networkservicemesh.io" "v1" "networkserviceendpoints".
Definition networkserviceendpointsKind : GroupVersionKind := mkGVK "networkservicemesh.io" "v1" "NetworkServiceEndpoint".
Definition FakeNetworkServiceEndpoints (c : fake_client) : Interface Tracker := {|
  Get := λ name options, invokes c (NewGetAction networkserviceendpointsResource (fake_ns c) name) (FObject zero);
  List := λ opts,
    invokes_list c (NewListAction networkserviceendpointsResource networkserviceendpointsKind (fake_ns c) opts) opts;
  Watch := λ opts s, Ret (InvokesWatch (Fake c) (NewWatchAction networkserviceendpointsResource (fake_ns c) opts) s);
  Create := λ obj, invokes c (NewCreateAction networkserviceendpointsResource (fake_ns c) obj) (FObject zero);
  Update := λ obj, invokes c (NewUpdateAction networkserviceendpointsResource (fake_ns c) obj) (FObject zero);
  UpdateStatus := Some (λ obj,
    invokes c (NewUpdateSubresourceAction networkserviceendpointsResource "status" (fake_ns c) obj) (FObject zero));
  Delete := λ name options s,
    let '(_, err, s) := Invokes (Fake c) (NewDeleteAction networkserviceendpointsResource (fake_ns c) name) (FObject zero) s in
    Ret (err, s);
  DeleteCollection := λ options listOptions s,
    let action := NewDeleteCollectionAction networkserviceendpointsResource (fake_ns c) listOptions in
    let '(_, err, s) := Invokes (Fake c) action (FList (mkObjects zero_ListMeta [])) s in
    Ret (err, s);
  Patch := λ name pt data subresources,
    invokes c (NewPatchSubresourceAction networkserviceendpointsResource (fake_ns c) name pt data subresources) (FObject zero)
|}.

Definition networkservicemanagersResource : GroupVersionResource := mkGVR "networkservicemesh.io" "v1" "networkservicemanagers".
Definition networkservicemanagersKind : GroupVersionKind := mkGVK "networkservicemesh.io" "v1" "NetworkServiceManager".
Definition FakeNetworkServiceManagers (c : fake_client) : Interface Tracker := {|
  Get := λ name options, invokes c (NewGetAction networkservicemanagersResource (fake_ns c) name) (FObject zero);
  List := λ opts,
    invokes_list c (NewListAction networkservicemanagersResource networkservicemanagersKind (fake_ns c) opts) opts;
  Watch := λ opts s, Ret (InvokesWatch (Fake c) (NewWatchAction networkservicemanagersResource (fake_ns c) opts) s);
  Create := λ obj, invokes c (NewCreateAction networkservicemanagersResource (fake_ns c) obj) (FObject zero);
  Update := λ obj, invokes c (NewUpdateAction networkservicemanagersResource (fake_ns c) obj) (FObject zero);
  UpdateStatus := Some (λ obj,
    invokes c (NewUpdateSubresourceAction networkservicemanagersResource "status" (fake_ns c) obj) (FObject zero));
  Delete := λ name options s,
    let '(_, err, s) := Invokes (Fake c) (NewDeleteAction networkservicemanagersResource (fake_ns c) name) (FObject zero) s in
    Ret (err, s);
  DeleteCollection := λ options listOptions s,
    let action := NewDeleteCollectionAction networkservicemanagersResource (fake_ns c) listOptions in
    let '(_, err, s) := Invokes (Fake c) action (FList (mkObjects zero_ListMeta [])) s in
    Ret (err, s);
  Patch := λ name pt data subresources,
    invokes c (NewPatchSubresourceAction networkservicemanagersResource (fake_ns c) name pt data subresources) (FObject zero)
|}.

(** ** What is asked, by either client

    The verbs are those of the Kubernetes API: a request with a name is for
    one object, one without for the collection. *)
Inductive api_verb := AGet | AList | AWatch | ACreate | AUpdate | ADelete | ADeleteCollection | APatch.
Record described := mkDescribed {
  d_verb : api_verb; d_resource : string; d_namespace : string; d_name : option string;
  d_subresources : list string; d_object : option A; d_opts : option ListOptions; d_patch : option (string * string)
}.
Fixpoint step_of {B} (f : request_step → option B) (steps : list request_step) : option B :=
  match steps with [] => None | x :: steps => match f x with Some b => Some b | None => step_of f steps end end.
Definition request_name (r : Request) : option string :=
  step_of (λ x, match x with Name n => Some n | _ => None end) (rq_steps r).
Definition request_verb (r : Request) : api_verb :=
  match rq_verb r, rq_end r, request_name r with
  | GET, Do_Watch, _ => AWatch
  | GET, _, Some _ => AGet
  | GET, _, None => AList
  | POST, _, _ => ACreate
  | PUT, _, _ => AUpdate
  | DELETE, _, Some _ => ADelete
  | DELETE, _, None => ADeleteCollection
  | PATCH _, _, _ => APatch
  end.
Definition request_params (r : Request) : option params :=
  step_of (λ x, match x with VersionedParams p => Some p | _ => None end) (rq_steps r).
Definition request_timeout (r : Request) : option Z :=
  step_of (λ x, match x with Timeout d => Some d | _ => None end) (rq_steps r).
Definition request_body_of (r : Request) : option request_body :=
  step_of (λ x, match x with Body b => Some b | _ => None end) (rq_steps r).
Definition describe_request (r : Request) : described := {|
  d_verb := request_verb r;
  d_resource := default "" (step_of (λ x, match x with Resource n => Some n | _ => None end) (rq_steps r));
  d_namespace := default "" (step_of (λ x, match x with Namespace n => Some n | _ => None end) (rq_steps r));
  d_name := request_name r;
  d_subresources := default [] (step_of (λ x, match x with SubResource l => Some l | _ => None end) (rq_steps r));
  d_object := match request_body_of r with Some (BObject a) => Some a | _ => None end;
  d_opts := match request_params r with Some (PList o) => Some o | _ => None end;
  d_patch := match rq_verb r, request_body_of r with PATCH pt, Some (BData data) => Some (pt, data) | _, _ => None end
|}.
Definition describe_action (a : action) : described :=
  match a with
  | NewGetAction r ns name => mkDescribed AGet (gvr_Resource r) ns (Some name) [] None None None
  | NewListAction r _ ns opts => mkDescribed AList (gvr_Resource r) ns None [] None (Some opts) None
  | NewWatchAction r ns opts => mkDescribed AWatch (gvr_Resource r) ns None [] None (Some (set_Watch opts)) None
  | NewCreateAction r ns a => mkDescribed ACreate (gvr_Resource r) ns None [] (Some a) None None
  | NewUpdateAction r ns a => mkDescribed AUpdate (gvr_Resource r) ns (Some (object_Name a)) [] (Some a) None None
  | NewUpdateSubresourceAction r sub ns a =>
      mkDescribed AUpdate (gvr_Resource r) ns (Some (object_Name a)) [sub] (Some a) None None
  | NewDeleteAction r ns name => mkDescribed ADelete (gvr_Resource r) ns (Some name) [] None None None
  | NewDeleteCollectionAction r ns opts =>
      mkDescribed ADeleteCollection (gvr_Resource r) ns None [] None (Some opts) None
  | NewPatchSubresourceAction r ns name pt data subs =>
      mkDescribed APatch (gvr_Resource r) ns (Some name) subs None None (Some (pt, data))
  end.

(** An action says nothing of the options of a Get or of a deletion nor of
    timeouts, and the tracker selects by labels only: the options that a
    tracker honours, and the requests that carry such options and the timeout
    that goes with them. *)
Context (plain_get : GetOptions → Prop) (plain_delete : option DeleteOptions → Prop) (plain_list : ListOptions → Prop).
Definition carries_list (r : Request) : Prop :=
  ∃ o, request_params r = Some (PList o) ∧ plain_list o ∧ request_timeout r = Some (timeout_of o).
Definition carries_delete (r : Request) : Prop :=
  ∃ o, request_body_of r = Some (BOptions o) ∧ plain_delete o.
Definition carries_options (r : Request) : Prop :=
  match request_verb r with
  | AGet => ∃ o, request_params r = Some (PGet o) ∧ plain_get o
  | AList => carries_list r
  | AWatch => ∃ o, request_params r = Some (PList (set_Watch o)) ∧ plain_list o ∧
                   request_timeout r = Some (timeout_of o)
  | ADelete => carries_delete r
  | ADeleteCollection => carries_delete r ∧ carries_list r
  | ACreate | AUpdate | APatch => True
  end.

(** ** A server and a tracker with the same objects

    [same s t]: the server in state [s] has the objects of the tracker in
    state [t].  For a request and an action that ask for the same thing of the
    resource, they do the same and report the same error; the server picks by
    labels from a list, which the tracker returns whole, and the tracker has
    no object to return with an error. *)
Context (same : Server → Tracker → Prop) (same_watch : option W → option W → Prop).
Definition selector (opts : ListOptions) : Selector := default Everything (ExtractLabel opts).
Definition selected (opts : ListOptions) (items : list A) : list A :=
  List.filter (λ item, Matches (selector opts) (object_Labels item)) items.
Definition asks (resource ns : string) (r : Request) (a : action) : Prop :=
  describe_action a = describe_request r ∧ d_resource (describe_request r) = resource ∧
  d_namespace (describe_request r) = ns ∧ carries_options r.
Definition unless_error {B} (err : option error) (b : B) : option B :=
  match err with None => Some b | Some _ => None end.

Record same_store (rest : rest_Interface) (tracker : fake_Interface) (resource ns : string) : Prop := {
  ss_object r a z s t : same s t → asks resource ns r a → rq_end r = Do_Into → request_verb r ≠ AList →
    ∃ o err s' t', rest_Into rest r z s = (o, err, s') ∧
      Invokes tracker a (FObject z) t = (unless_error err (FObject o), err, t') ∧ same s' t';
  ss_list r a opts z s t : same s t → asks resource ns r a → rq_end r = Do_Into →
    d_verb (describe_request r) = AList → d_opts (describe_request r) = Some opts →
    ∃ m all err s' t', rest_IntoList rest r z s = (mkObjects m (selected opts all), err, s') ∧
      Invokes tracker a (FList z) t = (unless_error err (FList (mkObjects m all)), err, t') ∧ same s' t';
  ss_error r a z s t : same s t → asks resource ns r a → rq_end r = Do_Error →
    ∃ obj err s' t', rest_Error rest r s = (err, s') ∧ Invokes tracker a z t = (obj, err, t') ∧ same s' t';
  ss_watch r a s t : same s t → asks resource ns r a → rq_end r = Do_Watch →
    ∃ w w' err s' t', rest_Watch rest r s = (w, err, s') ∧ InvokesWatch tracker a t = (w', err, t') ∧
      same_watch w w' ∧ same s' t'
}.

(** ** Calls of either client *)
Inductive operation :=
  | OpCreate (a : A) | OpUpdate (a : A) | OpUpdateStatus (a : A)
  | OpDelete (name : string) (options : option DeleteOptions)
  | OpDeleteCollection (options : option DeleteOptions) (listOptions : ListOptions)
  | OpGet (name : string) (options : GetOptions)
  | OpList (opts : ListOptions)
  | OpWatch (opts : ListOptions)
  | OpPatch (name pt data : string) (subresources : list string).
Inductive reply :=
  | RObject (o : option A) (err : option error)
  | RList (l : option object_list) (err : option error)
  | RError (err : option error)
  | RWatch (w : option W) (err : option error)
  | RNoMethod.
Definition reply_with {S B} (f : B → option error → reply) (m : outcome (B * option error * S)) : outcome (reply * S) :=
  match m with Panic w => Panic w | Ret (b, err, s) => Ret (f b err, s) end.
Definition perform {S} (I : Interface S) (op : operation) (s : S) : outcome (reply * S) :=
  match op with
  | OpCreate a => reply_with RObject (Create _ I a s)
  | OpUpdate a => reply_with RObject (Update _ I a s)
  | OpUpdateStatus a =>
      match UpdateStatus _ I with None => Ret (RNoMethod, s) | Some f => reply_with RObject (f a s) end
  | OpDelete name o => match Delete _ I name o s with Panic w => Panic w | Ret (err, s) => Ret (RError err, s) end
  | OpDeleteCollection o lo =>
      match DeleteCollection _ I o lo s with Panic w => Panic w | Ret (err, s) => Ret (RError err, s) end
  | OpGet name o => reply_with RObject (Get _ I name o s)
  | OpList opts => reply_with RList (List _ I opts s)
  | OpWatch opts => reply_with RWatch (Watch _ I opts s)
  | OpPatch name pt data subs => reply_with RObject (Patch _ I name pt data subs s)
  end.
Fixpoint perform_all {S} (I : Interface S) (ops : list operation) (s : S) : outcome (list reply * S) :=
  match ops with
  | [] => Ret ([], s)
  | op :: ops => '(r, s) ← perform I op s; '(rs, s) ← perform_all I ops s; Ret (r :: rs, s)
  end.
Definition plain_op (op : operation) : Prop :=
  match op with
  | OpGet _ o => plain_get o
  | OpList o | OpWatch o => plain_list o
  | OpDelete _ o => plain_delete o
  | OpDeleteCollection o lo => plain_delete o ∧ plain_list lo
  | _ => True
  end.

(** The reply of a typed client and that of its fake: the same, but the fake
    one has no object with an error. *)
Definition same_reply (r r' : reply) : Prop :=
  match r, r' with
  | RObject o err, RObject o' err' => err' = err ∧ o' = (if err then None else o) ∧ is_Some o
  | RList l err, RList l' err' => err' = err ∧ l' = (if err then None else l) ∧ is_Some l
  | RError err, RError err' => err' = err
  | RWatch w err, RWatch w' err' => err' = err ∧ same_watch w w'
  | RNoMethod, RNoMethod => True
  | _, _ => False
  end.
Definition simulated (I : Interface Server) (J : Interface Tracker) : Prop :=
  ∀ ops s t, Forall plain_op ops → same s t →
  ∃ rs rs' s' t', perform_all I ops s = Ret (rs, s') ∧ perform_all J ops t = Ret (rs', t') ∧
    Forall2 same_reply rs rs' ∧ same s' t'.
Definition simulated_call (I : Interface Server) (J : Interface Tracker) (op : operation) : Prop :=
  ∀ s t, same s t → ∃ r r' s' t', perform I op s = Ret (r, s') ∧ perform J op t = Ret (r', t') ∧
    same_reply r r' ∧ same s' t'.

Lemma simulated_calls I J : (∀ op, plain_op op → simulated_call I J op) → simulated I J.
Proof.
  intros Hop ops; induction ops as [|op ops IH]; intros s t Hp Hs; [by repeat eexists|].
  inversion_clear Hp as [|? ? Hop1 Hp'].
  destruct (Hop op Hop1 s t Hs) as (r & r' & s1 & t1 & E & E' & Hr & Hs1).
  destruct (IH s1 t1 Hp' Hs1) as (rs & rs' & s2 & t2 & Es & Es' & Hrs & Hs2).
  exists (r :: rs), (r' :: rs'), s2, t2; simpl. rewrite E, E'; simpl. rewrite Es, Es'; simpl. eauto.
Qed.

Lemma foldl_selected (p : A → bool) items acc :
  foldl (λ items item, if p item then items ++ [item] else items) acc items = acc ++ List.filter p items.
Proof.
  revert acc; induction items as [|a items IH]; intros acc; simpl; [by rewrite app_nil_r|].
  rewrite IH. destruct (p a); [by rewrite <- app_assoc|done].
Qed.

(** *** One kind of call at a time *)
Section calls.
Context (rest : rest_Interface) (tracker : fake_Interface) (resource ns : string).
Context (Hstore : same_store rest tracker resource ns).
Notation typed := (mkTypedClient (Some rest) ns).
Notation fake := (mkFakeClient tracker ns).

Lemma into_simulated v steps a s t :
  let r := mkRequest v steps Do_Into in
  asks resource ns r a → request_verb r ≠ AList → same s t →
  ∃ rp rp' s' t', reply_with RObject (into typed v steps s) = Ret (rp, s') ∧
    reply_with RObject (invokes fake a (FObject zero) t) = Ret (rp', t') ∧ same_reply rp rp' ∧ same s' t'.
Proof.
  intros r Ha Hv Hs. destruct (ss_object _ _ _ _ Hstore r a zero s t Hs Ha eq_refl Hv) as (o & err & s' & t' & E & E' & Hs').
  unfold into, invokes; simpl. fold r. rewrite E, E'. destruct err; repeat eexists; done.
Qed.
Lemma into_list_simulated v steps a opts s t :
  let r := mkRequest v steps Do_Into in
  asks resource ns r a → d_verb (describe_request r) = AList → d_opts (describe_request r) = Some opts → same s t →
  ∃ rp rp' s' t', reply_with RList (into_list typed v steps s) = Ret (rp, s') ∧
    reply_with RList (invokes_list fake a opts t) = Ret (rp', t') ∧ same_reply rp rp' ∧ same s' t'.
Proof.
  intros r Ha Hv Ho Hs.
  destruct (ss_list _ _ _ _ Hstore r a opts (mkObjects zero_ListMeta []) s t Hs Ha eq_refl Hv Ho)
    as (m & all & err & s' & t' & E & E' & Hs').
  unfold into_list, invokes_list; simpl. fold r. rewrite E, E'.
  destruct err; simpl; [by repeat eexists|]. rewrite (foldl_selected (λ item, Matches _ (object_Labels item))).
  do 4 eexists. split_and!; [done..|simpl|done]. split_and!; [done| |by eexists].
  unfold selected, selector. by destruct (ExtractLabel opts).
Qed.
Lemma only_error_simulated v steps a z s t :
  let r := mkRequest v steps Do_Error in
  asks resource ns r a → same s t →
  ∃ obj err s' t', only_error typed v steps s = Ret (err, s') ∧ Invokes tracker a z t = (obj, err, t') ∧ same s' t'.
Proof.
  intros r Ha Hs. destruct (ss_error _ _ _ _ Hstore r a z s t Hs Ha eq_refl) as (obj & err & s' & t' & E & E' & Hs').
  unfold only_error; simpl. fold r. rewrite E. eauto 8.
Qed.
Lemma watch_simulated v steps a s t :
  let r := mkRequest v steps Do_Watch in
  asks resource ns r a → same s t →
  ∃ rp rp' s' t', reply_with RWatch (watch typed v steps s) = Ret (rp, s') ∧
    reply_with RWatch (Ret (InvokesWatch tracker a t)) = Ret (rp', t') ∧ same_reply rp rp' ∧ same s' t'.
Proof.
  intros r Ha Hs. destruct (ss_watch _ _ _ _ Hstore r a s t Hs Ha eq_refl) as (w & w' & err & s' & t' & E & E' & Hw & Hs').
  unfold watch; simpl. fold r. rewrite E, E'. by repeat eexists.
Qed.
End calls.

#[local] Opaque into into_list only_error watch.
Ltac asked := unfold asks, carries_options, carries_list, carries_delete; simpl; split_and!; naive_solver.
Ltac call Hstore :=
  let Hp := fresh in let Hs := fresh in intros Hp s t Hs; unfold perform; simpl;
  match goal with
  | |- context [into _ _ _ _] => eapply (into_simulated _ _ _ _ Hstore); [asked|done|done]
  | |- context [into_list _ _ _ _] => eapply (into_list_simulated _ _ _ _ Hstore); [asked|done|done|done]
  | |- context [watch _ _ _ _] => eapply (watch_simulated _ _ _ _ Hstore); [asked|done]
  | |- context [only_error _ ?v ?l _] =>
      match goal with |- context [Invokes _ ?a ?z _] =>
        destruct (only_error_simulated _ _ _ _ Hstore v l a z s t) as (obj & err & s' & t' & E & E' & Hs');
          [asked|done|rewrite E, E'; by repeat eexists]
      end
  | _ => by repeat eexists
  end.

End clients.

(** Seconds that fit in a duration are kept; from 2^63 nanoseconds on the
    product wraps around to a negative timeout. *)
Lemma timeout_exact {O} (TimeoutSeconds : O → option Z) opts s :
  TimeoutSeconds opts = Some s → - 9223372036 ≤ s ≤ 9223372036 →
  timeout_of TimeoutSeconds opts = s * 1000000000.
Proof. intros E Hs. unfold timeout_of. rewrite E, wrap_i64_small by lia. done. Qed.
Lemma timeout_wraps {O} (TimeoutSeconds : O → option Z) opts :
  TimeoutSeconds opts = Some 9223372037 → timeout_of TimeoutSeconds opts < 0.
Proof. intros E. unfold timeout_of. rewrite E. vm_compute. done. Qed.

(** A store of services, a name and labels each, behind a REST client that
    selects and behind a tracker that does not. *)
Module Store.
Notation service := (string * gmap string string)%type.
(** Timeout, label and whether it is a watch. *)
Notation ListOptions := (option Z * option string * bool)%type.
Notation wanted := (@described ListOptions service).
Definition set_watch (o : ListOptions) : ListOptions := (o.1, true).
Definition has_label (sel : string) (labels : gmap string string) : bool :=
  (sel =? "")%string || bool_decide (labels !! sel ≠ None).
Definition store (d : wanted) (s : list service) : (service * option error) * list service :=
  match d_verb d, d_object d, d_name d with
  | ACreate, Some a, _ =>
      if existsb (λ b, b.1 =? a.1)%string s then (("", ∅), Some (Errorf "already exists"), s) else (a, None, s ++ [a])
  | AGet, _, Some n =>
      match List.find (λ b, b.1 =? n)%string s with
      | Some a => (a, None, s)
      | None => (("", ∅), Some (Errorf "not found"), s)
      end
  | ADelete, _, Some n => (("", ∅), None, List.filter (λ b, negb (b.1 =? n)%string) s)
  | _, _, _ => (("", ∅), Some (Errorf "not allowed"), s)
  end.
Definition picked := selected (A:=service) (λ o : ListOptions, o.1.2) "" has_label snd.
Definition rest : rest_Interface (ListOptions:=ListOptions) (GetOptions:=unit) (DeleteOptions:=unit) (ListMeta:=unit) (W:=unit) :=
  mkRest (λ r _, store (describe_request r))
    (λ r _ s, (mkObjects tt (picked (default (None, None, false) (d_opts (describe_request r))) s), None, s))
    (λ r s, match request_verb r with AList => (None, s) | _ => let '(_, err, s) := store (describe_request r) s in (err, s) end)
    (λ r s, (None, Some (Errorf "closed"), s)).
Definition tracker : fake_Interface (ListOptions:=ListOptions) (A:=service) (ListMeta:=unit) (W:=unit) :=
  mkFake
    (λ a _ s, match d_verb (describe_action set_watch fst a) with
              | AList => (Some (FList (mkObjects tt s)), None, s)
              | _ => let '(o, err, s) := store (describe_action set_watch fst a) s in (unless_error err (FObject o), err, s)
              end)
    (λ a s, (None, Some (Errorf "closed"), s)).
Definition typed := networkServices (λ o : ListOptions, o.1.1) set_watch fst ("", ∅) tt (mkTypedClient (Some rest) "default").
Definition fake : Interface (GetOptions:=unit) (DeleteOptions:=unit) (list service) :=
  FakeNetworkServices ("", ∅) tt (λ o : ListOptions, o.1.2) "" has_label snd (mkFakeClient tracker "default").

Lemma store_same resource :
  same_store (λ o : ListOptions, o.1.1) set_watch fst (λ o : ListOptions, o.1.2) "" has_label snd (λ _, True) (λ _, True)
    (λ _, True) eq eq rest tracker resource "default".
Proof.
  split; intros r a; [intros z s ? <-|intros opts z s ? <-|intros z s ? <-|intros s ? <-];
    intros (Ha & _) Hend; [intros Hv|intros Hv Ho| |]; 
    cbn [rest rest_Into rest_IntoList rest_Error rest_Watch tracker Invokes InvokesWatch]; rewrite ?Ha.
  - cbn [d_verb describe_request]. destruct (store _ s) as [[o err] s']. by destruct (request_verb r); repeat eexists.
  - rewrite Hv, Ho. by repeat eexists.
  - cbn [d_verb describe_request]. destruct (store _ s) as [[o err] s']. by destruct (request_verb r); repeat eexists.
  - by repeat eexists.
Qed.

Definition gold : service := ("secure", {[ "gold" := "yes" ]}).
Definition plain : service := ("open", ∅).
(** The list has the one service with the label; the service created twice
    and the one that is gone are an object and nil. *)
Lemma fake_replies :
  fst <$> (match perform_all fake [OpCreate gold; OpCreate plain; OpCreate gold; OpList (Some 1, Some "gold", false);
             OpDelete "open" None; OpGet "open" tt] [] with Ret x => Some x | Panic _ => None end)
  = Some [RObject (Some gold) None; RObject (Some plain) None; RObject None (Some (Errorf "already exists"));
          RList (Some (mkObjects tt [gold])) None; RError None; RObject None (Some (Errorf "not found"))].
Proof. vm_compute. reflexivity. Qed.
End Store.
