(* ===== verification/K8sClientset.v ===== *)
(** * The generated clientset, its scheme and the listers (k8s/pkg/networkservice)

    The constructors of the clients from a configuration, the registration of
    the types, the clientset the tests use, and the listers over the index of
    an informer.  The REST, discovery and rate limiting code, the scheme, the
    tracker and the index belong to Kubernetes and are arguments. *)
From S2P Require Import Prelude GoStrings K8sClient.

(** ** The types of the group (k8s/pkg/apis/networkservice/v1/register.go) *)
Record GroupVersion := mkGroupVersion { gv_Group : string; gv_Version : string }.
#[global] Instance GroupVersion_eq_dec : EqDecision GroupVersion.
Proof. solve_decision. Defined.
#[global] Instance GroupVersionResource_eq_dec : EqDecision GroupVersionResource.
Proof. solve_decision. Defined.
Definition GroupName : string := "networkservicemesh.io".
Definition SchemeGroupVersion : GroupVersion := mkGroupVersion GroupName "v1".
Definition WithResource (gv : GroupVersion) (resource : string) : GroupVersionResource :=
  mkGVR (gv_Group gv) (gv_Version gv) resource.
Definition GroupResource (r : GroupVersionResource) : string * string := (gvr_Group r, gvr_Resource r).
Definition v1_Resource (resource : string) : string * string := GroupResource (WithResource SchemeGroupVersion resource).

Section scheme.
Context {Scheme : Type} (AddKnownTypes : GroupVersion → list string → Scheme → Scheme).
Context (AddToGroupVersion : GroupVersion → Scheme → Scheme) (NewScheme : Scheme).

Definition addKnownTypes (scheme : Scheme) : Scheme * option error :=
  let scheme := AddKnownTypes SchemeGroupVersion
    ["NetworkService"; "NetworkServiceList"; "NetworkServiceEndpoint"; "NetworkServiceEndpointList";
     "NetworkServiceManager"; "NetworkServiceManagerList"] scheme in
  (AddToGroupVersion SchemeGroupVersion scheme, None).
(** A scheme builder applies its functions in order, up to the first error. *)
Fixpoint SchemeBuilder_AddToScheme (sb : list (Scheme → Scheme * option error)) (scheme : Scheme) : Scheme * option error :=
  match sb with
  | [] => (scheme, None)
  | f :: sb => match f scheme with
               | (scheme, Some err) => (scheme, Some err)
               | (scheme, None) => SchemeBuilder_AddToScheme sb scheme
               end
  end.
Definition v1_AddToScheme : Scheme → Scheme * option error := SchemeBuilder_AddToScheme [addKnownTypes].
Definition Must (r : Scheme * option error) : outcome Scheme :=
  match r with (scheme, None) => Ret scheme | (_, Some _) => Panic "Must" end.
(** The packages scheme and fake fill a scheme of their own. *)
Definition scheme_init : outcome Scheme :=
  Must (SchemeBuilder_AddToScheme [v1_AddToScheme] (AddToGroupVersion (mkGroupVersion "" "v1") NewScheme)).
Definition fake_scheme_init : outcome Scheme :=
  Must (SchemeBuilder_AddToScheme [v1_AddToScheme] (AddToGroupVersion (mkGroupVersion "" "v1") NewScheme)).
End scheme.

(** ** Clients from a configuration (networkservice_client.go, clientset.go) *)
Section config.
Context {Float RateLimiter Serializer Rest Discovery Other : Type}.
(** rest.Config: the fields the code reads or writes. *)
Record Config := mkConfig {
  c_GroupVersion : option GroupVersion; c_APIPath : string; c_NegotiatedSerializer : option Serializer;
  c_UserAgent : string; c_RateLimiter : option RateLimiter; c_QPS : Float; c_Burst : Z; c_Other : Other
}.
Context (positive_float : Float → bool) (Codecs : Serializer) (DefaultKubernetesUserAgent : string).
Context (RESTClientFor : Config → result Rest) (NewTokenBucketRateLimiter : Float → Z → RateLimiter).
Context (NewDiscoveryClientForConfig : Config → result Discovery) (NewDiscoveryClient : option Rest → Discovery).

Record NetworkservicemeshV1Client := mkV1Client { restClient : option Rest }.
Definition RESTClient (c : option NetworkservicemeshV1Client) : option Rest :=
  match c with None => None | Some c => restClient c end.
Definition setConfigDefaults (config : Config) : Config * option error :=
  let gv := SchemeGroupVersion in
  (mkConfig (Some gv) "/apis" (Some Codecs)
     (if decide (c_UserAgent config = "") then DefaultKubernetesUserAgent else c_UserAgent config)
     (c_RateLimiter config) (c_QPS config) (c_Burst config) (c_Other config), None).
Definition v1_NewForConfig (c : Config) : result NetworkservicemeshV1Client :=
  match setConfigDefaults c with
  | (_, Some err) => Err err
  | (config, None) =>
      match RESTClientFor config with
      | Err err => Err err
      | Ok client => Ok (mkV1Client (Some client))
      end
  end.
Definition v1_NewForConfigOrDie (c : Config) : outcome NetworkservicemeshV1Client :=
  match v1_NewForConfig c with Err _ => Panic "NewForConfigOrDie" | Ok client => Ret client end.
Definition v1_New (c : option Rest) : NetworkservicemeshV1Client := mkV1Client c.

Record Clientset := mkClientset { DiscoveryClient : Discovery; networkservicemeshV1 : NetworkservicemeshV1Client }.
Definition NetworkservicemeshV1 (c : Clientset) : NetworkservicemeshV1Client := networkservicemeshV1 c.
Definition Networkservicemesh (c : Clientset) : NetworkservicemeshV1Client := networkservicemeshV1 c.
Definition Clientset_Discovery (c : option Clientset) : option Discovery := DiscoveryClient <$> c.
Definition with_RateLimiter (l : RateLimiter) (c : Config) : Config :=
  mkConfig (c_GroupVersion c) (c_APIPath c) (c_NegotiatedSerializer c) (c_UserAgent c) (Some l) (c_QPS c) (c_Burst c)
    (c_Other c).
Definition NewForConfig (c : Config) : result Clientset :=
  let configShallowCopy :=
    match c_RateLimiter c with
    | None => if positive_float (c_QPS c) then with_RateLimiter (NewTokenBucketRateLimiter (c_QPS c) (c_Burst c)) c else c
    | Some _ => c
    end in
  match v1_NewForConfig configShallowCopy with
  | Err err => Err err
  | Ok v1 =>
      match NewDiscoveryClientForConfig configShallowCopy with
      | Err err => Err err
      | Ok d => Ok (mkClientset d v1)
      end
  end.
Definition NewForConfigOrDie (c : Config) : outcome Clientset :=
  v1 ← v1_NewForConfigOrDie c;
  d ← match NewDiscoveryClientForConfig c with Err _ => Panic "NewDiscoveryClientForConfigOrDie" | Ok d => Ret d end;
  Ret (mkClientset d v1).
Definition Clientset_New (c : option Rest) : Clientset := mkClientset (NewDiscoveryClient c) (v1_New c).

(** The group and the path of the typed clients are the ones of the types,
    whatever the configuration said; both clients draw on one rate limiter. *)
Lemma NewForConfig_exact c cs : NewForConfig c = Ok cs →
  ∃ c1 c2 rest, RESTClientFor c1 = Ok rest ∧ RESTClient (Some (NetworkservicemeshV1 cs)) = Some rest ∧
    NewDiscoveryClientForConfig c2 = Ok (DiscoveryClient cs) ∧
    c_GroupVersion c1 = Some SchemeGroupVersion ∧ c_APIPath c1 = "/apis" ∧ c_RateLimiter c1 = c_RateLimiter c2 ∧
    c_GroupVersion c2 = c_GroupVersion c ∧ c_APIPath c2 = c_APIPath c ∧ c_UserAgent c2 = c_UserAgent c.
Proof.
  unfold NewForConfig. set (c2 := match c_RateLimiter c with None => _ | Some _ => c end). intros E.
  unfold v1_NewForConfig in E. destruct (setConfigDefaults c2) as [c1 []] eqn:E1; [done|].
  injection E1 as E1. destruct (RESTClientFor c1) as [rest|] eqn:Er; [|done].
  destruct (NewDiscoveryClientForConfig c2) as [d|] eqn:Ed; [|done]. injection E as <-.
  exists c1, c2, rest. subst c1. unfold c2; simpl. by destruct (c_RateLimiter c); [|destruct (positive_float _)]; simpl.
Qed.
End config.

(** ** The typed clients of a clientset *)
Section getters.
Context {Rest A ListOptions GetOptions DeleteOptions ListMeta W Server : Type}.
(** The REST client, for the requests of one type. *)
Context (as_rest : Rest →
  @rest_Interface ListOptions GetOptions DeleteOptions A ListMeta W Server).
Definition newNetworkServices (c : option NetworkservicemeshV1Client) (namespace : string) : typed_client :=
  mkTypedClient (as_rest <$> RESTClient c) namespace.
Definition newNetworkServiceEndpoints (c : option NetworkservicemeshV1Client) (namespace : string) : typed_client :=
  mkTypedClient (as_rest <$> RESTClient c) namespace.
Definition newNetworkServiceManagers (c : option NetworkservicemeshV1Client) (namespace : string) : typed_client :=
  mkTypedClient (as_rest <$> RESTClient c) namespace.
End getters.

(** ** The clientset of the tests (fake/clientset_generated.go) *)
Section fake.
Context {Tracker Object Reaction W : Type}.
Context (NewObjectTracker : Tracker) (tracker_Add : Object → Tracker → Tracker * option error).
Context (tracker_Watch : GroupVersionResource → string → Tracker → result W) (ObjectReaction : Reaction).

(** The reactions are tried in order; the first that handles an action is its answer. *)
Definition watch_reaction : Type := GroupVersionResource → string → Tracker → bool * option W * option error.
Record fake_Clientset := mkFakeClientset {
  fc_tracker : Tracker;
  ReactionChain : list (string * string * Reaction);
  WatchReactionChain : list (string * watch_reaction)
}.
Definition react_watch : watch_reaction := λ gvr ns o,
  match tracker_Watch gvr ns o with
  | Err err => (false, None, Some err)
  | Ok w => (true, Some w, None)
  end.
Definition NewSimpleClientset (objects : list Object) : outcome fake_Clientset :=
  o ← foldM (λ o obj, match tracker_Add obj o with (_, Some _) => Panic "NewSimpleClientset" | (o, None) => Ret o end)
        NewObjectTracker objects;
  Ret (mkFakeClientset o [("*", "*", ObjectReaction)] [("*", react_watch)]).
End fake.

(** ** Listers (k8s/pkg/networkservice/listers)

    The index holds values of any type; [assert] is the type assertion to
    the type of the lister.  [ListAll] and [ListAllByNamespace] give the
    values they pass on, and an error. *)
Section listers.
Context {Indexer Value A Selector : Type} (assert : Value → option A).
Context (ListAll : Indexer → Selector → list Value * option error).
Context (ListAllByNamespace : Indexer → string → Selector → list Value * option error).
Context (GetByKey : Indexer → string → result (option Value)) (NewNotFound : string * string → string → error).

Record Lister := mkLister {
  l_List : Selector → outcome (list A * option error);
  l_NamespaceList : string → Selector → outcome (list A * option error);
  l_NamespaceGet : string → string → outcome (result A)
}.
(** [ret] grows by each value; the assertion panics on another type. *)
Definition append_all (listed : list Value * option error) : outcome (list A * option error) :=
  ret ← foldM (λ ret m, match assert m with Some a => Ret (ret ++ [a]) | None => Panic "interface conversion" end)
          [] listed.1;
  Ret (ret, listed.2).
Definition get_by_key (indexer : Indexer) (resource namespace name : string) : outcome (result A) :=
  match GetByKey indexer (namespace +:+ "/" +:+ name) with
  | Err err => Ret (Err err)
  | Ok None => Ret (Err (NewNotFound (v1_Resource resource) name))
  | Ok (Some obj) => match assert obj with Some a => Ret (Ok a) | None => Panic "interface conversion" end
  end.
Definition networkServiceLister (indexer : Indexer) : Lister := {|
  l_List := λ selector, append_all (ListAll indexer selector);
  l_NamespaceList := λ namespace selector, append_all (ListAllByNamespace indexer namespace selector);
  l_NamespaceGet := get_by_key indexer "networkservice"
|}.
Definition networkServiceEndpointLister (indexer : Indexer) : Lister := {|
  l_List := λ selector, append_all (ListAll indexer selector);
  l_NamespaceList := λ namespace selector, append_all (ListAllByNamespace indexer namespace selector);
  l_NamespaceGet := get_by_key indexer "networkserviceendpoint"
|}.
Definition networkServiceManagerLister (indexer : Indexer) : Lister := {|
  l_List := λ selector, append_all (ListAll indexer selector);
  l_NamespaceList := λ namespace selector, append_all (ListAllByNamespace indexer namespace selector);
  l_NamespaceGet := get_by_key indexer "networkservicemanager"
|}.

Lemma append_all_exact values err objects :
  mapM assert values = Some objects → append_all (values, err) = Ret (objects, err).
Proof.
  intros HM. unfold append_all; simpl.
  assert (∀ acc, foldM (λ ret m, match assert m with Some a => Ret (ret ++ [a]) | None => Panic "interface conversion" end)
            acc values = Ret (acc ++ objects)) as ->; [|done].
  apply mapM_Some in HM. induction HM as [|v o values objects Ho HM IH]; intros acc; simpl; [by rewrite app_nil_r|].
  rewrite Ho; simpl. by rewrite IH, <- app_assoc.
Qed.

(** What client-go documents of an index that an informer fills: objects of
    the type under the keys namespace/name, each listed once. *)
Context (contents : Indexer → gmap string A) (inject : A → Value) (object_ns object_name : A → string).
Context (matches : Selector → A → bool).
Class IndexLaws : Prop := {
  assert_inject : ∀ a, assert (inject a) = Some a;
  keyed : ∀ i k a, contents i !! k = Some a → k = object_ns a +:+ "/" +:+ object_name a;
  lists_all : ∀ i sel, ∃ l, ListAll i sel = (inject <$> l, None) ∧
    l ≡ₚ filter (λ a, matches sel a) (map_to_list (contents i)).*2;
  lists_namespace : ∀ i ns sel, ∃ l, ListAllByNamespace i ns sel = (inject <$> l, None) ∧
    l ≡ₚ filter (λ a, matches sel a ∧ object_ns a = ns) (map_to_list (contents i)).*2;
  gets : ∀ i k, GetByKey i k = Ok (inject <$> contents i !! k)
}.
Context `{IndexLaws}.

Lemma append_injected l err : append_all (inject <$> l, err) = Ret (l, err).
Proof.
  apply append_all_exact. apply mapM_Some, Forall2_fmap_l, Forall_Forall2_diag, list.Forall_forall.
  intros; apply assert_inject.
Qed.
Lemma elem_contents i a : a ∈ (map_to_list (contents i)).*2 ↔ contents i !! (object_ns a +:+ "/" +:+ object_name a) = Some a.
Proof.
  rewrite list_elem_of_fmap. split.
  - intros ([k a'] & -> & Hk%elem_of_map_to_list). simpl. by rewrite <- (keyed i k a').
  - intros Hk. exists (object_ns a +:+ "/" +:+ object_name a, a). split; [done|]. by apply elem_of_map_to_list.
Qed.
Lemma contents_NoDup i : NoDup (map_to_list (contents i)).*2.
Proof.
  apply NoDup_fmap_2_strong; [|apply NoDup_map_to_list].
  intros [k a] [k' a'] Hk%elem_of_map_to_list Hk'%elem_of_map_to_list; simpl; intros ->.
  apply keyed in Hk as ->. by apply keyed in Hk' as ->.
Qed.
Lemma lists_gets (lister : Lister) i resource :
  l_NamespaceList lister = (λ namespace selector, append_all (ListAllByNamespace i namespace selector)) →
  l_NamespaceGet lister = get_by_key i resource →
  ∀ ns sel, ∃ l, l_NamespaceList lister ns sel = Ret (l, None) ∧
    NoDup l ∧ ∀ a, a ∈ l ↔ matches sel a ∧ l_NamespaceGet lister ns (object_name a) = Ret (Ok a).
Proof.
  intros El Eg ns sel. destruct (lists_namespace i ns sel) as (l & E & HP). exists l.
  rewrite El, Eg, E, append_injected. split; [done|].
  split; [rewrite HP; apply NoDup_filter, contents_NoDup|]. intros a.
  rewrite HP, list_elem_of_filter, elem_contents. unfold get_by_key. rewrite gets. split.
  - intros ([Hm <-] & Hc). rewrite Hc; simpl. by rewrite assert_inject.
  - intros [Hm Hg]. destruct (contents i !! _) as [a'|] eqn:Hc; simpl in Hg; [|done].
    rewrite assert_inject in Hg. injection Hg as ->. pose proof (keyed _ _ _ Hc) as Hk.
    apply string_app_inj_r in Hk as ->. done.
Qed.

(** Over an index that an informer keeps, each of the three listers lists
    the selected objects of a namespace, once each and without an error or a
    failed assertion, and these are exactly the selected objects it finds by
    their names in that namespace. *)
Lemma listers_find_what_they_list i lister ns sel :
  lister ∈ [networkServiceLister i; networkServiceEndpointLister i; networkServiceManagerLister i] →
  ∃ l, l_NamespaceList lister ns sel = Ret (l, None) ∧ NoDup l ∧
    ∀ a, a ∈ l ↔ matches sel a ∧ l_NamespaceGet lister ns (object_name a) = Ret (Ok a).
Proof.
  intros Hl. rewrite !elem_of_cons in Hl.
  destruct Hl as [->|[->|[->|[]%elem_of_nil]]]; by eapply lists_gets.
Qed.
End listers.

(** An index of two namespaces whose objects are namespace, name and a label. *)
Module Index.
Notation object := (string * string * bool)%type.
Definition index : gmap string object :=
  {[ "default/a" := ("default", "a", true); "default/b" := ("default", "b", false); "kube/a" := ("kube", "a", true) ]}.
(** Indexes whose keys are right. *)
Notation indexes := { m : gmap string object | map_Forall (λ k a, k = a.1.1 +:+ "/" +:+ a.1.2) m }.
Lemma index_keyed : map_Forall (λ k (a : object), k = a.1.1 +:+ "/" +:+ a.1.2) index.
Proof. apply (bool_decide_unpack (map_Forall (λ k (a : object), k = a.1.1 +:+ "/" +:+ a.1.2) index)). by vm_compute. Qed.
Definition the_index : indexes := index ↾ index_keyed.
Definition wanted (sel : bool) (a : object) : bool := implb sel a.2.
#[local] Instance index_laws : IndexLaws (Indexer:=indexes) (Selector:=bool) Some
  (λ i sel, (filter (λ a, wanted sel a) (map_to_list (proj1_sig i)).*2, None))
  (λ i ns sel, (filter (λ a, wanted sel a ∧ a.1.1 = ns) (map_to_list (proj1_sig i)).*2, None))
  (λ i k, Ok (proj1_sig i !! k)) (λ i, proj1_sig i) id (λ a, a.1.1) (λ a, a.1.2) wanted.
Proof.
  split; simpl.
  - done.
  - intros [m Hm] k a Hk; simpl in *. by apply (Hm k a).
  - intros i sel. eexists. rewrite list_fmap_id. done.
  - intros i ns sel. eexists. rewrite list_fmap_id. done.
  - intros i k. by destruct (proj1_sig i !! k).
Qed.

Lemma listers_find_what_they_list_witness :
  ∃ l, l_NamespaceList (networkServiceEndpointLister Some
    (λ i sel, (filter (λ a, wanted sel a) (map_to_list (proj1_sig i)).*2, None))
    (λ i ns sel, (filter (λ a, wanted sel a ∧ a.1.1 = ns) (map_to_list (proj1_sig i)).*2, None))
    (λ i k, Ok (proj1_sig i !! k)) (λ _ _, Errorf "not found") the_index) "default" true = Ret (l, None) ∧
    l = [("default", "a", true)] ∧ NoDup l.
Proof.
  edestruct (listers_find_what_they_list Some
    (λ i sel, (filter (λ a, wanted sel a) (map_to_list (proj1_sig i)).*2, None))
    (λ i ns sel, (filter (λ a, wanted sel a ∧ a.1.1 = ns) (map_to_list (proj1_sig i)).*2, None))
    (λ i k, Ok (proj1_sig i !! k)) (λ _ _, Errorf "not found") (λ i, proj1_sig i) id (λ a, a.1.1) (λ a, a.1.2) wanted
    the_index) as (l & El & Hnd & _); [right; left|].
  exists l. split; [exact El|]. split; [|exact Hnd]. vm_compute in El. by injection El as <-.
Defined.
End Index.
