(* ===== verification/K8sInformers.v ===== *)
(** * The generated informers (k8s/pkg/networkservice/informers)

    The factory hands out one shared informer per type and starts each of
    them once.  A shared informer (k8s.io/client-go/tools/cache) is known by
    its place in the list of all informers made; the list keeps what each was
    made from and the calls it got: the handlers added to it and the stop
    channels it was run with.  The loops over maps take the order of Go's
    iteration as an argument. *)
From S2P Require Import Prelude GoStrings K8sClient K8sClientset.

(** ** The types with an informer; [reflect.TypeOf] of an object tells them apart. *)
Inductive kind := KNetworkService | KNetworkServiceEndpoint | KNetworkServiceManager.
#[global] Instance kind_eq_dec : EqDecision kind.
Proof. solve_decision. Defined.
#[global] Instance kind_countable : Countable kind.
Proof.
  refine (inj_countable'
    (λ k, match k with KNetworkService => None | KNetworkServiceEndpoint => Some false | KNetworkServiceManager => Some true end)
    (λ o, match o with None => KNetworkService | Some false => KNetworkServiceEndpoint | Some true => KNetworkServiceManager end) _).
  by intros [].
Defined.

Section informers.
(** A network service, an endpoint, a manager. *)
Context {Svc Ept Mgr ListOptions GetOptions DeleteOptions ListMeta W Server Handler Stop : Type}.
Notation typed A := (@Interface ListOptions GetOptions DeleteOptions A ListMeta W Server).
Record versioned_Interface := mkVersioned {
  v_NetworkServices : string → typed Svc;
  v_NetworkServiceEndpoints : string → typed Ept;
  v_NetworkServiceManagers : string → typed Mgr
}.

(** A list as a [runtime.Object]. *)
Inductive runtime_Object :=
  | OServices (l : option (@object_list Svc ListMeta))
  | OEndpoints (l : option (@object_list Ept ListMeta))
  | OManagers (l : option (@object_list Mgr ListMeta)).
Definition as_object {L} (f : L → runtime_Object) (m : outcome (L * option error * Server)) :
    outcome (runtime_Object * option error * Server) :=
  match m with Panic w => Panic w | Ret (l, err, s) => Ret (f l, err, s) end.

Notation TweakListOptionsFunc := (option (ListOptions → ListOptions)).
Record ListWatch := mkListWatch {
  ListFunc : ListOptions → Server → outcome (runtime_Object * option error * Server);
  WatchFunc : ListOptions → Server → outcome (option W * option error * Server)
}.
Record SharedIndexInformer := mkInformer {
  si_lw : ListWatch; si_type : kind; si_resync : Z; si_indexers : list string;
  si_handlers : list Handler; si_runs : list Stop
}.
Definition NewSharedIndexInformer (lw : ListWatch) (t : kind) (resyncPeriod : Z) (indexers : list string) : SharedIndexInformer :=
  mkInformer lw t resyncPeriod indexers [] [].
Definition tweaked (tweak : TweakListOptionsFunc) (options : ListOptions) : ListOptions :=
  match tweak with Some f => f options | None => options end.

Definition NewFilteredNetworkServiceInformer (client : versioned_Interface) (namespace : string) (resyncPeriod : Z)
    (indexers : list string) (tweak : TweakListOptionsFunc) : SharedIndexInformer :=
  NewSharedIndexInformer
    {| ListFunc := λ options s, as_object OServices (List _ (v_NetworkServices client namespace) (tweaked tweak options) s);
       WatchFunc := λ options s, Watch _ (v_NetworkServices client namespace) (tweaked tweak options) s |}
    KNetworkService resyncPeriod indexers.
Definition NewFilteredNetworkServiceEndpointInformer (client : versioned_Interface) (namespace : string) (resyncPeriod : Z)
    (indexers : list string) (tweak : TweakListOptionsFunc) : SharedIndexInformer :=
  NewSharedIndexInformer
    {| ListFunc := λ options s, as_object OEndpoints (List _ (v_NetworkServiceEndpoints client namespace) (tweaked tweak options) s);
       WatchFunc := λ options s, Watch _ (v_NetworkServiceEndpoints client namespace) (tweaked tweak options) s |}
    KNetworkServiceEndpoint resyncPeriod indexers.
Definition NewFilteredNetworkServiceManagerInformer (client : versioned_Interface) (namespace : string) (resyncPeriod : Z)
    (indexers : list string) (tweak : TweakListOptionsFunc) : SharedIndexInformer :=
  NewSharedIndexInformer
    {| ListFunc := λ options s, as_object OManagers (List _ (v_NetworkServiceManagers client namespace) (tweaked tweak options) s);
       WatchFunc := λ options s, Watch _ (v_NetworkServiceManagers client namespace) (tweaked tweak options) s |}
    KNetworkServiceManager resyncPeriod indexers.
Definition NewNetworkServiceInformer (client : versioned_Interface) (namespace : string) (resyncPeriod : Z)
    (indexers : list string) : SharedIndexInformer :=
  NewFilteredNetworkServiceInformer client namespace resyncPeriod indexers None.
Definition NewNetworkServiceEndpointInformer (client : versioned_Interface) (namespace : string) (resyncPeriod : Z)
    (indexers : list string) : SharedIndexInformer :=
  NewFilteredNetworkServiceEndpointInformer client namespace resyncPeriod indexers None.
Definition NewNetworkServiceManagerInformer (client : versioned_Interface) (namespace : string) (resyncPeriod : Z)
    (indexers : list string) : SharedIndexInformer :=
  NewFilteredNetworkServiceManagerInformer client namespace resyncPeriod indexers None.

(** ** The factory (factory.go) and all informers made *)
Record sharedInformerFactory := mkFactory {
  f_client : versioned_Interface;
  f_namespace : string;
  f_tweakListOptions : TweakListOptionsFunc;
  f_defaultResync : Z;
  f_customResync : gmap kind Z;
  f_informers : gmap kind nat;
  f_startedInformers : gmap kind bool
}.
Notation world := (list SharedIndexInformer).

Definition SharedInformerOption : Type := sharedInformerFactory → sharedInformerFactory.
(** The entries of the configuration, in the order Go ranges over them. *)
Definition WithCustomResyncConfig (resyncConfig : list (kind * Z)) : SharedInformerOption := λ f,
  mkFactory (f_client f) (f_namespace f) (f_tweakListOptions f) (f_defaultResync f)
    (foldl (λ m kv, <[kv.1 := kv.2]> m) (f_customResync f) resyncConfig) (f_informers f) (f_startedInformers f).
Definition WithTweakListOptions (tweak : TweakListOptionsFunc) : SharedInformerOption := λ f,
  mkFactory (f_client f) (f_namespace f) tweak (f_defaultResync f) (f_customResync f) (f_informers f) (f_startedInformers f).
Definition WithNamespace (namespace : string) : SharedInformerOption := λ f,
  mkFactory (f_client f) namespace (f_tweakListOptions f) (f_defaultResync f) (f_customResync f) (f_informers f) (f_startedInformers f).
Definition NamespaceAll : string := "".
Definition NewSharedInformerFactoryWithOptions (client : versioned_Interface) (defaultResync : Z)
    (options : list SharedInformerOption) : sharedInformerFactory :=
  foldl (λ factory opt, opt factory) (mkFactory client NamespaceAll None defaultResync ∅ ∅ ∅) options.
Definition NewSharedInformerFactory (client : versioned_Interface) (defaultResync : Z) : sharedInformerFactory :=
  NewSharedInformerFactoryWithOptions client defaultResync [].
Definition NewFilteredSharedInformerFactory (client : versioned_Interface) (defaultResync : Z) (namespace : string)
    (tweak : TweakListOptionsFunc) : sharedInformerFactory :=
  NewSharedInformerFactoryWithOptions client defaultResync [WithNamespace namespace; WithTweakListOptions tweak].

Definition InformerFor (t : kind) (newFunc : versioned_Interface → Z → SharedIndexInformer)
    (f : sharedInformerFactory) (w : world) : nat * sharedInformerFactory * world :=
  match f_informers f !! t with
  | Some informer => (informer, f, w)
  | None =>
      let resyncPeriod := default (f_defaultResync f) (f_customResync f !! t) in
      let informer := length w in
      (informer,
       mkFactory (f_client f) (f_namespace f) (f_tweakListOptions f) (f_defaultResync f) (f_customResync f)
         (<[t := informer]> (f_informers f)) (f_startedInformers f),
       w ++ [newFunc (f_client f) resyncPeriod])
  end.

(** [go informer.Run(stopCh)] *)
Definition Run (stopCh : Stop) (i : SharedIndexInformer) : SharedIndexInformer :=
  mkInformer (si_lw i) (si_type i) (si_resync i) (si_indexers i) (si_handlers i) (si_runs i ++ [stopCh]).
Definition AddEventHandler (h : Handler) (i : SharedIndexInformer) : SharedIndexInformer :=
  mkInformer (si_lw i) (si_type i) (si_resync i) (si_indexers i) (si_handlers i ++ [h]) (si_runs i).

Definition started (f : sharedInformerFactory) (t : kind) : bool := default false (f_startedInformers f !! t).
Definition start_one (stopCh : Stop) : sharedInformerFactory * world → kind * nat → sharedInformerFactory * world :=
  λ '(f, w) '(informerType, informer),
    if started f informerType then (f, w)
    else (mkFactory (f_client f) (f_namespace f) (f_tweakListOptions f) (f_defaultResync f) (f_customResync f)
            (f_informers f) (<[informerType := true]> (f_startedInformers f)),
          alter (Run stopCh) informer w).
Definition Start (order : list (kind * nat)) (stopCh : Stop) (f : sharedInformerFactory) (w : world) :
    sharedInformerFactory * world :=
  foldl (start_one stopCh) (f, w) order.

(** [synced] is the answer of [cache.WaitForCacheSync], true once the cache of the informer is filled. *)
Definition WaitForCacheSync (order : list (kind * nat)) (synced : nat → bool) (f : sharedInformerFactory) : gmap kind bool :=
  let informers := foldl (λ m '(t, i), if started f t then <[t := i]> m else m) ∅ order in
  synced <$> (informers : gmap kind nat).

(** ** Groups, versions and the informers of the types *)
Record informer_access := mkAccess { a_namespace : string; a_tweakListOptions : TweakListOptionsFunc }.
Definition f_Networkservicemesh (f : sharedInformerFactory) : informer_access := mkAccess (f_namespace f) (f_tweakListOptions f).
Definition NamespaceIndex : string := "namespace".
Definition services_defaultInformer (a : informer_access) (client : versioned_Interface) (resyncPeriod : Z) : SharedIndexInformer :=
  NewFilteredNetworkServiceInformer client (a_namespace a) resyncPeriod [NamespaceIndex] (a_tweakListOptions a).
Definition endpoints_defaultInformer (a : informer_access) (client : versioned_Interface) (resyncPeriod : Z) : SharedIndexInformer :=
  NewFilteredNetworkServiceEndpointInformer client (a_namespace a) resyncPeriod [NamespaceIndex] (a_tweakListOptions a).
Definition managers_defaultInformer (a : informer_access) (client : versioned_Interface) (resyncPeriod : Z) : SharedIndexInformer :=
  NewFilteredNetworkServiceManagerInformer client (a_namespace a) resyncPeriod [NamespaceIndex] (a_tweakListOptions a).
Definition Informer (t : kind) (a : informer_access) : sharedInformerFactory → world → nat * sharedInformerFactory * world :=
  match t with
  | KNetworkService => InformerFor KNetworkService (services_defaultInformer a)
  | KNetworkServiceEndpoint => InformerFor KNetworkServiceEndpoint (endpoints_defaultInformer a)
  | KNetworkServiceManager => InformerFor KNetworkServiceManager (managers_defaultInformer a)
  end.

(** ** By resource (generic.go) *)
Record genericInformer := mkGeneric { g_informer : nat; g_resource : string * string }.
Definition ForResource (resource : GroupVersionResource) (f : sharedInformerFactory) (w : world) :
    result genericInformer * sharedInformerFactory * world :=
  let generic t := let '(i, f, w) := Informer t (f_Networkservicemesh f) f w in
                   (Ok (mkGeneric i (GroupResource resource)), f, w) in
  if decide (resource = WithResource SchemeGroupVersion "networkservices") then generic KNetworkService
  else if decide (resource = WithResource SchemeGroupVersion "networkserviceendpoints") then generic KNetworkServiceEndpoint
  else if decide (resource = WithResource SchemeGroupVersion "networkservicemanagers") then generic KNetworkServiceManager
  else (Err (Errorf "no informer found for %v"), f, w).

(** ** The life of a factory

    The calls its users make, in any order: informers are asked for by type
    or by resource, get handlers, and are started. *)
Inductive factory_step : sharedInformerFactory * world → sharedInformerFactory * world → Prop :=
  | step_informer t f w i f' w' :
      Informer t (f_Networkservicemesh f) f w = (i, f', w') → factory_step (f, w) (f', w')
  | step_resource r f w g f' w' : ForResource r f w = (g, f', w') → factory_step (f, w) (f', w')
  | step_handler i h f w : factory_step (f, w) (f, alter (AddEventHandler h) i w)
  | step_start order stopCh f w :
      is_range_of order (f_informers f) → factory_step (f, w) (Start order stopCh f w).

(** One informer for each type, made with the period of the type, and run
    when the factory says so and then once. *)
Record factory_inv (f : sharedInformerFactory) (w : world) : Prop := {
  inv_made : ∀ t i, f_informers f !! t = Some i → ∃ a, w !! i = Some a ∧ si_type a = t;
  inv_known : ∀ i a, w !! i = Some a → f_informers f !! si_type a = Some i ∧
    length (si_runs a) = (if started f (si_type a) then 1 else 0)%nat ∧
    si_resync a = default (f_defaultResync f) (f_customResync f !! si_type a);
  inv_started : ∀ t, started f t = true → t ∈ dom (f_informers f)
}.

Lemma inv_InformerFor t new f w i f' w' :
  (∀ r, si_type (new (f_client f) r) = t ∧ si_resync (new (f_client f) r) = r ∧ si_runs (new (f_client f) r) = []) →
  InformerFor t new f w = (i, f', w') → factory_inv f w → factory_inv f' w'.
Proof.
  intros Hnew E [Hm Hk Hs]. unfold InformerFor in E.
  destruct (f_informers f !! t) as [j|] eqn:Et; injection E as <- <- <-; [done|].
  assert (started f t = false) as Hns.
  { destruct (started f t) eqn:Hst; [|done]. apply Hs, elem_of_dom in Hst as [??]. congruence. }
  destruct (Hnew (default (f_defaultResync f) (f_customResync f !! t))) as (Ht & Hr & Hruns).
  split; simpl.
  - intros u j. destruct (decide (u = t)) as [->|Hu].
    + rewrite lookup_insert_eq. intros [= <-]. rewrite lookup_app_r, Nat.sub_diag by lia. by eexists.
    + rewrite lookup_insert_ne by done. intros (a & Ha & <-)%Hm. exists a. split; [by apply lookup_app_l_Some|done].
  - intros j a [Ha|[Hj Ha]]%lookup_app_Some.
    + pose proof (Hk j a Ha) as (Hi & Hrest). rewrite lookup_insert_ne by congruence. done.
    + apply list_lookup_singleton_Some in Ha as [Hj' <-]. rewrite Ht, Hr, Hruns. rewrite lookup_insert_eq.
      unfold started in *; simpl. rewrite Hns. split_and!; [f_equal; lia|done|done].
  - intros u Hu. apply Hs in Hu. set_solver.
Qed.
Lemma inv_Informer t a f w i f' w' : Informer t a f w = (i, f', w') → factory_inv f w → factory_inv f' w'.
Proof. destruct t; simpl; intros E; eapply inv_InformerFor; by try exact E. Qed.
Lemma inv_ForResource r f w g f' w' : ForResource r f w = (g, f', w') → factory_inv f w → factory_inv f' w'.
Proof.
  unfold ForResource. intros E Hi. repeat case_decide.
  1-3: match type of E with context [Informer ?t ?a ?f ?w] =>
         destruct (Informer t a f w) as [[j f1] w1] eqn:EI; injection E as <- <- <-; by eapply inv_Informer
       end.
  by injection E as <- <- <-.
Qed.
Lemma inv_handler f w i h : factory_inv f w → factory_inv f (alter (AddEventHandler h) i w).
Proof.
  intros [Hm Hk Hs]. split; [| |done].
  - intros t j (a & Ha & <-)%Hm. destruct (decide (i = j)) as [->|].
    + exists (AddEventHandler h a). by rewrite list_lookup_alter_eq, Ha.
    + exists a. by rewrite list_lookup_alter_ne.
  - intros j a. destruct (decide (i = j)) as [->|].
    + rewrite list_lookup_alter_eq, fmap_Some. intros (b & Hb & ->). by apply Hk in Hb.
    + rewrite list_lookup_alter_ne by done. apply Hk.
Qed.

Lemma start_one_started stopCh f w t i f' w' :
  start_one stopCh (f, w) (t, i) = (f', w') →
  f_informers f' = f_informers f ∧ ∀ u, started f' u = started f u || bool_decide (u = t).
Proof.
  unfold start_one. destruct (started f t) eqn:Ht; intros [= <- <-]; (split; [done|]); intros u.
  - case_bool_decide; [subst; by rewrite Ht|by rewrite orb_false_r].
  - unfold started; simpl. destruct (decide (u = t)) as [->|Hu].
    + rewrite lookup_insert_eq, bool_decide_eq_true_2 by done. by rewrite orb_true_r.
    + rewrite lookup_insert_ne, bool_decide_eq_false_2 by done. by rewrite orb_false_r.
Qed.
Lemma inv_start_one stopCh f w t i f' w' :
  f_informers f !! t = Some i → start_one stopCh (f, w) (t, i) = (f', w') → factory_inv f w → factory_inv f' w'.
Proof.
  intros Hti E Hinv. destruct (start_one_started _ _ _ _ _ _ _ E) as [HI HS]. unfold start_one in E.
  destruct (started f t) eqn:Ht; injection E as Ef Ew; [by subst|]. destruct Hinv as [Hm Hk Hs].
  split; rewrite ?HI, <- ?Ew.
  - intros u j (a & Ha & <-)%Hm. destruct (decide (i = j)) as [->|].
    + exists (Run stopCh a). by rewrite list_lookup_alter_eq, Ha.
    + exists a. by rewrite list_lookup_alter_ne.
  - intros j a. rewrite HS, <- Ef; simpl. destruct (decide (i = j)) as [->|Hij].
    + rewrite list_lookup_alter_eq, fmap_Some. intros (b & Hb & ->); simpl.
      apply Hk in Hb as (Hi & Hr & Hp). destruct (Hm t j Hti) as (b' & Hb' & Et).
      assert (si_type b = t) as Eb.
      { destruct (Hm _ _ Hi) as (c & Hc & <-). rewrite Hc in Hb'. by injection Hb' as <-. }
      rewrite Eb, bool_decide_eq_true_2, orb_true_r, length_app by done. rewrite Eb, Ht in Hr. simpl. rewrite Hr.
      rewrite Eb in Hi, Hp. done.
    + rewrite list_lookup_alter_ne by done. intros Ha. destruct (Hk j a Ha) as (Hi & Hr & Hp).
      rewrite bool_decide_eq_false_2, orb_false_r; [done|]. intros Eu. congruence.
  - intros u. rewrite HS, orb_true_iff, bool_decide_eq_true. intros [Hu| ->]; [by apply Hs|by apply elem_of_dom].
Qed.
Lemma Start_spec stopCh order f w f' w' :
  Forall (λ '(t, i), f_informers f !! t = Some i) order → Start order stopCh f w = (f', w') → factory_inv f w →
  factory_inv f' w' ∧ f_informers f' = f_informers f ∧ ∀ t, started f' t = started f t || bool_decide (t ∈ order.*1).
Proof.
  revert f w; induction order as [|[t i] order IH]; intros f w HF E Hinv; cbn in E.
  { injection E as <- <-. split_and!; [done..|]. intros t. by rewrite orb_false_r. }
  apply Forall_cons in HF as [Ht HF]. change (foldl _ _ order) with (foldl (start_one stopCh) (start_one stopCh (f, w) (t, i)) order) in E.
  destruct (start_one stopCh (f, w) (t, i)) as [f1 w1] eqn:E1.
  destruct (start_one_started _ _ _ _ _ _ _ E1) as [HI HS].
  destruct (IH f1 w1) as (Hinv' & HI' & HS'); [by rewrite HI|done|by eapply inv_start_one|].
  split_and!; [done|congruence|]. intros u. rewrite HS', HS, <- orb_assoc. f_equal.
  rewrite <- bool_decide_or. apply bool_decide_ext. cbn. set_solver.
Qed.
Lemma range_informers f order : is_range_of order (f_informers f) →
  Forall (λ '(t, i), f_informers f !! t = Some i) order ∧ ∀ t, t ∈ order.*1 ↔ t ∈ dom (f_informers f).
Proof.
  intros HR. split.
  - apply list.Forall_forall. intros [t i] Hti. rewrite HR in Hti. by apply elem_of_map_to_list.
  - intros t. rewrite HR, list_elem_of_fmap, elem_of_dom. split.
    + intros ([u i] & -> & Hu%elem_of_map_to_list). by eexists.
    + intros [i Hi]. exists (t, i). split; [done|]. by apply elem_of_map_to_list.
Qed.
Lemma inv_step x y : factory_step x y → factory_inv x.1 x.2 → factory_inv y.1 y.2.
Proof.
  intros [t f w i f' w' E|r f w g f' w' E|i h f w|order stopCh f w HR] Hinv; simpl in *.
  - by eapply inv_Informer.
  - by eapply inv_ForResource.
  - by apply inv_handler.
  - destruct (Start order stopCh f w) as [f' w'] eqn:E. by eapply Start_spec; [apply range_informers| |].
Qed.

(** The options of the package. *)
Inductive built_option : SharedInformerOption → Prop :=
  | built_resync c : built_option (WithCustomResyncConfig c)
  | built_tweak t : built_option (WithTweakListOptions t)
  | built_namespace n : built_option (WithNamespace n).
Lemma new_factory_empty client r options : Forall built_option options →
  f_informers (NewSharedInformerFactoryWithOptions client r options) = ∅ ∧
  f_startedInformers (NewSharedInformerFactoryWithOptions client r options) = ∅.
Proof.
  unfold NewSharedInformerFactoryWithOptions. intros HF.
  assert (∀ f, f_informers f = ∅ → f_startedInformers f = ∅ →
    f_informers (foldl (λ factory opt, opt factory) f options) = ∅ ∧
    f_startedInformers (foldl (λ factory opt, opt factory) f options) = ∅) as Hgo; [|by apply Hgo].
  induction HF as [|o options Ho HF IH]; intros f H1 H2; simpl; [done|]. apply IH; by destruct Ho.
Qed.
Lemma reachable_inv client r options x : Forall built_option options →
  rtc factory_step (NewSharedInformerFactoryWithOptions client r options, []) x → factory_inv x.1 x.2.
Proof.
  intros Ho HR. destruct (new_factory_empty client r options Ho) as [H1 H2].
  apply (rtc_ind_r (λ x, factory_inv x.1 x.2) _ ) in HR; [done| |].
  - split; simpl; [by rewrite H1|done|]. unfold started. by rewrite H2.
  - intros y z _ Hst Hy. by eapply inv_step.
Qed.

Lemma started_informers f order (acc : gmap kind nat) :
  (∀ t i, (t, i) ∈ order → f_informers f !! t = Some i) →
  (∀ t, started f t = true → t ∈ order.*1 ∨ acc !! t = f_informers f !! t) →
  (∀ t i, acc !! t = Some i → started f t = true ∧ f_informers f !! t = Some i) →
  ∀ t, foldl (λ m '(t, i), if started f t then <[t := i]> m else m) acc order !! t
       = if started f t then f_informers f !! t else None.
Proof.
  revert acc; induction order as [|[u j] order IH]; intros acc HF Hdone Hacc t; cbn -[started].
  - destruct (started f t) eqn:Ht; [by destruct (Hdone t Ht) as [?%elem_of_nil|]|].
    destruct (acc !! t) eqn:E; [|done]. apply Hacc in E as [??]. congruence.
  - apply IH.
    + intros t' i' Hin. apply HF. by right.
    + intros v Hv. destruct (decide (v = u)) as [->|Hvu].
      * right. rewrite Hv, lookup_insert_eq. symmetry. apply HF. by left.
      * destruct (Hdone v Hv) as [[->|?]%elem_of_cons|E]; [done|by left|]. right.
        destruct (started f u); [by rewrite lookup_insert_ne|done].
    + intros v i. destruct (started f u) eqn:Hu; [|apply Hacc]. destruct (decide (v = u)) as [->|Hvu].
      * rewrite lookup_insert_eq. intros [= <-]. split; [done|]. apply HF. by left.
      * rewrite lookup_insert_ne by done. apply Hacc.
Qed.
(** Waiting answers for the informers that were started, and for those only. *)
Lemma WaitForCacheSync_exact f order synced t :
  is_range_of order (f_informers f) → (∀ t, started f t = true → t ∈ dom (f_informers f)) →
  WaitForCacheSync order synced f !! t = if started f t then synced <$> f_informers f !! t else None.
Proof.
  intros HR Hs. destruct (range_informers f order HR) as [HF Hdom]. unfold WaitForCacheSync.
  rewrite lookup_fmap, started_informers; [by destruct (started f t)| | |].
  - intros u i Hui. rewrite list.Forall_forall in HF. exact (HF _ Hui).
  - intros u Hu. left. by apply Hdom, Hs.
  - intros u i. by rewrite lookup_empty.
Qed.

(** C16: however a factory is made and used - informers asked for by type or by
    resource, handlers added, [Start] called any number of times - it makes
    one informer per type, with the resync period of the type, and never runs
    one twice; after one more [Start] every informer made so far runs exactly
    once, and [WaitForCacheSync] answers for each of them. *)
Theorem informers_shared_and_run_once client r options f w :
  Forall built_option options →
  rtc factory_step (NewSharedInformerFactoryWithOptions client r options, []) (f, w) →
  (∀ i j a b, w !! i = Some a → w !! j = Some b → si_type a = si_type b → i = j) ∧
  (∀ i a, w !! i = Some a →
     (length (si_runs a) ≤ 1)%nat ∧ si_resync a = default (f_defaultResync f) (f_customResync f !! si_type a)) ∧
  ∀ order stopCh, is_range_of order (f_informers f) →
    let '(f', w') := Start order stopCh f w in
    (∀ i a, w' !! i = Some a → length (si_runs a) = 1%nat) ∧
    ∀ order' synced i a, is_range_of order' (f_informers f') → w' !! i = Some a →
      WaitForCacheSync order' synced f' !! si_type a = Some (synced i).
Proof.
  intros Ho HR. pose proof (reachable_inv _ _ _ _ Ho HR) as Hinv; simpl in Hinv. split_and!.
  - intros i j a b (Ha & _)%(inv_known _ _ Hinv) (Hb & _)%(inv_known _ _ Hinv) E. congruence.
  - intros i a (_ & Hr & Hp)%(inv_known _ _ Hinv). split; [|done]. rewrite Hr. destruct (started _ _); lia.
  - intros order stopCh Hrange. destruct (Start order stopCh f w) as [f' w'] eqn:E.
    destruct (range_informers f order Hrange) as [HF Hdom].
    destruct (Start_spec _ _ _ _ _ _ HF E Hinv) as (Hinv' & HI & HS).
    assert (∀ i a, w' !! i = Some a → started f' (si_type a) = true) as Hall.
    { intros i a (Hi & _)%(inv_known _ _ Hinv'). rewrite HS, orb_true_iff, bool_decide_eq_true. right.
      apply Hdom. rewrite <- HI. by apply elem_of_dom_2 in Hi. }
    split.
    + intros i a Ha. destruct (inv_known _ _ Hinv' i a Ha) as (_ & Hr & _). by rewrite Hr, (Hall i a).
    + intros order' synced i a Hr' Ha. rewrite WaitForCacheSync_exact by (done || apply Hinv').
      rewrite (Hall i a Ha). destruct (inv_known _ _ Hinv' i a Ha) as (-> & _). done.
Qed.
End informers.

(** A factory for one namespace, asked for services and endpoints and started twice. *)
Module Started.
Definition client : @versioned_Interface unit unit unit unit unit unit unit unit unit :=
  let nil_client n := mkTypedClient None n in
  mkVersioned (λ n, networkServices (λ _, None) id (λ _, "") tt tt (nil_client n))
    (λ n, networkServiceEndpoints (λ _, None) id (λ _, "") tt tt (nil_client n))
    (λ n, networkServiceManagers (λ _, None) id (λ _, "") tt tt (nil_client n)).
Definition options : list (@SharedInformerOption unit unit unit unit unit unit unit unit unit) :=
  [WithNamespace "default"; WithCustomResyncConfig [(KNetworkServiceEndpoint, 5)]].
Definition factory := NewSharedInformerFactoryWithOptions client 100 options.
Definition asked : sharedInformerFactory * list (@SharedIndexInformer unit unit unit unit unit unit unit unit nat) :=
  let '(_, f, w) := Informer KNetworkService (f_Networkservicemesh factory) factory [] in
  let '(_, f, w) := ForResource (mkGVR "networkservicemesh.io" "v1" "networkserviceendpoints") f w in (f, w).
Definition once := Start [(KNetworkService, 0%nat); (KNetworkServiceEndpoint, 1%nat)] 7%nat asked.1 asked.2.
Lemma once_ranges : is_range_of [(KNetworkService, 0%nat); (KNetworkServiceEndpoint, 1%nat)] (f_informers asked.1).
Proof. unfold is_range_of. vm_compute. apply Permutation_swap. Qed.

Lemma informers_shared_and_run_once_witness :
  (λ i, (si_type i, si_resync i, si_runs i)) <$> once.2
    = [(KNetworkService, 100, [7%nat]); (KNetworkServiceEndpoint, 5, [7%nat])] ∧
  ∀ i a, (Start [(KNetworkService, 0%nat); (KNetworkServiceEndpoint, 1%nat)] 8%nat once.1 once.2).2 !! i = Some a →
    length (si_runs a) = 1%nat.
Proof.
  split; [vm_compute; reflexivity|].
  destruct (informers_shared_and_run_once client 100 options once.1 once.2) as (_ & _ & Hstart).
  - repeat constructor.
  - eapply rtc_l; [eapply (step_informer KNetworkService); reflexivity|].
    eapply rtc_l; [eapply (step_resource (mkGVR "networkservicemesh.io" "v1" "networkserviceendpoints")); reflexivity|].
    apply rtc_once. rewrite <- surjective_pairing. apply step_start, once_ranges.
  - specialize (Hstart _ 8%nat once_ranges). intros i a. apply Hstart.
Defined.
End Started.
