(* ===== verification/RegistryServer.v ===== *)
(** * The registry server (k8s/pkg/registryserver)

    Network services, endpoints and managers live in the Kubernetes API
    server; the registry answers from caches that it fills from its own
    writes and from informers.  The answers of the API server are arguments.
    A cache has one channel for additions and one for deletions, which its
    goroutine empties in an order of its own; a full channel only delays the
    sender, so that the channels are lists without a bound. *)
From S2P Require Import Prelude GoStrings GoNet ConnectionContext Apis.

(** ** Resources (k8s/pkg/apis/networkservice/v1/types.go) *)
Record v1_Destination := mkV1Destination { v1d_DestinationSelector : gmap string string; v1d_Weight : Z (* uint32 *) }.
Record v1_Match := mkV1Match { v1m_SourceSelector : gmap string string; v1m_Routes : list v1_Destination }.
Record v1_NetworkService := mkV1NetworkService { v1s_Name : string; v1s_Payload : string; v1s_Matches : list v1_Match }.
Record v1_Endpoint := mkV1Endpoint {
  v1e_Name : string;
  v1e_GenerateName : string;
  v1e_Labels : gmap string string;
  v1e_NetworkServiceName : string;
  v1e_NsmName : string;
  v1e_State : string
}.
Record v1_Manager := mkV1Manager { v1n_Name : string; v1n_LastSeen : Z; v1n_URL : string; v1n_State : string }.
Definition v1_RUNNING : string := "RUNNING".

(** ** The generic cache (resource_cache.go) *)
Record cacheConfig (S O : Type) := mkCacheConfig {
  keyFunc : O → string;
  resourceAddedFunc : O → S → S;
  resourceDeletedFunc : string → S → outcome S
}.
Arguments mkCacheConfig {S O} _ _ _.
Arguments keyFunc {S O} _ _.
Arguments resourceAddedFunc {S O} _ _ _.
Arguments resourceDeletedFunc {S O} _ _ _.

Record abstractResourceCache (S O : Type) := mkResourceCache {
  rc_addCh : list O;
  rc_deleteCh : list string;
  rc_store : S
}.
Arguments mkResourceCache {S O} _ _ _.
Arguments rc_addCh {S O} _.
Arguments rc_deleteCh {S O} _.
Arguments rc_store {S O} _.

Section cache.
Context {S O : Type} (config : cacheConfig S O).

Definition newAbstractResourceCache (s : S) : abstractResourceCache S O := mkResourceCache [] [] s.
Definition rc_add (o : O) (c : abstractResourceCache S O) : abstractResourceCache S O :=
  mkResourceCache (rc_addCh c ++ [o]) (rc_deleteCh c) (rc_store c).
Definition rc_delete (key : string) (c : abstractResourceCache S O) : abstractResourceCache S O :=
  mkResourceCache (rc_addCh c) (rc_deleteCh c ++ [key]) (rc_store c).
(** What an informer does with the objects that appear and disappear. *)
Definition informer_added := rc_add.
Definition informer_deleted (o : O) := rc_delete (keyFunc config o).

(** The goroutine takes from either channel. *)
Inductive channel_choice := FromAdd | FromDelete.
Definition run_turn (choice : channel_choice) (c : abstractResourceCache S O) : outcome (abstractResourceCache S O) :=
  match choice with
  | FromAdd =>
      match rc_addCh c with
      | [] => Ret c
      | o :: addCh => Ret (mkResourceCache addCh (rc_deleteCh c) (resourceAddedFunc config o (rc_store c)))
      end
  | FromDelete =>
      match rc_deleteCh c with
      | [] => Ret c
      | key :: deleteCh =>
          match resourceDeletedFunc config key (rc_store c) with
          | Panic w => Panic w
          | Ret s => Ret (mkResourceCache (rc_addCh c) deleteCh s)
          end
      end
  end.
(** All that is waiting to be added, in order. *)
Definition settle (c : abstractResourceCache S O) : abstractResourceCache S O :=
  mkResourceCache [] (rc_deleteCh c) (foldl (λ s o, resourceAddedFunc config o s) (rc_store c) (rc_addCh c)).
End cache.

(** ** The three caches (ns_cache.go, nsm_cache.go, nse_cache.go) *)
Definition ns_config : cacheConfig (gmap string v1_NetworkService) v1_NetworkService :=
  mkCacheConfig v1s_Name (λ ns m, <[v1s_Name ns := ns]> m) (λ key m, Ret (delete key m)).
Definition nsm_config : cacheConfig (gmap string v1_Manager) v1_Manager :=
  mkCacheConfig v1n_Name (λ nsm m, <[v1n_Name nsm := nsm]> m) (λ key m, Ret (delete key m)).

Record nse_store := mkNseStore {
  nseByNs : gmap string (list v1_Endpoint);
  networkServiceEndpoints : gmap string v1_Endpoint
}.
Definition nse_Get (s : nse_store) (networkServiceName : string) : list v1_Endpoint :=
  default [] (nseByNs s !! networkServiceName).

Fixpoint replace_first (nse : v1_Endpoint) (l : list v1_Endpoint) : list v1_Endpoint :=
  match l with
  | [] => []
  | e :: l => if decide (v1e_Name nse = v1e_Name e) then nse :: l else e :: replace_first nse l
  end.
Definition nse_resourceAdded (nse : v1_Endpoint) (s : nse_store) : nse_store :=
  let ns := v1e_NetworkServiceName nse in
  let byNs := match networkServiceEndpoints s !! v1e_Name nse with
              | None => <[ns := nse_Get s ns ++ [nse]]> (nseByNs s)
              | Some _ => alter (replace_first nse) ns (nseByNs s)
              end in
  mkNseStore byNs (<[v1e_Name nse := nse]> (networkServiceEndpoints s)).

(** The index of the first endpoint with the name; zero when there is none. *)
Fixpoint index_of (name : string) (i : nat) (l : list v1_Endpoint) : nat :=
  match l with
  | [] => 0
  | e :: l => if decide (name = v1e_Name e) then i else index_of name (S i) l
  end.
Definition nse_resourceDeleted (key : string) (s : nse_store) : outcome nse_store :=
  match networkServiceEndpoints s !! key with
  | None => Ret s
  | Some nse =>
      let ns := v1e_NetworkServiceName nse in
      let endpoints := nse_Get s ns in
      let index := index_of (v1e_Name nse) 0 endpoints in
      if decide (length endpoints < S index)%nat then Panic "slice bounds out of range"
      else
        let endpoints := take index endpoints ++ drop (S index) endpoints in
        let byNs := match endpoints with
                    | [] => delete ns (nseByNs s)
                    | _ => <[ns := endpoints]> (nseByNs s)
                    end in
        Ret (mkNseStore byNs (delete key (networkServiceEndpoints s)))
  end.
Definition nse_config : cacheConfig nse_store v1_Endpoint :=
  mkCacheConfig v1e_Name nse_resourceAdded nse_resourceDeleted.

(** ** The cache of the registry (registry_cache.go) *)
Record registryCacheImpl := mkRegistryCache {
  networkServiceCache : abstractResourceCache (gmap string v1_NetworkService) v1_NetworkService;
  networkServiceEndpointCache : abstractResourceCache nse_store v1_Endpoint;
  networkServiceManagerCache : abstractResourceCache (gmap string v1_Manager) v1_Manager
}.
Definition NewRegistryCache : registryCacheImpl :=
  mkRegistryCache (newAbstractResourceCache ∅) (newAbstractResourceCache (mkNseStore ∅ ∅)) (newAbstractResourceCache ∅).

(** The generated client returns an empty object along with an error. *)
Definition client_Create {O} (zero : O) (answer : result O) : option O * option error :=
  match answer with Ok o => (Some o, None) | Err e => (Some zero, Some e) end.

Definition AddNetworkService (rc : registryCacheImpl) (answer : result v1_NetworkService) :
    registryCacheImpl * option v1_NetworkService * option error :=
  let '(r, err) := client_Create (mkV1NetworkService "" "" []) answer in
  (mkRegistryCache (from_option rc_add id r (networkServiceCache rc)) (networkServiceEndpointCache rc) (networkServiceManagerCache rc), r, err).
Definition AddNetworkServiceEndpoint (rc : registryCacheImpl) (answer : result v1_Endpoint) :
    registryCacheImpl * option v1_Endpoint * option error :=
  let '(r, err) := client_Create (mkV1Endpoint "" "" ∅ "" "" "") answer in
  (mkRegistryCache (networkServiceCache rc) (from_option rc_add id r (networkServiceEndpointCache rc)) (networkServiceManagerCache rc), r, err).
Definition AddNetworkServiceManager (rc : registryCacheImpl) (answer : result v1_Manager) :
    registryCacheImpl * option v1_Manager * option error :=
  let '(r, err) := client_Create (mkV1Manager "" 0 "" "") answer in
  (mkRegistryCache (networkServiceCache rc) (networkServiceEndpointCache rc) (from_option rc_add id r (networkServiceManagerCache rc)), r, err).
Definition GetNetworkService (rc : registryCacheImpl) (name : string) : result v1_NetworkService :=
  match rc_store (networkServiceCache rc) !! name with
  | None => Err (Errorf "no NetworkService with name: %v")
  | Some ns => Ok ns
  end.
Definition GetNetworkServiceManager (rc : registryCacheImpl) (name : string) : result v1_Manager :=
  match rc_store (networkServiceManagerCache rc) !! name with
  | None => Err (Errorf "no NetworkServiceManager with name: %v")
  | Some nsm => Ok nsm
  end.
Definition cache_GetNetworkServiceEndpoints (rc : registryCacheImpl) (name : string) : list v1_Endpoint :=
  nse_Get (rc_store (networkServiceEndpointCache rc)) name.
Definition DeleteNetworkServiceEndpoint (rc : registryCacheImpl) (endpointName : string) (answer : option error) :
    registryCacheImpl * option error :=
  (mkRegistryCache (networkServiceCache rc) (rc_delete endpointName (networkServiceEndpointCache rc)) (networkServiceManagerCache rc), answer).
(** The goroutines have taken all additions. *)
Definition settled (rc : registryCacheImpl) : registryCacheImpl :=
  mkRegistryCache (settle ns_config (networkServiceCache rc)) (settle nse_config (networkServiceEndpointCache rc))
    (settle nsm_config (networkServiceManagerCache rc)).

(** ** The service (nse.go) *)
Section service.
Context (nsmName : string).
(** The API server, the clock, and two functions of the client libraries. *)
Context (create_nsm : v1_Manager → result v1_Manager) (create_ns : v1_NetworkService → result v1_NetworkService).
Context (create_nse : v1_Endpoint → result v1_Endpoint).
Context (now : Z) (TimestampProto : Z → option Z) (IsAlreadyExists : error → bool).

Definition fatal (err : option error) : option error :=
  match err with Some e => if IsAlreadyExists e then None else Some e | None => None end.

(** The label of the service; the labels of the request itself change when it has some. *)
Definition service_labels (request : NSERegistration) : gmap string string :=
  <["networkservicename" := default "" (ns_Name <$> reg_NetworkService request)]>
    (default ∅ (nse_Labels <$> reg_NetworkserviceEndpoint request)).
Definition write_labels (request : NSERegistration) : NSERegistration :=
  match reg_NetworkserviceEndpoint request with
  | None => request
  | Some e =>
      if decide (nse_Labels e = ∅) then request
      else mkNSERegistration (reg_NetworkService request) (reg_NetworkServiceManager request)
             (Some (mkNetworkServiceEndpoint (nse_NetworkServiceName e) (nse_Payload e) (nse_NetworkServiceManagerName e)
                      (nse_EndpointName e) (service_labels request) (nse_State e)))
  end.

Definition rs_RegisterNSE (rc : registryCacheImpl) (request : NSERegistration) :
    registryCacheImpl * outcome (result NSERegistration) :=
  let url := default "" (nsmgr_Url <$> reg_NetworkServiceManager request) in
  if decide (url = "") then (rc, Ret (Err (Errorf "NSERegistration.NetworkServiceManager.Url must be defined")))
  else
    let nsm := mkV1Manager nsmName now url v1_RUNNING in
    let '(rc, _, err) := AddNetworkServiceManager rc (create_nsm nsm) in
    match fatal err with
    | Some e => (rc, Ret (Err e))
    | None =>
        let request := mkNSERegistration (reg_NetworkService request)
          (Some (mkNetworkServiceManager nsmName url (TimestampProto now) v1_RUNNING)) (reg_NetworkserviceEndpoint request) in
        let labels := service_labels request in
        let request := write_labels request in
        match reg_NetworkserviceEndpoint request, reg_NetworkService request with
        | Some _, Some ns =>
            let '(rc, networkService, err) := AddNetworkService rc (create_ns (mkV1NetworkService (ns_Name ns) (ns_Payload ns) [])) in
            match fatal err with
            | Some e => (rc, Ret (Err e))
            | None =>
                let '(rc, nseResponse, err) :=
                  AddNetworkServiceEndpoint rc (create_nse (mkV1Endpoint "" (ns_Name ns) labels (ns_Name ns) nsmName v1_RUNNING)) in
                match err, networkService, nseResponse with
                | Some e, _, _ => (rc, Ret (Err e))
                | None, Some s, Some e =>
                    (rc, Ret (Ok (mkNSERegistration (reg_NetworkService request) (reg_NetworkServiceManager request)
                      (Some (mkNetworkServiceEndpoint (v1e_NetworkServiceName e) (v1s_Payload s) nsmName (v1e_Name e)
                               (v1e_Labels e) (v1e_State e))))))
                | None, _, _ => (rc, Panic "nil pointer dereference")
                end
            end
        | _, _ => (rc, Ret (Ok request))
        end
    end.

Definition rs_RemoveNSE (rc : registryCacheImpl) (endpointName : string) (answer : option error) :
    registryCacheImpl * option error := DeleteNetworkServiceEndpoint rc endpointName answer.
End service.

Definition found_endpoint (payload : string) (e : v1_Endpoint) : NetworkServiceEndpoint :=
  mkNetworkServiceEndpoint (v1e_NetworkServiceName e) payload (v1e_NsmName e) (v1e_Name e) (v1e_Labels e) "".
Definition found_manager (m : v1_Manager) : NetworkServiceManager :=
  mkNetworkServiceManager (v1n_Name m) (v1n_URL m) (Some (v1n_LastSeen m)) "".
(** The loop over the endpoints, with the managers that were already looked up. *)
Fixpoint find_managers (rc : registryCacheImpl) (endpoints : list v1_Endpoint) (NSMsREG : gmap string v1_Manager)
    (NSMs : gmap string NetworkServiceManager) : result (gmap string NetworkServiceManager) :=
  match endpoints with
  | [] => Ok NSMs
  | e :: endpoints =>
      let name := v1e_NsmName e in
      match NSMsREG !! name with
      | Some manager => find_managers rc endpoints NSMsREG (<[name := found_manager manager]> NSMs)
      | None =>
          match GetNetworkServiceManager rc name with
          | Err e => Err e
          | Ok manager => find_managers rc endpoints (<[name := manager]> NSMsREG) (<[name := found_manager manager]> NSMs)
          end
      end
  end.
Definition found_match (m : v1_Match) : Match :=
  mkMatch (v1m_SourceSelector m) ((λ r, mkDestination (v1d_DestinationSelector r) (v1d_Weight r)) <$> v1m_Routes m).

Definition rs_FindNetworkService (rc : registryCacheImpl) (name : string) : result FindNetworkServiceResponse :=
  match GetNetworkService rc name with
  | Err e => Err e
  | Ok service =>
      let payload := v1s_Payload service in
      let endpointList := cache_GetNetworkServiceEndpoints rc name in
      match find_managers rc endpointList ∅ ∅ with
      | Err e => Err e
      | Ok NSMs =>
          Ok (mkFindNetworkServiceResponse payload
            (Some (mkNetworkService (v1s_Name service) (v1s_Payload service) (found_match <$> v1s_Matches service)))
            NSMs (found_endpoint payload <$> endpointList))
      end
  end.
