(* ===== verification/RegistryProps.v ===== *)
(** * Correctness of the registry server

    The cache of endpoints refines a map from names to endpoints; a found
    network service comes with its endpoints and all their managers; what is
    registered is found. *)
From S2P Require Import Prelude GoStrings GoNet ConnectionContext Apis RegistryServer.

(** ** The cache of endpoints *)
Module EndpointSpec.
Notation state := (gmap string v1_Endpoint).
Inductive op := Added (e : v1_Endpoint) | Deleted (key : string).
Definition step (m : state) (o : op) : state :=
  match o with Added e => <[v1e_Name e := e]> m | Deleted key => delete key m end.
(** The endpoints of a service. *)
Definition of_service (m : state) (ns : string) (e : v1_Endpoint) : Prop :=
  m !! v1e_Name e = Some e ∧ v1e_NetworkServiceName e = ns.
End EndpointSpec.
Import EndpointSpec.

Definition cache_step (s : nse_store) (o : op) : outcome nse_store :=
  match o with
  | Added e => Ret (resourceAddedFunc nse_config e s)
  | Deleted key => resourceDeletedFunc nse_config key s
  end.

(** The store represents the map: the lists have each endpoint of a service once. *)
Record represents (s : nse_store) (m : state) : Prop := {
  rep_map : networkServiceEndpoints s = m;
  rep_nodup ns : NoDup (v1e_Name <$> nse_Get s ns);
  rep_elem ns e : e ∈ nse_Get s ns ↔ of_service m ns e
}.
Definition named (m : state) : Prop := ∀ k e, m !! k = Some e → v1e_Name e = k.
(** An endpoint that is stored is not added under another service. *)
Definition stays (m : state) (o : op) : Prop :=
  match o with
  | Added e => ∀ old, m !! v1e_Name e = Some old → v1e_NetworkServiceName old = v1e_NetworkServiceName e
  | Deleted _ => True
  end.
Fixpoint none_moves (m : state) (ops : list op) : Prop :=
  match ops with
  | [] => True
  | o :: ops => stays m o ∧ none_moves (step m o) ops
  end.

Lemma split_at_name name l i : name ∈ v1e_Name <$> l →
  ∃ l1 e l2, l = l1 ++ e :: l2 ∧ v1e_Name e = name ∧ name ∉ v1e_Name <$> l1 ∧
    index_of name i l = (i + length l1)%nat ∧ ∀ nse, v1e_Name nse = name → replace_first nse l = l1 ++ nse :: l2.
Proof.
  revert i. induction l as [|e l IH]; intros i Hin; [by apply not_elem_of_nil in Hin|].
  cbn [index_of replace_first]. destruct (decide (name = v1e_Name e)) as [->|Hne].
  - exists [], e, l. split_and!; [done..|apply not_elem_of_nil|cbn; lia|].
    intros nse ->. by rewrite decide_True.
  - apply elem_of_cons in Hin as [|Hin]; [done|]. destruct (IH (S i) Hin) as (l1 & x & l2 & -> & Hx & Hn & Hi & Hr).
    exists (e :: l1), x, l2. split_and!; [done..| |cbn; lia|].
    + cbn. rewrite not_elem_of_cons. done.
    + intros nse Hnse. rewrite decide_False by congruence. by rewrite (Hr nse Hnse).
Qed.
Lemma nodup_middle (l1 l2 : list v1_Endpoint) e : NoDup (v1e_Name <$> l1 ++ e :: l2) →
  NoDup (v1e_Name <$> l1 ++ l2) ∧ v1e_Name e ∉ v1e_Name <$> l1 ++ l2.
Proof.
  rewrite !fmap_app. cbn. intros Hnd. rewrite <- Permutation_middle in Hnd. by apply NoDup_cons in Hnd as [? ?].
Qed.
Lemma elem_of_middle {A} (x e : A) l1 l2 : x ∈ l1 ++ e :: l2 ↔ x = e ∨ x ∈ l1 ++ l2.
Proof. rewrite !elem_of_app, elem_of_cons. naive_solver. Qed.
Lemma elem_of_names (e : v1_Endpoint) (l : list v1_Endpoint) : e ∈ l → v1e_Name e ∈ v1e_Name <$> l.
Proof. apply list_elem_of_fmap_2. Qed.

Lemma represents_insert s m ns l m' l' eps :
  represents s m → nse_Get s ns = l → NoDup (v1e_Name <$> l') →
  (∀ e, e ∈ l' ↔ of_service m' ns e) → (∀ ns' e, ns' ≠ ns → of_service m' ns' e ↔ of_service m ns' e) →
  (∀ ns', default [] (eps !! ns') = if decide (ns' = ns) then l' else nse_Get s ns') →
  represents (mkNseStore eps m') m'.
Proof.
  intros Hr Hl Hnd He Ho Heps. split; [done| |]; intros ns'; [|intros e]; unfold nse_Get; cbn [nseByNs]; rewrite Heps;
    case_decide; subst; [done|apply Hr|by apply He|]. rewrite (rep_elem _ _ Hr). by rewrite Ho.
Qed.

Lemma name_listed s m ns name : represents s m → name ∈ v1e_Name <$> nse_Get s ns → ∃ e, m !! name = Some e ∧ v1e_NetworkServiceName e = ns.
Proof. intros Hr (e & -> & He)%list_elem_of_fmap. apply (rep_elem _ _ Hr) in He as [? ?]. eauto. Qed.

Lemma added_represents s m nse : represents s m → named m → stays m (Added nse) →
  represents (nse_resourceAdded nse s) (<[v1e_Name nse := nse]> m).
Proof.
  intros Hr Hs Hn. pose proof (rep_map _ _ Hr) as Hm. unfold nse_resourceAdded. rewrite Hm.
  set (ns := v1e_NetworkServiceName nse) in *. pose proof (rep_nodup _ _ Hr ns) as Hnd.
  destruct (m !! v1e_Name nse) as [old|] eqn:E.
  - pose proof (Hs _ _ E) as En. pose proof (Hn _ E) as Es. assert (old ∈ nse_Get s ns) as Hin.
    { apply (rep_elem _ _ Hr). split; [by rewrite En|exact Es]. }
    destruct (split_at_name (v1e_Name nse) (nse_Get s ns) 0) as (l1 & e & l2 & El & He & _ & _ & Hrep).
    { rewrite <- En. by apply elem_of_names. }
    rewrite El in Hnd. destruct (nodup_middle _ _ _ Hnd) as [Hnd' Hne]. rewrite He in Hne.
    eapply (represents_insert s m ns _ _ (l1 ++ nse :: l2)); [done|done| | | |].
    + revert Hnd. rewrite !fmap_app. cbn. by rewrite He.
    + intros x. rewrite elem_of_middle. assert (x ∈ l1 ++ l2 ↔ of_service m ns x ∧ v1e_Name x ≠ v1e_Name nse) as ->.
      { rewrite <- (rep_elem _ _ Hr), El, elem_of_middle. split; [|intros [[->|] ?]; congruence].
        intros Hx. split; [by right|]. intros Ex. apply Hne. rewrite <- Ex. by apply elem_of_names. }
      unfold of_service. rewrite lookup_insert_Some. unfold ns. split; [|naive_solver].
      intros [->|[[? ?] ?]]; [auto|]. split; [right|]; auto.
    + intros ns' x Hns. unfold of_service. rewrite lookup_insert_Some. split; [|].
      * intros [[[_ <-]|[? ?]] Ex]; [exfalso; by apply Hns; symmetry|done].
      * intros [Hx Hx']. split; [right|done]. split; [|done]. intros Ex. rewrite <- Ex, E in Hx. injection Hx as <-. apply Hns. by rewrite <- Hx', Es.
    + intros ns'. case_decide as Hd; [subst ns'|by rewrite lookup_alter_ne].
      rewrite lookup_alter_eq, <- (Hrep nse eq_refl). unfold nse_Get. by destruct (nseByNs s !! ns).
  - assert (v1e_Name nse ∉ v1e_Name <$> nse_Get s ns) as Hne.
    { intros Hin. destruct (name_listed _ _ _ _ Hr Hin) as (? & ? & _). congruence. }
    eapply (represents_insert s m ns _ _ (nse_Get s ns ++ [nse])); [done|done| | | |].
    + rewrite fmap_app. apply NoDup_app. split_and!; [done| |apply NoDup_singleton].
      intros x Hx ->%list_elem_of_singleton. done.
    + intros x. rewrite elem_of_app, list_elem_of_singleton, (rep_elem _ _ Hr). unfold of_service.
      rewrite lookup_insert_Some. split; [|naive_solver]. intros [[Hx ?]| ->]; [|auto].
      split; [right; split; [congruence|done]|done].
    + intros ns' x Hns. unfold of_service. rewrite lookup_insert_Some. split.
      * intros [[[_ <-]|[? ?]] Ex]; [exfalso; by apply Hns; symmetry|done].
      * intros [Hx Hx']. split; [right|done]. split; [congruence|done].
    + intros ns'. case_decide as Hd; [subst ns'; by rewrite lookup_insert_eq|by rewrite lookup_insert_ne].
Qed.

Lemma deleted_represents s m key : represents s m → named m →
  ∃ s', nse_resourceDeleted key s = Ret s' ∧ represents s' (delete key m).
Proof.
  intros Hr Hs. pose proof (rep_map _ _ Hr) as Hm. unfold nse_resourceDeleted. rewrite Hm.
  destruct (m !! key) as [nse|] eqn:E; [|exists s; by rewrite delete_id].
  pose proof (Hs _ _ E) as En. set (ns := v1e_NetworkServiceName nse) in *. rewrite En.
  destruct (split_at_name key (nse_Get s ns) 0) as (l1 & e & l2 & El & He & _ & Hi & _).
  { rewrite <- En. apply elem_of_names, (rep_elem _ _ Hr). split; [by rewrite En|done]. }
  pose proof (rep_nodup _ _ Hr ns) as Hnd. rewrite El in Hnd. destruct (nodup_middle _ _ _ Hnd) as [Hnd' Hne].
  rewrite Hi, El. cbn [Nat.add]. rewrite decide_False by (rewrite length_app; cbn; lia).
  rewrite take_app_length. replace (drop (S (length l1)) (l1 ++ e :: l2)) with l2
    by (rewrite drop_app_ge by lia; by replace (S (length l1) - length l1)%nat with 1%nat by lia).
  eexists. split; [done|].
  eapply (represents_insert s m ns _ _ (l1 ++ l2)); [done|done|done| | |].
  - intros x. unfold of_service. rewrite lookup_delete_Some.
    assert (x ∈ l1 ++ e :: l2 ↔ of_service m ns x) as Hx by (rewrite <- El; apply Hr). rewrite elem_of_middle in Hx.
    unfold of_service in Hx. split.
    + intros Hin. destruct (proj1 Hx (or_intror Hin)). split_and!; [|done..]. intros Ek. apply Hne. rewrite He, Ek. by apply elem_of_names.
    + intros [[Hk ?] ?]. destruct (proj2 Hx (conj H H0)) as [->|]; [congruence|done].
  - intros ns' x Hns. unfold of_service. rewrite lookup_delete_Some. split; [naive_solver|].
    intros [Hx Hx']. split; [|done]. split; [|done]. intros Ek. rewrite <- Ek in Hx. rewrite E in Hx. naive_solver.
  - intros ns'. destruct (l1 ++ l2) as [|y l] eqn:El'; case_decide as Hd; try subst ns';
      rewrite ?lookup_delete_eq, ?lookup_insert_eq by done; try done; by rewrite ?lookup_delete_ne, ?lookup_insert_ne by done.
Qed.

Lemma cache_step_represents s m o : represents s m → named m → stays m o →
  ∃ s', cache_step s o = Ret s' ∧ represents s' (step m o) ∧ named (step m o).
Proof.
  intros Hr Hs Ho. destruct o as [e|key]; cbn [cache_step step].
  - eexists. split; [done|]. split; [by apply added_represents|].
    intros k x [[<- <-]|[_ Hx]]%lookup_insert_Some; [done|by apply Hs].
  - destruct (deleted_represents s m key Hr Hs) as (s' & E & Hr'). exists s'. split_and!; [done..|].
    intros k x [_ Hx]%lookup_delete_Some. by apply Hs.
Qed.

(** C14: the cache of endpoints, which keeps a list per service next to its
    map, refines a map from names to endpoints: for every sequence of
    additions and deletions in which no endpoint is added under another
    service than the one it is stored under, it never panics, and the list of
    a service has exactly the endpoints of that service in the map, each
    once.  An endpoint that is deleted may come back under another service;
    what happens to one that is moved without being deleted is shown by
    [moved_endpoint_deletes_other]. *)
Theorem nse_cache_refines ops : none_moves ∅ ops →
  ∃ s, foldM cache_step (mkNseStore ∅ ∅) ops = Ret s ∧ networkServiceEndpoints s = foldl step ∅ ops ∧
    ∀ ns, NoDup (v1e_Name <$> nse_Get s ns) ∧ ∀ e, e ∈ nse_Get s ns ↔ of_service (foldl step ∅ ops) ns e.
Proof.
  assert (∀ s m, represents s m → named m → none_moves m ops →
    ∃ s', foldM cache_step s ops = Ret s' ∧ represents s' (foldl step m ops)) as Hrun.
  { induction ops as [|o ops IH]; intros s m Hr Hs HF; [by exists s|]. destruct HF as [Ho HF]. cbn.
    destruct (cache_step_represents s m o Hr Hs Ho) as (s1 & -> & Hr1 & Hs1). by apply IH. }
  intros HF. destruct (Hrun (mkNseStore ∅ ∅) ∅) as (s & E & [Hm Hnd He]); [| |done|].
  - split; [done| |]; intros ns; [apply NoDup_nil_2|]. intros e. unfold of_service. rewrite lookup_empty.
    split; [by intros ?%not_elem_of_nil|by intros [? _]].
  - intros k e. by rewrite lookup_empty.
  - exists s. auto.
Qed.

(** An endpoint that comes back under another service is not in the list of
    that service; deleting it removes the first endpoint of the list instead,
    or panics when there is none. *)
Definition moved (name ns : string) : v1_Endpoint := mkV1Endpoint name "" ∅ ns "nsm" v1_RUNNING.
Lemma moved_endpoint_deletes_other :
  (λ s, v1e_Name <$> nse_Get s "b") <$>
    (match foldM cache_step (mkNseStore ∅ ∅) [Added (moved "x" "b"); Added (moved "y" "a"); Added (moved "y" "b"); Deleted "y"] with
     | Ret s => Some s | Panic _ => None end) = Some [] ∧
  foldM cache_step (mkNseStore ∅ ∅) [Added (moved "y" "a"); Added (moved "y" "b"); Deleted "y"] = Panic "slice bounds out of range".
Proof. by vm_compute. Qed.

(** An addition and a deletion that wait together can be taken in the wrong
    order: the endpoint was removed, and the cache has it. *)
Lemma deletion_overtakes_addition :
  let c := rc_delete "x" (rc_add (moved "x" "a") (newAbstractResourceCache (mkNseStore ∅ ∅))) in
  foldM (λ c choice, run_turn nse_config choice c) c [FromDelete; FromAdd] =
    Ret (mkResourceCache [] [] (mkNseStore {["a" := [moved "x" "a"]]} {["x" := moved "x" "a"]})).
Proof. by vm_compute. Qed.

(** ** Finding a network service *)
Notation managers rc := (rc_store (networkServiceManagerCache rc)).
Notation services rc := (rc_store (networkServiceCache rc)).
Notation endpoints rc := (rc_store (networkServiceEndpointCache rc)).

Lemma find_managers_ok rc l reg NSMs :
  (∀ n m, reg !! n = Some m → managers rc !! n = Some m) → Forall (λ e, is_Some (managers rc !! v1e_NsmName e)) l →
  ∃ NSMs', find_managers rc l reg NSMs = Ok NSMs' ∧
    ∀ n, NSMs' !! n = if decide (n ∈ v1e_NsmName <$> l) then found_manager <$> managers rc !! n else NSMs !! n.
Proof.
  intros Hreg HF. revert reg NSMs Hreg. induction HF as [|e l [m Hm] HF IH]; intros reg NSMs Hreg; cbn [find_managers].
  - exists NSMs. split; [done|]. intros n. rewrite decide_False; [done|]. apply not_elem_of_nil.
  - assert (∀ reg NSMs', (∀ n m, reg !! n = Some m → managers rc !! n = Some m) →
      NSMs' = <[v1e_NsmName e := found_manager m]> NSMs → ∃ r, find_managers rc l reg NSMs' = Ok r ∧
      ∀ n, r !! n = if decide (n ∈ v1e_NsmName <$> e :: l) then found_manager <$> managers rc !! n else NSMs !! n) as Hnext.
    { intros reg' ? Hreg' ->. destruct (IH reg' (<[v1e_NsmName e := found_manager m]> NSMs) Hreg') as (r & -> & Hr).
      exists r. split; [done|]. intros n. rewrite Hr. cbn. destruct (decide (n = v1e_NsmName e)) as [->|Hne].
      - rewrite (decide_True (P := v1e_NsmName e ∈ _ :: _)) by apply list_elem_of_here.
        rewrite lookup_insert_eq, Hm. by case_decide.
      - rewrite lookup_insert_ne by done. assert (n ∈ v1e_NsmName e :: (v1e_NsmName <$> l) ↔ n ∈ v1e_NsmName <$> l) as Hiff
          by (rewrite elem_of_cons; naive_solver).
        by rewrite (decide_ext _ _ _ _ Hiff). }
    destruct (reg !! v1e_NsmName e) as [m'|] eqn:Er.
    + apply Hnext; [done|]. apply Hreg in Er. congruence.
    + unfold GetNetworkServiceManager. rewrite Hm. apply Hnext; [|done].
      intros n m' [[<- <-]|[_ ?]]%lookup_insert_Some; [done|by apply Hreg].
Qed.
Lemma find_managers_missing rc l reg NSMs : (∀ n m, reg !! n = Some m → managers rc !! n = Some m) →
  ¬ Forall (λ e, is_Some (managers rc !! v1e_NsmName e)) l → ∃ e, find_managers rc l reg NSMs = Err e.
Proof.
  revert reg NSMs. induction l as [|e l IH]; intros reg NSMs Hreg HF; [by destruct HF|]. cbn [find_managers].
  destruct (reg !! v1e_NsmName e) as [m|] eqn:Er.
  - apply IH; [done|]. intros HF'. apply HF. constructor; [|done]. apply Hreg in Er. by eexists.
  - unfold GetNetworkServiceManager. destruct (managers rc !! v1e_NsmName e) as [m|] eqn:Em; [|by eexists].
    apply IH.
    + intros n m' [[<- <-]|[_ ?]]%lookup_insert_Some; [done|by apply Hreg].
    + intros HF'. apply HF. constructor; [by eexists|done].
Qed.

Definition managers_known (rc : registryCacheImpl) (name : string) : Prop :=
  Forall (λ e, is_Some (managers rc !! v1e_NsmName e)) (nse_Get (endpoints rc) name).
Lemma find_ok rc name service : services rc !! name = Some service → managers_known rc name →
  ∃ resp, rs_FindNetworkService rc name = Ok resp ∧ find_Payload resp = v1s_Payload service ∧
    find_NetworkServiceEndpoints resp = found_endpoint (v1s_Payload service) <$> nse_Get (endpoints rc) name ∧
    ∀ n, find_NetworkServiceManagers resp !! n =
      if decide (n ∈ v1e_NsmName <$> nse_Get (endpoints rc) name) then found_manager <$> managers rc !! n else None.
Proof.
  intros Hs Hk. unfold rs_FindNetworkService, GetNetworkService. rewrite Hs. unfold cache_GetNetworkServiceEndpoints.
  destruct (find_managers_ok rc _ ∅ ∅ ltac:(by intros ??; rewrite lookup_empty) Hk) as (NSMs & -> & Hn).
  eexists. split; [done|]. split_and!; [done..|]. intros n. cbn. rewrite Hn. case_decide; [done|]. apply lookup_empty.
Qed.

(** Looking up a network service succeeds exactly when the cache has the
    service and the manager of each of its endpoints; the answer has all
    endpoints of the service with its payload, and exactly their managers,
    so that a client finds the manager of every endpoint it selects. *)
Lemma find_network_service_exact rc name :
  (∀ resp, rs_FindNetworkService rc name = Ok resp →
    (∀ e, e ∈ find_NetworkServiceEndpoints resp → is_Some (find_NetworkServiceManagers resp !! nse_NetworkServiceManagerName e)) ∧
    (∀ n, is_Some (find_NetworkServiceManagers resp !! n) → ∃ e, e ∈ find_NetworkServiceEndpoints resp ∧ nse_NetworkServiceManagerName e = n) ∧
    (nse_EndpointName <$> find_NetworkServiceEndpoints resp) = (v1e_Name <$> nse_Get (endpoints rc) name)) ∧
  ((∃ resp, rs_FindNetworkService rc name = Ok resp) ↔ is_Some (services rc !! name) ∧ managers_known rc name).
Proof.
  destruct (services rc !! name) as [service|] eqn:Es.
  2: { unfold rs_FindNetworkService, GetNetworkService. rewrite Es. split; [done|]. split; [by intros [? ?]|by intros [[? ?] _]]. }
  destruct (decide (managers_known rc name)) as [Hk|Hk].
  - destruct (find_ok rc name service Es Hk) as (resp & -> & _ & He & Hn). split; [|split; [by split|by eexists]].
    intros ? [= <-]. rewrite He. split_and!.
    + intros e (x & -> & Hx)%list_elem_of_fmap. cbn. rewrite Hn, decide_True by by apply list_elem_of_fmap_2.
      unfold managers_known in Hk. rewrite list.Forall_forall in Hk. apply fmap_is_Some. by apply Hk.
    + intros n. rewrite Hn. case_decide as Hd; [|by intros [? ?]]. intros _.
      apply list_elem_of_fmap in Hd as (x & -> & Hx). exists (found_endpoint (v1s_Payload service) x).
      split; [by apply list_elem_of_fmap_2|done].
    + rewrite <- list_fmap_compose. done.
  - assert (∃ e, rs_FindNetworkService rc name = Err e) as [e He].
    { unfold rs_FindNetworkService, GetNetworkService. rewrite Es. unfold cache_GetNetworkServiceEndpoints.
      destruct (find_managers_missing rc _ ∅ ∅ ltac:(by intros ??; rewrite lookup_empty) Hk) as [e ->]. eauto. }
    rewrite He. split; [done|]. split; [by intros [? ?]|naive_solver].
Qed.

(** ** Registering *)
Section register.
Context (nsmName : string).
Context (create_nsm : v1_Manager → result v1_Manager) (create_ns : v1_NetworkService → result v1_NetworkService).
Context (create_nse : v1_Endpoint → result v1_Endpoint).
Context (now : Z) (TimestampProto : Z → option Z) (IsAlreadyExists : error → bool).

(** The API server stores what it is asked to store. *)
Record api_server_stores : Prop := {
  as_nsm m o : create_nsm m = Ok o → v1n_Name o = v1n_Name m;
  as_ns s o : create_ns s = Ok o → v1s_Name o = v1s_Name s ∧ v1s_Payload o = v1s_Payload s;
  as_nse e o : create_nse e = Ok o →
    v1e_NetworkServiceName o = v1e_NetworkServiceName e ∧ v1e_NsmName o = v1e_NsmName e ∧ v1e_Labels o = v1e_Labels e
}.
(** What exists already is in the caches, which have taken everything. *)
Record caches_current (rc : registryCacheImpl) (ns : string) : Prop := {
  cc_idle : rc_addCh (networkServiceCache rc) = [] ∧ rc_addCh (networkServiceEndpointCache rc) = [] ∧
            rc_addCh (networkServiceManagerCache rc) = [];
  cc_nsm m e : create_nsm m = Err e → IsAlreadyExists e = true → is_Some (managers rc !! v1n_Name m);
  cc_ns s e : create_ns s = Err e → IsAlreadyExists e = true → is_Some (services rc !! v1s_Name s);
  cc_known : managers_known rc ns
}.
Notation register := (rs_RegisterNSE nsmName create_nsm create_ns create_nse now TimestampProto IsAlreadyExists).

(** What a successful registration of an endpoint adds to the channels. *)
Lemma register_adds rc rc1 request ns reg :
  register rc request = (rc1, Ret (Ok reg)) → is_Some (reg_NetworkserviceEndpoint request) → reg_NetworkService request = Some ns →
  ∃ m s e, let nsm := mkV1Manager nsmName now (default "" (nsmgr_Url <$> reg_NetworkServiceManager request)) v1_RUNNING in
    let nss := mkV1NetworkService (ns_Name ns) (ns_Payload ns) [] in
    (create_nsm nsm = Ok m ∨ ∃ x, create_nsm nsm = Err x ∧ IsAlreadyExists x = true ∧ m = mkV1Manager "" 0 "" "") ∧
    (create_ns nss = Ok s ∨ ∃ x, create_ns nss = Err x ∧ IsAlreadyExists x = true ∧ s = mkV1NetworkService "" "" []) ∧
    create_nse (mkV1Endpoint "" (ns_Name ns) (service_labels request) (ns_Name ns) nsmName v1_RUNNING) = Ok e ∧
    rc1 = mkRegistryCache (rc_add s (networkServiceCache rc)) (rc_add e (networkServiceEndpointCache rc))
            (rc_add m (networkServiceManagerCache rc)) ∧
    reg_NetworkserviceEndpoint reg = Some (mkNetworkServiceEndpoint (v1e_NetworkServiceName e) (v1s_Payload s) nsmName
                                             (v1e_Name e) (v1e_Labels e) (v1e_State e)).
Proof.
  intros E [ep Hep] Hns. unfold rs_RegisterNSE, AddNetworkServiceManager, AddNetworkService, AddNetworkServiceEndpoint, fatal in E.
  set (url := default "" _) in *. case_decide; [done|].
  assert (∀ r : option NetworkServiceManager, service_labels (mkNSERegistration (reg_NetworkService request) r (reg_NetworkserviceEndpoint request)) = service_labels request) as Hl by done.
  rewrite Hl in E. clear Hl.
  set (req := mkNSERegistration _ _ _) in E at 1. assert (reg_NetworkService (write_labels req) = Some ns) as Hw1.
  { unfold write_labels. cbn. rewrite Hep. by case_decide. }
  assert (is_Some (reg_NetworkserviceEndpoint (write_labels req))) as [ep' Hw2].
  { unfold write_labels. cbn. rewrite Hep. case_decide; cbn; by eexists. }
  fold req in E. rewrite Hw1, Hw2 in E.
  destruct (create_nsm _) as [m|xm] eqn:Em; cbn in E; [|destruct (IsAlreadyExists xm) eqn:Am; [|done]];
    (destruct (create_ns _) as [s|xs] eqn:Es; cbn in E; [|destruct (IsAlreadyExists xs) eqn:As; [|done]]);
    (destruct (create_nse _) as [e|xe] eqn:Ee; cbn in E; [|done]); simplify_eq; eexists _, _, _; split_and!; eauto 6.
Qed.

(** C24: an endpoint that was registered is found: once the caches have taken
    what the registration wrote, looking up its service lists it after the
    endpoints that were there before, with this manager. *)
Theorem register_then_find rc rc1 request ns reg :
  api_server_stores → caches_current rc (ns_Name ns) → ns_Name ns ≠ "" → nsmName ≠ "" →
  register rc request = (rc1, Ret (Ok reg)) → is_Some (reg_NetworkserviceEndpoint request) → reg_NetworkService request = Some ns →
  (∀ e, reg_NetworkserviceEndpoint reg = Some e → networkServiceEndpoints (endpoints rc) !! nse_EndpointName e = None) →
  ∃ resp e, rs_FindNetworkService (settled rc1) (ns_Name ns) = Ok resp ∧ reg_NetworkserviceEndpoint reg = Some e ∧
    (nse_EndpointName <$> find_NetworkServiceEndpoints resp) = (v1e_Name <$> nse_Get (endpoints rc) (ns_Name ns)) ++ [nse_EndpointName e] ∧
    is_Some (find_NetworkServiceManagers resp !! nsmName).
Proof.
  intros Hapi Hcur Hn0 Hm0 E Hep Hns Hfresh.
  destruct (register_adds rc rc1 request ns reg E Hep Hns) as (m & s & e & Hm & Hs & He & -> & Hreg).
  rewrite Hreg in Hfresh. specialize (Hfresh _ eq_refl). cbn in Hfresh.
  destruct (cc_idle _ _ Hcur) as (I1 & I2 & I3). destruct (as_nse Hapi _ _ He) as (Hens & Henm & _). cbn in Hens, Henm.
  assert (∃ service, services (settled (mkRegistryCache (rc_add s (networkServiceCache rc)) (rc_add e (networkServiceEndpointCache rc))
            (rc_add m (networkServiceManagerCache rc)))) !! ns_Name ns = Some service) as [service Hserv].
  { cbn. rewrite I1. cbn. destruct Hs as [Hs|(x & Hx & Ax & ->)].
    - destruct (as_ns Hapi _ _ Hs) as [-> _]. cbn. rewrite lookup_insert_eq. by eexists.
    - cbn. rewrite lookup_insert_ne by done. destruct (cc_ns _ _ Hcur _ _ Hx Ax) as [o Ho]. by exists o. }
  assert (∀ n, n ≠ "" → is_Some (managers rc !! n) ∨ n = nsmName →
    is_Some (foldl (λ s o, resourceAddedFunc nsm_config o s) (managers rc) [m] !! n)) as Hmgr.
  { intros n Hn Hor. cbn. destruct (decide (n = v1n_Name m)) as [->|Hne]; [rewrite lookup_insert_eq; by eexists|].
    rewrite lookup_insert_ne by done. destruct Hor as [|Hn']; [done|]. subst n.
    destruct Hm as [Hm|(x & Hx & Ax & ->)]; [|exact (cc_nsm _ _ Hcur _ _ Hx Ax)].
    by rewrite (as_nsm Hapi _ _ Hm) in Hne. }
  assert (nse_Get (endpoints (settled (mkRegistryCache (rc_add s (networkServiceCache rc)) (rc_add e (networkServiceEndpointCache rc))
            (rc_add m (networkServiceManagerCache rc))))) (ns_Name ns) = nse_Get (endpoints rc) (ns_Name ns) ++ [e]) as Hget.
  { cbn [settled settle networkServiceEndpointCache rc_store rc_add rc_addCh]. rewrite I2. cbn.
    unfold nse_resourceAdded, nse_Get at 1. rewrite Hfresh, Hens. cbn. by rewrite lookup_insert_eq. }
  destruct (find_ok (settled _) (ns_Name ns) service Hserv) as (resp & Hresp & _ & Heps & Hmgrs).
  - unfold managers_known. rewrite Hget. apply Forall_app. cbn [settled settle networkServiceManagerCache rc_store rc_add rc_addCh].
    rewrite I3. split; [|apply list.Forall_singleton; rewrite Henm; apply Hmgr; auto].
    eapply Forall_impl; [exact (cc_known _ _ Hcur)|]. intros x Hx.
    destruct (decide (v1e_NsmName x = "")) as [Hz|]; [|by apply Hmgr; auto]. cbn in Hx |- *. rewrite Hz in Hx |- *.
    destruct (decide (v1n_Name m = "")) as [Hy|]; [rewrite Hy, lookup_insert_eq; by eexists|by rewrite lookup_insert_ne].
  - eexists resp, _. split_and!; [done|done| |].
    + rewrite Heps, <- list_fmap_compose, Hget, fmap_app. done.
    + rewrite Hmgrs, Hget, fmap_app, decide_True; [|rewrite elem_of_app; right; apply list_elem_of_singleton; by symmetry].
      apply fmap_is_Some. cbn [settled settle networkServiceManagerCache rc_store rc_add rc_addCh]. rewrite I3. by apply Hmgr; auto.
Qed.

(** Registering an endpoint of a service that exists already reports an empty
    payload, and puts a service without a name into the cache. *)
Lemma second_registration_no_payload rc rc1 request ns reg x :
  register rc request = (rc1, Ret (Ok reg)) → is_Some (reg_NetworkserviceEndpoint request) → reg_NetworkService request = Some ns →
  create_ns (mkV1NetworkService (ns_Name ns) (ns_Payload ns) []) = Err x →
  nse_Payload <$> reg_NetworkserviceEndpoint reg = Some "" ∧
  rc_addCh (networkServiceCache rc1) = rc_addCh (networkServiceCache rc) ++ [mkV1NetworkService "" "" []].
Proof.
  intros E Hep Hns Hx. destruct (register_adds rc rc1 request ns reg E Hep Hns) as (m & s & e & _ & Hs & _ & -> & ->).
  destruct Hs as [Hs|(y & _ & _ & ->)]; [congruence|done].
Qed.
End register.

(** ** Witnesses *)
Lemma nse_cache_refines_witness :
  let ops := [Added (moved "x" "a"); Added (moved "y" "a"); Deleted "x"; Added (moved "x" "b")] in
  ∃ s, foldM cache_step (mkNseStore ∅ ∅) ops = Ret s ∧ networkServiceEndpoints s = foldl step ∅ ops ∧
    ∀ ns, NoDup (v1e_Name <$> nse_Get s ns) ∧ ∀ e, e ∈ nse_Get s ns ↔ of_service (foldl step ∅ ops) ns e.
Proof. apply nse_cache_refines. repeat split; intros old Hold; vm_compute in Hold; discriminate Hold. Defined.

Module Registering.
Definition create_nse (e : v1_Endpoint) : result v1_Endpoint :=
  Ok (mkV1Endpoint "icmp-7" (v1e_GenerateName e) (v1e_Labels e) (v1e_NetworkServiceName e) (v1e_NsmName e) (v1e_State e)).
Definition service : NetworkService := mkNetworkService "icmp" "IP" [].
Definition request : NSERegistration :=
  mkNSERegistration (Some service) (Some (mkNetworkServiceManager "" "tcp:1" None ""))
    (Some (mkNetworkServiceEndpoint "icmp" "IP" "" "" ∅ "")).
Definition outcome_of := rs_RegisterNSE "nsm-1" Ok Ok create_nse 5 Some (λ _, false) NewRegistryCache request.
Definition reg : NSERegistration := match outcome_of.2 with Ret (Ok reg) => reg | _ => request end.
Lemma stores : api_server_stores Ok Ok create_nse.
Proof. split; [by intros m o [= <-]|by intros s o [= <-]|by intros e o [= <-]]. Qed.
Lemma current : caches_current Ok Ok (λ _, false) NewRegistryCache "icmp".
Proof. split; [done..|]. constructor. Qed.
End Registering.
Lemma register_then_find_witness :
  ∃ resp e, rs_FindNetworkService (settled Registering.outcome_of.1) "icmp" = Ok resp ∧
    reg_NetworkserviceEndpoint Registering.reg = Some e ∧
    (nse_EndpointName <$> find_NetworkServiceEndpoints resp) =
      (v1e_Name <$> nse_Get (endpoints NewRegistryCache) "icmp") ++ [nse_EndpointName e] ∧
    is_Some (find_NetworkServiceManagers resp !! "nsm-1").
Proof.
  apply (register_then_find "nsm-1" Ok Ok Registering.create_nse 5 Some (λ _, false) NewRegistryCache _
    Registering.request Registering.service Registering.reg Registering.stores Registering.current);
    [done|done|by vm_compute|by eexists|done|by intros e [= <-]].
Defined.
