(* ===== verification/Cluster.v ===== *)
(** * The registries of a cluster

    Every node runs a registry server; they share the API server, which each
    writes to when an endpoint registers on its node and which reports all
    objects to the informers of all nodes.  A node answers from its caches.
    The API server is a store for each of the three resources, known by the
    laws that Kubernetes documents for the creation of objects. *)
From S2P Require Import Prelude GoStrings GoNet ConnectionContext Apis RegistryServer RegistryProps.

Class ObjectStore (St O : Type) (key generateName : O → string) (IsAlreadyExists : error → bool) := {
  objects : St → gmap string O;
  create : O → St → result O * St;
  (** A new object has a name of its own: the one that was asked for, or one
      that is generated when this was asked for. *)
  create_ok o s o' s' : create o s = (Ok o', s') →
    key o' ≠ "" ∧ objects s !! key o' = None ∧ objects s' = <[key o' := o']> (objects s) ∧
    (key o ≠ "" → key o' = key o) ∧ (key o = "" → generateName o ≠ "");
  create_failed o s e s' : create o s = (Err e, s') →
    objects s' = objects s ∧ (IsAlreadyExists e = true → is_Some (objects s !! key o))
}.
Arguments objects {_ _ _ _ _ _} _.
Arguments create {_ _ _ _ _ _} _ _.

(** ** One cache of a node

    [all] is what the server holds, with the empty object that a failed
    creation adds. *)
Section one_cache.
Context {S O : Type} (config : cacheConfig S O) (view : S → gmap string O).
Context (view_added : ∀ o s, view (resourceAddedFunc config o s) = <[keyFunc config o := o]> (view s)).
Notation cache := (abstractResourceCache S O).

Record follows (all : gmap string O) (seen : gset string) (c : cache) : Prop := {
  fo_waiting o : o ∈ rc_addCh c → all !! keyFunc config o = Some o;
  fo_stored : view (rc_store c) ⊆ all;
  fo_seen k : k ∈ seen → ∃ o, all !! k = Some o ∧ keyFunc config o = k ∧ (o ∈ rc_addCh c ∨ view (rc_store c) !! k = Some o)
}.
Lemma follows_grows all all' seen c : all ⊆ all' → follows all seen c → follows all' seen c.
Proof.
  intros Hs [Hw Ht Hseen]. split.
  - intros o Ho. eapply lookup_weaken; [by apply Hw|done].
  - by etrans.
  - intros k Hk. destruct (Hseen k Hk) as (o & Ho & Hr). exists o. split; [by eapply lookup_weaken|done].
Qed.
Lemma follows_add all seen c o : all !! keyFunc config o = Some o → follows all seen c → follows all seen (rc_add o c).
Proof.
  intros Ho [Hw Ht Hseen]. split; cbn; [|done|].
  - intros o'. rewrite elem_of_app, list_elem_of_singleton. intros [Hin| ->]; [by apply Hw|done].
  - intros k Hk. destruct (Hseen k Hk) as (o' & Ho' & Hkey & Hor). exists o'. split_and!; [done..|].
    rewrite elem_of_app. naive_solver.
Qed.
Lemma follows_report all seen c o k : keyFunc config o = k → all !! k = Some o → follows all seen c →
  follows all ({[k]} ∪ seen) (rc_add o c).
Proof.
  intros Hk Ho Hf. destruct (follows_add all seen c o ltac:(by rewrite Hk) Hf) as [Hw Ht Hseen].
  split; [done..|]. intros k' [->%elem_of_singleton|Hin]%elem_of_union; [|by apply Hseen].
  exists o. split_and!; [done..|]. left. cbn. rewrite elem_of_app, list_elem_of_singleton. auto.
Qed.
Lemma follows_turn all seen c : follows all seen c → ∃ c', run_turn config FromAdd c = Ret c' ∧ follows all seen c'.
Proof.
  intros Hf. unfold run_turn. destruct (rc_addCh c) as [|o ch] eqn:E; [by exists c|]. eexists. split; [done|].
  destruct Hf as [Hw Ht Hseen]. rewrite E in Hw, Hseen.
  assert (all !! keyFunc config o = Some o) as Ho by (apply Hw; left). split; cbn.
  - intros o' Ho'. apply Hw. by right.
  - rewrite view_added. by apply insert_subseteq_l.
  - intros k Hk. destruct (Hseen k Hk) as (o' & Ho' & Hkey & Hor). exists o'. split_and!; [done..|]. rewrite view_added.
    destruct (decide (keyFunc config o = k)) as [Ek|Ek].
    + right. rewrite Ek, lookup_insert_eq. congruence.
    + rewrite lookup_insert_ne by done. destruct Hor as [[->|?]%elem_of_cons|?]; [by destruct Ek|by left|by right].
Qed.
(** A cache that took everything that was reported. *)
Lemma follows_exact all seen c k : follows all seen c → rc_addCh c = [] → k ∈ seen → view (rc_store c) !! k = all !! k.
Proof.
  intros [_ _ Hseen] E Hk. destruct (Hseen k Hk) as (o & Ho & _ & [Hin|Hin]); [rewrite E in Hin; by apply elem_of_nil in Hin|].
  congruence.
Qed.
End one_cache.

(** ** Nodes and the API server *)
Section cluster.
Context {S1 S2 S3 : Type} (IsAlreadyExists : error → bool).
Context `{!ObjectStore S1 v1_NetworkService v1s_Name (λ _, "") IsAlreadyExists, !ObjectStore S2 v1_Endpoint v1e_Name v1e_GenerateName IsAlreadyExists,
          !ObjectStore S3 v1_Manager v1n_Name (λ _, "") IsAlreadyExists}.
(** An endpoint is stored as it was asked for, under the name it was given. *)
Context (endpoint_kept : ∀ (o o' : v1_Endpoint) (s s' : S2), create o s = (Ok o', s') →
  v1e_NetworkServiceName o' = v1e_NetworkServiceName o ∧ v1e_NsmName o' = v1e_NsmName o).
Context (now : Z) (TimestampProto : Z → option Z).

(** A node: its caches, and the objects that its informers have reported. *)
Record node := mkNode { n_cache : registryCacheImpl; n_services : gset string; n_endpoints : gset string; n_managers : gset string }.
Record cluster := mkCluster { c_services : S1; c_endpoints : S2; c_managers : S3; c_nodes : gmap string node }.

Definition registration (n : string) (c : cluster) (rc : registryCacheImpl) (request : NSERegistration) :=
  rs_RegisterNSE n (λ o, (create o (c_managers c)).1) (λ o, (create o (c_services c)).1) (λ o, (create o (c_endpoints c)).1)
    now TimestampProto IsAlreadyExists rc request.
(** The API server after the creations that the registration asked for. *)
Definition goes_on {O} (r : result O) : bool := match r with Ok _ => true | Err e => IsAlreadyExists e end.
Definition stores_after (n : string) (c : cluster) (request : NSERegistration) : S1 * S2 * S3 :=
  let url := default "" (nsmgr_Url <$> reg_NetworkServiceManager request) in
  if decide (url = "") then (c_services c, c_endpoints c, c_managers c)
  else
    let '(rm, m) := create (mkV1Manager n now url v1_RUNNING) (c_managers c) in
    match goes_on rm, reg_NetworkserviceEndpoint request, reg_NetworkService request with
    | true, Some _, Some ns =>
        let '(rs, s) := create (mkV1NetworkService (ns_Name ns) (ns_Payload ns) []) (c_services c) in
        if goes_on rs then
          (s, (create (mkV1Endpoint "" (ns_Name ns) (service_labels request) (ns_Name ns) n v1_RUNNING) (c_endpoints c)).2, m)
        else (s, c_endpoints c, m)
    | _, _, _ => (c_services c, c_endpoints c, m)
    end.

Definition with_node (c : cluster) (n : string) (nd : node) : cluster :=
  mkCluster (c_services c) (c_endpoints c) (c_managers c) (<[n := nd]> (c_nodes c)).
Definition in_services (f : abstractResourceCache _ v1_NetworkService → abstractResourceCache _ v1_NetworkService) (rc : registryCacheImpl) :=
  mkRegistryCache (f (networkServiceCache rc)) (networkServiceEndpointCache rc) (networkServiceManagerCache rc).
Definition in_endpoints (f : abstractResourceCache _ v1_Endpoint → abstractResourceCache _ v1_Endpoint) (rc : registryCacheImpl) :=
  mkRegistryCache (networkServiceCache rc) (f (networkServiceEndpointCache rc)) (networkServiceManagerCache rc).
Definition in_managers (f : abstractResourceCache _ v1_Manager → abstractResourceCache _ v1_Manager) (rc : registryCacheImpl) :=
  mkRegistryCache (networkServiceCache rc) (networkServiceEndpointCache rc) (f (networkServiceManagerCache rc)).

(** Endpoints register anywhere; informers report what the server holds, any
    number of times; caches take what waits for them. *)
Inductive cluster_step (c : cluster) : cluster → Prop :=
  | cs_register n nd request s e m rc r :
      c_nodes c !! n = Some nd → registration n c (n_cache nd) request = (rc, r) → stores_after n c request = (s, e, m) →
      cluster_step c (mkCluster s e m (<[n := mkNode rc (n_services nd) (n_endpoints nd) (n_managers nd)]> (c_nodes c)))
  | cs_report_service n nd k o : c_nodes c !! n = Some nd → objects (c_services c) !! k = Some o →
      cluster_step c (with_node c n (mkNode (in_services (informer_added o) (n_cache nd)) ({[k]} ∪ n_services nd) (n_endpoints nd) (n_managers nd)))
  | cs_report_endpoint n nd k o : c_nodes c !! n = Some nd → objects (c_endpoints c) !! k = Some o →
      cluster_step c (with_node c n (mkNode (in_endpoints (informer_added o) (n_cache nd)) (n_services nd) ({[k]} ∪ n_endpoints nd) (n_managers nd)))
  | cs_report_manager n nd k o : c_nodes c !! n = Some nd → objects (c_managers c) !! k = Some o →
      cluster_step c (with_node c n (mkNode (in_managers (informer_added o) (n_cache nd)) (n_services nd) (n_endpoints nd) ({[k]} ∪ n_managers nd)))
  | cs_take_service n nd ch : c_nodes c !! n = Some nd → run_turn ns_config FromAdd (networkServiceCache (n_cache nd)) = Ret ch →
      cluster_step c (with_node c n (mkNode (in_services (λ _, ch) (n_cache nd)) (n_services nd) (n_endpoints nd) (n_managers nd)))
  | cs_take_endpoint n nd ch : c_nodes c !! n = Some nd → run_turn nse_config FromAdd (networkServiceEndpointCache (n_cache nd)) = Ret ch →
      cluster_step c (with_node c n (mkNode (in_endpoints (λ _, ch) (n_cache nd)) (n_services nd) (n_endpoints nd) (n_managers nd)))
  | cs_take_manager n nd ch : c_nodes c !! n = Some nd → run_turn nsm_config FromAdd (networkServiceManagerCache (n_cache nd)) = Ret ch →
      cluster_step c (with_node c n (mkNode (in_managers (λ _, ch) (n_cache nd)) (n_services nd) (n_endpoints nd) (n_managers nd))).

Definition new_node : node := mkNode NewRegistryCache ∅ ∅ ∅.
Definition cluster_start (s : S1) (e : S2) (m : S3) (names : gset string) : cluster := mkCluster s e m (gset_to_gmap new_node names).
Definition cluster_reachable (c : cluster) : Prop := ∃ s e m names,
  objects s = ∅ ∧ objects e = ∅ ∧ objects m = ∅ ∧ rtc cluster_step (cluster_start s e m names) c.
(** Nothing waits, and everything was reported. *)
Definition caught_up (c : cluster) (nd : node) : Prop :=
  rc_addCh (networkServiceCache (n_cache nd)) = [] ∧ rc_addCh (networkServiceEndpointCache (n_cache nd)) = [] ∧
  rc_addCh (networkServiceManagerCache (n_cache nd)) = [] ∧
  dom (objects (c_services c)) ⊆ n_services nd ∧ dom (objects (c_endpoints c)) ⊆ n_endpoints nd ∧
  dom (objects (c_managers c)) ⊆ n_managers nd.

(** ** The invariant *)
Definition zero_service : v1_NetworkService := mkV1NetworkService "" "" [].
Definition zero_endpoint : v1_Endpoint := mkV1Endpoint "" "" ∅ "" "" "".
Definition zero_manager : v1_Manager := mkV1Manager "" 0 "" "".
Notation all_services c := (<["" := zero_service]> (objects (c_services c))).
Notation all_endpoints c := (<["" := zero_endpoint]> (objects (c_endpoints c))).
Notation all_managers c := (<["" := zero_manager]> (objects (c_managers c))).

Record api_ok (c : cluster) : Prop := {
  ao_services k o : objects (c_services c) !! k = Some o → v1s_Name o = k ∧ k ≠ "";
  ao_managers k o : objects (c_managers c) !! k = Some o → v1n_Name o = k ∧ k ≠ "";
  ao_endpoints k o : objects (c_endpoints c) !! k = Some o → v1e_Name o = k ∧ k ≠ "" ∧
    is_Some (objects (c_services c) !! v1e_NetworkServiceName o) ∧ is_Some (objects (c_managers c) !! v1e_NsmName o)
}.
Record node_ok (c : cluster) (nd : node) : Prop := {
  no_services : follows ns_config id (all_services c) (n_services nd) (networkServiceCache (n_cache nd));
  no_endpoints : follows nse_config networkServiceEndpoints (all_endpoints c) (n_endpoints nd) (networkServiceEndpointCache (n_cache nd));
  no_managers : follows nsm_config id (all_managers c) (n_managers nd) (networkServiceManagerCache (n_cache nd));
  no_lists : represents (endpoints (n_cache nd)) (networkServiceEndpoints (endpoints (n_cache nd)))
}.
Definition cluster_ok (c : cluster) : Prop := api_ok c ∧ map_Forall (λ _ nd, node_ok c nd) (c_nodes c).
Lemma create_extends {St O key gen} `{!ObjectStore St O key gen IsAlreadyExists} (zero o : O) (s s' : St) (r : result O) :
  key zero = "" → create o s = (r, s') →
  <["" := zero]> (objects s) ⊆ <["" := zero]> (objects s') ∧
  let x := match r with Ok o' => o' | Err _ => zero end in <["" := zero]> (objects s') !! key x = Some x.
Proof.
  intros Hz E. destruct r as [o'|e].
  - destruct (create_ok _ _ _ _ E) as (Hne & Hn & -> & _ & _). split; [by apply insert_mono, insert_subseteq|].
    cbv zeta. rewrite lookup_insert_ne by done. apply lookup_insert_eq.
  - destruct (create_failed _ _ _ _ E) as [-> _]. split; [done|]. cbv zeta. rewrite Hz. apply lookup_insert_eq.
Qed.

(** What a registration does to one cache. *)
Definition grown {S O} (config : cacheConfig S O) (all : gmap string O) (c c' : abstractResourceCache S O) : Prop :=
  c' = c ∨ ∃ o, c' = rc_add o c ∧ all !! keyFunc config o = Some o.
Lemma follows_grown {S O} (config : cacheConfig S O) view all all' seen c c' : all ⊆ all' → grown config all' c c' →
  follows config view all seen c → follows config view all' seen c'.
Proof.
  intros Hs [->|(o & -> & Ho)] Hf; [by eapply follows_grows|]. apply follows_add; [done|]. by eapply follows_grows.
Qed.
Lemma grown_store {S O} (config : cacheConfig S O) all c c' : grown config all c c' → rc_store c' = rc_store c.
Proof. by intros [->|(o & -> & _)]. Qed.

Lemma write_labels_parts req : reg_NetworkService (write_labels req) = reg_NetworkService req ∧
  (reg_NetworkserviceEndpoint (write_labels req) = None ↔ reg_NetworkserviceEndpoint req = None).
Proof. unfold write_labels. destruct (reg_NetworkserviceEndpoint req) eqn:E; [case_decide|]; cbn; rewrite ?E; done. Qed.

(** The caches after a registration: each creation adds the object or, when
    it failed, the empty one. *)
Definition or_zero {O} (zero : O) (r : result O) : O := match r with Ok o => o | Err _ => zero end.
Definition caches_after (n : string) (c : cluster) (rc : registryCacheImpl) (request : NSERegistration) : registryCacheImpl :=
  let url := default "" (nsmgr_Url <$> reg_NetworkServiceManager request) in
  if decide (url = "") then rc
  else
    let rm := (create (mkV1Manager n now url v1_RUNNING) (c_managers c)).1 in
    let rc := in_managers (rc_add (or_zero zero_manager rm)) rc in
    match goes_on rm, reg_NetworkserviceEndpoint request, reg_NetworkService request with
    | true, Some _, Some ns =>
        let rs := (create (mkV1NetworkService (ns_Name ns) (ns_Payload ns) []) (c_services c)).1 in
        let rc := in_services (rc_add (or_zero zero_service rs)) rc in
        if goes_on rs then
          in_endpoints (rc_add (or_zero zero_endpoint (create (mkV1Endpoint "" (ns_Name ns) (service_labels request) (ns_Name ns) n v1_RUNNING) (c_endpoints c)).1)) rc
        else rc
    | _, _, _ => rc
    end.
Lemma registration_caches n c rc request : (registration n c rc request).1 = caches_after n c rc request.
Proof.
  unfold registration, rs_RegisterNSE, AddNetworkServiceManager, AddNetworkService, AddNetworkServiceEndpoint, fatal, caches_after.
  set (url := default "" (nsmgr_Url <$> _)). case_decide; [done|]. cbv zeta.
  set (req := mkNSERegistration _ _ _). destruct (write_labels_parts req) as [-> Hw2].
  change (reg_NetworkService req) with (reg_NetworkService request). change (service_labels req) with (service_labels request).
  change (reg_NetworkserviceEndpoint req) with (reg_NetworkserviceEndpoint request) in Hw2.
  destruct (reg_NetworkserviceEndpoint request) as [ep0|].
  - assert (∃ ep, reg_NetworkserviceEndpoint (write_labels req) = Some ep) as [ep ->].
    { destruct (reg_NetworkserviceEndpoint (write_labels req)); [by eexists|]. by pose proof (proj1 Hw2 eq_refl). }
    destruct ((create (mkV1Manager n now url v1_RUNNING) (c_managers c)).1) as [m|em]; cbn;
      [|destruct (IsAlreadyExists em); cbn; [|done]];
      (destruct (reg_NetworkService request) as [ns|]; [|done]);
      (destruct ((create (mkV1NetworkService (ns_Name ns) (ns_Payload ns) []) (c_services c)).1) as [s|es]; cbn;
        [|destruct (IsAlreadyExists es); cbn; [|done]]);
      by destruct ((create (mkV1Endpoint _ _ _ _ _ _) (c_endpoints c)).1).
  - rewrite (proj2 Hw2 eq_refl). destruct ((create (mkV1Manager n now url v1_RUNNING) (c_managers c)).1) as [m|em]; cbn; [done|].
    by destruct (IsAlreadyExists em).
Qed.
Lemma registration_grown n c rc request s e m nodes :
  stores_after n c request = (s, e, m) →
  let c' := mkCluster s e m nodes in let rc' := caches_after n c rc request in
  (all_services c ⊆ all_services c' ∧ all_endpoints c ⊆ all_endpoints c' ∧ all_managers c ⊆ all_managers c') ∧
  grown ns_config (all_services c') (networkServiceCache rc) (networkServiceCache rc') ∧
  grown nse_config (all_endpoints c') (networkServiceEndpointCache rc) (networkServiceEndpointCache rc') ∧
  grown nsm_config (all_managers c') (networkServiceManagerCache rc) (networkServiceManagerCache rc').
Proof.
  unfold stores_after, caches_after. cbv zeta. cbn [c_services c_endpoints c_managers].
  set (url := default "" (nsmgr_Url <$> _)). case_decide; [intros [= <- <- <-]; split_and!; try done; by left|].
  destruct (create (mkV1Manager n now url v1_RUNNING) (c_managers c)) as [rm m'] eqn:Em.
  destruct (create_extends zero_manager _ _ _ _ eq_refl Em) as [Hm1 Hm2]. cbn [fst].
  assert (∀ s' e', s' = c_services c → e' = c_endpoints c → (s', e', m') = (s, e, m) →
    let rc' := in_managers (rc_add (or_zero zero_manager rm)) rc in
    (all_services c ⊆ <["" := zero_service]> (objects s) ∧ all_endpoints c ⊆ <["" := zero_endpoint]> (objects e) ∧
     all_managers c ⊆ <["" := zero_manager]> (objects m)) ∧
    grown ns_config (<["" := zero_service]> (objects s)) (networkServiceCache rc) (networkServiceCache rc') ∧
    grown nse_config (<["" := zero_endpoint]> (objects e)) (networkServiceEndpointCache rc) (networkServiceEndpointCache rc') ∧
    grown nsm_config (<["" := zero_manager]> (objects m)) (networkServiceManagerCache rc) (networkServiceManagerCache rc')) as Hbase.
  { intros s' e' -> -> [= <- <- <-]. split_and!; [done..|by left|by left|right; eauto]. }
  destruct (goes_on rm); [|by apply Hbase].
  destruct (reg_NetworkserviceEndpoint request); [|by apply Hbase].
  destruct (reg_NetworkService request) as [ns|]; [|by apply Hbase]. clear Hbase.
  destruct (create (mkV1NetworkService (ns_Name ns) (ns_Payload ns) []) (c_services c)) as [rs s'] eqn:Es.
  destruct (create_extends zero_service _ _ _ _ eq_refl Es) as [Hs1 Hs2]. cbn [fst].
  destruct (goes_on rs); [|intros [= <- <- <-]; split_and!; [done..|right; eauto|by left|right; eauto]].
  destruct (create (mkV1Endpoint _ _ _ _ _ _) (c_endpoints c)) as [re e'] eqn:Ee.
  destruct (create_extends zero_endpoint _ _ _ _ eq_refl Ee) as [He1 He2]. cbn [fst snd].
  intros [= <- <- <-]. split_and!; [done..|right; eauto|right; eauto|right; eauto].
Qed.

(** The server's objects refer to each other. *)
Lemma stores_extend {St O key gen} `{!ObjectStore St O key gen IsAlreadyExists} (o : O) (s s' : St) (r : result O) :
  create o s = (r, s') → objects s ⊆ objects s' ∧
  (∀ k x, objects s' !! k = Some x → objects s !! k = Some x ∨ r = Ok x ∧ key x = k ∧ k ≠ "") ∧
  (key o ≠ "" → goes_on r = true → is_Some (objects s' !! key o)).
Proof.
  intros E. destruct r as [o'|e].
  - destruct (create_ok _ _ _ _ E) as (Hne & Hn & -> & Hk & _). split_and!; [by apply insert_subseteq| |].
    + intros k x. rewrite lookup_insert_Some. naive_solver.
    + intros Ho _. rewrite <- (Hk Ho), lookup_insert_eq. by eexists.
  - destruct (create_failed _ _ _ _ E) as [-> Ha]. split_and!; [done|auto|]. intros _ He. by apply Ha.
Qed.
Lemma named_exists {St O key} `{!ObjectStore St O key (λ _, "") IsAlreadyExists} (o : O) (s s' : St) (r : result O) :
  (∀ k x, objects s !! k = Some x → k ≠ "") → create o s = (r, s') → goes_on r = true → key o ≠ "".
Proof.
  intros Hne E Hg. destruct r as [o'|e].
  - destruct (create_ok _ _ _ _ E) as (_ & _ & _ & _ & Hgen). intros Hk. by apply Hgen in Hk.
  - destruct (create_failed _ _ _ _ E) as [_ Ha]. destruct (Ha Hg) as [x Hx]. by eapply Hne.
Qed.
Lemma is_Some_grows {O} (m m' : gmap string O) k : m ⊆ m' → is_Some (m !! k) → is_Some (m' !! k).
Proof. intros Hs [x Hx]. exists x. by eapply lookup_weaken. Qed.

Lemma api_ok_register n c request s e m nodes : stores_after n c request = (s, e, m) → api_ok c → api_ok (mkCluster s e m nodes).
Proof.
  unfold stores_after. set (url := default "" (nsmgr_Url <$> _)). intros E [Hs Hm He].
  case_decide; [by injection E as <- <- <-|].
  destruct (create (mkV1Manager n now url v1_RUNNING) (c_managers c)) as [rm m'] eqn:Em.
  destruct (stores_extend _ _ _ _ Em) as (Hm1 & Hm2 & Hm3).
  assert (∀ k o, objects m' !! k = Some o → v1n_Name o = k ∧ k ≠ "") as Hm'.
  { intros k o [?|(_ & ? & ?)]%Hm2; [by apply Hm|done]. }
  assert (api_ok (mkCluster (c_services c) (c_endpoints c) m' nodes)) as Hbase.
  { split; cbn; [done..|]. intros k o (? & ? & ? & ?)%He. split_and!; [done..|]. by eapply is_Some_grows. }
  destruct (goes_on rm) eqn:Gm; [|by injection E as <- <- <-].
  destruct (reg_NetworkserviceEndpoint request); [|by injection E as <- <- <-].
  destruct (reg_NetworkService request) as [ns|]; [|by injection E as <- <- <-].
  destruct (create (mkV1NetworkService (ns_Name ns) (ns_Payload ns) []) (c_services c)) as [rs s'] eqn:Es.
  destruct (stores_extend _ _ _ _ Es) as (Hs1 & Hs2 & Hs3).
  assert (api_ok (mkCluster s' (c_endpoints c) m' nodes)) as Hbase2.
  { destruct Hbase as [_ _ He']. split; cbn in *; [|done|].
    - intros k o [?|(_ & ? & ?)]%Hs2; [by apply Hs|done].
    - intros k o (? & ? & ? & ?)%He'. split_and!; [done..| |done]. by eapply is_Some_grows. }
  destruct (goes_on rs) eqn:Gs; [|by injection E as <- <- <-].
  destruct (create (mkV1Endpoint _ _ _ _ _ _) (c_endpoints c)) as [re e'] eqn:Ee.
  destruct (stores_extend _ _ _ _ Ee) as (_ & He2 & _). injection E as <- <- <-.
  destruct Hbase2 as [B1 B2 B3]. split; cbn in *; [done..|]. intros k o [Ho|(-> & Hk & Hk')]%He2; [by apply B3|].
  destruct (endpoint_kept _ _ _ _ Ee) as [-> ->]. cbn. split_and!; [done..| |].
  - apply Hs3; [|done]. eapply (named_exists _ _ _ _ (λ k x Hx, proj2 (Hs k x Hx)) Es Gs).
  - apply Hm3; [|done]. eapply (named_exists _ _ _ _ (λ k x Hx, proj2 (Hm k x Hx)) Em Gm).
Qed.

(** The lists of endpoints stay exact while the cache takes objects. *)
Lemma take_represents (all : gmap string v1_Endpoint) seen ch ch' : (∀ k o, all !! k = Some o → v1e_Name o = k) →
  follows nse_config networkServiceEndpoints all seen ch → run_turn nse_config FromAdd ch = Ret ch' →
  represents (rc_store ch) (networkServiceEndpoints (rc_store ch)) →
  represents (rc_store ch') (networkServiceEndpoints (rc_store ch')).
Proof.
  intros Hk [Hw Ht _] E Hr. unfold run_turn in E. destruct (rc_addCh ch) as [|o rest]; inv_ret; [done|].
  assert (all !! v1e_Name o = Some o) as Ho by (apply Hw; left). cbn [rc_store].
  apply added_represents; [done| |].
  - intros k x Hx. apply Hk. by eapply lookup_weaken.
  - intros old Hold. pose proof (lookup_weaken _ _ _ _ Hold Ht). congruence.
Qed.
Lemma all_endpoints_named c : api_ok c → ∀ k o, all_endpoints c !! k = Some o → v1e_Name o = k.
Proof. intros Ha k o. rewrite lookup_insert_Some. intros [[<- <-]|[_ Ho]]; [done|]. by apply (ao_endpoints _ Ha) in Ho as [? _]. Qed.

Lemma new_node_ok c : node_ok c new_node.
Proof.
  assert (∀ {S O} (config : cacheConfig S O) view all s, view s = ∅ → follows config view all ∅ (newAbstractResourceCache s)) as Hf.
  { intros S O config view all s Hv. split; cbn; [by intros ? ?%elem_of_nil|rewrite Hv; apply map_empty_subseteq|set_solver]. }
  split; cbn; [by apply Hf..|]. split; cbn; [done|intros; constructor|].
  intros ns e. unfold nse_Get, EndpointSpec.of_service; cbn. rewrite !lookup_empty. split; [by intros ?%elem_of_nil|by intros []].
Qed.

Lemma cluster_ok_with_node c n nd : cluster_ok c → node_ok c nd → cluster_ok (with_node c n nd).
Proof. intros [[A1 A2 A3] Hn] Hok. split; [by split|].
  cbn [with_node c_nodes]. intros n' nd' [[<- <-]|[_ Hn']]%lookup_insert_Some; [by destruct Hok|]. destruct (Hn _ _ Hn'). by split.
Qed.
(** What is reported is what the server holds; the empty name is never used. *)
Lemma all_lookup {O} (zero o : O) (m : gmap string O) k : k ≠ "" → m !! k = Some o → <["" := zero]> m !! k = Some o.
Proof. intros Hk Ho. by rewrite lookup_insert_ne. Qed.

Lemma cluster_step_ok c c' : cluster_step c c' → cluster_ok c → cluster_ok c'.
Proof.
  intros Hst Hok. pose proof Hok as [Ha Hn].
  destruct Hst as [n nd request s e m rc r Hnd Er Es|n nd k o Hnd Ho|n nd k o Hnd Ho|n nd k o Hnd Ho|n nd ch Hnd E|n nd ch Hnd E|n nd ch Hnd E];
    pose proof (Hn _ _ Hnd) as [N1 N2 N3 N4].
  - split; [by eapply api_ok_register|]. cbn [c_nodes].
    assert (rc = caches_after n c (n_cache nd) request) as -> by (rewrite <- registration_caches, Er; done).
    destruct (registration_grown n c (n_cache nd) request s e m (c_nodes c) Es) as ((G1 & G2 & G3) & R1 & R2 & R3).
    apply map_Forall_insert_2.
    + split; cbn [n_cache n_services n_endpoints n_managers].
      * by eapply follows_grown.
      * by eapply follows_grown.
      * by eapply follows_grown.
      * by rewrite (grown_store _ _ _ _ R2).
    + intros n' nd' [M1 M2 M3 M4]%Hn. split; [..|done]; by eapply follows_grows.
  - apply cluster_ok_with_node; [done|]. destruct (ao_services _ Ha _ _ Ho) as [Hk Hne].
    split; [|done..]. apply follows_report; [done|by apply all_lookup|done].
  - apply cluster_ok_with_node; [done|]. destruct (ao_endpoints _ Ha _ _ Ho) as (Hk & Hne & _).
    split; [done| |done..]. apply follows_report; [done|by apply all_lookup|done].
  - apply cluster_ok_with_node; [done|]. destruct (ao_managers _ Ha _ _ Ho) as [Hk Hne].
    split; [done..| |done]. apply follows_report; [done|by apply all_lookup|done].
  - apply cluster_ok_with_node; [done|]. split; [|done..].
    destruct (follows_turn ns_config id ltac:(done) _ _ _ N1) as (ch' & E' & Hf). cbn. congruence.
  - apply cluster_ok_with_node; [done|]. split; [done| |done|].
    + destruct (follows_turn nse_config networkServiceEndpoints ltac:(done) _ _ _ N2) as (ch' & E' & Hf). cbn. congruence.
    + cbn. by eapply take_represents; [apply all_endpoints_named| | |].
  - apply cluster_ok_with_node; [done|]. split; [done..| |done].
    destruct (follows_turn nsm_config id ltac:(done) _ _ _ N3) as (ch' & E' & Hf). cbn. congruence.
Qed.
Lemma cluster_reachable_ok c : cluster_reachable c → cluster_ok c.
Proof.
  intros (s & e & m & names & Hs & He & Hm & HR). apply (rtc_ind_r cluster_ok _) in HR; [done| |].
  - split.
    + split; cbn; rewrite ?Hs, ?He, ?Hm; intros ??; by rewrite lookup_empty.
    + intros n nd [_ <-]%lookup_gset_to_gmap_Some. apply new_node_ok.
  - intros y z _ Hst Hy. by eapply cluster_step_ok.
Qed.

Lemma caught_up_lookup {S O} (config : cacheConfig S O) view zero (objs : gmap string O) seen ch k :
  follows config view (<["" := zero]> objs) seen ch → rc_addCh ch = [] → dom objs ⊆ seen → k ≠ "" →
  view (rc_store ch) !! k = objs !! k.
Proof.
  intros Hf E Hd Hk. destruct (objs !! k) as [o|] eqn:Ho.
  - rewrite (follows_exact _ _ _ _ _ _ Hf E); [by rewrite lookup_insert_ne|]. apply Hd. by apply elem_of_dom_2 in Ho.
  - destruct (view (rc_store ch) !! k) as [o|] eqn:Hv; [|done].
    pose proof (lookup_weaken _ _ _ _ Hv (fo_stored _ _ _ _ _ Hf)) as Hl. rewrite lookup_insert_ne in Hl by done. congruence.
Qed.
(** The endpoints of a service that a node lists are those of the server. *)
Lemma caught_up_endpoints c nd name e : api_ok c → node_ok c nd → caught_up c nd → name ≠ "" →
  e ∈ nse_Get (endpoints (n_cache nd)) name ↔
  objects (c_endpoints c) !! v1e_Name e = Some e ∧ v1e_NetworkServiceName e = name.
Proof.
  intros Ha [_ N2 _ N4] (_ & E & _ & _ & Hd & _) Hname. rewrite (rep_elem _ _ N4). unfold EndpointSpec.of_service.
  destruct (decide (v1e_Name e = "")) as [Hz|Hz]; [|by rewrite (caught_up_lookup _ _ _ _ _ _ _ N2 E Hd Hz)].
  split; intros [He Hs]; exfalso.
  - pose proof (lookup_weaken _ _ _ _ He (fo_stored _ _ _ _ _ N2)) as Hl. rewrite Hz, lookup_insert_eq in Hl.
    injection Hl as <-. by apply Hname.
  - by apply (ao_endpoints _ Ha) in He as (_ & ? & _).
Qed.

(** C4: in a cluster of registries, whoever registered which endpoints on which
    nodes and however reports and caches interleaved, every node that has
    caught up answers a lookup exactly from the API server: it knows the
    services of the server, lists their endpoints once each wherever they
    registered, and comes with exactly the managers of these endpoints. *)
Theorem nodes_answer_from_the_api c n nd name :
  cluster_reachable c → c_nodes c !! n = Some nd → caught_up c nd → name ≠ "" →
  let registered e := objects (c_endpoints c) !! v1e_Name e = Some e ∧ v1e_NetworkServiceName e = name in
  match objects (c_services c) !! name with
  | None => ∃ err, rs_FindNetworkService (n_cache nd) name = Err err
  | Some service => ∃ resp, rs_FindNetworkService (n_cache nd) name = Ok resp ∧
      find_Payload resp = v1s_Payload service ∧
      NoDup (nse_EndpointName <$> find_NetworkServiceEndpoints resp) ∧
      (∀ ep, ep ∈ find_NetworkServiceEndpoints resp ↔ ∃ e, registered e ∧ ep = found_endpoint (v1s_Payload service) e) ∧
      (∀ m x, find_NetworkServiceManagers resp !! m = Some x ↔
         ∃ e o, registered e ∧ v1e_NsmName e = m ∧ objects (c_managers c) !! m = Some o ∧ x = found_manager o)
  end.
Proof.
  intros HR Hnd Hup Hname registered. destruct (cluster_reachable_ok c HR) as [Ha Hn]. pose proof (Hn _ _ Hnd) as Hok.
  assert (∀ e, e ∈ nse_Get (endpoints (n_cache nd)) name ↔ registered e) as Heps by (intros e; by apply caught_up_endpoints).
  pose proof Hok as [N1 _ N3 N4]. destruct Hup as (E1 & _ & E3 & D1 & _ & D3).
  pose proof (caught_up_lookup _ _ _ _ _ _ _ N1 E1 D1 Hname) as Hserv. cbn in Hserv.
  assert (∀ e, registered e → v1e_NsmName e ≠ "" ∧ is_Some (objects (c_managers c) !! v1e_NsmName e)) as Hmgr.
  { intros e [He _]. apply (ao_endpoints _ Ha) in He as (_ & _ & _ & [o Ho]).
    split; [by apply (ao_managers _ Ha) in Ho as [_ ?]|by eexists]. }
  assert (∀ e, registered e → managers (n_cache nd) !! v1e_NsmName e = objects (c_managers c) !! v1e_NsmName e) as Hsame.
  { intros e [Hne _]%Hmgr. exact (caught_up_lookup _ _ _ _ _ _ _ N3 E3 D3 Hne). }
  rewrite <- Hserv. destruct (services (n_cache nd) !! name) as [service|] eqn:Es.
  2: { unfold rs_FindNetworkService, GetNetworkService. rewrite Es. by eexists. }
  destruct (find_ok (n_cache nd) name service Es) as (resp & Er & Hp & He & Hm).
  { apply list.Forall_forall. intros e Hin%Heps. rewrite Hsame by done. by apply Hmgr. }
  exists resp. split_and!; [done|done| | |].
  - rewrite He, <- list_fmap_compose. apply (rep_nodup _ _ N4).
  - intros ep. rewrite He, list_elem_of_fmap. split; intros (e & H1 & H2); exists e; [by rewrite <- Heps|by rewrite Heps].
  - intros m x. rewrite Hm. case_decide as Hd.
    + apply list_elem_of_fmap in Hd as (e & -> & Hin%Heps). rewrite Hsame by done. rewrite fmap_Some. split.
      * intros (o & Ho & ->). eauto 6.
      * intros (e' & o & _ & _ & Ho & ->). eauto.
    + split; [done|]. intros (e & o & He' & <- & _). destruct Hd. apply list_elem_of_fmap_2. by apply Heps.
Qed.
End cluster.

(** Two nodes over a server that keeps maps: an endpoint registers on the
    first node and is found through the second. *)
Module TwoNodes.
Definition exists_already (e : error) : bool := bool_decide (e = Errorf "already exists").
Definition store_create {O} (key : O → string) (o : O) (s : gmap string O) : result O * gmap string O :=
  if decide (key o = "") then (Err (Errorf "name is required"), s)
  else match s !! key o with Some _ => (Err (Errorf "already exists"), s) | None => (Ok o, <[key o := o]> s) end.
Definition generated (o : v1_Endpoint) (s : gmap string v1_Endpoint) : v1_Endpoint :=
  mkV1Endpoint (v1e_GenerateName o +:+ FormatUint (Z.of_nat (size s)) 10) (v1e_GenerateName o) (v1e_Labels o)
    (v1e_NetworkServiceName o) (v1e_NsmName o) (v1e_State o).
Definition endpoint_create (o : v1_Endpoint) (s : gmap string v1_Endpoint) : result v1_Endpoint * gmap string v1_Endpoint :=
  if decide (v1e_Name o = "") then
    if decide (v1e_GenerateName o = "") then (Err (Errorf "name is required"), s)
    else match s !! v1e_Name (generated o s) with
         | Some _ => (Err (Errorf "name is taken"), s)
         | None => (Ok (generated o s), <[v1e_Name (generated o s) := generated o s]> s)
         end
  else store_create v1e_Name o s.

Lemma store_create_ok {O} (key : O → string) o s o' s' : store_create key o s = (Ok o', s') →
  o' = o ∧ key o ≠ "" ∧ s !! key o = None ∧ s' = <[key o := o]> s.
Proof. unfold store_create. case_decide; [done|]. destruct (s !! key o) eqn:E; [done|]. by intros [= <- <-]. Qed.
Lemma store_create_failed {O} (key : O → string) o s e s' : store_create key o s = (Err e, s') →
  s' = s ∧ (exists_already e = true → is_Some (s !! key o)).
Proof.
  unfold store_create. case_decide; [by intros [= <- <-]|]. destruct (s !! key o) eqn:E; [|done].
  intros [= <- <-]. split; [done|]. by eexists.
Qed.
#[local] Program Instance map_store {O} (key : O → string) : ObjectStore (gmap string O) O key (λ _, "") exists_already :=
  {| objects := λ s, s; create := store_create key |}.
Next Obligation. intros O key o s o' s' (-> & ? & ? & ->)%store_create_ok. done. Qed.
Next Obligation. intros O key o s e s' (-> & ?)%store_create_failed. done. Qed.
#[local] Program Instance endpoint_store : ObjectStore (gmap string v1_Endpoint) v1_Endpoint v1e_Name v1e_GenerateName exists_already :=
  {| objects := λ s, s; create := endpoint_create |}.
Next Obligation.
  intros o s o' s'. unfold endpoint_create. case_decide as Hn.
  - case_decide as Hg; [done|]. destruct (s !! _) eqn:E; [done|]. intros [= <- <-]. split_and!; [|done..].
    cbn. intros Hz. apply Hg. by destruct (v1e_GenerateName o).
  - intros (-> & ? & ? & ->)%store_create_ok. done.
Qed.
Next Obligation.
  intros o s e s'. unfold endpoint_create. case_decide as Hn; [|apply store_create_failed].
  case_decide as Hg; [by intros [= <- <-]|]. destruct (s !! _) eqn:E; [by intros [= <- <-]|done].
Qed.
Lemma endpoint_kept (o o' : v1_Endpoint) (s s' : gmap string v1_Endpoint) : create o s = (Ok o', s') →
  v1e_NetworkServiceName o' = v1e_NetworkServiceName o ∧ v1e_NsmName o' = v1e_NsmName o.
Proof.
  cbn. unfold endpoint_create. case_decide; [|by intros (-> & _)%store_create_ok]. case_decide; [done|].
  destruct (s !! _); [done|]. by intros [= <- <-].
Qed.

Definition request : NSERegistration :=
  mkNSERegistration (Some (mkNetworkService "icmp" "IP" [])) (Some (mkNetworkServiceManager "" "10.0.0.1:5001" None ""))
    (Some (mkNetworkServiceEndpoint "icmp" "IP" "" "" ∅ "")).
Notation two := (cluster (S1 := gmap string v1_NetworkService) (S2 := gmap string v1_Endpoint) (S3 := gmap string v1_Manager)).
Definition start : two := cluster_start ∅ ∅ ∅ {["a"; "b"]}.
(** The registration on the first node. *)
Definition stores := stores_after exists_already 7 "a" start request.
Definition first := registration exists_already 7 Some "a" start (n_cache new_node) request.
Definition registered : two :=
  mkCluster stores.1.1 stores.1.2 stores.2 (<["a" := mkNode first.1 ∅ ∅ ∅]> (c_nodes start)).
Definition service : v1_NetworkService := mkV1NetworkService "icmp" "IP" [].
Definition endpoint : v1_Endpoint := mkV1Endpoint "icmp0" "icmp" {["networkservicename" := "icmp"]} "icmp" "a" "RUNNING".
Definition manager : v1_Manager := mkV1Manager "a" 7 "10.0.0.1:5001" "RUNNING".
(** What reaches the second node: three reports, and what its caches make of
    them. *)
Definition b1 : node := mkNode (in_services (informer_added service) (n_cache new_node)) ({["icmp"]} ∪ ∅) ∅ ∅.
Definition b2 : node := mkNode (in_endpoints (informer_added endpoint) (n_cache b1)) (n_services b1) ({["icmp0"]} ∪ ∅) ∅.
Definition b3 : node := mkNode (in_managers (informer_added manager) (n_cache b2)) (n_services b2) (n_endpoints b2) ({["a"]} ∪ ∅).
Definition services_taken := mkResourceCache [] [] {["icmp" := service]} : abstractResourceCache (gmap string v1_NetworkService) v1_NetworkService.
Definition endpoints_taken := mkResourceCache ([] : list v1_Endpoint) [] (mkNseStore {["icmp" := [endpoint]]} {["icmp0" := endpoint]}).
Definition managers_taken := mkResourceCache [] [] {["a" := manager]} : abstractResourceCache (gmap string v1_Manager) v1_Manager.
Definition b4 : node := mkNode (in_services (λ _, services_taken) (n_cache b3)) (n_services b3) (n_endpoints b3) (n_managers b3).
Definition b5 : node := mkNode (in_endpoints (λ _, endpoints_taken) (n_cache b4)) (n_services b4) (n_endpoints b4) (n_managers b4).
Definition second : node := mkNode (in_managers (λ _, managers_taken) (n_cache b5)) (n_services b5) (n_endpoints b5) (n_managers b5).
Definition seen (c : two) (nd : node) : two := with_node c "b" nd.
Definition reported : two := seen (seen (seen (seen (seen (seen registered b1) b2) b3) b4) b5) second.

Lemma seen_lookup c nd : c_nodes (seen c nd) !! "b" = Some nd.
Proof. apply lookup_insert_eq. Qed.
Lemma registered_api : c_services registered !! "icmp" = Some service ∧
  c_endpoints registered !! "icmp0" = Some endpoint ∧ c_managers registered !! "a" = Some manager.
Proof. split_and!; vm_compute; reflexivity. Qed.
Lemma start_lookup n : n ∈ ({["a"; "b"]} : gset string) → c_nodes start !! n = Some new_node.
Proof. intros Hn. apply lookup_gset_to_gmap_Some. done. Qed.
Lemma caches_taken :
  run_turn ns_config FromAdd (networkServiceCache (n_cache b3)) = Ret services_taken ∧
  run_turn nse_config FromAdd (networkServiceEndpointCache (n_cache b4)) = Ret endpoints_taken ∧
  run_turn nsm_config FromAdd (networkServiceManagerCache (n_cache b5)) = Ret managers_taken.
Proof. split_and!; vm_compute; reflexivity. Qed.

Lemma reported_reachable : cluster_reachable exists_already 7 Some reported.
Proof.
  exists ∅, ∅, ∅, {["a"; "b"]}. split_and!; [done..|].
  destruct registered_api as (Hs & He & Hm), caches_taken as (Ts & Te & Tm).
  eapply rtc_l; [apply (cs_register exists_already 7 Some start "a" new_node request stores.1.1 stores.1.2 stores.2 first.1 first.2);
                 [apply start_lookup; set_solver|apply surjective_pairing|unfold stores; by destruct (stores_after _ _ _ _ _) as [[] ]]|].
  eapply rtc_l; [apply (cs_report_service exists_already 7 Some registered "b" new_node "icmp" service);
                 [apply (start_lookup "b"); set_solver|exact Hs]|].
  eapply rtc_l; [apply (cs_report_endpoint exists_already 7 Some (seen registered b1) "b" b1 "icmp0" endpoint);
                 [apply seen_lookup|exact He]|].
  eapply rtc_l; [apply (cs_report_manager exists_already 7 Some (seen (seen registered b1) b2) "b" b2 "a" manager);
                 [apply seen_lookup|exact Hm]|].
  eapply rtc_l; [eapply (cs_take_service exists_already 7 Some _ "b" b3 services_taken); [apply seen_lookup|exact Ts]|].
  eapply rtc_l; [eapply (cs_take_endpoint exists_already 7 Some _ "b" b4 endpoints_taken); [apply seen_lookup|exact Te]|].
  eapply rtc_l; [eapply (cs_take_manager exists_already 7 Some _ "b" b5 managers_taken); [apply seen_lookup|exact Tm]|].
  apply rtc_refl.
Qed.
Lemma second_caught_up : caught_up exists_already reported second.
Proof. repeat split; try done; apply (bool_decide_unpack _); by vm_compute. Qed.

Lemma nodes_answer_from_the_api_witness : ∃ resp,
  rs_FindNetworkService (n_cache second) "icmp" = Ok resp ∧ find_Payload resp = "IP" ∧
  ∃ ep, ep ∈ find_NetworkServiceEndpoints resp ∧ nse_EndpointName ep = "icmp0" ∧ nse_NetworkServiceManagerName ep = "a".
Proof.
  destruct (nodes_answer_from_the_api exists_already endpoint_kept 7 Some reported "b" second "icmp"
    reported_reachable ltac:(vm_compute; reflexivity) second_caught_up ltac:(done)) as (resp & E & Hp & _ & He & _).
  exists resp. split_and!; [exact E|exact Hp|]. exists (found_endpoint "IP" endpoint). split; [|done].
  apply He. exists endpoint. split; [|done]. split; vm_compute; reflexivity.
Defined.
End TwoNodes.
