(* ===== verification/Sdk.v ===== *)
(** * The SDK of clients and endpoints (sdk)

    An endpoint answers requests with a chain of composites, each of which
    calls the next one: the chain is the list of them, and a composite has no
    next one when the rest of the list is empty.  Each composite carries its
    own state.  The process ending by [logrus.Fatal] is a panic. *)
From Stdlib Require Import Ascii.
From S2P Require Import Prelude GoStrings GoNet ConnectionContext Apis PrefixPool Converter.

(** ** Configuration (common/configuration.go, common/helpers.go) *)
Record NSConfiguration := mkNSConfiguration {
  cfg_NsmServerSocket : string;
  cfg_NsmClientSocket : string;
  cfg_Workspace : string;
  cfg_AdvertiseNseName : string;
  cfg_OutgoingNscName : string;
  cfg_AdvertiseNseLabels : string;
  cfg_OutgoingNscLabels : string;
  cfg_TracerEnabled : bool;
  cfg_MechanismType : string;
  cfg_IPAddress : string
}.
Definition getEnv (env : string → option string) (key : string) (mandatory : bool) : outcome string :=
  match env key with
  | Some value => Ret value
  | None => if mandatory then Panic "exit" else Ret ""
  end.
(** A field that is set stays; the others come from the environment. *)
Definition or_getEnv (env : string → option string) (value key : string) (mandatory : bool) : outcome string :=
  if decide (value = "") then getEnv env key mandatory else Ret value.
Definition ParseBool (s : string) : bool :=
  bool_decide (s ∈ ["1"; "t"; "T"; "TRUE"; "true"; "True"]).
Definition CompleteNSConfiguration (env : string → option string) (c : NSConfiguration) : outcome NSConfiguration :=
  match or_getEnv env (cfg_NsmServerSocket c) "NSM_SERVER_SOCKET" true,
        or_getEnv env (cfg_NsmClientSocket c) "NSM_CLIENT_SOCKET" true,
        or_getEnv env (cfg_Workspace c) "WORKSPACE" true,
        or_getEnv env (cfg_AdvertiseNseName c) "ADVERTISE_NSE_NAME" false,
        or_getEnv env (cfg_OutgoingNscName c) "OUTGOING_NSC_NAME" false,
        or_getEnv env (cfg_AdvertiseNseLabels c) "ADVERTISE_NSE_LABELS" false,
        or_getEnv env (cfg_OutgoingNscLabels c) "OUTGOING_NSC_LABELS" false,
        getEnv env "TRACER_ENABLED" false,
        or_getEnv env (cfg_MechanismType c) "MECHANISM_TYPE" false,
        or_getEnv env (cfg_IPAddress c) "IP_ADDRESS" false with
  | Ret server, Ret client, Ret workspace, Ret nse, Ret nsc, Ret nse_labels, Ret nsc_labels, Ret tracer, Ret mech, Ret ip =>
      Ret (mkNSConfiguration server client workspace nse nsc nse_labels nsc_labels (ParseBool tracer) mech ip)
  | _, _, _, _, _, _, _, _, _, _ => Panic "exit"
  end.

Definition Ip2int (ip : IP) : outcome Z :=
  match length ip with
  | 0%nat => Ret 0
  | 16%nat => Ret (be_val (drop 12 ip))
  | n => if decide (n < 4)%nat then Panic "index out of range" else Ret (be_val (take 4 ip))
  end.

Definition MechanismType_value : gmap string LocalMechanismType :=
  list_to_map [("DEFAULT_INTERFACE", DEFAULT_INTERFACE); ("KERNEL_INTERFACE", KERNEL_INTERFACE);
               ("VHOST_INTERFACE", VHOST_INTERFACE); ("MEM_INTERFACE", MEM_INTERFACE);
               ("SRIOV_INTERFACE", SRIOV_INTERFACE); ("HW_INTERFACE", HW_INTERFACE)].
Definition MechanismFromString (mechanismName : string) : LocalMechanismType :=
  default KERNEL_INTERFACE (MechanismType_value !! (ToUpper mechanismName +:+ "_INTERFACE")).

(** ** What the SDK meets outside *)
Record sdk_env := mkSdkEnv {
  se_currentNS : result string;                       (* tools.GetCurrentNS *)
  se_id : nat → string;                               (* a generated short id, by the position in the chain *)
  se_interfaces : result (list (result (list string) * string));
    (* the interfaces: their addresses and their hardware address *)
  se_order : merge_order;                             (* how Go visits the maps of the pool *)
  se_request : LocalRequest → nat → result LocalConnection   (* the manager's answer to an attempt *)
}.

(** ** Clients (client/client.go) *)
Definition connectRetries : nat := 10.

(** Connections are objects: the outgoing ones are kept by address. *)
Record NsmClient := mkNsmClient {
  nc_OutgoingNscName : string;
  nc_OutgoingNscLabels : gmap string string;
  nc_OutgoingConnections : list (option positive);
  nc_heap : gmap positive LocalConnection;
  nc_next : positive;
  nc_closed : list (option positive)      (* the connections that were closed, latest first *)
}.

(** The loop of [Connect]: the answer, after at most [n] attempts from attempt [k]. *)
Fixpoint retry (n k : nat) (answer : nat → result LocalConnection) : result LocalConnection :=
  match answer k with
  | Ok c => Ok c
  | Err e => match n with S (S _ as n) => retry n (S k) answer | _ => Err e end
  end.
Definition outgoing_request (c : NsmClient) (m : LocalMechanism) : LocalRequest :=
  mkLocalRequest (Some (mkLocalConnection "" (nc_OutgoingNscName c) None
    (Some (mkConnectionContext "" "" true true [] [] [] [] [])) (nc_OutgoingNscLabels c) State_UP)) [m].
Definition sdk_Connect (env : sdk_env) (c : NsmClient) (name mechanism description : string) :
    NsmClient * result positive :=
  match NewMechanism (se_currentNS env) (MechanismFromString mechanism) name description with
  | Err e => (c, Err e)
  | Ok m =>
      match retry connectRetries 0 (se_request env (outgoing_request c m)) with
      | Err e => (c, Err e)
      | Ok conn =>
          let p := nc_next c in
          (mkNsmClient (nc_OutgoingNscName c) (nc_OutgoingNscLabels c) (nc_OutgoingConnections c ++ [Some p])
             (<[p := conn]> (nc_heap c)) (Pos.succ p) (nc_closed c), Ok p)
      end
  end.

(** One turn of the loop of [Close] over the array: the array and the length
    of the local slice. *)
Definition close_turn (target : positive) (st : list (option positive) * nat) (i : nat) : list (option positive) * nat :=
  let '(a, len) := st in
  if decide (a !! i = Some (Some target)) then
    (take i a ++ drop (S i) (take len a) ++ [None] ++ drop len a, (len - 1)%nat)
  else (a, len).
(** The field itself keeps its length. *)
Definition sdk_Close (c : NsmClient) (outgoing : positive) : NsmClient :=
  let arr := nc_OutgoingConnections c in
  mkNsmClient (nc_OutgoingNscName c) (nc_OutgoingNscLabels c)
    (foldl (close_turn outgoing) (arr, length arr) (seq 0 (length arr))).1
    (nc_heap c) (nc_next c) (Some outgoing :: nc_closed c).
Definition sdk_Destroy (c : NsmClient) : NsmClient :=
  mkNsmClient (nc_OutgoingNscName c) (nc_OutgoingNscLabels c) (nc_OutgoingConnections c) (nc_heap c) (nc_next c)
    (reverse (nc_OutgoingConnections c) ++ nc_closed c).
Definition NewNSMClient (conf : NSConfiguration) (connection : option error) : result NsmClient :=
  match connection with
  | Some e => Err e
  | None => Ok (mkNsmClient (cfg_OutgoingNscName conf) (ParseKVStringToMap (cfg_OutgoingNscLabels conf) "," "=") [] ∅ 1 [])
  end.

(** ** Composites (endpoint/interface.go, endpoint/composite) *)
Inductive monitor_call := ConnUpdate (c : option LocalConnection) | ConnDelete (c : LocalConnection).
Inductive composite :=
  | BaseComposite
  | ConnectionComposite (mechanismType : LocalMechanismType)
  | IpamComposite (pool : prefixPool)
  | MonitorComposite (calls : list monitor_call)       (* latest first *)
  | ClientComposite (client : NsmClient) (mechanismType : string) (ioConnMap : gmap string positive).

Definition generateIfName (id : string) : string := remove_char "_" (remove_char "-" ("nsm" +:+ id)).

(** The neighbors that the IPAM composite reports: the addresses of all
    interfaces but the loopback address. *)
Definition neighbors_of (iface : result (list string) * string) : list IpNeighbor :=
  match iface with
  | (Err _, _) => []
  | (Ok addrs, hw) =>
      omap (λ a, let addr := ip_String (match ParseCIDR a with Some (ip, _) => ip | None => [] end) in
                 if decide (addr = "127.0.0.1") then None else Some (mkIpNeighbor addr hw)) addrs
  end.
Definition ipam_neighbors (env : sdk_env) : list IpNeighbor :=
  match se_interfaces env with Ok ifaces => mjoin (neighbors_of <$> ifaces) | Err _ => [] end.
Definition ipam_context (env : sdk_env) (ctx : ConnectionContext) (src dst : IPNet) (prefixes : list string) : ConnectionContext :=
  mkConnectionContext (net_String src) (net_String dst) (ctx_SrcIpRequired ctx) (ctx_DstIpRequired ctx)
    [mkRoute "8.8.8.8/30"] (ctx_ExcludedPrefixes ctx) (ctx_IpNeighbors ctx ++ ipam_neighbors env)
    (ctx_ExtraPrefixRequest ctx) prefixes.
(** What the IPAM composite does with the connection of the next composite:
    an incomplete connection is an error, but the addresses stay taken. *)
Definition ipam_answer (env : sdk_env) (pool : prefixPool) (request : LocalRequest) (new : option LocalConnection) :
    outcome (prefixPool * result (option LocalConnection)) :=
  match lr_Connection request with
  | None => Panic "nil pointer dereference"
  | Some rc =>
      match lc_Context rc with
      | None => Panic "nil pointer dereference"
      | Some rctx =>
          match Extract pool (lc_Id rc) IpFamily_IPV4 (Some <$> ctx_ExtraPrefixRequest rctx) with
          | Panic w => Panic w
          | Ret (Err e) => Ret (pool, Err e)
          | Ret (Ok (pool, src, dst, prefixes)) =>
              match new with
              | None => Panic "nil pointer dereference"
              | Some conn =>
                  match lc_Context conn with
                  | None => Panic "nil pointer dereference"
                  | Some ctx =>
                      let conn := lc_SetContext conn (Some (ipam_context env ctx src dst prefixes)) in
                      match lc_IsComplete (Some conn) with
                      | Some e => Ret (pool, Err e)
                      | None => Ret (pool, Ok (Some conn))
                      end
                  end
              end
          end
      end
  end.

(** The workspace parameter of an outgoing connection is emptied. *)
Definition clear_workspace (c : LocalConnection) : outcome LocalConnection :=
  match lc_Mechanism c with
  | Some (mkLocalMechanism t (Some ps)) =>
      Ret (lc_set_Mechanism c (Some (mkLocalMechanism t (Some (<[Workspace_key := ""]> ps)))))
  | _ => Panic "assignment to entry in nil map"
  end.
Definition client_answer (env : sdk_env) (client : NsmClient) (mechanismType : string) (ioConnMap : gmap string positive)
    (request : LocalRequest) (incoming : option LocalConnection) : outcome (composite * result (option LocalConnection)) :=
  let name := default "" (lc_Id <$> lr_Connection request) in
  match sdk_Connect env client name mechanismType ("Describe " +:+ name) with
  | (client, Err e) => Ret (ClientComposite client mechanismType ioConnMap, Err e)
  | (client, Ok p) =>
      match nc_heap client !! p with
      | None => Panic "nil pointer dereference"
      | Some out =>
          match clear_workspace out with
          | Panic w => Panic w
          | Ret out =>
              let client := mkNsmClient (nc_OutgoingNscName client) (nc_OutgoingNscLabels client)
                (nc_OutgoingConnections client) (<[p := out]> (nc_heap client)) (nc_next client) (nc_closed client) in
              Ret (ClientComposite client mechanismType (<[default "" (lc_Id <$> incoming) := p]> ioConnMap), Ok incoming)
          end
      end
  end.

Section chain.
Context (env : sdk_env).

Definition answered : Type := outcome (list composite * result (option LocalConnection)).
(** Goes on with the answer of the next composites. *)
Definition with_next (c : composite) (r : answered)
    (k : option LocalConnection → outcome (composite * result (option LocalConnection))) : answered :=
  match r with
  | Panic w => Panic w
  | Ret (next, Err e) => Ret (c :: next, Err e)
  | Ret (next, Ok conn) => match k conn with Panic w => Panic w | Ret (c, r) => Ret (c :: next, r) end
  end.

(** The connection of a last composite. *)
Definition new_connection (m : LocalMechanism) (request : LocalRequest) : option LocalConnection :=
  (λ rc, mkLocalConnection (lc_Id rc) (lc_NetworkService rc) (Some m) (lc_Context rc) ∅ State_UP) <$> lr_Connection request.

(** The [Request] of each composite, given the rest of the chain and, unless
    that is empty, the answer it gives. *)
Definition base_Request (c : composite) (next : option answered) : answered :=
  match next with
  | None => Ret ([c], Ok None)
  | Some r => with_next c r (λ conn, Ret (c, Ok conn))
  end.
Definition connection_Request (t : LocalMechanismType) (rest : list composite) (next : option answered)
    (request : LocalRequest) : answered :=
  let c := ConnectionComposite t in
  match lr_IsValid request with
  | Some e => Ret (c :: rest, Err e)
  | None =>
      match NewMechanism (se_currentNS env) t (generateIfName (se_id env (length rest))) "NSM Endpoint" with
      | Err e => Ret (c :: rest, Err e)
      | Ok m =>
          match next with
          | None => Ret (c :: rest, Ok (new_connection m request))
          | Some r => with_next c r (λ conn,
              match conn with
              | None => Ret (c, Err (Errorf "Unabel to create a new connection"))
              | Some conn => Ret (c, Ok (Some conn))
              end)
          end
      end
  end.
Definition ipam_Request (pool : prefixPool) (next : option answered) (request : LocalRequest) : answered :=
  let c := IpamComposite pool in
  match next with
  | None => Ret ([c], Err (Errorf "IPAM needs next"))
  | Some r => with_next c r (λ conn,
      match ipam_answer env pool request conn with
      | Panic w => Panic w
      | Ret (pool, r) => Ret (IpamComposite pool, r)
      end)
  end.
Definition monitor_Request (calls : list monitor_call) (next : option answered) : answered :=
  let c := MonitorComposite calls in
  match next with
  | None => Ret ([c], Err (Errorf "Monitor needs next"))
  | Some r => with_next c r (λ conn, Ret (MonitorComposite (ConnUpdate conn :: calls), Ok conn))
  end.
Definition composite_client_Request (client : NsmClient) (t : string) (ioConnMap : gmap string positive) (next : option answered)
    (request : LocalRequest) : answered :=
  match next with
  | None => Panic "exit"
  | Some r => with_next (ClientComposite client t ioConnMap) r (client_answer env client t ioConnMap request)
  end.

Fixpoint chain_Request (chain : list composite) (request : LocalRequest) : answered :=
  match chain with
  | [] => Panic "nil pointer dereference"
  | c :: rest =>
      let next := match rest with [] => None | _ => Some (chain_Request rest request) end in
      match c with
      | BaseComposite => base_Request c next
      | ConnectionComposite t => connection_Request t rest next request
      | IpamComposite pool => ipam_Request pool next request
      | MonitorComposite calls => monitor_Request calls next
      | ClientComposite client t ioConnMap => composite_client_Request client t ioConnMap next request
      end
  end.

(** [Close]: the error is always nil, also when the pool has no such connection. *)
Definition ipam_Close (pool : prefixPool) (conn : LocalConnection) : outcome composite :=
  match Release (se_order env) pool (lc_Id conn) with
  | Panic w => Panic w
  | Ret (pool, _) => Ret (IpamComposite pool)
  end.
Definition monitor_Close (calls : list monitor_call) (conn : LocalConnection) : composite :=
  MonitorComposite (ConnDelete conn :: calls).
Definition composite_client_Close (client : NsmClient) (t : string) (ioConnMap : gmap string positive) (conn : LocalConnection) : composite :=
  match ioConnMap !! lc_Id conn with
  | Some p => ClientComposite (sdk_Close client p) t ioConnMap
  | None => ClientComposite client t ioConnMap
  end.
Definition close_one (c : composite) (conn : LocalConnection) : outcome composite :=
  match c with
  | BaseComposite | ConnectionComposite _ => Ret c
  | IpamComposite pool => ipam_Close pool conn
  | MonitorComposite calls => Ret (monitor_Close calls conn)
  | ClientComposite client t ioConnMap => Ret (composite_client_Close client t ioConnMap conn)
  end.
Fixpoint chain_Close (chain : list composite) (conn : LocalConnection) : outcome (list composite) :=
  match chain with
  | [] => Ret []
  | c :: next =>
      match close_one c conn with
      | Panic w => Panic w
      | Ret c => match chain_Close next conn with Panic w => Panic w | Ret next => Ret (c :: next) end
      end
  end.

(** [GetOpaque] of a client composite. *)
Definition GetOpaque (c : composite) (incoming : LocalConnection) : option LocalConnection :=
  match c with
  | ClientComposite client _ ioConnMap => ioConnMap !! lc_Id incoming ≫= λ p, nc_heap client !! p
  | _ => None
  end.
End chain.

(** ** Constructors of the composites *)
Definition NewConnectionCompositeEndpoint (conf : NSConfiguration) : composite :=
  ConnectionComposite (MechanismFromString (cfg_MechanismType conf)).
Definition NewIpamCompositeEndpoint (conf : NSConfiguration) : composite :=
  IpamComposite (NewPrefixPool [cfg_IPAddress conf]).
Definition NewMonitorCompositeEndpoint : composite := MonitorComposite [].
Definition NewClientCompositeEndpoint (conf : NSConfiguration) (connection : option error) : outcome composite :=
  match NewNSMClient conf connection with
  | Err _ => Panic "exit"
  | Ok client => Ret (ClientComposite client (cfg_MechanismType conf) ∅)
  end.

(** ** Endpoints (endpoint/endpoint.go, endpoint/server.go) *)
Record nsmEndpoint := mkNsmEndpoint {
  ep_conf : NSConfiguration;
  ep_composite : list composite;
  ep_endpointName : string;
  ep_serving : bool;
  ep_closed : list LocalConnection      (* connections that the manager was told to close, latest first *)
}.
Definition start_registration (conf : NSConfiguration) : NSERegistration :=
  mkNSERegistration (Some (mkNetworkService (cfg_AdvertiseNseName conf) "IP" [])) None
    (Some (mkNetworkServiceEndpoint (cfg_AdvertiseNseName conf) "IP" "" ""
             (ParseKVStringToMap (cfg_AdvertiseNseLabels conf) "," "=") "")).
(** [Start]: the errors of the socket, and the answer of the registry. *)
Definition ep_Start (cleanup listen : option error) (register : NSERegistration → result NSERegistration) (e : nsmEndpoint) :
    outcome (nsmEndpoint * option error) :=
  match cleanup with
  | Some err => Ret (e, Some err)
  | None =>
      match listen with
      | Some err => Ret (e, Some err)
      | None =>
          match register (start_registration (ep_conf e)) with
          | Err _ => Panic "exit"
          | Ok reg =>
              Ret (mkNsmEndpoint (ep_conf e) (ep_composite e)
                     (default "" (nse_EndpointName <$> reg_NetworkserviceEndpoint reg)) true (ep_closed e), None)
          end
      end
  end.
Definition ep_Delete (remove : string → option error) (e : nsmEndpoint) : nsmEndpoint * option error :=
  (mkNsmEndpoint (ep_conf e) (ep_composite e) (ep_endpointName e) false (ep_closed e), remove (ep_endpointName e)).
Definition ep_Request (env : sdk_env) (e : nsmEndpoint) (request : LocalRequest) :
    outcome (nsmEndpoint * result (option LocalConnection)) :=
  match chain_Request env (ep_composite e) request with
  | Panic w => Panic w
  | Ret (chain, r) => Ret (mkNsmEndpoint (ep_conf e) chain (ep_endpointName e) (ep_serving e) (ep_closed e), r)
  end.
Definition ep_Close (env : sdk_env) (e : nsmEndpoint) (conn : LocalConnection) : outcome nsmEndpoint :=
  match chain_Close env (ep_composite e) conn with
  | Panic w => Panic w
  | Ret chain => Ret (mkNsmEndpoint (ep_conf e) chain (ep_endpointName e) (ep_serving e) (conn :: ep_closed e))
  end.

(** ** Client lists (client/clientlist.go) *)

(** The connections so far, the clients, and the error. *)
Fixpoint list_Connect (env : sdk_env) (clients : list NsmClient) (name mechanism description : string) :
    list NsmClient * list positive * option error :=
  match clients with
  | [] => ([], [], None)
  | c :: clients =>
      match sdk_Connect env c name mechanism description with
      | (c, Err e) => (c :: clients, [], Some e)
      | (c, Ok p) =>
          let '(clients, ps, e) := list_Connect env clients name mechanism description in
          (c :: clients, p :: ps, e)
      end
  end.
