(* ===== verification/SdkProps.v ===== *)
(** * Correctness of the SDK *)
From Stdlib Require Import Ascii.
From S2P Require Import Prelude GoStrings GoNet ConnectionContext Apis Cidr PrefixPool PrefixPoolLemmas PrefixPoolMerge PrefixPoolInv PrefixPoolProps Converter Sdk.

(** ** Retries *)

(** The first success among the attempts [k], ..., [k + n - 1]. *)
Definition first_ok (answer : nat → result LocalConnection) (k n i : nat) (c : LocalConnection) : Prop :=
  (i < n)%nat ∧ answer (k + i)%nat = Ok c ∧ ∀ j, (j < i)%nat → ∃ e, answer (k + j)%nat = Err e.

Lemma retry_spec n k answer :
  match retry (S n) k answer with
  | Ok c => ∃ i, first_ok answer k (S n) i c
  | Err e => answer (k + n)%nat = Err e ∧ ∀ j, (j < S n)%nat → ∃ e, answer (k + j)%nat = Err e
  end.
Proof.
  assert (∀ n k, retry (S (S n)) k answer = match answer k with Ok c => Ok c | Err e => retry (S n) (S k) answer end) as Hstep by done.
  revert k. induction n as [|n IH]; intros k; unfold first_ok in *; [cbn [retry]|rewrite Hstep].
  - destruct (answer k) as [c|e] eqn:E; [exists 0%nat|]; rewrite ?Nat.add_0_r.
    + split_and!; [lia|done|lia].
    + split; [done|]. intros j Hj. exists e. by replace (k + j)%nat with k by lia.
  - destruct (answer k) as [c|e] eqn:E.
    + exists 0%nat. split_and!; [lia|by rewrite Nat.add_0_r|lia].
    + assert (∀ (P : nat → Prop) m, P 0%nat → (∀ j, (j < m)%nat → P (S j)) → ∀ j, (j < S m)%nat → P j) as Hcase
        by (intros P m H0 HS [|j] Hj; [done|apply HS; lia]).
      specialize (IH (S k)). destruct (retry (S n) (S k) answer) as [c|e'].
      * destruct IH as (i & Hi & Hc & Hj). exists (S i). unfold first_ok. rewrite Nat.add_succ_r. split_and!; [lia|done|].
        apply Hcase; [exists e; by rewrite Nat.add_0_r|]. intros j ?. rewrite Nat.add_succ_r. by apply Hj.
      * destruct IH as [He Hj]. rewrite Nat.add_succ_r. split; [done|].
        apply Hcase; [exists e; by rewrite Nat.add_0_r|]. intros j ?. rewrite Nat.add_succ_r. by apply Hj.
Qed.

(** A client asks at most ten times: it returns the first connection
    that the manager grants among the first ten answers, kept as a new
    outgoing connection, and the error of the tenth attempt when all fail,
    in which case it is left as it was. *)
Lemma Connect_first_success env c name mechanism description m :
  NewMechanism (se_currentNS env) (MechanismFromString mechanism) name description = Ok m →
  let answer := se_request env (outgoing_request c m) in
  (∃ i conn c', first_ok answer 0 10 i conn ∧ sdk_Connect env c name mechanism description = (c', Ok (nc_next c)) ∧
     nc_heap c' !! nc_next c = Some conn ∧ nc_OutgoingConnections c' = nc_OutgoingConnections c ++ [Some (nc_next c)]) ∨
  (∃ e, answer 9%nat = Err e ∧ (∀ j, (j < 10)%nat → ∃ e, answer j = Err e) ∧
     sdk_Connect env c name mechanism description = (c, Err e)).
Proof.
  intros Hm answer. unfold sdk_Connect. rewrite Hm. fold answer. pose proof (retry_spec 9 0 answer) as Hr.
  change (retry connectRetries 0 answer) with (retry 10 0 answer). destruct (retry 10 0 answer) as [conn|e].
  - left. destruct Hr as [i Hi]. exists i, conn. eexists. split_and!; [done|done| |done]. apply lookup_insert_eq.
  - right. exists e. destruct Hr as [He Hj]. done.
Qed.

(** ** Closing *)
Lemma close_turn_none p st i : st.1 !! i ≠ Some (Some p) → close_turn p st i = st.
Proof. destruct st as [a len]. cbn. intros Hne. by rewrite decide_False. Qed.
Lemma close_turns_none p st ix : (∀ i, st.1 !! i ≠ Some (Some p)) → foldl (close_turn p) st ix = st.
Proof. intros Hne. induction ix as [|i ix IH]; [done|]. cbn [foldl]. by rewrite close_turn_none. Qed.

(** Closing a connection moves the later ones up and leaves a nil entry at
    the end, which [Destroy] closes as well. *)
Lemma Close_leaves_nil c p l1 l2 : nc_OutgoingConnections c = l1 ++ Some p :: l2 → Some p ∉ l1 → Some p ∉ l2 →
  nc_OutgoingConnections (sdk_Close c p) = l1 ++ l2 ++ [None] ∧
  None ∈ nc_closed (sdk_Destroy (sdk_Close c p)).
Proof.
  intros E H1 H2.
  assert (nc_OutgoingConnections (sdk_Close c p) = l1 ++ l2 ++ [None]) as Hc.
  { unfold sdk_Close. cbn [nc_OutgoingConnections]. rewrite E. set (n := length (l1 ++ Some p :: l2)).
    assert (n = length l1 + S (length l2))%nat as Hn by (unfold n; rewrite length_app; done).
    rewrite Hn at 2. rewrite seq_app, foldl_app. cbn [seq foldl Nat.add].
    assert (∀ ix, (∀ i, i ∈ ix → (i < length l1)%nat) → foldl (close_turn p) (l1 ++ Some p :: l2, n) ix = (l1 ++ Some p :: l2, n)) as Hpre.
    { intros ix. induction ix as [|i ix IH]; intros Hi; [done|]. cbn [foldl].
      rewrite close_turn_none; [apply IH; intros; apply Hi; by apply list_elem_of_further|]. cbn [fst].
      rewrite lookup_app_l by (apply Hi, list_elem_of_here). intros Hl. apply H1. by eapply list_elem_of_lookup_2. }
    rewrite Hpre by (intros i Hi%elem_of_seq; lia).
    unfold close_turn at 2. rewrite list_lookup_middle by done. rewrite decide_True by done.
    rewrite close_turns_none.
    - cbn [fst]. rewrite take_app_length. rewrite !(firstn_all2 _ (n := n)) by (unfold n; lia).
      rewrite (drop_ge _ n) by (unfold n; lia). rewrite drop_app_ge by lia.
      replace (S (length l1) - length l1)%nat with 1%nat by lia. cbn. done.
    - cbn [fst]. intros i Hl. rewrite take_app_length in Hl.
      rewrite !(firstn_all2 _ (n := n)) in Hl by (unfold n; lia). rewrite (drop_ge _ n) in Hl by (unfold n; lia).
      rewrite drop_app_ge in Hl by lia. replace (S (length l1) - length l1)%nat with 1%nat in Hl by lia. cbn in Hl.
      apply list_elem_of_lookup_2 in Hl. rewrite !elem_of_app in Hl. destruct Hl as [?|[?|[?|[]%not_elem_of_nil]%elem_of_cons]]; done. }
  split; [done|]. unfold sdk_Destroy. cbn [nc_closed]. rewrite Hc, elem_of_app. left. rewrite elem_of_reverse, !elem_of_app.
  right. right. apply list_elem_of_here.
Qed.

(** ** The chain of an endpoint with address management *)
Definition ipam_chain (calls : list monitor_call) (pool : prefixPool) (t : LocalMechanismType) : list composite :=
  [MonitorComposite calls; IpamComposite pool; ConnectionComposite t].

Lemma chain_Request_ipam env calls pool t request rc :
  lr_Connection request = Some rc →
  (∃ e, chain_Request env (ipam_chain calls pool t) request = Ret (ipam_chain calls pool t, Err e)) ∨
  (∃ m, chain_Request env (ipam_chain calls pool t) request =
     match ipam_answer env pool request (new_connection m request) with
     | Panic w => Panic w
     | Ret (pool, Err e) => Ret (ipam_chain calls pool t, Err e)
     | Ret (pool, Ok c) => Ret (ipam_chain (ConnUpdate c :: calls) pool t, Ok c)
     end).
Proof.
  intros Hrc. unfold ipam_chain. cbn [chain_Request]. unfold monitor_Request, ipam_Request, connection_Request. destruct (lr_IsValid request) as [e|]; [left; by exists e|].
  cbn [length]. destruct (NewMechanism _ _ _ _) as [m|e]; [right; exists m|left; by exists e].
  cbn [with_next]. destruct (ipam_answer _ _ _ _) as [[pool' [c|e]]|]; done.
Qed.

(** A successful answer of the IPAM composite. *)
Lemma ipam_answer_ok env pool request new pool' c : ipam_answer env pool request new = Ret (pool', Ok c) →
  ∃ rc rctx conn ctx src dst prefixes, lr_Connection request = Some rc ∧ lc_Context rc = Some rctx ∧
    new = Some conn ∧ lc_Context conn = Some ctx ∧
    Extract pool (lc_Id rc) IpFamily_IPV4 (Some <$> ctx_ExtraPrefixRequest rctx) = Ret (Ok (pool', src, dst, prefixes)) ∧
    c = Some (lc_SetContext conn (Some (ipam_context env ctx src dst prefixes))) ∧ lc_IsComplete c = None.
Proof.
  unfold ipam_answer. destruct (lr_Connection request) as [rc|]; [|done]. destruct (lc_Context rc) as [rctx|] eqn:Ec; [|done].
  destruct (Extract _ _ _ _) as [[[[[p src] dst] prefixes]|e]|] eqn:Ee; try done. destruct new as [conn|]; [|done].
  destruct (lc_Context conn) as [ctx|] eqn:Ex; [|done]. destruct (lc_IsComplete _) eqn:El; [done|]. intros [= <- <-].
  exists rc, rctx, conn, ctx, src, dst, prefixes. split_and!; done.
Qed.

(** C12: an endpoint that manages addresses has a consistent pool with a merged
    free list and is asked for a connection whose id holds nothing.  When it
    answers, the connection is complete and carries the id of the request; its
    addresses are the first two host addresses of a /30 network of the pool's
    family, and its extra prefixes are others: the pool has recorded exactly
    this network and these prefixes under the id, and with what stays free
    they cover exactly what was free before.  Closing the connection gives the
    pool back all it had before, and the monitor is told of both. *)
Theorem ipam_request_close w env base pool free conns calls t request rc chain1 c :
  merge_order_ok (se_order env) → disjoint_blocks base → pool_inv w base pool free conns → merged free →
  lr_Connection request = Some rc → pool_connections pool !! lc_Id rc = None →
  chain_Request env (ipam_chain calls pool t) request = Ret (chain1, Ok c) →
  ∃ conn blk extra free1 ctx pool1 pool2, c = Some conn ∧ lc_IsComplete (Some conn) = None ∧ lc_Id conn = lc_Id rc ∧ lc_Context conn = Some ctx ∧
    chain1 = ipam_chain (ConnUpdate (Some conn) :: calls) pool1 t ∧
    pool_connections pool1 = <[lc_Id rc := mkConnectionRecord (net_of blk) (text <$> extra)]> (pool_connections pool) ∧
    pool_prefixes pool1 = text <$> free1 ∧ blk :: extra ++ free1 ≈ free ∧ inet w blk ∧ c_len blk = 30 ∧
    ctx_SrcIpAddr ctx = net_String (mkIPNet (ip_of w (c_val blk + 1)) (net_Mask (net_of blk))) ∧
    ctx_DstIpAddr ctx = net_String (mkIPNet (ip_of w (c_val blk + 2)) (net_Mask (net_of blk))) ∧
    ctx_ExtraPrefixes ctx = text <$> extra ∧
    chain_Close env chain1 conn = Ret (ipam_chain (ConnDelete conn :: ConnUpdate (Some conn) :: calls) pool2 t) ∧
    pool_prefixes pool2 ≡ₚ pool_prefixes pool ∧ pool_connections pool2 = pool_connections pool.
Proof.
  intros Ho Hd Hinv Hm Hrc Hid E. destruct (chain_Request_ipam env calls pool t request rc Hrc) as [[e E']|[m E']];
    rewrite E' in E; [done|]. destruct (ipam_answer _ _ _ _) as [[pool1 [c'|e]]|] eqn:Ea; try done. injection E as <- <-.
  destruct (ipam_answer_ok _ _ _ _ _ _ Ea) as (rc' & rctx & conn & ctx & src & dst & ps & Hrc' & Hctx & Hnew & Hc & Hx & -> & Hcomplete).
  rewrite Hrc in Hrc'. injection Hrc' as <-. unfold new_connection in Hnew. rewrite Hrc in Hnew. cbn in Hnew. injection Hnew as <-.
  destruct (extract_release_roundtrip w base pool free conns (se_order env) _ _ _ _ _ _ _ Ho Hd Hinv Hm Hid Hx) as (pool2 & Hrel & Hp & Hcn).
  destruct (Extract_cases _ _ _ _ _ (lc_Id rc) IpFamily_IPV4 (Some <$> ctx_ExtraPrefixRequest rctx) Hinv)
    as [[e E2]|(blk & extra & free1 & [Hb Hl _ _ Hcov] & E2)]; rewrite E2 in Hx; inv_ret.
  eexists _, blk, extra, free1, _, _, pool2. split; [done|]. split; [done|]. split; [done|]. split; [done|]. split; [done|].
  split_and!; try done; [by cbn; rewrite (pi_conns _ _ _ _ _ Hinv)|].
  unfold ipam_chain. cbn [chain_Close close_one]. unfold ipam_Close. cbn [lc_SetContext lc_Id]. by rewrite Hrel.
Qed.

(** When the connection is not complete, for instance because of an address
    of the host that is not one, the request fails and the pool keeps the
    addresses under the id of the request. *)
Lemma ipam_failure_keeps_addresses env pool request new pool' pool'' e rc rctx src dst ps :
  lr_Connection request = Some rc → lc_Context rc = Some rctx →
  Extract pool (lc_Id rc) IpFamily_IPV4 (Some <$> ctx_ExtraPrefixRequest rctx) = Ret (Ok (pool', src, dst, ps)) →
  ipam_answer env pool request new = Ret (pool'', Err e) →
  pool'' = pool' ∧ is_Some (pool_connections pool'' !! lc_Id rc).
Proof.
  intros Hrc Hctx Hx. unfold ipam_answer. rewrite Hrc, Hctx, Hx. destruct new as [conn|]; [|done].
  destruct (lc_Context conn); [|done]. destruct (lc_IsComplete _); [|done]. intros [= <- <-]. split; [done|].
  revert Hx. unfold Extract, bind_or.
  repeat case_match; try done; intros [= <- <- <- <-]; cbn; rewrite lookup_insert_eq; by eexists.
Qed.

(** ** Witnesses *)
Module Endpoint.
Definition kernel : LocalMechanism :=
  mkLocalMechanism KERNEL_INTERFACE (Some (list_to_map [(NetNsInodeKey, "4026"); (InterfaceNameKey, "eth1")])).
Definition rc : LocalConnection := mkLocalConnection "1" "icmp" None (Some empty_ConnectionContext) ∅ State_UP.
Definition request : LocalRequest := mkLocalRequest (Some rc) [kernel].
(** The third attempt of a client is granted. *)
Definition env : sdk_env :=
  mkSdkEnv (Ok "4026") (λ _, "a-b_c") (Ok [(Ok ["127.0.0.1/8"; "10.0.0.7/24"], "00:01")]) default_order
    (λ _ k, if (k <? 2)%nat then Err (Errorf "busy") else Ok rc).
Definition answer : list composite * option LocalConnection :=
  match chain_Request env (ipam_chain [] demo_pool KERNEL_INTERFACE) request with
  | Ret (chain, Ok c) => (chain, c)
  | _ => ([], None)
  end.
Lemma answer_eq : chain_Request env (ipam_chain [] demo_pool KERNEL_INTERFACE) request = Ret (answer.1, Ok answer.2).
Proof. by vm_compute. Qed.
Definition client : NsmClient := mkNsmClient "icmp" ∅ [] ∅ 1 [].
Definition mechanism : LocalMechanism :=
  match NewMechanism (Ok "4026") MEM_INTERFACE "nsm0" "memory" with Ok m => m | Err _ => kernel end.
End Endpoint.

Lemma ipam_request_close_witness : ∃ conn blk extra free1 ctx pool1 pool2, Endpoint.answer.2 = Some conn ∧
  lc_IsComplete (Some conn) = None ∧ lc_Id conn = "1" ∧ lc_Context conn = Some ctx ∧
  Endpoint.answer.1 = ipam_chain [ConnUpdate (Some conn)] pool1 KERNEL_INTERFACE ∧
  pool_connections pool1 = <["1" := mkConnectionRecord (net_of blk) (text <$> extra)]> (pool_connections demo_pool) ∧
  pool_prefixes pool1 = text <$> free1 ∧ blk :: extra ++ free1 ≈ demo_base ∧ inet 32 blk ∧ c_len blk = 30 ∧
  ctx_SrcIpAddr ctx = net_String (mkIPNet (ip_of 32 (c_val blk + 1)) (net_Mask (net_of blk))) ∧
  ctx_DstIpAddr ctx = net_String (mkIPNet (ip_of 32 (c_val blk + 2)) (net_Mask (net_of blk))) ∧
  ctx_ExtraPrefixes ctx = text <$> extra ∧
  chain_Close Endpoint.env Endpoint.answer.1 conn =
    Ret (ipam_chain [ConnDelete conn; ConnUpdate (Some conn)] pool2 KERNEL_INTERFACE) ∧
  pool_prefixes pool2 ≡ₚ pool_prefixes demo_pool ∧ pool_connections pool2 = pool_connections demo_pool.
Proof.
  exact (ipam_request_close 32 Endpoint.env demo_base demo_pool demo_base ∅ [] KERNEL_INTERFACE Endpoint.request Endpoint.rc
    Endpoint.answer.1 Endpoint.answer.2 default_order_ok demo_base_disjoint demo_inv (NoDup_singleton _) eq_refl eq_refl
    Endpoint.answer_eq).
Defined.
