(* ===== verification/SriovConfigmap.v ===== *)
(** * Discovery of virtual functions (examples/cmd/nsm-generate-sriov-configmap)

    The command reads the virtual functions of a host from sysfs, binds them
    to the vfio driver and writes them to a config map, which the controller
    of SriovController.v reads.  The files of the host, the kernel's answers
    and Kubernetes' are arguments; so is the YAML library. *)
From S2P Require Import Prelude GoStrings GoText.
From Stdlib Require Import Ascii.

Definition netDirectory : string := "/sys/class/net/".
Definition pciDirectory : string := "/sys/bus/pci/devices".
Definition nsmSRIOVDefaultNetworkServiceName : string := "networkservicemesh.io/sriov-nsm-default".
Definition nsmSRIOVNodeName : string := "networkservicemesh.io/sriov-node-name".
Definition nsmConfigmapNamePrefix : string := "nsm-sriov-configmap-".

(** What the YAML library sees of a virtual function: its exported fields. *)
Record VF := mkVF {
  vf_NetworkService : string;
  vf_PCIAddr : string;
  vf_ParentDevice : string;
  vf_VFLocalID : Z; (* int32 *)
  vf_VFIODevice : string
}.
#[global] Instance VF_eq_dec : EqDecision VF.
Proof. solve_decision. Defined.
Record discovered_VF := mkDiscovered {
  dv_VF : VF;
  dv_pciVendor : string;
  dv_pciType : string;
  dv_iommuGroup : string
}.
Notation VFs := (gmap string discovered_VF).
Definition newVFs : VFs := ∅.
Definition dv_PCIAddr (v : discovered_VF) : string := vf_PCIAddr (dv_VF v).
Definition with_device (dev : string) (v : discovered_VF) : discovered_VF :=
  let f := dv_VF v in
  mkDiscovered (mkVF (vf_NetworkService f) (vf_PCIAddr f) (vf_ParentDevice f) (vf_VFLocalID f) dev)
    (dv_pciVendor v) (dv_pciType v) (dv_iommuGroup v).
Definition with_pciAddr (addr : string) (v : discovered_VF) : discovered_VF :=
  let f := dv_VF v in
  mkDiscovered (mkVF (vf_NetworkService f) addr (vf_ParentDevice f) (vf_VFLocalID f) (vf_VFIODevice f))
    (dv_pciVendor v) (dv_pciType v) (dv_iommuGroup v).

(** ** The files of the host *)
Inductive file_mode := Regular | Symlink | OtherMode.
#[global] Instance file_mode_eq_dec : EqDecision file_mode.
Proof. solve_decision. Defined.
Record host := mkHost {
  os_ReadDir : string → result (list string);
  os_Lstat : string → result file_mode;
  os_Readlink : string → result string;
  os_ReadFile : string → result string
}.

Section discovery.
Context (h : host).

Definition is_regular (path : string) : bool :=
  match os_Lstat h path with Ok Regular => true | _ => false end.
Definition getSriovPfList (excludedPF : string) : result (list string) :=
  match os_ReadDir h netDirectory with
  | Err e => Err e
  | Ok netDevices =>
      Ok (List.filter (λ dev, is_regular (path_Join [netDirectory; dev; "device"; "sriov_numvfs"]) &&
                              negb (str_Contains excludedPF dev)) netDevices)
  end.

Definition readLinkData (link : string) : result string :=
  match os_Lstat h link with
  | Err e => Err (Wrapf "could not get directory information %s with error: %v" e)
  | Ok mode =>
      if decide (mode = Symlink) then
        match os_Readlink h link with
        | Err e => Err (Wrapf "cannot read symbolic %s with error: %+v" e)
        | Ok info => Ok info
        end
      else Err (Errorf "no symbolic link %s")
  end.

(** A vendor or type file: the text after the prefix [0x], up to the next one. *)
Definition pci_id (data : string) : string :=
  let data := trim_newlines data in
  if HasPrefix data "0x" then nth 1 (SplitOn data "0x") "" else data.

(** One turn of the loop over the virtual functions of a device. *)
Definition discover_vf (dev : string) (vfs : VFs) (vf : nat) : outcome VFs :=
  match readLinkData (("/sys/class/net/" +:+ dev +:+ "/device/virtfn") +:+ Itoa (Z.of_nat vf)) with
  | Err _ => Ret vfs
  | Ok pciInfo =>
      match str_drop 3 pciInfo with
      | None => Panic "slice bounds out of range"
      | Some pciAddr =>
          let vfPCIPath := path_Join [pciDirectory; pciAddr] in
          match os_ReadFile h (path_Join [vfPCIPath; "vendor"]), os_ReadFile h (path_Join [vfPCIPath; "device"]),
                readLinkData (path_Join [vfPCIPath; "iommu_group"]) with
          | Ok vendor, Ok type, Ok iommuGroup =>
              let pciAddr := replace_char ":" "-" pciAddr in
              Ret (<[pciAddr := mkDiscovered
                       (mkVF nsmSRIOVDefaultNetworkServiceName pciAddr dev (wrap_i32 (Z.of_nat vf)) "")
                       (pci_id vendor) (pci_id type) (List.last (Split iommuGroup "/") "")]> vfs)
          | _, _, _ => Ret vfs
          end
      end
  end.
(** The number in a file of sysfs. *)
Definition read_number (path : string) : result Z :=
  match os_ReadFile h path with
  | Err e => Err e
  | Ok data => match Atoi (TrimSpace data) with None => Err (Errorf "invalid syntax") | Some n => Ok n end
  end.
Definition discover_device (vfs : VFs) (dev : string) : outcome (VFs * option error) :=
  match read_number (path_Join [netDirectory; dev; "device"; "/sriov_totalvfs"]) with
  | Err e => Ret (vfs, Some e)
  | Ok numvfs =>
      if 0 <? numvfs then
        match read_number (netDirectory +:+ dev +:+ "/device" +:+ "/sriov_numvfs") with
        | Err e => Ret (vfs, Some e)
        | Ok numconfiguredvfs =>
            match foldM (discover_vf dev) vfs (seq 0 (Z.to_nat numconfiguredvfs)) with
            | Panic w => Panic w
            | Ret vfs => Ret (vfs, None)
            end
        end
      else Ret (vfs, None)
  end.
Fixpoint discover_devices (vfs : VFs) (devs : list string) : outcome (VFs * option error) :=
  match devs with
  | [] => Ret (vfs, None)
  | dev :: devs =>
      match discover_device vfs dev with
      | Panic w => Panic w
      | Ret (vfs, Some e) => Ret (vfs, Some e)
      | Ret (vfs, None) => discover_devices vfs devs
      end
  end.
Definition discoverNetworks (excludedPF : string) : outcome (VFs * option error) :=
  match getSriovPfList excludedPF with
  | Err e => Ret (∅, Some e)
  | Ok [] => Ret (∅, Some (Errorf "no SRIOV network device found"))
  | Ok pfList => discover_devices ∅ pfList
  end.
End discovery.

(** ** Binding to vfio: what the kernel answers for one virtual function *)
Inductive stat_result := Exists | NotExist | StatError (e : error).
Record binding := mkBinding {
  bind_Lstat : string → stat_result;      (* the vfio device, before *)
  bind_open_unbind : string → option error;
  bind_unbind : string → option error;    (* echo of the address *)
  bind_open_new_id : option error;
  bind_new_id : string → option error;    (* echo of the identifiers *)
  bind_Stat : nat → string → bool         (* the vfio device, at each tick *)
}.

(** [checkVFIOModule]: the output of lsmod and the error of modprobe. *)
Definition checkVFIOModule (lsmod : result string) (modprobe : option error) : option error :=
  match lsmod with
  | Err e => Some (Wrapf "lsmod failed with error: %+v, generated output: %s" e)
  | Ok out =>
      if str_Contains out "vfio_pci" then None
      else match modprobe with
           | Some e => Some (Wrapf "modprobe failed with error: %+v, generated output: %s" e)
           | None => None
           end
  end.
(** [waitAndRetry]: [r] ticks have passed. *)
Fixpoint waitAndRetry (retries r : nat) (check : nat → bool) : option error :=
  match retries with
  | O => Some (Errorf "timeout has expired")
  | S retries => if check r then None else waitAndRetry retries (S r) check
  end.
Definition bindVF (b : binding) (vf : discovered_VF) : option error :=
  let pciAddr := replace_char "-" ":" (dv_PCIAddr vf) in
  let unbindPath := "/sys/bus/pci/devices/" +:+ pciAddr +:+ "/driver/unbind" in
  match bind_open_unbind b unbindPath with
  | Some e => Some (Wrapf "fail to open unbind path %s with error: %+v" e)
  | None =>
      match bind_unbind b pciAddr with
      | Some e => Some (Wrapf "unbind failed with error: %+v" e)
      | None =>
          match bind_open_new_id b with
          | Some e => Some (Wrapf "fail to open bind path %s with error: %+v" e)
          | None =>
              match bind_new_id b (" " +:+ dv_pciVendor vf +:+ " " +:+ dv_pciType vf +:+ " ") with
              | Some e => Some (Wrapf "bind failed with error: %+v" e)
              | None => waitAndRetry 5 0 (λ r, bind_Stat b r (vf_VFIODevice (dv_VF vf)))
              end
          end
      end
  end.

(** One turn of the loop of [buildVFIODevices], for the key [i]: an entry
    that was deleted meanwhile is not visited. *)
Definition vfio_turn (kernel : string → binding) (vfs : VFs) (i : string) : outcome VFs :=
  match vfs !! i with
  | None => Ret vfs
  | Some vf =>
      match Atoi (dv_iommuGroup vf) with
      | None => Ret (delete (dv_PCIAddr vf) vfs)
      | Some iommuGroup =>
          let vfioDevice := "/dev/vfio/" +:+ Itoa iommuGroup in
          match bind_Lstat (kernel i) vfioDevice with
          | StatError _ => Ret (delete (dv_PCIAddr vf) vfs)
          | Exists | NotExist =>
              match vfs !! dv_PCIAddr vf with
              | None => Panic "nil pointer dereference"
              | Some _ =>
                  let vfs := alter (with_device vfioDevice) (dv_PCIAddr vf) vfs in
                  match bindVF (kernel i) (default vf (vfs !! i)) with
                  | None => Ret vfs
                  | Some _ => Ret (delete (dv_PCIAddr vf) vfs)
                  end
              end
          end
      end
  end.
Definition buildVFIODevices (lsmod : result string) (modprobe : option error) (kernel : string → binding)
    (order : list string) (vfs : VFs) : outcome (VFs * option error) :=
  match checkVFIOModule lsmod modprobe with
  | Some e => Ret (vfs, Some e)
  | None => match foldM (vfio_turn kernel) vfs order with Panic w => Panic w | Ret vfs => Ret (vfs, None) end
  end.

(** ** The config map *)
Record ConfigMap := mkConfigMap {
  cm_Name : string;
  cm_Namespace : string;
  cm_Labels : gmap string string;
  cm_Data : gmap string string
}.
(** The YAML library, on virtual functions and on config maps. *)
Record yaml := mkYaml {
  yaml_Marshal_vf : VF → result string;
  yaml_Unmarshal_vf : string → result VF;
  yaml_Marshal : ConfigMap → result string
}.

Section configmap.
Context (y : yaml).

(** The loop over the entries: the address of an entry is rewritten in place. *)
Fixpoint config_data (order : list string) (vfs : VFs) (data : gmap string string) :
    result (VFs * gmap string string) :=
  match order with
  | [] => Ok (vfs, data)
  | i :: order =>
      match vfs !! i with
      | None => config_data order vfs data
      | Some vf =>
          let key := dv_PCIAddr vf in
          let vf := with_pciAddr (replace_char "-" ":" key) vf in
          match yaml_Marshal_vf y (dv_VF vf) with
          | Err e => Err e
          | Ok text => config_data order (<[i := vf]> vfs) (<[key := text]> data)
          end
      end
  end.
Definition buildSRIOVConfigMap (nameSpace : string) (order : list string) (vfs : VFs) (hostName : string) :
    result (VFs * ConfigMap) :=
  match config_data order vfs ∅ with
  | Err e => Err e
  | Ok (vfs, data) =>
      Ok (vfs, mkConfigMap ("nsm-sriov-vf-list-" +:+ hostName) nameSpace
                 {["networkservicemesh.io/sriov" := "config"]} data)
  end.

(** Kubernetes and the file that is written. *)
Record cluster := mkCluster {
  k8s_buildClient : option error;
  k8s_Hostname : result string;
  k8s_Node : string → option error;
  k8s_WriteFile : string → string → option error
}.
(** The name of the file, the config map and its text. *)
Definition generateConfigMap (k : cluster) (nameSpace : string) (order : list string) (vfs : VFs) :
    result (string * ConfigMap * string) :=
  match k8s_buildClient k with
  | Some e => Err (Wrapf "failed to build kubernetes client with error: %+v" e)
  | None =>
      match k8s_Hostname k with
      | Err e => Err (Wrapf "failed to get hostname of a node with error: %+v" e)
      | Ok hostName =>
          match k8s_Node k hostName with
          | Some e => Err (Wrapf "hostname %s does not appear to be a valid node name in kuebrnetes cluster, error: %+v" e)
          | None =>
              match buildSRIOVConfigMap nameSpace order vfs hostName with
              | Err e => Err (Wrapf "failed to build SRIOV config map with error: %+v" e)
              | Ok (_, cf) =>
                  let cf := mkConfigMap (cm_Name cf) (cm_Namespace cf)
                              (<[nsmSRIOVNodeName := hostName]> (cm_Labels cf)) (cm_Data cf) in
                  match yaml_Marshal y cf with
                  | Err e => Err (Wrapf "failed to marshal SRIOV config map with error: %+v" e)
                  | Ok text =>
                      let configmapFileName := nsmConfigmapNamePrefix +:+ hostName +:+ ".yaml" in
                      match k8s_WriteFile k configmapFileName text with
                      | Some e => Err (Wrapf "failed to save SRIOV config map with error: %+v" e)
                      | None => Ok (configmapFileName, cf, text)
                      end
                  end
              end
          end
      end
  end.

(** [main]: the exit status, and the file when one was written.  The two
    orders are those of the loops over the map. *)
Record flags := mkFlags { noRebind : bool; noConfigMap : bool; excludedPF : string; nameSpace : string }.
Definition generator_main (f : flags) (h : host) (lsmod : result string) (modprobe : option error)
    (kernel : string → binding) (order1 order2 : VFs → list string) (k : cluster) :
    outcome (Z * option (string * ConfigMap * string)) :=
  match discoverNetworks h (excludedPF f) with
  | Panic w => Panic w
  | Ret (_, Some _) => Ret (1, None)
  | Ret (vfs, None) =>
      if decide (vfs = ∅) then Ret (0, None)
      else
        match (if noRebind f then Ret (vfs, None) else buildVFIODevices lsmod modprobe kernel (order1 vfs) vfs) with
        | Panic w => Panic w
        | Ret (_, Some _) => Ret (1, None)
        | Ret (vfs, None) =>
            if noConfigMap f then Ret (0, None)
            else match generateConfigMap k (nameSpace f) (order2 vfs) vfs with
                 | Err _ => Ret (1, None)
                 | Ok file => Ret (0, Some file)
                 end
        end
  end.
End configmap.
