(* ===== verification/SriovController.v ===== *)
(** * The controller of virtual functions (controllers/sriov-controller)

    The config controller turns the changes of a config map into messages;
    the service controller keeps a table of virtual functions per network
    service and starts one device plugin for each; a device plugin offers the
    functions of its service to the kubelet.  The channels between them are
    unbuffered, except the one that announces changes to [ListAndWatch].
    Registration is with the kubelet, whose answers are arguments. *)
From S2P Require Import Prelude GoStrings GoText SriovConfigmap.
From Stdlib Require Import Ascii.

Inductive operationType := operationAdd | operationDeleteAll | operationUpdate | operationDeleteEntry.
#[global] Instance operationType_eq_dec : EqDecision operationType.
Proof. solve_decision. Defined.
Record configMessage := mkConfigMessage { msg_op : operationType; msg_pciAddr : string; msg_vf : VF }.
Definition msg_service (m : configMessage) : string := vf_NetworkService (msg_vf m).

(** ** The config controller (sriov-controller.go) *)
Record message := mkMessage { m_op : operationType; m_configMap : ConfigMap }.

(** What the informer reports, and what the handlers put in the queue. *)
Inductive informer_event :=
  | Added (cm : ConfigMap)
  | Updated (old new : string) (cm : ConfigMap) (* the resource versions *)
  | Deleted (cm : ConfigMap).
Definition setupInformer (e : informer_event) : list message :=
  match e with
  | Added cm => [mkMessage operationAdd cm]
  | Updated old new cm => if decide (new = old) then [] else [mkMessage operationUpdate cm]
  | Deleted cm => [mkMessage operationDeleteAll cm]
  end.

Section config.
Context (y : yaml).
(** The orders of the loops over the data of a config map and over a map of
    virtual functions. *)
Context (data_order : gmap string string → list (string * string)).
Context (vf_order : gmap string VF → list (string * VF)).

Fixpoint parse_entries (order : list (string * string)) (vfs : gmap string VF) : result (gmap string VF) :=
  match order with
  | [] => Ok vfs
  | (k, v) :: order =>
      match yaml_Unmarshal_vf y v with
      | Err e => Err e
      | Ok vf => parse_entries order (<[k := vf]> vfs)
      end
  end.
Definition processConfigMap (cm : ConfigMap) : result (gmap string VF) :=
  parse_entries (data_order (cm_Data cm)) ∅.

Definition messages (op : operationType) (vfs : gmap string VF) : list configMessage :=
  (λ e, mkConfigMessage op e.1 e.2) <$> vf_order vfs.
(** [diffMap]: the entries whose keys the other map does not have. *)
Definition diffMap (m1 m2 : gmap string VF) : gmap string VF :=
  filter (λ e, m2 !! e.1 = None) m1.

(** The controller's map after the operation, and the messages it sent. *)
Definition processConfigMapAdd (vfs : gmap string VF) (cm : ConfigMap) :
    gmap string VF * list configMessage * option error :=
  match processConfigMap cm with
  | Err e => (vfs, [], Some e)
  | Ok vfs' => (vfs', messages operationAdd vfs', None)
  end.
Definition processConfigMapUpdate (vfs : gmap string VF) (cm : ConfigMap) :
    gmap string VF * list configMessage * option error :=
  match processConfigMap cm with
  | Err e => (vfs, [], Some e)
  | Ok vfs' =>
      (vfs', messages operationDeleteEntry (diffMap vfs vfs') ++ messages operationAdd (diffMap vfs' vfs), None)
  end.
Definition processConfigMapDelete (vfs : gmap string VF) (cm : ConfigMap) :
    gmap string VF * list configMessage * option error :=
  (∅, [mkConfigMessage operationDeleteAll "" (mkVF "" "" "" 0 "")], None).

(** One message of the queue; the error is logged. *)
Definition work_turn (vfs : gmap string VF) (m : message) : gmap string VF * list configMessage :=
  match m_op m with
  | operationAdd => (processConfigMapAdd vfs (m_configMap m)).1
  | operationUpdate => (processConfigMapUpdate vfs (m_configMap m)).1
  | operationDeleteAll => (processConfigMapDelete vfs (m_configMap m)).1
  | operationDeleteEntry => (vfs, [])
  end.
Fixpoint workforever (vfs : gmap string VF) (queue : list message) : gmap string VF * list configMessage :=
  match queue with
  | [] => (vfs, [])
  | m :: queue =>
      let (vfs, sent) := work_turn vfs m in
      let (vfs, sent') := workforever vfs queue in
      (vfs, sent ++ sent')
  end.
End config.

(** ** The service controller (service-controller.go)

    A handler is the sequence of its effects: on the tables, and on the
    device plugins. *)
Notation tables := (gmap string (gmap string VF)).
Inductive action :=
  | Create (ns : string) (vfs : gmap string VF)          (* a table and a device plugin *)
  | StoreVF (ns pciAddr : string) (vf : VF)
  | SendConfig (ns : string) (m : configMessage)
  | DropVF (ns pciAddr : string)
  | StopPlugin (ns : string)                             (* and wait until it has stopped *)
  | Forget (ns : string)
  | ForgetAll.

Definition newServiceController : tables := ∅.
Definition processAdd (sc : tables) (m : configMessage) : list action :=
  let ns := msg_service m in
  (match sc !! ns with None => [Create ns {[msg_pciAddr m := msg_vf m]}] | Some _ => [] end) ++
  [StoreVF ns (msg_pciAddr m) (msg_vf m); SendConfig ns m].
Definition processDeleteEntry (sc : tables) (m : configMessage) : list action :=
  let ns := msg_service m in
  match sc !! ns with
  | None => []
  | Some vfs =>
      [SendConfig ns m; DropVF ns (msg_pciAddr m)] ++
      (if decide (delete (msg_pciAddr m) vfs = ∅) then [StopPlugin ns; Forget ns] else [])
  end.
(** The new table goes to a copy of the instance and is lost. *)
Definition processUpdate (sc : tables) (m : configMessage) : list action :=
  let ns := msg_service m in
  match sc !! ns with None => [] | Some _ => [SendConfig ns m] end.
Definition sc_Stop (order : list string) : list action := (StopPlugin <$> order) ++ [ForgetAll].
Definition sc_Run (order : tables → list string) (sc : tables) (m : configMessage) : list action :=
  match msg_op m with
  | operationAdd => processAdd sc m
  | operationDeleteEntry => processDeleteEntry sc m
  | operationDeleteAll => sc_Stop (order sc)
  | operationUpdate => processUpdate sc m
  end.

(** ** Device plugins (dpapi-controller.go) *)
Definition updateChannelBufferSize : nat := 10.
Definition serverBasePath : string := "/var/lib/kubelet/device-plugins/".
Inductive registrationState := notRegistered | registrationInProgress | registered.
(** The loop of [Run]: it waits for messages, or it announces a change,
    holding the lock or not. *)
Inductive run_state := Waiting | Announcing | AnnouncingLocked.
(** [ListAndWatch]: not called yet, about to build a list, waiting, done. *)
Inductive watch_state := NotCalled | Building | Watching | Stopped.
#[global] Instance registrationState_eq_dec : EqDecision registrationState.
Proof. solve_decision. Defined.
#[global] Instance run_state_eq_dec : EqDecision run_state.
Proof. solve_decision. Defined.
#[global] Instance watch_state_eq_dec : EqDecision watch_state.
Proof. solve_decision. Defined.

Record Device := mkDevice { dev_ID : string; dev_Health : string }.
Record serviceInstanceController := mkSic {
  sic_vfs : gmap string VF;
  sic_regState : registrationState;
  sic_starting : option configMessage;   (* [startDevicePlugin] was started with this message *)
  sic_socket : string;
  sic_networkServiceName : string;
  sic_updates : nat;                     (* in the channel [regUpdateCh] *)
  sic_run : run_state;
  sic_watch : watch_state;
  sic_sent : list (list Device)          (* the lists the kubelet got, latest first *)
}.
Definition newServiceInstanceController : serviceInstanceController :=
  mkSic ∅ notRegistered None "" "" 0 Waiting NotCalled [].

Definition processAddVF (m : configMessage) (s : serviceInstanceController) : serviceInstanceController :=
  let fresh := bool_decide (sic_regState s = notRegistered) in
  mkSic (<[msg_pciAddr m := msg_vf m]> (sic_vfs s))
    (if fresh then registrationInProgress else sic_regState s) (if fresh then Some m else sic_starting s)
    (sic_socket s) (sic_networkServiceName s) (sic_updates s) Announcing (sic_watch s) (sic_sent s).
Definition processDeleteVF (m : configMessage) (s : serviceInstanceController) : serviceInstanceController :=
  mkSic (delete (msg_pciAddr m) (sic_vfs s)) (sic_regState s) (sic_starting s) (sic_socket s)
    (sic_networkServiceName s) (sic_updates s) AnnouncingLocked (sic_watch s) (sic_sent s).
(** [Run] receives a message when it waits for one.  Its [stopCh] is nil: the
    constructor stores the channel it gets as [regStopCh]. *)
Definition sic_Run (m : configMessage) (s : serviceInstanceController) : option serviceInstanceController :=
  match sic_run s with
  | Waiting =>
      Some (match msg_op m with
            | operationAdd => processAddVF m s
            | operationDeleteEntry => processDeleteVF m s
            | _ => s
            end)
  | _ => None
  end.
(** The send on [regUpdateCh], which blocks while the channel is full. *)
Definition announce (s : serviceInstanceController) : option serviceInstanceController :=
  if decide (sic_run s = Waiting) then None
  else if decide (sic_updates s < updateChannelBufferSize)%nat then
    Some (mkSic (sic_vfs s) (sic_regState s) (sic_starting s) (sic_socket s) (sic_networkServiceName s)
            (S (sic_updates s)) Waiting (sic_watch s) (sic_sent s))
  else None.

(** [startServer]: removing the old socket, listening, connecting. *)
Definition sic_cleanup (remove : stat_result) : option error :=
  match remove with StatError e => Some e | _ => None end.
Definition startServer (remove : stat_result) (listen dial : option error) : option error :=
  match sic_cleanup remove with
  | Some e => Some e
  | None => match listen with Some e => Some e | None => dial end
  end.
(** [startDevicePlugin]: the names and the server, whose error is dropped, then
    attempts to register until one succeeds. *)
Definition startDevicePlugin (server : option error) (s : serviceInstanceController) : option serviceInstanceController :=
  match sic_starting s with
  | None => None
  | Some m =>
      let ns := msg_service m in
      Some (mkSic (sic_vfs s) (sic_regState s) None
              (path_Join [serverBasePath; replace_char "/" "-" ns +:+ ".sock"]) ns
              (sic_updates s) (sic_run s) (sic_watch s) (sic_sent s))
  end.
(** [register]: the errors of the connection to the kubelet and of its answer. *)
Record RegisterRequest := mkRegisterRequest { rr_Endpoint : string; rr_ResourceName : string }.
Definition register_request (s : serviceInstanceController) : RegisterRequest :=
  mkRegisterRequest (path_Base (sic_socket s)) (sic_networkServiceName s).
Definition plugin_register (dial : option error) (kubelet : RegisterRequest → option error) (s : serviceInstanceController) :
    option error :=
  match dial with Some e => Some e | None => kubelet (register_request s) end.
Definition plugin_register_turn (dial : option error) (kubelet : RegisterRequest → option error)
    (s : serviceInstanceController) : option serviceInstanceController :=
  if decide (sic_regState s = registrationInProgress ∧ sic_starting s = None) then
    match plugin_register dial kubelet s with
    | Some _ => Some s
    | None => Some (mkSic (sic_vfs s) registered None (sic_socket s) (sic_networkServiceName s)
                      (sic_updates s) (sic_run s) (sic_watch s) (sic_sent s))
    end
  else None.
Definition Healthy : string := "Healthy".
Definition device_of (health : string) (vf : VF) : Device := mkDevice (vf_VFIODevice vf) health.
Definition buildDeviceList (health : string) (order : list (string * VF)) : list Device :=
  (λ e, device_of health e.2) <$> order.

Definition with_watch (w : watch_state) (updates : nat) (sent : list (list Device)) (s : serviceInstanceController) :
    serviceInstanceController :=
  mkSic (sic_vfs s) (sic_regState s) (sic_starting s) (sic_socket s) (sic_networkServiceName s)
    updates (sic_run s) w (sent ++ sic_sent s).
(** The kubelet calls [ListAndWatch] when the plugin registers; one stream. *)
Definition ListAndWatch (s : serviceInstanceController) : option serviceInstanceController :=
  if decide ((sic_regState s ≠ notRegistered ∧ sic_starting s = None) ∧ sic_watch s = NotCalled) then Some (with_watch Building (sic_updates s) [] s)
  else None.
(** Building takes the lock; the list is sent. *)
Definition watch_build (order : list (string * VF)) (s : serviceInstanceController) : option serviceInstanceController :=
  if decide (sic_watch s = Building ∧ sic_run s ≠ AnnouncingLocked) then
    Some (with_watch Watching (sic_updates s) [buildDeviceList Healthy order] s)
  else None.
Definition watch_update (s : serviceInstanceController) : option serviceInstanceController :=
  match sic_watch s, sic_updates s with
  | Watching, S updates => Some (with_watch Building updates [] s)
  | _, _ => None
  end.
Definition watch_stop (s : serviceInstanceController) : option serviceInstanceController :=
  match sic_watch s with
  | Watching => Some (with_watch Stopped (sic_updates s) [[]] s)
  | _ => None
  end.

(** What a device plugin can do on its own. *)
Inductive sic_step : serviceInstanceController → serviceInstanceController → Prop :=
  | sic_announces s s' : announce s = Some s' → sic_step s s'
  | sic_starts s s' remove listen dial : startDevicePlugin (startServer remove listen dial) s = Some s' → sic_step s s'
  | sic_registers s s' dial kubelet : plugin_register_turn dial kubelet s = Some s' → sic_step s s'
  | sic_is_watched s s' : ListAndWatch s = Some s' → sic_step s s'
  | sic_builds s s' order : is_range_of order (sic_vfs s) → watch_build order s = Some s' → sic_step s s'
  | sic_updates_list s s' : watch_update s = Some s' → sic_step s s'.

(** ** The service controller and its device plugins together *)
Record system := mkSystem {
  sys_tables : tables;
  sys_todo : list action;                                    (* of the handler that runs *)
  sys_plugins : gmap string serviceInstanceController
}.
Definition sys_init : system := mkSystem newServiceController [] ∅.
Definition act_tables (sc : tables) (a : action) : tables :=
  match a with
  | Create ns vfs => <[ns := vfs]> sc
  | StoreVF ns pci vf => alter (insert pci vf) ns sc
  | DropVF ns pci => alter (delete pci) ns sc
  | Forget ns => delete ns sc
  | ForgetAll => ∅
  | SendConfig _ _ | StopPlugin _ => sc
  end.
(** The effect on the plugins; [None] while the receiver is not ready.  A
    plugin that has stopped is dropped when the controller forgets it: nothing
    sends to it any more. *)
Definition act_plugins (ps : gmap string serviceInstanceController) (a : action) :
    option (gmap string serviceInstanceController) :=
  match a with
  | Create ns _ => Some (<[ns := newServiceInstanceController]> ps)
  | SendConfig ns m => p ← ps !! ns; p' ← sic_Run m p; Some (<[ns := p']> ps)
  | StopPlugin ns => p ← ps !! ns; p' ← watch_stop p; Some (<[ns := p']> ps)
  | Forget ns => Some (delete ns ps)
  | ForgetAll => Some ∅
  | StoreVF _ _ _ | DropVF _ _ => Some ps
  end.
Inductive sys_step : list configMessage → system → system → Prop :=
  | sys_receives s m order :
      sys_todo s = [] → (∀ sc, order sc ≡ₚ (map_to_list sc).*1) →
      sys_step [m] s (mkSystem (sys_tables s) (sc_Run order (sys_tables s) m) (sys_plugins s))
  | sys_acts s a todo ps :
      sys_todo s = a :: todo → act_plugins (sys_plugins s) a = Some ps →
      sys_step [] s (mkSystem (act_tables (sys_tables s) a) todo ps)
  | sys_plugin s ns p p' :
      sys_plugins s !! ns = Some p → sic_step p p' →
      sys_step [] s (mkSystem (sys_tables s) (sys_todo s) (<[ns := p']> (sys_plugins s))).
(** The system after it received the messages, in order. *)
Inductive sys_reaches : list configMessage → system → Prop :=
  | sys_start : sys_reaches [] sys_init
  | sys_next ms new s s' : sys_reaches ms s → sys_step new s s' → sys_reaches (ms ++ new) s'.

(** ** [Allocate] *)
Definition containersConfigPath : string := "/var/lib/networkservicemesh/sriov-controller/config".
Definition containerConfigFilePath : string := "/var/lib/networkservicemesh".
Definition nsmVFsPrefix : string := "NSM_VFS_".
Record vfioConfig := mkVfioConfig { vc_VFIODevice : string; vc_PCIAddr : string }.
Record DeviceSpec := mkDeviceSpec { ds_HostPath : string; ds_ContainerPath : string; ds_Permissions : string }.
Record Mount := mkMount { mount_ContainerPath : string; mount_HostPath : string; mount_ReadOnly : bool }.
Record ContainerAllocateResponse := mkContainerResponse {
  car_Devices : list DeviceSpec;
  car_Envs : gmap string string;
  car_Mounts : list Mount
}.

Definition checkVF (order : list (string * VF)) (id : string) : bool :=
  existsb (λ e, bool_decide (vf_VFIODevice e.2 = id)) order.
Fixpoint getVFIODevSpecs (order : list (string * VF)) (vfioDev : string) : result vfioConfig :=
  match order with
  | [] => Err (Errorf "vfio %s device is not found")
  | (_, vfio) :: order =>
      if decide (vf_VFIODevice vfio = vfioDev) then Ok (mkVfioConfig vfioDev (vf_PCIAddr vfio))
      else getVFIODevSpecs order vfioDev
  end.

Section allocate.
(** The order of the loops over the map that look for a device. *)
Context (order : string → list (string * VF)).

Definition device_spec (id : string) : DeviceSpec := mkDeviceSpec id id "rw".
Fixpoint allocate_devices (ids : list string) : result (list DeviceSpec * list vfioConfig) :=
  match ids with
  | [] => Ok ([], [])
  | id :: ids =>
      if checkVF (order id) id then
        match getVFIODevSpecs (order id) id with
        | Err e => Err (Wrapf "allocation request failure, unable to get device %s specs with error: %+v" e)
        | Ok vfioDev =>
            match allocate_devices ids with
            | Err e => Err e
            | Ok (specs, vfioDevs) => Ok (device_spec id :: specs, vfioDev :: vfioDevs)
            end
        end
      else Err (Errorf "allocation request failure, unknown device: %s")
  end.
Definition container_response (key configFileName : string) (specs : list DeviceSpec) : ContainerAllocateResponse :=
  mkContainerResponse (specs ++ [device_spec "/dev/vfio/vfio"])
    {[key := path_Join [containerConfigFilePath; configFileName]]}
    [mkMount (path_Join [containerConfigFilePath; configFileName]) (path_Join [containersConfigPath; configFileName]) true].
Fixpoint allocate_containers (key configFileName : string) (reqs : list (list string)) :
    result (list ContainerAllocateResponse * list vfioConfig) :=
  match reqs with
  | [] => Ok ([], [])
  | ids :: reqs =>
      match allocate_devices ids with
      | Err e => Err e
      | Ok (specs, vfioDevs) =>
          match allocate_containers key configFileName reqs with
          | Err e => Err e
          | Ok (rs, vfioDevs') => Ok (container_response key configFileName specs :: rs, vfioDevs ++ vfioDevs')
          end
      end
  end.
(** The name of the service without its organization and prefix. *)
Definition service_key (networkServiceName : string) : option string :=
  match Split networkServiceName "/" with
  | _ :: name :: _ =>
      let name := replace_char "-" "_" (ToLower name) in
      Some (if HasPrefix name "sriov_" then nth 1 (SplitOn name "sriov_") "" else name)
  | _ => None
  end.
(** The answer, and the file that was created with what was written to it:
    the list whose JSON text is its content, when writing succeeded. *)
Definition Allocate (networkServiceName : string) (create write : option error) (reqs : list (list string)) :
    outcome (result (list ContainerAllocateResponse) * option (string * option (list vfioConfig))) :=
  match service_key networkServiceName with
  | None => Panic "index out of range"
  | Some name =>
      match reqs with
      | (id :: _) :: _ =>
          let configFileName := name +:+ "_" +:+ path_file id +:+ ".json" in
          match create with
          | Some e => Ret (Err (Wrapf "fail to create network services config file with error: %+v" e), None)
          | None =>
              let file := path_Join [containersConfigPath; configFileName] in
              match allocate_containers (nsmVFsPrefix +:+ name) configFileName reqs with
              | Err e => Ret (Err e, Some (file, None))
              | Ok (responses, vfioDevs) =>
                  match write with
                  | Some e => Ret (Err (Wrapf "allocation request failure, unable to save config file with error: %+v" e), Some (file, None))
                  | None => Ret (Ok responses, Some (file, Some vfioDevs))
                  end
              end
          end
      | _ => Panic "index out of range"
      end
  end.
End allocate.
