(* ===== verification/SriovProps.v ===== *)
(** * Properties of the virtual functions: from the host to the kubelet *)
From S2P Require Import Prelude GoStrings GoText SriovConfigmap SriovController.
From Stdlib Require Import Ascii.

(** ** Tables and device plugins *)
Definition plugin_vfs (s : system) : tables := sic_vfs <$> sys_plugins s.
(** The effect of an action on the functions the plugins know. *)
Definition act_known (ks : tables) (a : action) : tables :=
  match a with
  | Create ns _ => <[ns := ∅]> ks
  | SendConfig ns m =>
      match msg_op m with
      | operationAdd => alter (insert (msg_pciAddr m) (msg_vf m)) ns ks
      | operationDeleteEntry => alter (delete (msg_pciAddr m)) ns ks
      | _ => ks
      end
  | Forget ns => delete ns ks
  | ForgetAll => ∅
  | StoreVF _ _ _ | DropVF _ _ | StopPlugin _ => ks
  end.

Lemma sic_Run_vfs m p p' : sic_Run m p = Some p' →
  sic_vfs p' = match msg_op m with
               | operationAdd => <[msg_pciAddr m := msg_vf m]> (sic_vfs p)
               | operationDeleteEntry => delete (msg_pciAddr m) (sic_vfs p)
               | _ => sic_vfs p
               end.
Proof. unfold sic_Run. destruct (sic_run p), (msg_op m); intros; by simplify_eq. Qed.
Lemma watch_stop_vfs p p' : watch_stop p = Some p' → sic_vfs p' = sic_vfs p.
Proof. unfold watch_stop. destruct (sic_watch p); intros; by simplify_eq. Qed.
Lemma sic_step_vfs p p' : sic_step p p' → sic_vfs p' = sic_vfs p.
Proof.
  destruct 1 as [? ? H|? ? ? ? ? H|? ? ? ? H|? ? H|? ? ? ? H|? ? H]; revert H;
    unfold announce, startDevicePlugin, plugin_register_turn, ListAndWatch, watch_build, watch_update;
    repeat case_match; intros; by simplify_eq.
Qed.

Lemma fmap_insert_alter (ps : gmap string serviceInstanceController) ns p p' f :
  ps !! ns = Some p → sic_vfs p' = f (sic_vfs p) → sic_vfs <$> <[ns := p']> ps = alter f ns (sic_vfs <$> ps).
Proof.
  intros Hp Hf. rewrite fmap_insert, Hf. apply map_eq. intros k. destruct (decide (k = ns)) as [->|].
  - by rewrite lookup_insert_eq, lookup_alter_eq, lookup_fmap, Hp.
  - by rewrite lookup_insert_ne, lookup_alter_ne.
Qed.
Lemma alter_same (ks : tables) ns : alter (λ t, t) ns ks = ks.
Proof. apply map_eq. intros k. destruct (decide (k = ns)) as [->|]; [rewrite lookup_alter_eq; by destruct (ks !! ns)|by rewrite lookup_alter_ne]. Qed.

Lemma act_plugins_known ps a ps' : act_plugins ps a = Some ps' → sic_vfs <$> ps' = act_known (sic_vfs <$> ps) a.
Proof.
  destruct a as [ns vfs|ns pci vf|ns m|ns pci|ns|ns|]; cbn; intros H; try by simplify_eq.
  - injection H as <-. by rewrite fmap_insert.
  - destruct (ps !! ns) as [p|] eqn:Hp; [|done]. cbn in H.
    destruct (sic_Run m p) as [p'|] eqn:Hr; [|done]. injection H as <-. apply sic_Run_vfs in Hr.
    destruct (msg_op m); try by apply (fmap_insert_alter _ _ p); try done.
    all: rewrite (fmap_insert_alter ps ns p p' (λ t, t)); [apply alter_same|done|done].
  - destruct (ps !! ns) as [p|] eqn:Hp; [|done]. cbn in H.
    destruct (watch_stop p) as [p'|] eqn:Hr; [|done]. injection H as <-. apply watch_stop_vfs in Hr.
    rewrite (fmap_insert_alter ps ns p p' (λ t, t)); [apply alter_same|done|done].
  - injection H as <-. by rewrite fmap_delete.
Qed.

(** What a handler does to the tables it also does to the plugins. *)
Lemma handler_agrees order sc m :
  foldl act_tables sc (sc_Run order sc m) = foldl act_known sc (sc_Run order sc m).
Proof.
  unfold sc_Run, processAdd, processDeleteEntry, processUpdate. destruct (msg_op m) eqn:Hop.
  - destruct (sc !! msg_service m) as [t|]; cbn; rewrite Hop; [done|].
    apply map_eq. intros k. destruct (decide (k = msg_service m)) as [->|].
    + rewrite !lookup_alter_eq, !lookup_insert_eq. cbn. by rewrite insert_singleton_eq, insert_empty.
    + by rewrite !lookup_alter_ne, !lookup_insert_ne.
  - unfold sc_Stop. rewrite !foldl_app. cbn. done.
  - destruct (sc !! msg_service m); cbn; [by rewrite Hop|done].
  - destruct (sc !! msg_service m) as [t|]; [|done]. cbn. rewrite Hop.
    case_decide; cbn; done.
Qed.

Definition handle (order : tables → list string) (sc : tables) (m : configMessage) : tables :=
  foldl act_tables sc (sc_Run order sc m).
Lemma stop_plugins_tables sc l : foldl act_tables sc (StopPlugin <$> l) = sc.
Proof. induction l; [done|]. cbn. done. Qed.
Lemma handle_order order order' sc m : handle order sc m = handle order' sc m.
Proof. unfold handle, sc_Run. destruct (msg_op m); try done. unfold sc_Stop. by rewrite !foldl_app. Qed.
Definition no_order : tables → list string := λ sc, (map_to_list sc).*1.
Definition handle_all : tables → list configMessage → tables := foldl (handle no_order).

Lemma sys_tables_agree ms s : sys_reaches ms s →
  foldl act_tables (sys_tables s) (sys_todo s) = handle_all ∅ ms ∧
  foldl act_known (plugin_vfs s) (sys_todo s) = handle_all ∅ ms.
Proof.
  induction 1 as [|ms new s s' Hr [IH1 IH2] Hstep].
  - split; [done|]. unfold plugin_vfs. cbn. by rewrite fmap_empty.
  - destruct Hstep as [s m order Htodo _|s a todo ps Htodo Hps|s ns p p' Hp Hs]; cbn [sys_tables sys_todo].
    + rewrite Htodo in IH1, IH2. cbn in IH1, IH2. unfold handle_all. rewrite foldl_app. cbn.
      fold (handle_all ∅ ms). unfold plugin_vfs in *. cbn [sys_plugins]. rewrite IH2, IH1, <-handler_agrees.
      split; apply handle_order.
    + rewrite Htodo in IH1, IH2. rewrite app_nil_r. split; [exact IH1|].
      unfold plugin_vfs in *. cbn [sys_plugins]. rewrite (act_plugins_known _ _ _ Hps). exact IH2.
    + rewrite app_nil_r. split; [exact IH1|]. unfold plugin_vfs in *. cbn [sys_plugins].
      rewrite (fmap_insert_alter _ _ p p' (λ t, t)), alter_same; [exact IH2|done|by apply sic_step_vfs].
Qed.

(** ** The list the kubelet has *)
Definition devices (vfs : gmap string VF) : list Device := buildDeviceList Healthy (map_to_list vfs).
Definition current (p : serviceInstanceController) : Prop :=
  ∃ l rest, sic_sent p = l :: rest ∧ l ≡ₚ devices (sic_vfs p).
(** A plugin with nothing left to do. *)
Definition quiet (p : serviceInstanceController) : Prop :=
  sic_watch p = Watching ∧ sic_updates p = 0%nat ∧ sic_run p = Waiting.
Definition watch_inv (p : serviceInstanceController) : Prop :=
  sic_watch p = Watching → current p ∨ (0 < sic_updates p)%nat ∨ sic_run p ≠ Waiting.

Lemma watch_build_current order p p' : is_range_of order (sic_vfs p) → watch_build order p = Some p' → current p'.
Proof.
  intros Hr. unfold watch_build. case_decide; [|done]. intros E. injection E as <-.
  eexists _, _. cbn. split; [done|]. unfold devices, buildDeviceList. by rewrite Hr.
Qed.
Lemma sic_step_watch_inv p p' : sic_step p p' → watch_inv p → watch_inv p'.
Proof.
  intros Hs Hinv. destruct Hs as [p p' H|p p' ? ? ? H|p p' dial kubelet H|p p' H|p p' order Hr H|p p' H].
  - revert H. unfold announce. repeat case_decide; try done. intros [= <-] _. right. left. cbn. lia.
  - revert H. unfold startDevicePlugin. case_match; [|done]. intros [= <-] Hw. destruct (Hinv Hw); auto.
  - revert H. unfold plugin_register_turn. case_decide; [|done]. case_match; intros [= <-]; [done|].
    intros Hw. destruct (Hinv Hw); auto.
  - revert H. unfold ListAndWatch. case_decide; [|done]. by intros [= <-].
  - intros _. left. by eapply watch_build_current.
  - revert H. unfold watch_update. destruct (sic_watch p), (sic_updates p); try done. by intros [= <-].
Qed.
Lemma sic_Run_watch_inv m p p' : sic_Run m p = Some p' → watch_inv p → watch_inv p'.
Proof.
  unfold sic_Run. destruct (sic_run p) eqn:E; [|done..]. intros [= <-] Hinv.
  destruct (msg_op m); try done; intros _; by right; right.
Qed.
Lemma act_plugins_watch_inv ps a ps' :
  act_plugins ps a = Some ps' → map_Forall (λ _, watch_inv) ps → map_Forall (λ _, watch_inv) ps'.
Proof.
  destruct a as [ns vfs|ns pci vf|ns m|ns pci|ns|ns|]; cbn; intros H Hps; try by simplify_eq.
  - injection H as <-. apply map_Forall_insert_2; [|done]. done.
  - destruct (ps !! ns) as [p|] eqn:Hp; [|done]. cbn in H. destruct (sic_Run m p) as [p'|] eqn:Hr; [|done].
    injection H as <-. apply map_Forall_insert_2; [|done]. eapply sic_Run_watch_inv; [done|]. by eapply Hps.
  - destruct (ps !! ns) as [p|] eqn:Hp; [|done]. cbn in H. destruct (watch_stop p) as [p'|] eqn:Hr; [|done].
    injection H as <-. apply map_Forall_insert_2; [|done]. revert Hr. unfold watch_stop.
    destruct (sic_watch p); try done. by intros [= <-].
  - injection H as <-. by apply map_Forall_delete.
Qed.
Lemma sys_watch_inv ms s : sys_reaches ms s → map_Forall (λ _, watch_inv) (sys_plugins s).
Proof.
  induction 1 as [|ms new s s' Hr IH Hstep]; [apply map_Forall_empty|].
  destruct Hstep as [s m order _ _|s a todo ps _ Hps|s ns p p' Hp Hs]; cbn [sys_plugins]; [done| |].
  - by eapply act_plugins_watch_inv.
  - apply map_Forall_insert_2; [|done]. eapply sic_step_watch_inv; [done|]. by eapply IH.
Qed.
Lemma quiet_current ms s ns p :
  sys_reaches ms s → sys_plugins s !! ns = Some p → quiet p → current p.
Proof.
  intros Hr Hp (Hw & Hu & Hrun). pose proof (sys_watch_inv ms s Hr ns p Hp Hw) as [?|[?|?]]; [done|lia|done].
Qed.

(** ** Tables and config maps *)
Definition of_service (ns : string) (m : gmap string VF) : gmap string VF :=
  filter (λ e, vf_NetworkService e.2 = ns) m.
Definition follows (sc : tables) (m : gmap string VF) : Prop :=
  ∀ ns, sc !! ns = if decide (of_service ns m = ∅) then None else Some (of_service ns m).

Lemma of_service_insert ns k v m : m !! k = None →
  of_service ns (<[k := v]> m) = if decide (vf_NetworkService v = ns) then <[k := v]> (of_service ns m) else of_service ns m.
Proof.
  intros Hk. unfold of_service. rewrite map_filter_insert. case_decide; cbn in *; case_decide; try done.
  by rewrite delete_id.
Qed.
Lemma of_service_delete ns k v m : m !! k = Some v →
  of_service ns (delete k m) = if decide (vf_NetworkService v = ns) then delete k (of_service ns m) else of_service ns m.
Proof.
  intros Hk. unfold of_service. rewrite map_filter_delete. case_decide as Hv; [done|].
  apply delete_id. apply map_lookup_filter_None. right. intros x Hx ?. by simplify_eq.
Qed.

Lemma handle_add order sc m k v : follows sc m → m !! k = None →
  follows (handle order sc (mkConfigMessage operationAdd k v)) (<[k := v]> m).
Proof.
  intros Hf Hk ns. rewrite of_service_insert by done. specialize (Hf ns).
  unfold handle, sc_Run, processAdd, msg_service. cbn [msg_op msg_vf msg_pciAddr].
  destruct (decide (vf_NetworkService v = ns)) as [<-|Hns].
  - rewrite (decide_False (P := <[_ := _]> _ = ∅)) by apply insert_non_empty.
    case_decide as He; rewrite Hf; cbn; rewrite lookup_alter_eq, ?lookup_insert_eq, ?Hf; cbn; [|done].
    by rewrite He, insert_singleton_eq, insert_empty.
  - destruct (sc !! vf_NetworkService v); cbn; rewrite lookup_alter_ne, ?lookup_insert_ne; done.
Qed.
Lemma handle_delete order sc m k v : follows sc m → m !! k = Some v →
  follows (handle order sc (mkConfigMessage operationDeleteEntry k v)) (delete k m).
Proof.
  intros Hf Hk ns. rewrite (of_service_delete ns k v) by done. pose proof (Hf ns) as Hns.
  pose proof (Hf (vf_NetworkService v)) as Hv. rewrite decide_False in Hv.
  2:{ intros E. assert (of_service (vf_NetworkService v) m !! k = Some v) as H by (by apply map_lookup_filter_Some).
      by rewrite E in H. }
  unfold handle, sc_Run, processDeleteEntry, msg_service. cbn [msg_op msg_vf msg_pciAddr]. rewrite Hv.
  destruct (decide (vf_NetworkService v = ns)) as [<-|Hne];
    destruct (decide (delete k (of_service (vf_NetworkService v) m) = ∅)) as [Hd|Hd]; cbn.
  - by rewrite lookup_delete_eq.
  - by rewrite lookup_alter_eq, Hv.
  - by rewrite lookup_delete_ne, lookup_alter_ne.
  - by rewrite lookup_alter_ne.
Qed.
Lemma handle_delete_all order sc : follows (handle order sc (mkConfigMessage operationDeleteAll "" (mkVF "" "" "" 0 ""))) ∅.
Proof.
  intros ns. unfold handle, sc_Run, sc_Stop, of_service. cbn. rewrite foldl_app. cbn.
  by rewrite map_filter_empty, decide_True.
Qed.

Lemma handle_adds l sc m :
  follows sc m → NoDup l.*1 → Forall (λ e, m !! e.1 = None) l →
  follows (handle_all sc ((λ e, mkConfigMessage operationAdd e.1 e.2) <$> l)) (list_to_map l ∪ m).
Proof.
  revert sc m. induction l as [|[k v] l IH]; intros sc m Hf Hnd Hl; cbn.
  - by rewrite map_empty_union.
  - apply NoDup_cons in Hnd as [Hk Hnd]. apply list.Forall_cons in Hl as [Hm Hl]. cbn in Hm.
    rewrite <-insert_union_l, insert_union_r by (by apply not_elem_of_list_to_map_1).
    apply (IH (handle no_order sc (mkConfigMessage operationAdd k v))); [by apply handle_add|done|].
    apply list.Forall_forall. intros [k' v'] He. rewrite list.Forall_forall in Hl. specialize (Hl _ He). cbn in *.
    rewrite lookup_insert_ne; [done|]. intros ->. apply Hk. by apply (list_elem_of_fmap_2 fst) in He.
Qed.
Lemma handle_deletes l sc m :
  follows sc m → NoDup l.*1 → Forall (λ e, m !! e.1 = Some e.2) l →
  follows (handle_all sc ((λ e, mkConfigMessage operationDeleteEntry e.1 e.2) <$> l)) (m ∖ list_to_map l).
Proof.
  revert sc m. induction l as [|[k v] l IH]; intros sc m Hf Hnd Hl; cbn.
  - by rewrite map_difference_empty.
  - apply NoDup_cons in Hnd as [Hk Hnd]. apply list.Forall_cons in Hl as [Hm Hl]. cbn in Hm.
    assert (m ∖ <[k := v]> (list_to_map l) = delete k m ∖ list_to_map l) as ->.
    { apply map_eq. intros i. apply option_eq. intros x. rewrite !lookup_difference_Some.
      destruct (decide (i = k)) as [->|]; [rewrite lookup_insert_eq, lookup_delete_eq; naive_solver|].
      by rewrite lookup_insert_ne, lookup_delete_ne. }
    apply (IH (handle no_order sc (mkConfigMessage operationDeleteEntry k v))); [by apply handle_delete|done|].
    apply list.Forall_forall. intros [k' v'] He. rewrite list.Forall_forall in Hl. specialize (Hl _ He). cbn in *.
    rewrite lookup_delete_ne; [done|]. intros ->. apply Hk. by apply (list_elem_of_fmap_2 fst) in He.
Qed.

Section config_tables.
Context (y : yaml).
Context (data_order : gmap string string → list (string * string)).
Context (vf_order : gmap string VF → list (string * VF)).
Hypothesis vf_order_ok : ∀ m, is_range_of (vf_order m) m.

Lemma order_NoDup m : NoDup (vf_order m).*1.
Proof. rewrite (vf_order_ok m). apply NoDup_fst_map_to_list. Qed.
Lemma order_elem m k v : (k, v) ∈ vf_order m ↔ m !! k = Some v.
Proof. rewrite (vf_order_ok m). apply elem_of_map_to_list. Qed.
Lemma order_map m : list_to_map (vf_order m) = m.
Proof.
  rewrite <-(list_to_map_to_list m) at 2. symmetry. apply list_to_map_proper; [apply NoDup_fst_map_to_list|].
  symmetry. apply vf_order_ok.
Qed.

Lemma follows_adds sc m new : follows sc m → m ##ₘ new →
  follows (handle_all sc (messages vf_order operationAdd new)) (new ∪ m).
Proof.
  intros Hf Hd. rewrite <-(order_map new) at 2. apply handle_adds; [done|apply order_NoDup|].
  apply list.Forall_forall. intros [k v] He%order_elem. eapply map_disjoint_Some_r; [exact Hd|exact He].
Qed.
Lemma follows_deletes sc m old : follows sc m → old ⊆ m →
  follows (handle_all sc (messages vf_order operationDeleteEntry old)) (m ∖ old).
Proof.
  intros Hf Hs. rewrite <-(order_map old) at 2. apply handle_deletes; [done|apply order_NoDup|].
  apply list.Forall_forall. intros [k v] He%order_elem. by eapply lookup_weaken.
Qed.

(** Entries of the old map that stay, and those that come. *)
Definition agree (m m' : gmap string VF) : Prop := ∀ k v v', m !! k = Some v → m' !! k = Some v' → v' = v.
Lemma diffMap_Some m1 m2 k v : diffMap m1 m2 !! k = Some v ↔ m1 !! k = Some v ∧ m2 !! k = None.
Proof. unfold diffMap. apply map_lookup_filter_Some. Qed.
Lemma diffMap_update m m' : agree m m' → diffMap m' m ∪ (m ∖ diffMap m m') = m'.
Proof.
  intros Ha. apply map_eq. intros k. apply option_eq. intros v.
  assert (diffMap m' m ##ₘ m ∖ diffMap m m') as Hdisj.
  { apply map_disjoint_spec. intros i x z [_ Hi]%diffMap_Some [Hz _]%lookup_difference_Some. congruence. }
  rewrite lookup_union_Some by done. rewrite diffMap_Some, lookup_difference_Some.
  destruct (m !! k) as [w|] eqn:Hm, (m' !! k) as [w'|] eqn:Hm'.
  - assert (diffMap m m' !! k = None) as ->.
    { destruct (diffMap m m' !! k) eqn:E; [|done]. apply diffMap_Some in E as [_ ?]. congruence. }
    rewrite (Ha k w w' Hm Hm'). naive_solver.
  - assert (diffMap m m' !! k = Some w) as -> by (by apply diffMap_Some). naive_solver.
  - naive_solver.
  - naive_solver.
Qed.

(** The changes of the config map that the controller follows: it is added
    once, and an entry that stays keeps its value. *)
Definition turn_ok (vfs : gmap string VF) (m : message) : Prop :=
  match m_op m with
  | operationAdd => vfs = ∅
  | operationUpdate =>
      match processConfigMap y data_order (m_configMap m) with Ok vfs' => agree vfs vfs' | Err _ => True end
  | _ => True
  end.
Fixpoint queue_ok (vfs : gmap string VF) (queue : list message) : Prop :=
  match queue with
  | [] => True
  | m :: queue => turn_ok vfs m ∧ queue_ok (work_turn y data_order vf_order vfs m).1 queue
  end.

Lemma work_turn_follows sc vfs m : follows sc vfs → turn_ok vfs m →
  follows (handle_all sc (work_turn y data_order vf_order vfs m).2) (work_turn y data_order vf_order vfs m).1.
Proof.
  intros Hf Hok. unfold work_turn, turn_ok in *. destruct (m_op m).
  - subst vfs. unfold processConfigMapAdd. destruct (processConfigMap _ _ _) as [vfs|e]; [|done]. cbn [fst snd].
    rewrite <-(map_union_empty vfs) at 2. apply follows_adds; [done|]. apply map_disjoint_empty_l.
  - cbn. apply handle_delete_all.
  - unfold processConfigMapUpdate. destruct (processConfigMap _ _ _) as [vfs'|e]; [|done]. cbn [fst snd].
    unfold handle_all. rewrite foldl_app. fold handle_all.
    rewrite <-(diffMap_update vfs vfs') at 3 by done. apply follows_adds.
    + apply follows_deletes; [done|]. apply map_filter_subseteq.
    + apply map_disjoint_spec. intros k v v' [Hv _]%lookup_difference_Some [_ Hv']%diffMap_Some. congruence.
  - done.
Qed.
Lemma workforever_follows queue sc vfs : follows sc vfs → queue_ok vfs queue →
  follows (handle_all sc (workforever y data_order vf_order vfs queue).2) (workforever y data_order vf_order vfs queue).1.
Proof.
  revert sc vfs. induction queue as [|m queue IH]; intros sc vfs Hf; [done|]. intros [Hm Hq].
  cbn [workforever]. pose proof (work_turn_follows sc vfs m Hf Hm) as Hf'.
  destruct (work_turn y data_order vf_order vfs m) as [vfs1 sent]. cbn in Hf', Hq.
  specialize (IH _ _ Hf' Hq). destruct (workforever y data_order vf_order vfs1 queue) as [vfs2 sent']. cbn in *.
  unfold handle_all. by rewrite foldl_app.
Qed.
End config_tables.

(** ** From the host to the config map *)
Definition keyed (vfs : VFs) : Prop := map_Forall (λ k v, dv_PCIAddr v = k) vfs.

(** What the files of a host say: a device has functions when it is listed
    and configured for them, and is not excluded; the links and files of a
    function give its address, its identifiers and its group. *)
Section functions.
Context (h : host).
Definition device_listed (ex dev : string) : Prop :=
  ∃ devs, os_ReadDir h netDirectory = Ok devs ∧ dev ∈ devs ∧
    os_Lstat h (path_Join [netDirectory; dev; "device"; "sriov_numvfs"]) = Ok Regular ∧ str_Contains ex dev = false.
Definition function_configured (dev : string) (n : nat) : Prop :=
  ∃ total count, read_number h (path_Join [netDirectory; dev; "device"; "/sriov_totalvfs"]) = Ok total ∧ 0 < total ∧
    read_number h (netDirectory +:+ dev +:+ "/device" +:+ "/sriov_numvfs") = Ok count ∧ Z.of_nat n < count.
Record function_files (dev : string) (n : nat) (addr vendor type group : string) : Prop := {
  ff_link : ∃ info, readLinkData h (("/sys/class/net/" +:+ dev +:+ "/device/virtfn") +:+ Itoa (Z.of_nat n)) = Ok info ∧
              str_drop 3 info = Some addr;
  ff_vendor : ∃ text, os_ReadFile h (path_Join [path_Join [pciDirectory; addr]; "vendor"]) = Ok text ∧ vendor = pci_id text;
  ff_type : ∃ text, os_ReadFile h (path_Join [path_Join [pciDirectory; addr]; "device"]) = Ok text ∧ type = pci_id text;
  ff_group : ∃ link, readLinkData h (path_Join [path_Join [pciDirectory; addr]; "iommu_group"]) = Ok link ∧
               group = List.last (Split link "/") ""
}.
Definition host_function (ex dev : string) (n : nat) (addr vendor type group : string) : Prop :=
  device_listed ex dev ∧ function_configured dev n ∧ function_files dev n addr vendor type group.

Definition dashed (addr : string) : string := replace_char ":" "-" addr.
Definition entry (dev : string) (n : nat) (addr vendor type group : string) : discovered_VF :=
  mkDiscovered (mkVF nsmSRIOVDefaultNetworkServiceName (dashed addr) dev (wrap_i32 (Z.of_nat n)) "") vendor type group.
(** A table has exactly the functions among those that were visited. *)
Definition lists_functions (visited : list (string * nat)) (vfs : VFs) : Prop :=
  ∀ k e, vfs !! k = Some e ↔ ∃ dev n addr vendor type group,
    (dev, n) ∈ visited ∧ function_files dev n addr vendor type group ∧ k = dashed addr ∧ e = entry dev n addr vendor type group.
(** Addresses are written with colons, and no two functions share one. *)
Definition addresses_ok (visited : list (string * nat)) : Prop :=
  ∀ dev n addr vendor type group, (dev, n) ∈ visited → function_files dev n addr vendor type group →
    lacks "-" addr = true ∧
    ∀ dev' n' vendor' type' group', (dev', n') ∈ visited → function_files dev' n' addr vendor' type' group' →
      dev' = dev ∧ n' = n.

Lemma function_files_unique dev n a v t g a' v' t' g' :
  function_files dev n a v t g → function_files dev n a' v' t' g' → a' = a ∧ v' = v ∧ t' = t ∧ g' = g.
Proof.
  intros [(i & L1 & L2) (vt & V1 & ->) (tt & T1 & ->) (gt & G1 & ->)]
    [(i' & L1' & L2') (vt' & V1' & ->) (tt' & T1' & ->) (gt' & G1' & ->)].
  assert (i' = i) as -> by congruence. assert (a' = a) as -> by congruence. split_and!; congruence.
Qed.
Lemma discover_vf_cases dev vfs n vfs' : discover_vf h dev vfs n = Ret vfs' →
  (∃ a v t g, function_files dev n a v t g ∧ vfs' = <[dashed a := entry dev n a v t g]> vfs) ∨
  ((∀ a v t g, ¬ function_files dev n a v t g) ∧ vfs' = vfs).
Proof.
  unfold discover_vf. destruct (readLinkData h _) as [info|e] eqn:L.
  2:{ intros [= <-]. right. split; [|done]. intros a v t g [(i & L' & _) _ _ _]. congruence. }
  destruct (str_drop 3 info) as [addr|] eqn:Ha; [|done].
  assert (∀ a v t g, function_files dev n a v t g → a = addr) as Haddr.
  { intros a v t g [(i & L' & Ha') _ _ _]. congruence. }
  cbn zeta. destruct (os_ReadFile h (path_Join [_; "vendor"])) as [vt|] eqn:V;
    [destruct (os_ReadFile h (path_Join [_; "device"])) as [tt|] eqn:T;
      [destruct (readLinkData h (path_Join [_; "iommu_group"])) as [gt|] eqn:G|]|]; intros [= <-].
  1: { left. exists addr, (pci_id vt), (pci_id tt), (List.last (Split gt "/") ""). split; [|done]. split; eauto. }
  all: right; split; [|done]; intros a v t g Hf; pose proof (Haddr _ _ _ _ Hf) as ->;
    destruct Hf as [_ (? & ? & _) (? & ? & _) (? & ? & _)]; congruence.
Qed.
Lemma dashed_inj a b : lacks "-" a = true → lacks "-" b = true → dashed a = dashed b → a = b.
Proof.
  intros Ha Hb E. rewrite <-(replace_char_inverse ":" "-" a), <-(replace_char_inverse ":" "-" b) by done.
  unfold dashed in E. by rewrite E.
Qed.
Lemma discover_vf_lists visited dev n vfs vfs' :
  addresses_ok (visited ++ [(dev, n)]) → lists_functions visited vfs → discover_vf h dev vfs n = Ret vfs' →
  lists_functions (visited ++ [(dev, n)]) vfs'.
Proof.
  intros Hok Hl [(a & v & t & g & Hf & ->)|(Hno & ->)]%discover_vf_cases k e.
  - rewrite lookup_insert_Some, (Hl k e). split.
    + intros [[<- <-]|(_ & d & m & a' & v' & t' & g' & Hin & ?)].
      * exists dev, n, a, v, t, g. split_and!; [apply elem_of_app; right; apply list_elem_of_here|done|done|done].
      * exists d, m, a', v', t', g'. split; [apply elem_of_app; by left|done].
    + intros (d & m & a' & v' & t' & g' & Hin & Hf' & -> & ->).
      assert ((dev, n) ∈ visited ++ [(dev, n)]) as Hn by (apply elem_of_app; right; apply list_elem_of_here).
      destruct (decide (dashed a = dashed a')) as [E|]; [left|right].
      * destruct (Hok _ _ _ _ _ _ Hn Hf) as [Ha Huniq], (Hok _ _ _ _ _ _ Hin Hf') as [Ha' _].
        apply dashed_inj in E as <-; [|done..]. destruct (Huniq _ _ _ _ _ Hin Hf') as [-> ->].
        destruct (function_files_unique _ _ _ _ _ _ _ _ _ _ Hf Hf') as (_ & -> & -> & ->). done.
      * split; [done|]. exists d, m, a', v', t', g'. apply elem_of_app in Hin as [Hin|Hin]; [done|].
        apply list_elem_of_singleton in Hin as [= -> ->].
        destruct (function_files_unique _ _ _ _ _ _ _ _ _ _ Hf Hf') as (-> & _). done.
  - rewrite (Hl k e). split; intros (d & m & a' & v' & t' & g' & Hin & Hf' & ?); exists d, m, a', v', t', g'.
    + split; [apply elem_of_app; by left|done].
    + apply elem_of_app in Hin as [Hin|Hin]; [done|]. apply list_elem_of_singleton in Hin as [= -> ->].
      by destruct (Hno a' v' t' g').
Qed.
Lemma discover_vfs_list dev ns : ∀ visited vfs vfs',
  addresses_ok (visited ++ (pair dev <$> ns)) → lists_functions visited vfs →
  foldM (discover_vf h dev) vfs ns = Ret vfs' → lists_functions (visited ++ (pair dev <$> ns)) vfs'.
Proof.
  induction ns as [|n ns IH]; intros visited vfs vfs' Hok Hl; cbn; [intros [= <-]; by rewrite app_nil_r|].
  destruct (discover_vf h dev vfs n) as [vfs1|] eqn:E; [|done]. cbn. intros Hfold.
  assert (visited ++ (dev, n) :: (pair dev <$> ns) = (visited ++ [(dev, n)]) ++ (pair dev <$> ns)) as EQ
    by (by rewrite <-app_assoc). cbn in Hok. rewrite EQ in *. apply (IH _ vfs1); [done| |done].
  eapply discover_vf_lists; [|done|done]. intros d m a v t g Hin Hf.
  destruct (Hok d m a v t g) as [H1 H2]; [apply elem_of_app; by left|done|]. split; [done|].
  intros d' m' v' t' g' Hin'. apply H2. apply elem_of_app; by left.
Qed.
Lemma discover_device_visits dev vfs vfs' : discover_device h vfs dev = Ret (vfs', None) →
  ∃ ns, foldM (discover_vf h dev) vfs ns = Ret vfs' ∧ ∀ n, n ∈ ns ↔ function_configured dev n.
Proof.
  unfold discover_device, function_configured. destruct (read_number h (path_Join _)) as [total|] eqn:Et; [|done].
  destruct (Z.ltb_spec 0 total).
  - destruct (read_number h (netDirectory +:+ _)) as [count|] eqn:Ec; [|done].
    destruct (foldM _ _ _) as [vfs1|] eqn:Ef; [|done]. intros [= <-]. eexists. split; [exact Ef|].
    intros n. rewrite elem_of_seq. split; [|naive_solver lia]. intros Hn. exists total, count. split_and!; [done..|lia].
  - intros [= <-]. exists []. split; [done|]. intros n. rewrite elem_of_nil. naive_solver lia.
Qed.
Lemma discover_devices_list devs : ∀ visited vfs vfs',
  (∀ all, (∀ p, p ∈ all → p ∈ visited ∨ p.1 ∈ devs ∧ function_configured p.1 p.2) → addresses_ok all) →
  lists_functions visited vfs → discover_devices h vfs devs = Ret (vfs', None) →
  ∃ all, lists_functions all vfs' ∧ ∀ p, p ∈ all ↔ p ∈ visited ∨ p.1 ∈ devs ∧ function_configured p.1 p.2.
Proof.
  induction devs as [|dev devs IH]; intros visited vfs vfs' Hok Hl; cbn.
  { intros [= <-]. exists visited. split; [done|]. intros p. rewrite elem_of_nil. naive_solver. }
  destruct (discover_device h vfs dev) as [[vfs1 [|]]|] eqn:Ed; try done. intros Hrest.
  apply discover_device_visits in Ed as (ns & Hfold & Hns).
  assert (∀ p, p ∈ pair dev <$> ns ↔ p.1 = dev ∧ function_configured p.1 p.2) as Hp.
  { intros [d m]. rewrite list_elem_of_fmap. cbn. split; [intros (m' & [= -> ->] & ?%Hns); done|].
    intros [-> ?%Hns]. by exists m. }
  destruct (IH (visited ++ (pair dev <$> ns)) vfs1 vfs') as (all & Hall & Hin); [| |done|].
  - intros all Hsub. apply Hok. intros p Hin%Hsub. rewrite elem_of_app, Hp in Hin. rewrite elem_of_cons. naive_solver.
  - eapply discover_vfs_list; [|done|done]. apply Hok. intros p. rewrite elem_of_app, Hp, elem_of_cons. naive_solver.
  - exists all. split; [done|]. intros p. rewrite Hin, elem_of_app, Hp, elem_of_cons. naive_solver.
Qed.
End functions.

(** The addresses of the functions of a host. *)
Definition host_addresses_ok (h : host) (ex : string) : Prop :=
  ∀ dev n addr vendor type group, host_function h ex dev n addr vendor type group →
    lacks "-" addr = true ∧
    ∀ dev' n' vendor' type' group', host_function h ex dev' n' addr vendor' type' group' → dev' = dev ∧ n' = n.
Lemma getSriovPfList_elem h ex devs dev : getSriovPfList h ex = Ok devs → dev ∈ devs ↔ device_listed h ex dev.
Proof.
  unfold getSriovPfList, device_listed, is_regular. destruct (os_ReadDir h netDirectory) as [all|]; [|done]. intros [= <-].
  rewrite list_elem_of_In, filter_In, <-list_elem_of_In, andb_true_iff, negb_true_iff. split.
  - intros (Hin & Hreg & Hex). exists all. split_and!; try done. by destruct (os_Lstat h _) as [[]|].
  - intros (all' & [= <-] & Hin & -> & Hex). done.
Qed.
Lemma discoverNetworks_exact h ex vfs : host_addresses_ok h ex → discoverNetworks h ex = Ret (vfs, None) →
  ∀ k e, vfs !! k = Some e ↔ ∃ dev n addr vendor type group,
    host_function h ex dev n addr vendor type group ∧ k = dashed addr ∧ e = entry dev n addr vendor type group.
Proof.
  intros Hok. unfold discoverNetworks. destruct (getSriovPfList h ex) as [devs|] eqn:Hpf; [|done].
  pose proof (λ dev, getSriovPfList_elem h ex devs dev Hpf) as Hdev.
  assert (∀ r, match devs with [] => Ret (∅, Some (Errorf "no SRIOV network device found")) | _ => r end = Ret (vfs, None) →
    r = Ret (vfs, None)) as Hne by (by destruct devs).
  intros Hd%Hne. destruct (discover_devices_list h devs [] ∅ vfs) as (all & Hall & Hin); [| |done|].
  - intros all Hsub d m a v t g Hd1%Hsub Hf. rewrite elem_of_nil, Hdev in Hd1. cbn in Hd1.
    destruct (Hok d m a v t g) as [H1 H2]; [unfold host_function; naive_solver|]. split; [done|].
    intros d' m' v' t' g' Hd2%Hsub Hf'. rewrite elem_of_nil, Hdev in Hd2. cbn in Hd2.
    eapply H2. unfold host_function; naive_solver.
  - intros k e. rewrite lookup_empty. split; [done|]. intros (? & ? & ? & ? & ? & ? & Hn & _). by apply elem_of_nil in Hn.
  - intros k e. rewrite (Hall k e). unfold host_function.
    split; intros (d & m & a & v & t & g & H); exists d, m, a, v, t, g.
    + destruct H as (Hd' & ?). rewrite Hin, elem_of_nil, Hdev in Hd'. naive_solver.
    + rewrite Hin, elem_of_nil, Hdev. naive_solver.
Qed.

(** *** Binding *)
(** What the kernel answers for a function that it binds to the vfio driver. *)
Record binds (b : binding) (addr vendor type device : string) : Prop := {
  bi_stat : ∀ e, bind_Lstat b device ≠ StatError e;
  bi_open_unbind : bind_open_unbind b ("/sys/bus/pci/devices/" +:+ addr +:+ "/driver/unbind") = None;
  bi_unbind : bind_unbind b addr = None;
  bi_open_new_id : bind_open_new_id b = None;
  bi_new_id : bind_new_id b (" " +:+ vendor +:+ " " +:+ type +:+ " ") = None;
  bi_appears : ∃ r, (r < 5)%nat ∧ bind_Stat b r device = true
}.
Lemma waitAndRetry_None n r check : waitAndRetry n r check = None ↔ ∃ k, (r ≤ k < r + n)%nat ∧ check k = true.
Proof.
  revert r. induction n as [|n IH]; intros r; cbn; [split; [done|intros (k & ? & _); lia]|]. destruct (check r) eqn:E.
  - split; [|done]. intros _. exists r. split; [lia|done].
  - rewrite IH. split; intros (k & Hk & Hc); exists k; (split; [|done]); [lia|].
    assert (k ≠ r) by (intros ->; congruence). lia.
Qed.
Definition vfio_device (g : Z) : string := "/dev/vfio/" +:+ Itoa g.
Definition bound_entry (b : binding) (v : discovered_VF) : option discovered_VF :=
  g ← Atoi (dv_iommuGroup v);
  let v := with_device (vfio_device g) v in
  match bind_Lstat b (vfio_device g), bindVF b v with
  | StatError _, _ | _, Some _ => None
  | _, None => Some v
  end.
Lemma bound_entry_Some b v v' : bound_entry b v = Some v' ↔
  ∃ g, Atoi (dv_iommuGroup v) = Some g ∧ v' = with_device (vfio_device g) v ∧
    binds b (replace_char "-" ":" (dv_PCIAddr v)) (dv_pciVendor v) (dv_pciType v) (vfio_device g).
Proof.
  unfold bound_entry. destruct (Atoi (dv_iommuGroup v)) as [g|]; cbn [mbind option_bind].
  2:{ split; [done|]. by intros (? & ? & _). }
  assert (bindVF b (with_device (vfio_device g) v) = None ∧ (∀ e, bind_Lstat b (vfio_device g) ≠ StatError e) ↔
    binds b (replace_char "-" ":" (dv_PCIAddr v)) (dv_pciVendor v) (dv_pciType v) (vfio_device g)) as Hb.
  { unfold bindVF, dv_PCIAddr. cbn [dv_VF with_device vf_PCIAddr dv_pciVendor dv_pciType vf_VFIODevice]. split.
    - intros [H Hs]. repeat case_match; try done. apply waitAndRetry_None in H as (r & ? & ?).
      split; try done. exists r. split; [lia|done].
    - intros [Hs -> -> -> -> (r & ? & ?)]. split; [|done]. apply waitAndRetry_None. exists r. split; [lia|done]. }
  split.
  - intros H. exists g. destruct (bind_Lstat b (vfio_device g)) eqn:Es, (bindVF b _) eqn:Eb; try done;
      injection H as <-; (split_and!; [done|done|]); apply Hb; by split.
  - intros (g' & [= <-] & -> & [Eb Es]%Hb). rewrite Eb.
    destruct (bind_Lstat b (vfio_device g)); [done|done|]. by destruct (Es e).
Qed.
Lemma vfio_turn_exact kernel vfs i : keyed vfs →
  vfio_turn kernel vfs i = Ret (partial_alter (λ o, o ≫= bound_entry (kernel i)) i vfs).
Proof.
  intros Hk. unfold vfio_turn. destruct (vfs !! i) as [v|] eqn:Hv.
  2:{ f_equal. apply map_eq. intros k.
      destruct (decide (k = i)) as [->|]; [by rewrite lookup_partial_alter_eq, Hv|by rewrite lookup_partial_alter_ne]. }
  assert (partial_alter (λ o, o ≫= bound_entry (kernel i)) i vfs = partial_alter (λ _, bound_entry (kernel i) v) i vfs) as ->.
  { apply partial_alter_ext. intros x Hx. assert (x = Some v) as -> by congruence. done. }
  rewrite (Hk i v Hv), Hv. unfold bound_entry. destruct (Atoi (dv_iommuGroup v)) as [g|]; cbn [mbind option_bind]; [|done].
  fold (vfio_device g). cbn zeta. rewrite lookup_alter_eq, Hv. cbn [fmap option_fmap option_map default from_option].
  assert (alter (with_device (vfio_device g)) i vfs = <[i := with_device (vfio_device g) v]> vfs) as Ha.
  { apply partial_alter_ext. intros x Hx. assert (x = Some v) as -> by congruence. done. }
  destruct (bind_Lstat _ _); try destruct (bindVF _ _); rewrite ?delete_alter_eq, ?Ha; done.
Qed.
Lemma vfio_turns kernel order : ∀ vfs, keyed vfs → NoDup order →
  ∃ vfs', foldM (vfio_turn kernel) vfs order = Ret vfs' ∧ keyed vfs' ∧
    ∀ k, vfs' !! k = if decide (k ∈ order) then vfs !! k ≫= bound_entry (kernel k) else vfs !! k.
Proof.
  induction order as [|i order IH]; intros vfs Hk Hnd; cbn [foldM]; [by exists vfs|].
  apply NoDup_cons in Hnd as [Hi Hnd]. rewrite vfio_turn_exact by done. cbn [mbind outcome_bind].
  destruct (IH (partial_alter (λ o, o ≫= bound_entry (kernel i)) i vfs)) as (vfs' & -> & Hk' & Hl); [|done|].
  - intros k v. destruct (decide (k = i)) as [->|]; [|rewrite lookup_partial_alter_ne by done; apply Hk].
    rewrite lookup_partial_alter_eq. intros (v0 & Hv0 & (g & _ & -> & _)%bound_entry_Some)%bind_Some. exact (Hk i v0 Hv0).
  - exists vfs'. split_and!; [done|done|]. intros k. rewrite Hl. destruct (decide (k = i)) as [->|Hne].
    + rewrite decide_False, decide_True by (done || apply list_elem_of_here). by rewrite lookup_partial_alter_eq.
    + rewrite lookup_partial_alter_ne by done. apply decide_ext. rewrite elem_of_cons. naive_solver.
Qed.

(** The entries of a config map, and what the controller reads from them. *)
Definition readdressed (v : discovered_VF) : VF := dv_VF (with_pciAddr (replace_char "-" ":" (dv_PCIAddr v)) v).
Lemma config_data_ok y order vfs data vfs' data' :
  keyed vfs → NoDup order → config_data y order vfs data = Ok (vfs', data') →
  (∀ k v, k ∈ order → vfs !! k = Some v → ∃ text, yaml_Marshal_vf y (readdressed v) = Ok text ∧ data' !! k = Some text) ∧
  ∀ k, k ∉ order ∨ vfs !! k = None → data' !! k = data !! k.
Proof.
  revert vfs data. cut (∀ vfs data, (∀ k v, k ∈ order → vfs !! k = Some v → dv_PCIAddr v = k) → NoDup order →
    config_data y order vfs data = Ok (vfs', data') →
    (∀ k v, k ∈ order → vfs !! k = Some v → ∃ text, yaml_Marshal_vf y (readdressed v) = Ok text ∧ data' !! k = Some text) ∧
    ∀ k, k ∉ order ∨ vfs !! k = None → data' !! k = data !! k).
  { intros H vfs data Hk. apply H. intros k v _. apply Hk. }
  induction order as [|i order IH]; intros vfs data Hk Hnd; cbn.
  { intros [= -> ->]. split; [|done]. intros k v. by rewrite elem_of_nil. }
  apply NoDup_cons in Hnd as [Hi Hnd]. destruct (vfs !! i) as [v|] eqn:Hv.
  - rewrite (Hk i v (list_elem_of_here _ _) Hv). destruct (yaml_Marshal_vf _ _) as [text|] eqn:Ht; [|done].
    intros [H1 H2]%IH; [| |done].
    2:{ intros k w Hin Hw. rewrite lookup_insert_ne in Hw by (by intros ->). eapply Hk; [by apply list_elem_of_further|done]. }
    split.
    + intros k w [->|Hin]%elem_of_cons Hw.
      * assert (w = v) as -> by congruence. exists text. unfold readdressed. rewrite (Hk i v (list_elem_of_here _ _) Hv).
        split; [done|]. rewrite H2 by (by left). by rewrite lookup_insert_eq.
      * apply H1; [done|]. rewrite lookup_insert_ne; [done|]. by intros ->.
    + intros k Hout. assert (k ≠ i) as Hne.
      { intros ->. destruct Hout as [Hout|]; [|congruence]. apply Hout. apply list_elem_of_here. }
      rewrite H2, lookup_insert_ne by (rewrite ?lookup_insert_ne by done; set_solver). done.
  - intros [H1 H2]%IH; [| |done].
    2:{ intros k w Hin. apply Hk. by apply list_elem_of_further. }
    split.
    + intros k w [->|Hin]%elem_of_cons Hw; [congruence|by apply H1].
    + intros k [Hout|Hn]; apply H2; [left; set_solver|by right].
Qed.
Lemma parse_entries_ok y order vfs :
  NoDup order.*1 → Forall (λ e, ∃ v, yaml_Unmarshal_vf y e.2 = Ok v) order →
  ∃ read, parse_entries y order vfs = Ok read ∧
    (∀ k t v, (k, t) ∈ order → yaml_Unmarshal_vf y t = Ok v → read !! k = Some v) ∧
    ∀ k, k ∉ order.*1 → read !! k = vfs !! k.
Proof.
  revert vfs. induction order as [|[k t] order IH]; intros vfs Hnd Hall; cbn.
  { exists vfs. split_and!; [done| |done]. intros k t v. by rewrite elem_of_nil. }
  apply NoDup_cons in Hnd as [Hk Hnd]. apply list.Forall_cons in Hall as [[v Hv] Hall]. cbn in Hv. rewrite Hv.
  destruct (IH (<[k := v]> vfs) Hnd Hall) as (read & -> & H1 & H2). exists read. split_and!; [done| |].
  - intros k' t' v' [E|Hin]%elem_of_cons Hu; [|by eapply H1]. injection E as -> ->.
    rewrite Hv in Hu. injection Hu as ->. rewrite H2 by done. by rewrite lookup_insert_eq.
  - intros k' [? ?]%not_elem_of_cons. rewrite H2 by done. by rewrite lookup_insert_ne.
Qed.

(** The orders of the loops over maps, as the language allows them. *)
Definition keys_order (order : VFs → list string) : Prop := ∀ m, order m ≡ₚ (map_to_list m).*1.
Lemma keys_order_elem order m k : keys_order order → k ∈ order m ↔ is_Some (m !! k).
Proof.
  intros Ho. rewrite (Ho m). rewrite list_elem_of_fmap. split.
  - intros ([k' v] & -> & H%elem_of_map_to_list). by exists v.
  - intros [v Hv]. exists (k, v). split; [done|]. by apply elem_of_map_to_list.
Qed.
Lemma keys_order_NoDup order m : keys_order order → NoDup (order m).
Proof. intros Ho. rewrite (Ho m). apply NoDup_fst_map_to_list. Qed.

Lemma generateConfigMap_Ok y k ns order vfs file cm text :
  generateConfigMap y k ns order vfs = Ok (file, cm, text) →
  ∃ hostName vfs', k8s_Hostname k = Ok hostName ∧ config_data y order vfs ∅ = Ok (vfs', cm_Data cm) ∧
    file = "nsm-sriov-configmap-" +:+ hostName +:+ ".yaml" ∧ cm_Name cm = "nsm-sriov-vf-list-" +:+ hostName ∧
    cm_Namespace cm = ns ∧ cm_Labels cm !! nsmSRIOVNodeName = Some hostName.
Proof.
  unfold generateConfigMap. destruct (k8s_buildClient k); [done|]. destruct (k8s_Hostname k) as [hostName|]; [|done].
  destruct (k8s_Node k hostName); [done|]. unfold buildSRIOVConfigMap.
  destruct (config_data y order vfs ∅) as [[vfs' data]|]; [|done]. cbn zeta.
  destruct (yaml_Marshal y _); [|done]. destruct (k8s_WriteFile k _ _); [done|]. intros [= <- <- _].
  exists hostName, vfs'. split_and!; [done..|]. cbn [cm_Labels]. by rewrite lookup_insert_eq.
Qed.

(** Reading a generated config map back: entry by entry the functions, with
    their addresses in the usual form. *)
Lemma generated_read_back y data_order order vfs vfs' cm :
  (∀ m, is_range_of (data_order m) m) → keys_order order → keyed vfs →
  (∀ v text, yaml_Marshal_vf y v = Ok text → yaml_Unmarshal_vf y text = Ok v) →
  config_data y (order vfs) vfs ∅ = Ok (vfs', cm_Data cm) →
  processConfigMap y data_order cm = Ok (readdressed <$> vfs).
Proof.
  intros Hd Ho Hk Hy Hc. apply config_data_ok in Hc as [H1 H2]; [|done|by apply keys_order_NoDup].
  assert (∀ k text, cm_Data cm !! k = Some text → ∃ v, vfs !! k = Some v ∧ yaml_Unmarshal_vf y text = Ok (readdressed v)) as Hdata.
  { intros k text Ht. destruct (vfs !! k) as [v|] eqn:Hv.
    - destruct (H1 k v) as (text' & Hm & Ht'); [by apply keys_order_elem|done|]. exists v. split; [done|].
      assert (text' = text) as -> by congruence. by apply Hy.
    - rewrite H2 in Ht by (by right). by rewrite lookup_empty in Ht. }
  unfold processConfigMap.
  assert (NoDup (data_order (cm_Data cm)).*1) as Hnd by (rewrite (Hd (cm_Data cm)); apply NoDup_fst_map_to_list).
  destruct (parse_entries_ok y (data_order (cm_Data cm)) ∅ Hnd) as (read & -> & Hr1 & Hr2).
  { apply list.Forall_forall. intros [k t]. rewrite (Hd (cm_Data cm)). intros Ht%elem_of_map_to_list. cbn.
    destruct (Hdata k t Ht) as (v & _ & ?). by eexists. }
  f_equal. apply map_eq. intros k. rewrite lookup_fmap. destruct (vfs !! k) as [v|] eqn:Hv; cbn.
  - destruct (H1 k v) as (text & Hm & Ht); [by apply keys_order_elem|done|].
    apply (Hr1 k text); [rewrite (Hd (cm_Data cm)); by apply elem_of_map_to_list|by apply Hy].
  - rewrite Hr2, lookup_empty; [done|]. rewrite (Hd (cm_Data cm)), list_elem_of_fmap.
    intros ([k' t] & -> & Ht%elem_of_map_to_list). cbn in Hv. destruct (Hdata k' t Ht) as (v & ? & _). congruence.
Qed.

(** C32: When the command that lists the virtual functions of a host, with
    rebinding, writes a config map, it is the one of the node, in its file,
    labelled with the name of the node the controller selects it by, and the
    controller reads back from it exactly the functions that the files of the
    host list and the kernel binds to vfio.  Listed are, for each device that
    is not excluded, the functions below its configured number whose links and
    files can be read; a function is read under its address with dashes, with
    the default service, its address, its device and number, and the vfio
    device of its group, which appeared within five checks.  The YAML library is
    assumed to read what it wrote, the addresses in the files to be written
    with colons, without dashes, and to be different for different functions. *)
Theorem generated_functions_bound y data_order f h lsmod modprobe kernel order1 order2 k file cm text :
  (∀ m, is_range_of (data_order m) m) → keys_order order1 → keys_order order2 →
  (∀ v t, yaml_Marshal_vf y v = Ok t → yaml_Unmarshal_vf y t = Ok v) →
  host_addresses_ok h (excludedPF f) → noRebind f = false →
  generator_main y f h lsmod modprobe kernel order1 order2 k = Ret (0, Some (file, cm, text)) →
  ∃ read hostName, processConfigMap y data_order cm = Ok read ∧ k8s_Hostname k = Ok hostName ∧
    file = "nsm-sriov-configmap-" +:+ hostName +:+ ".yaml" ∧ cm_Name cm = "nsm-sriov-vf-list-" +:+ hostName ∧
    cm_Namespace cm = nameSpace f ∧ cm_Labels cm !! nsmSRIOVNodeName = Some hostName ∧
    ∀ key vf, read !! key = Some vf ↔ ∃ dev n addr vendor type group g,
      host_function h (excludedPF f) dev n addr vendor type group ∧ Atoi group = Some g ∧
      binds (kernel key) addr vendor type (vfio_device g) ∧ key = dashed addr ∧
      vf = mkVF nsmSRIOVDefaultNetworkServiceName addr dev (wrap_i32 (Z.of_nat n)) (vfio_device g).
Proof.
  intros Hd Ho1 Ho2 Hy Hok Hf. unfold generator_main.
  destruct (discoverNetworks h (excludedPF f)) as [[vfs []]|] eqn:Hdisc; try done.
  pose proof (discoverNetworks_exact h _ vfs Hok Hdisc) as Hex. case_decide; [done|]. rewrite Hf.
  unfold buildVFIODevices. destruct (checkVFIOModule lsmod modprobe); [done|].
  assert (keyed vfs) as Hk0 by (by intros key e (? & ? & ? & ? & ? & ? & _ & -> & ->)%Hex).
  destruct (vfio_turns kernel (order1 vfs) vfs Hk0) as (vfs' & -> & Hk & Hl); [by apply keys_order_NoDup|].
  destruct (noConfigMap f); [done|]. destruct (generateConfigMap _ _ _ _ _) as [[[file' cm'] text']|] eqn:Hg; [|done].
  intros [= -> -> ->]. apply generateConfigMap_Ok in Hg as (hostName & vfs'' & Hh & Hc & Hfile & Hname & Hns & Hlab).
  exists (readdressed <$> vfs'), hostName. split_and!; [by eapply generated_read_back|done..|].
  intros key vf. rewrite lookup_fmap_Some.
  assert (∀ v', vfs' !! key = Some v' ↔ ∃ v, vfs !! key = Some v ∧ bound_entry (kernel key) v = Some v') as Hv'.
  { intros v'. rewrite Hl. case_decide as Hin; [by rewrite bind_Some|].
    rewrite (keys_order_elem order1 vfs key Ho1) in Hin. split; [intros E; destruct Hin; by eexists|].
    intros (v & E & _). destruct Hin; by eexists. }
  split.
  - intros (v' & <- & (v & (dev & n & a & ve & t & g & Hfun & -> & ->)%Hex & (gn & Hgn & -> & Hb)%bound_entry_Some)%Hv').
    destruct (Hok _ _ _ _ _ _ Hfun) as [Ha _]. exists dev, n, a, ve, t, g, gn.
    unfold readdressed, dv_PCIAddr, dashed in *. cbn in *. rewrite replace_char_inverse in Hb by done.
    rewrite replace_char_inverse by done. done.
  - intros (dev & n & a & ve & t & g & gn & Hfun & Hgn & Hb & -> & ->).
    destruct (Hok _ _ _ _ _ _ Hfun) as [Ha _].
    exists (with_device (vfio_device gn) (entry dev n a ve t g)). split.
    + unfold readdressed, dv_PCIAddr, dashed. cbn. by rewrite replace_char_inverse.
    + apply Hv'. exists (entry dev n a ve t g). split; [apply Hex; by exists dev, n, a, ve, t, g|].
      apply bound_entry_Some. exists gn. unfold dv_PCIAddr, dashed in *. cbn. by rewrite replace_char_inverse.
Qed.

(** C10: The controller, its device plugins and the config map agree.  After a
    sequence of changes of the config map in which it is added once at a time
    and entries that stay keep their values, a network service has a device
    plugin exactly if the config map has functions of the service; and when
    the service controller and a plugin have nothing left to do, the last list
    the kubelet got from the plugin is the list of these functions. *)
Theorem kubelet_sees_configmap y data_order vf_order queue vfs sent s :
  (∀ m, is_range_of (vf_order m) m) →
  queue_ok y data_order vf_order ∅ queue →
  workforever y data_order vf_order ∅ queue = (vfs, sent) →
  sys_reaches sent s → sys_todo s = [] →
  ∀ ns, (is_Some (sys_plugins s !! ns) ↔ of_service ns vfs ≠ ∅) ∧
    ∀ p, sys_plugins s !! ns = Some p → quiet p →
      ∃ l rest, sic_sent p = l :: rest ∧ l ≡ₚ devices (of_service ns vfs).
Proof.
  intros Ho Hq Hw Hr Htodo ns. destruct (sys_tables_agree sent s Hr) as [_ Hk]. rewrite Htodo in Hk. cbn in Hk.
  pose proof (workforever_follows y data_order vf_order Ho queue ∅ ∅) as Hf. rewrite Hw in Hf. cbn in Hf.
  assert (follows ∅ ∅) as H0 by (intros ns'; unfold of_service; by rewrite map_filter_empty, decide_True).
  specialize (Hf H0 Hq ns). rewrite <-Hk in Hf. unfold plugin_vfs in Hf. rewrite lookup_fmap in Hf. split.
  - destruct (sys_plugins s !! ns) as [p|]; cbn in Hf; case_decide; split; done.
  - intros p Hp Hquiet. destruct (quiet_current sent s ns p Hr Hp Hquiet) as (l & rest & Hsent & Hl).
    exists l, rest. split; [done|]. rewrite Hp in Hf. cbn in Hf. case_decide; [done|]. by injection Hf as <-.
Qed.

(** ** Allocation *)
Section allocation.
Context (vfs : gmap string VF) (order : string → list (string * VF)).
Hypothesis order_ok : ∀ id, is_range_of (order id) vfs.

Definition known (id : string) : Prop := ∃ k vf, vfs !! k = Some vf ∧ vf_VFIODevice vf = id.
(** What a container learns of a device it got. *)
Definition describes (id : string) (c : vfioConfig) : Prop :=
  vc_VFIODevice c = id ∧ ∃ k vf, vfs !! k = Some vf ∧ vf_VFIODevice vf = id ∧ vf_PCIAddr vf = vc_PCIAddr c.

Lemma checkVF_true id : checkVF (order id) id = true ↔ known id.
Proof.
  unfold checkVF. rewrite existsb_exists. split.
  - intros ([k vf] & Hin & Hid%bool_decide_eq_true). apply list_elem_of_In in Hin.
    rewrite (order_ok id) in Hin. apply elem_of_map_to_list in Hin. by exists k, vf.
  - intros (k & vf & Hk & Hid). exists (k, vf). split; [|by apply bool_decide_eq_true].
    apply list_elem_of_In. rewrite (order_ok id). by apply elem_of_map_to_list.
Qed.
Lemma getVFIODevSpecs_sound id l c : (∀ e, e ∈ l → vfs !! e.1 = Some e.2) → getVFIODevSpecs l id = Ok c → describes id c.
Proof.
  induction l as [|[k vf] l IH]; intros Hl; cbn; [done|]. case_decide as Hd.
  - intros [= <-]. split; [done|]. exists k, vf. split_and!; [|done|done]. apply (Hl (k, vf)), list_elem_of_here.
  - apply IH. intros e He. apply Hl. by apply list_elem_of_further.
Qed.
Lemma getVFIODevSpecs_complete id l : checkVF l id = true → ∃ c, getVFIODevSpecs l id = Ok c.
Proof.
  induction l as [|[k vf] l IH]; cbn; [done|]. case_decide; [by eexists|].
  rewrite bool_decide_eq_false_2 by done. exact IH.
Qed.
Lemma getVFIODevSpecs_known id : known id → ∃ c, getVFIODevSpecs (order id) id = Ok c ∧ describes id c.
Proof.
  intros Hk%checkVF_true. destruct (getVFIODevSpecs_complete id _ Hk) as [c Hc]. exists c. split; [done|].
  eapply getVFIODevSpecs_sound; [|done]. intros [k vf]. rewrite (order_ok id). apply elem_of_map_to_list.
Qed.

Lemma allocate_devices_known ids : Forall known ids →
  ∃ devs, allocate_devices order ids = Ok (device_spec <$> ids, devs) ∧ Forall2 describes ids devs.
Proof.
  induction 1 as [|id ids Hid _ (devs & IH & Hdevs)]; cbn; [by exists []|].
  rewrite (proj2 (checkVF_true id) Hid). destruct (getVFIODevSpecs_known id Hid) as (c & -> & Hc).
  rewrite IH. exists (c :: devs). split; [done|]. by constructor.
Qed.
Lemma allocate_devices_Ok ids r : allocate_devices order ids = Ok r → Forall known ids.
Proof.
  revert r. induction ids as [|id ids IH]; intros r; cbn; [done|]. destruct (checkVF (order id) id) eqn:Hc; [|done].
  destruct (getVFIODevSpecs _ _); [|done]. destruct (allocate_devices order ids) as [[specs devs]|] eqn:Ha; [|done].
  intros _. constructor; [by apply checkVF_true|by eapply IH].
Qed.
Lemma allocate_containers_known key file reqs : Forall (Forall known) reqs →
  ∃ devs, allocate_containers order key file reqs =
            Ok ((λ ids, container_response key file (device_spec <$> ids)) <$> reqs, devs) ∧
    Forall2 describes (concat reqs) devs.
Proof.
  induction 1 as [|ids reqs Hids _ (devs & IH & Hdevs)]; cbn; [by exists []|].
  destruct (allocate_devices_known ids Hids) as (devs' & -> & Hdevs'). rewrite IH.
  exists (devs' ++ devs). split; [done|]. by apply Forall2_app.
Qed.
Lemma allocate_containers_Ok key file reqs r : allocate_containers order key file reqs = Ok r → Forall (Forall known) reqs.
Proof.
  revert r. induction reqs as [|ids reqs IH]; intros r; cbn; [done|].
  destruct (allocate_devices order ids) as [[specs devs]|] eqn:Ha; [|done].
  destruct (allocate_containers order key file reqs) as [[rs devs']|] eqn:Hr; [|done].
  intros _. constructor; [by eapply allocate_devices_Ok|by eapply IH].
Qed.
End allocation.

(** A request for devices of a network service succeeds exactly if the
    plugin knows all of them.  Every container then gets the devices it asked
    for in order and the vfio device, and the configuration file that is
    mounted into it lists, for every device in order, a PCI address the plugin
    has for that device; if a device is unknown the file is left empty. *)
Lemma Allocate_exact vfs order name key reqs id ids rest :
  (∀ id, is_range_of (order id) vfs) → service_key name = Some key → reqs = (id :: ids) :: rest →
  let configFileName := key +:+ "_" +:+ path_file id +:+ ".json" in
  let file := path_Join [containersConfigPath; configFileName] in
  (Forall (Forall (known vfs)) reqs ∧ ∃ devs,
     Allocate order name None None reqs =
       Ret (Ok ((λ ids, container_response (nsmVFsPrefix +:+ key) configFileName (device_spec <$> ids)) <$> reqs),
            Some (file, Some devs)) ∧
     Forall2 (describes vfs) (concat reqs) devs) ∨
  (¬ Forall (Forall (known vfs)) reqs ∧ ∃ e, Allocate order name None None reqs = Ret (Err e, Some (file, None))).
Proof.
  intros Ho Hkey Hreqs configFileName file. unfold Allocate. rewrite Hkey, Hreqs. cbn zeta. rewrite <-Hreqs.
  destruct (allocate_containers order (nsmVFsPrefix +:+ key) configFileName reqs) as [r|e] eqn:Ha.
  - left. apply (allocate_containers_Ok vfs order Ho) in Ha as Hk. split; [done|].
    destruct (allocate_containers_known vfs order Ho (nsmVFsPrefix +:+ key) configFileName reqs Hk) as (devs & Ha' & Hd).
    fold configFileName. rewrite Ha'. by exists devs.
  - right. fold configFileName. rewrite Ha. split; [|by exists e]. intros Hk.
    destruct (allocate_containers_known vfs order Ho (nsmVFsPrefix +:+ key) configFileName reqs Hk) as (devs & Ha' & _).
    congruence.
Qed.

(** ** Behaviours that deserve attention *)
(** An update that only changes values, such as the service of a function,
    sends nothing. *)
Lemma changed_values_ignored y data_order vf_order vfs cm vfs' :
  (∀ m, is_range_of (vf_order m) m) → processConfigMap y data_order cm = Ok vfs' → dom vfs = dom vfs' →
  processConfigMapUpdate y data_order vf_order vfs cm = (vfs', [], None).
Proof.
  intros Ho Hp Hdom. unfold processConfigMapUpdate. rewrite Hp.
  assert (∀ m1 m2, dom m1 = dom m2 → diffMap m1 m2 = ∅) as Hd.
  { intros m1 m2 E. apply map_eq. intros k. apply option_eq. intros v. rewrite diffMap_Some, lookup_empty. split; [|done].
    intros [Hk Hn]. apply not_elem_of_dom in Hn. rewrite <-E in Hn. by apply elem_of_dom_2 in Hk. }
  rewrite !Hd by done. unfold messages. assert (vf_order ∅ = []) as ->; [|done].
  apply Permutation_nil_r. rewrite (Ho ∅). by rewrite map_to_list_empty.
Qed.

(** What one plugin can come to, whatever messages it gets. *)
Inductive plugin_reaches : serviceInstanceController → Prop :=
  | plugin_new : plugin_reaches newServiceInstanceController
  | plugin_message m p p' : plugin_reaches p → sic_Run m p = Some p' → plugin_reaches p'
  | plugin_steps p p' : plugin_reaches p → sic_step p p' → plugin_reaches p'.
Lemma plugin_round m p p' p'' :
  plugin_reaches p → sic_Run m p = Some p' → announce p' = Some p'' → plugin_reaches p''.
Proof. intros Hp Hm Ha. eapply plugin_steps; [|by apply sic_announces]. by eapply plugin_message. Qed.

Definition function (ns addr dev : string) : VF := mkVF ns addr "eth0" 0 dev.
Definition add_function : configMessage :=
  mkConfigMessage operationAdd "0000-01-10.0" (function "nsm/vlan10" "0000:01:10.0" "/dev/vfio/67").
Definition delete_function : configMessage :=
  mkConfigMessage operationDeleteEntry "0000-01-10.0" (function "nsm/vlan10" "0000:01:10.0" "/dev/vfio/67").
Definition one_function : gmap string VF := {["0000-01-10.0" := function "nsm/vlan10" "0000:01:10.0" "/dev/vfio/67"]}.
(** The plugin after it was told [n] times of the function. *)
Definition told (n : nat) : serviceInstanceController :=
  mkSic one_function registrationInProgress (Some add_function) "" "" n Waiting NotCalled [].
Lemma plugin_told n : (n < 10)%nat → plugin_reaches (told (S n)).
Proof.
  induction n as [|n IH]; intros Hn.
  - eapply (plugin_round add_function); [apply plugin_new|reflexivity|reflexivity].
  - eapply (plugin_round add_function); [apply IH; lia|reflexivity|]. unfold announce. rewrite decide_False by done.
    cbn [sic_updates processAddVF told msg_op add_function]. rewrite decide_True by (unfold updateChannelBufferSize; lia). done.
Qed.
(** Ten additions before the kubelet calls, then a deletion: the loop waits
    for room in the channel with the lock, [ListAndWatch] for the lock. *)
Definition stuck_plugin : serviceInstanceController :=
  mkSic ∅ registered None "/var/lib/kubelet/device-plugins/nsm-vlan10.sock" "nsm/vlan10" 10 AnnouncingLocked Building [].
Lemma full_buffer_deadlock : plugin_reaches stuck_plugin ∧
  (∀ p, ¬ sic_step stuck_plugin p) ∧ (∀ m, sic_Run m stuck_plugin = None) ∧ watch_stop stuck_plugin = None.
Proof.
  split_and!; [| |done|done].
  - set (plugin := λ vfs reg run watch,
      mkSic vfs reg None "/var/lib/kubelet/device-plugins/nsm-vlan10.sock" "nsm/vlan10" 10 run watch []).
    assert (plugin_reaches (plugin one_function registrationInProgress Waiting NotCalled)) as H.
    { eapply plugin_steps; [apply (plugin_told 9); lia|]. by apply (sic_starts _ _ NotExist None None). }
    assert (plugin_reaches (plugin one_function registered Waiting NotCalled)) as H'.
    { eapply plugin_steps; [exact H|]. by apply (sic_registers _ _ None (λ _, None)). }
    assert (plugin_reaches (plugin ∅ registered AnnouncingLocked NotCalled)) as H''.
    { by eapply (plugin_message delete_function); [exact H'|]. }
    eapply plugin_steps; [exact H''|]. by apply sic_is_watched.
  - intros p Hs. remember stuck_plugin as q eqn:Hq.
    destruct Hs as [? ? E|? ? ? ? ? E|? ? ? ? E|? ? E|? ? ? ? E|? ? E]; subst; by vm_compute in E.
Qed.
(** A device whose name is part of an excluded one is excluded too. *)
Lemma excluded_by_substring dir lstat link file :
  getSriovPfList (mkHost (λ _, Ok [dir]) lstat link file) (dir +:+ "0") = Ok [].
Proof.
  unfold getSriovPfList. cbn. assert (str_Contains (dir +:+ "0") dir = true) as ->.
  { apply str_Contains_spec. exists "", "0". done. }
  by rewrite andb_false_r.
Qed.

(** ** Instances *)
Module Functions.
Definition service : string := "nsm/vlan10".
Definition socket : string := "/var/lib/kubelet/device-plugins/nsm-vlan10.sock".
Definition listed : list Device := [mkDevice "/dev/vfio/67" Healthy].
Definition text_yaml (ns : string) : yaml :=
  mkYaml (λ v, if decide (v = function ns "0000:01:10.0" "/dev/vfio/67") then Ok "vf" else Err (Errorf "yaml"))
    (λ _, Ok (function ns "0000:01:10.0" "/dev/vfio/67")) (λ _, Ok "configmap").
Definition host_map : ConfigMap := mkConfigMap "nsm-sriov-vf-list-node" "default" ∅ {["0000-01-10.0" := "vf"]}.
Definition plugin (reg : registrationState) (starting : option configMessage) (sock ns : string) (n : nat)
    (watch : watch_state) (sent : list (list Device)) : serviceInstanceController :=
  mkSic one_function reg starting sock ns n Waiting watch sent.
Definition serving (p : serviceInstanceController) : system :=
  mkSystem {[service := one_function]} [] {[service := p]}.

Lemma plugin_moves ms p p' : sys_reaches ms (serving p) → sic_step p p' → sys_reaches ms (serving p').
Proof.
  intros Hr Hs. rewrite <-(app_nil_r ms). eapply sys_next; [exact Hr|].
  assert (serving p' = mkSystem (sys_tables (serving p)) (sys_todo (serving p))
            (<[service := p']> (sys_plugins (serving p)))) as ->.
  { unfold serving. cbn [sys_tables sys_todo sys_plugins]. by rewrite insert_singleton_eq. }
  eapply sys_plugin; [|exact Hs]. apply lookup_singleton_eq.
Qed.
Lemma acts ms sc a todo ps sc' ps' :
  sys_reaches ms (mkSystem sc (a :: todo) ps) → act_tables sc a = sc' → act_plugins ps a = Some ps' →
  sys_reaches ms (mkSystem sc' todo ps').
Proof.
  intros Hr <- Hps. rewrite <-(app_nil_r ms). eapply sys_next; [exact Hr|]. by apply (sys_acts (mkSystem sc (a :: todo) ps)).
Qed.
Lemma added : sys_reaches [add_function] (serving (plugin registrationInProgress (Some add_function) "" "" 1 NotCalled [])).
Proof.
  eapply plugin_moves; [|apply (sic_announces (processAddVF add_function newServiceInstanceController)); reflexivity].
  eapply (acts _ {[service := one_function]} (SendConfig service add_function) [] {[service := newServiceInstanceController]});
    [|reflexivity|reflexivity].
  eapply (acts _ {[service := one_function]} (StoreVF service "0000-01-10.0" (msg_vf add_function)) _
            {[service := newServiceInstanceController]}); [|reflexivity|reflexivity].
  eapply (acts _ ∅ (Create service one_function) _ ∅); [|reflexivity|reflexivity].
  apply (sys_next [] [add_function] sys_init); [apply sys_start|].
  apply (sys_receives sys_init add_function no_order); [done|]. by intros sc.
Qed.
Lemma served : sys_reaches [add_function] (serving (plugin registered None socket service 0 Watching [listed; listed])).
Proof.
  assert (is_range_of (map_to_list one_function) one_function) as Hr by (unfold is_range_of; done).
  eapply plugin_moves; [|apply (sic_builds (plugin registered None socket service 0 Building [listed]) _ _ Hr); reflexivity].
  eapply plugin_moves; [|apply (sic_updates_list (plugin registered None socket service 1 Watching [listed])); reflexivity].
  eapply plugin_moves; [|apply (sic_builds (plugin registered None socket service 1 Building []) _ _ Hr); reflexivity].
  eapply plugin_moves; [|apply (sic_is_watched (plugin registered None socket service 1 NotCalled [])); reflexivity].
  eapply plugin_moves; [|apply (sic_registers (plugin registrationInProgress None socket service 1 NotCalled []) _ None (λ _, None)); reflexivity].
  eapply plugin_moves; [|apply (sic_starts (plugin registrationInProgress (Some add_function) "" "" 1 NotCalled []) _ NotExist None None); reflexivity].
  exact added.
Qed.
Lemma served_queue : queue_ok (text_yaml service) map_to_list map_to_list ∅ [mkMessage operationAdd host_map].
Proof. by split. Qed.

Lemma kubelet_sees_configmap_witness :
  is_Some (sys_plugins (serving (plugin registered None socket service 0 Watching [listed; listed])) !! service) ∧
  ∃ l rest, [listed; listed] = l :: rest ∧ l ≡ₚ devices (of_service service one_function).
Proof.
  destruct (kubelet_sees_configmap (text_yaml service) map_to_list map_to_list [mkMessage operationAdd host_map] one_function
              [add_function] (serving (plugin registered None socket service 0 Watching [listed; listed]))) with (ns := service)
    as [Hp Hl].
  - intros m. unfold is_range_of. done.
  - exact served_queue.
  - vm_compute. reflexivity.
  - exact served.
  - reflexivity.
  - split; [apply Hp; vm_compute; discriminate|].
    apply (Hl (plugin registered None socket service 0 Watching [listed; listed])); [reflexivity|]. by split_and!.
Defined.

(** A host with one device and one function. *)
Definition one_host : host :=
  mkHost (λ _, Ok ["eth0"])
    (λ p, Ok (if decide (p = "/sys/class/net/eth0/device/sriov_numvfs") then Regular else Symlink))
    (λ p, Ok (if decide (p = "/sys/class/net/eth0/device/virtfn0") then "../0000:01:10.0" else "../../kernel/iommu_groups/67"))
    (λ p, Ok (if str_Contains p "sriov" then "1" else "0x8086")).
Definition willing (_ : string) : binding := mkBinding (λ _, NotExist) (λ _, None) (λ _, None) None (λ _, None) (λ r _, (1 <? r)%nat).
Definition node : cluster := mkCluster None (Ok "node") (λ _, None) (λ _ _, None).
Definition keys (m : VFs) : list string := (map_to_list m).*1.
Definition default_yaml : yaml := text_yaml nsmSRIOVDefaultNetworkServiceName.
Definition generated : ConfigMap :=
  mkConfigMap "nsm-sriov-vf-list-node" "default"
    {[nsmSRIOVNodeName := "node"; "networkservicemesh.io/sriov" := "config"]} {["0000-01-10.0" := "vf"]}.
Lemma one_host_function dev n addr vendor type group : host_function one_host "" dev n addr vendor type group →
  dev = "eth0" ∧ n = 0%nat ∧ addr = "0000:01:10.0".
Proof.
  intros ((devs & [= <-] & Hdev%list_elem_of_singleton & _) & (total & count & _ & _ & Hc & Hn) & [(info & Hl & Ha) _ _ _]).
  subst dev. split; [done|]. assert (count = 1) as -> by (vm_compute in Hc; congruence).
  assert (n = 0%nat) as -> by lia. split; [done|]. vm_compute in Hl. injection Hl as <-. vm_compute in Ha. congruence.
Qed.
Lemma one_host_addresses : host_addresses_ok one_host "".
Proof.
  intros dev n addr vendor type group (-> & -> & ->)%one_host_function. split; [done|].
  intros dev' n' vendor' type' group' (-> & -> & _)%one_host_function. done.
Qed.
Lemma generated_functions_bound_witness : ∃ read hostName,
  processConfigMap default_yaml map_to_list generated = Ok read ∧ k8s_Hostname node = Ok hostName ∧
  "nsm-sriov-configmap-node.yaml" = "nsm-sriov-configmap-" +:+ hostName +:+ ".yaml" ∧
  cm_Name generated = "nsm-sriov-vf-list-" +:+ hostName ∧ cm_Namespace generated = "default" ∧
  cm_Labels generated !! nsmSRIOVNodeName = Some hostName ∧
  ∀ key vf, read !! key = Some vf ↔ ∃ dev n addr vendor type group g,
    host_function one_host "" dev n addr vendor type group ∧ Atoi group = Some g ∧
    binds (willing key) addr vendor type (vfio_device g) ∧ key = dashed addr ∧
    vf = mkVF nsmSRIOVDefaultNetworkServiceName addr dev (wrap_i32 (Z.of_nat n)) (vfio_device g).
Proof.
  apply (generated_functions_bound default_yaml map_to_list (mkFlags false false "" "default") one_host
           (Ok "vfio_pci") None willing keys keys node "nsm-sriov-configmap-node.yaml" generated "configmap").
  - intros m. unfold is_range_of. done.
  - intros m. done.
  - intros m. done.
  - intros v t. cbn. case_decide as E; [|discriminate]. intros _. by rewrite E.
  - exact one_host_addresses.
  - reflexivity.
  - vm_compute. reflexivity.
Defined.

End Functions.
