(* ===== verification/DevicePlugin.v ===== *)
(** * The device plugin of the manager (k8s/cmd/nsmdp)

    Pods ask the kubelet for sockets of the network service mesh; the plugin
    offers workspaces of the manager as devices and, when one is allocated,
    has the manager open it.  The manager's side is the server of Nsmd.v. *)
From S2P Require Import Prelude GoStrings GoText GoNet ConnectionContext Apis Vni Selector Model NsmState Nsm NsmHeal Nsmd.
From Stdlib Require Import Ascii.

Definition resourceName : string := "networkservicemesh.io/socket".
Definition device_ServerSock : string := "networkservicemesh.io.sock".
Definition NsmDevicePluginEnv : string := "NSM_DEVICE_PLUGIN".
Definition NsmServerSocketEnv : string := "NSM_SERVER_SOCKET".
Definition NsmClientSocketEnv : string := "NSM_CLIENT_SOCKET".
Definition WorkspaceEnv : string := "WORKSPACE".

(** ** Requests to the manager *)
(** What opening a workspace meets: creating its directory, listening on its
    socket, and checking it. *)
Record opening := mkOpening { op_mkdir : option error; op_listen : option error; op_check : option error }.
(** [RequestWorkspace]: the process ends when the manager is not reachable. *)
Definition RequestWorkspace (provider : WorkspaceLocationProvider) (api : option error) (o : opening)
    (nsm : nsmServer) (id : string) : outcome (nsmServer * result ClientConnectionReply) :=
  match api with
  | Some _ => Panic "exit"
  | None =>
      Ret (RequestClientConnection nsm (NewWorkSpace provider (op_mkdir o) (op_listen o) (op_check o) id).2)
  end.
Definition enumWorkspaces (api call : option error) (order : list (string * Workspace)) (nsm : nsmServer) :
    outcome (result (list string)) :=
  match api with
  | Some _ => Panic "exit"
  | None => match call with Some e => Ret (Err e) | None => Ret (Ok (EnumConnection nsm order)) end
  end.

(** ** [Allocate] *)
Record plugin_Mount := mkPluginMount { pm_ContainerPath : string; pm_HostPath : string; pm_ReadOnly : bool }.
Record plugin_response := mkPluginResponse { pr_Mounts : list plugin_Mount; pr_Envs : gmap string string }.
Definition workspace_response (reply : ClientConnectionReply) : plugin_response :=
  let mount := mkPluginMount (reply_ClientBaseDir reply) (reply_HostBasedir reply +:+ reply_Workspace reply) false in
  mkPluginResponse [mount]
    {[ NsmDevicePluginEnv := "true";
       NsmServerSocketEnv := pm_ContainerPath mount +:+ reply_NsmServerSocket reply;
       NsmClientSocketEnv := pm_ContainerPath mount +:+ reply_NsmClientSocket reply;
       WorkspaceEnv := reply_ClientBaseDir reply ]}.
(** The loop over the containers; the devices of each, and what the manager
    meets for it. *)
Definition allocate_turn (provider : WorkspaceLocationProvider) (st : nsmServer * list plugin_response)
    (req : list string * option error * opening) : outcome (nsmServer * list plugin_response) :=
  let '(ids, api, o) := req in
  match ids with
  | [] => Panic "index out of range"
  | id :: _ =>
      match RequestWorkspace provider api o st.1 id with
      | Panic w => Panic w
      | Ret (nsm, Err _) => Ret (nsm, st.2)
      | Ret (nsm, Ok reply) => Ret (nsm, st.2 ++ [workspace_response reply])
      end
  end.
Definition nsmdp_Allocate (provider : WorkspaceLocationProvider) (nsm : nsmServer)
    (reqs : list (list string * option error * opening)) : outcome (nsmServer * list plugin_response) :=
  foldM (allocate_turn provider) (nsm, []) reqs.

(** ** [ListAndWatch] *)
Fixpoint indexOf_from (i : Z) (slice : list string) (value : string) : Z :=
  match slice with
  | [] => -1
  | v :: slice => if decide (v = value) then i else indexOf_from (i + 1) slice value
  end.
Definition indexOf : list string → string → Z := indexOf_from 0.
Definition workspace_id (id : Z) : string := "nsm-" +:+ Itoa id.
(** The ids of [n] more devices that are not workspaces yet; [None]: out of fuel. *)
Fixpoint free_ids (fuel : nat) (workspaces : list string) (id : Z) (n : nat) : option (list string) :=
  match n, fuel with
  | O, _ => Some []
  | S _, O => None
  | S n', S fuel =>
      if indexOf workspaces (workspace_id id) =? -1 then
        l ← free_ids fuel workspaces (id + 1) n'; Some (workspace_id id :: l)
      else free_ids fuel workspaces (id + 1) n
  end.
(** One turn: the ids of the devices that are sent, all of them healthy.  The
    answer is dereferenced also when there is none. *)
Definition watch_turn (fuel : nat) (reply : result (list string)) : outcome (option (list string)) :=
  match reply with
  | Err _ => Panic "nil pointer dereference"
  | Ok workspaces => Ret (l ← free_ids fuel workspaces 1 10; Some (l ++ workspaces))
  end.

(** ** Start-up: the errors of the steps *)
Definition startDeviceServer (cleanup listen check : option error) : option error :=
  match cleanup with
  | Some e => Some e
  | None => match listen with Some e => Some e | None => check end
  end.
Definition Register_kubelet (dial register : option error) : option error :=
  match dial with
  | Some e => Some (Wrapf "device-plugin: cannot connect to kubelet service: %v" e)
  | None =>
      match register with
      | Some e => Some (Wrapf "device-plugin: cannot register to kubelet service: %v" e)
      | None => None
      end
  end.
Definition NewNSMDeviceServer (cleanup listen check dial register : option error) : option error :=
  match startDeviceServer cleanup listen check with
  | Some e => Some e
  | None => Register_kubelet dial register
  end.

(** ** Properties *)
Lemma indexOf_from_spec i l v : 0 ≤ i → indexOf_from i l v = -1 ↔ v ∉ l.
Proof.
  revert i. induction l as [|w l IH]; intros i Hi; cbn; [set_solver|]. case_decide as Hw.
  - split; [lia|]. subst. set_solver.
  - rewrite IH by lia. set_solver.
Qed.
Lemma indexOf_spec l v : indexOf l v = -1 ↔ v ∉ l.
Proof. by apply indexOf_from_spec. Qed.

Lemma workspace_id_inj i j : 0 ≤ i → 0 ≤ j → workspace_id i = workspace_id j → i = j.
Proof.
  intros Hi Hj E. unfold workspace_id, Itoa in E. destruct (Z.ltb_spec i 0), (Z.ltb_spec j 0); [lia..|].
  apply (FormatUint_inj 10); [lia..|]. by injection E.
Qed.

(** Enough fuel: every id that is taken is one of the workspaces [ws] that the
    search may still meet. *)
Lemma free_ids_found fuel workspaces ws id n :
  (∀ j, id ≤ j → workspace_id j ∈ workspaces → workspace_id j ∈ ws) →
  (length ws + n ≤ fuel)%nat → 1 ≤ id →
  ∃ js, free_ids fuel workspaces id n = Some (workspace_id <$> js) ∧ length js = n ∧
    NoDup js ∧ Forall (λ j, id ≤ j < id + Z.of_nat fuel ∧ workspace_id j ∉ workspaces) js.
Proof.
  revert ws id n. induction fuel as [|fuel IH]; intros ws id [|n] Hws Hf Hid; try (by exists []; repeat constructor).
  - lia.
  - cbn [free_ids]. destruct (Z.eqb_spec (indexOf workspaces (workspace_id id)) (-1)) as [Hi|Hi].
    + apply indexOf_spec in Hi. destruct (IH ws (id + 1) n) as (js & -> & Hl & Hnd & Hjs); [| |lia|].
      { intros j Hj. apply Hws. lia. } { lia. }
      exists (id :: js). rewrite list.Forall_forall in Hjs. split_and!; [done|cbn; lia| |].
      * constructor; [|done]. intros Hin%Hjs. lia.
      * constructor; [split; [lia|done]|]. apply list.Forall_forall. intros j Hj%Hjs. split; [lia|tauto].
    + assert (workspace_id id ∈ workspaces) as Hin by (destruct (decide (workspace_id id ∈ workspaces)); [done|by destruct Hi; apply indexOf_spec]).
      pose proof (Hws id ltac:(lia) Hin) as Hin'.
      destruct (IH (filter (λ w, w ≠ workspace_id id) ws) (id + 1) (S n)) as (js & -> & Hl & Hnd & Hjs); [| |lia|].
      { intros j Hj Hjw. apply list_elem_of_filter. split; [|apply Hws; [lia|done]].
        intros E%workspace_id_inj; lia. }
      { assert (length (filter (λ w, w ≠ workspace_id id) ws) < length ws)%nat; [|lia].
        apply (length_filter_lt _ _ (workspace_id id)); [done|]. naive_solver. }
      exists js. split_and!; [done|done|done|]. eapply Forall_impl; [exact Hjs|]. intros j [? ?]. split; [lia|done].
Qed.

(** The plugin's search for devices ends: whatever workspaces the manager
    reports, as many turns as there are workspaces and ten more are enough.
    The list the kubelet then gets has ten different devices that are not
    workspaces yet, with numbers in that range, followed by the workspaces. *)
Lemma device_list_free fuel workspaces :
  (length workspaces + 10 ≤ fuel)%nat →
  ∃ js, watch_turn fuel (Ok workspaces) = Ret (Some ((workspace_id <$> js) ++ workspaces)) ∧
    length js = 10%nat ∧ NoDup (workspace_id <$> js) ∧
    Forall (λ j, 1 ≤ j ≤ Z.of_nat fuel ∧ workspace_id j ∉ workspaces) js.
Proof.
  intros Hf. destruct (free_ids_found fuel workspaces workspaces 1 10) as (js & Hjs & Hl & Hnd & Hall); [done|done|lia|].
  exists js. unfold watch_turn. rewrite Hjs. split_and!; [done|done| |].
  - rewrite list.Forall_forall in Hall. apply NoDup_fmap_2_strong; [|done].
    intros i j Hi%Hall Hj%Hall. apply workspace_id_inj; lia.
  - eapply Forall_impl; [exact Hall|]. intros j [? ?]. split; [lia|done].
Qed.

(** [path] is the file [name] of the directory [dir], whose path may end in a
    separator or not. *)
Definition file_of (dir name path : string) : Prop :=
  (∃ d, (dir = d ∨ dir = d +:+ "/") ∧ path = d +:+ "/" +:+ name) ∧ name ≠ "" ∧ lacks "/"%char name = true.
(** The socket variables of a container name, through its mount, the sockets
    of a workspace: files of the directory that is mounted, under the same
    name in the container and on the host. *)
Definition reaches_socket (mount : plugin_Mount) (variable : option string) (socket : string) : Prop :=
  ∃ name path, variable = Some path ∧ file_of (pm_ContainerPath mount) name path ∧ file_of (pm_HostPath mount) name socket.
Definition reaches_sockets (w : Workspace) (r : plugin_response) : Prop :=
  ∃ mount, pr_Mounts r = [mount] ∧
    reaches_socket mount (pr_Envs r !! NsmServerSocketEnv) (ws_NsmServerSocket w) ∧
    reaches_socket mount (pr_Envs r !! NsmClientSocketEnv) (ws_NsmClientSocket w).
Definition fine : opening := mkOpening None None None.
Definition granted (ids : list string) : list string * option error * opening := (ids, None, fine).
Definition opened (provider : WorkspaceLocationProvider) (id : string) : Workspace :=
  mkWorkspace id WS_RUNNING provider true true true.

(** What the plugin needs of the locations: one directory for the host and the
    manager, a directory in the container whose path ends in a separator, and
    names of files. *)
Record locations_ok (provider : WorkspaceLocationProvider) : Prop := {
  lo_dirs : wp_HostBaseDir provider = wp_NsmBaseDir provider;
  lo_client : ∃ d, wp_ClientBaseDir provider = d +:+ "/";
  lo_names : Forall (λ n, n ≠ "" ∧ lacks "/"%char n = true) [wp_NsmServerSocket provider; wp_NsmClientSocket provider]
}.
Lemma last_char_slash s : last_char s = Some "/"%char → ∃ d, s = d +:+ "/".
Proof.
  induction s as [|c s IH]; [done|]. destruct s as [|c' s].
  - intros [= ->]. by exists "".
  - intros H. destruct (IH H) as [d E]. exists (String c d). by rewrite E.
Qed.
Lemma NewWorkspaceProvider_ok root provider : NewWorkspaceProvider root = Ret provider → locations_ok provider.
Proof.
  unfold NewWorkspaceProvider. destruct (last_char root) as [c|] eqn:E; [|done]. intros [= <-]. split; cbn.
  - done.
  - destruct (Ascii.eqb_spec c "/"%char); [subst; by apply last_char_slash|by eexists].
  - by repeat constructor.
Qed.
Lemma allocate_turn_granted provider nsm rs id ids :
  locations_ok provider →
  ∃ r, allocate_turn provider (nsm, rs) (granted (id :: ids)) =
         Ret (mkNsmServer (<[id := opened provider id]> (srv_workspaces nsm)), rs ++ [r]) ∧
    reaches_sockets (opened provider id) r.
Proof.
  intros [Hdirs [d Hd] Hnames]. inversion Hnames as [|? ? Hs Hn']; subst. inversion Hn' as [|? ? Hc _]; subst.
  eexists. split; [reflexivity|]. eexists. split; [reflexivity|]. cbn [pr_Envs workspace_response].
  unfold reaches_socket, file_of, ws_NsmServerSocket, ws_NsmClientSocket, ws_NsmDirectory. cbn. rewrite Hdirs, Hd.
  split; [exists (wp_NsmServerSocket provider)|exists (wp_NsmClientSocket provider)]; eexists; (split; [reflexivity|]);
    (split; (split; [|done])).
  1,3: exists d; split; [by right|]; symmetry; exact (string_app_assoc d "/" _).
  all: eexists; split; [by left|]; reflexivity.
Qed.

Lemma allocate_granted provider ids reqs nsm rs0 :
  locations_ok provider → head <$> reqs = Some <$> ids → NoDup ids →
  ∃ nsm' rs, foldM (allocate_turn provider) (nsm, rs0) (granted <$> reqs) = Ret (nsm', rs0 ++ rs) ∧
    Forall2 (λ id r, reaches_sockets (opened provider id) r) ids rs ∧
    (∀ id, id ∈ ids → srv_workspaces nsm' !! id = Some (opened provider id)) ∧
    ∀ id, id ∉ ids → srv_workspaces nsm' !! id = srv_workspaces nsm !! id.
Proof.
  intros Hp. revert reqs nsm rs0. induction ids as [|id ids IH]; intros [|req reqs] nsm rs0 Hh Hnd; try done.
  { exists nsm, []. cbn. rewrite app_nil_r. split_and!; [done|by constructor|set_solver|done]. }
  apply NoDup_cons in Hnd as [Hid Hnd]. cbn [fmap list_fmap] in Hh. injection Hh as Hreq Hh.
  destruct req as [|id' rest]; [done|]. injection Hreq as ->.
  destruct (allocate_turn_granted provider nsm rs0 id rest Hp) as (r & Ht & Hr).
  destruct (IH reqs (mkNsmServer (<[id := opened provider id]> (srv_workspaces nsm))) (rs0 ++ [r]) Hh Hnd)
    as (nsm' & rs & Hf & Hrs & Hin & Hout).
  exists nsm', (r :: rs). cbn [fmap list_fmap foldM]. rewrite Ht. cbn [mbind outcome_bind]. rewrite Hf, <-app_assoc.
  split_and!; [done|by constructor| |].
  - intros j [->|Hj]%elem_of_cons; [|by apply Hin]. rewrite Hout by done. cbn. by rewrite lookup_insert_eq.
  - intros j [? ?]%not_elem_of_cons. rewrite Hout by done. cbn. by rewrite lookup_insert_ne.
Qed.

(** C23: When the manager is reached and opens the workspaces a pod asks for,
    with no error of the operating system and different devices for the
    containers, every container gets a running workspace of its own.  The
    paths in its environment are files of the directory that is mounted in the
    container, and the files of these names in the directory of the host that
    is mounted there are the sockets the manager opened for that workspace.
    Other workspaces are left alone.  The root directory may be written with
    or without a separator at its end. *)
Theorem allocated_sockets_reach root provider nsm reqs ids :
  NewWorkspaceProvider root = Ret provider → head <$> reqs = Some <$> ids → NoDup ids →
  ∃ nsm' rs, nsmdp_Allocate provider nsm (granted <$> reqs) = Ret (nsm', rs) ∧
    Forall2 (λ id r, ∃ w, srv_workspaces nsm' !! id = Some w ∧ ws_name w = id ∧ ws_state w = WS_RUNNING ∧
                       reaches_sockets w r) ids rs ∧
    ∀ id, id ∉ ids → srv_workspaces nsm' !! id = srv_workspaces nsm !! id.
Proof.
  intros Hp%NewWorkspaceProvider_ok Hheads Hnd. unfold nsmdp_Allocate.
  destruct (allocate_granted provider ids reqs nsm [] Hp Hheads Hnd) as (nsm' & rs & -> & Hrs & Hin & Hout).
  exists nsm', rs. split_and!; [done| |done]. apply Forall2_same_length_lookup_2; [by eapply Forall2_length|].
  intros i id r Hid Hr. exists (opened provider id). split_and!; [|done|done|].
  - apply Hin. by eapply list_elem_of_lookup_2.
  - exact (Forall2_lookup_lr _ ids rs i id r Hrs Hid Hr).
Qed.

(** ** Behaviours that deserve attention *)
(** A container whose workspace cannot be opened gets no answer: the others'
    answers move up. *)
Lemma failed_container_dropped provider nsm e : ∃ r, nsmdp_Allocate provider nsm
    [(["nsm-1"], None, mkOpening (Some e) None None); granted ["nsm-2"]] =
  Ret (mkNsmServer (<["nsm-2" := opened provider "nsm-2"]> (srv_workspaces nsm)), [r]).
Proof. by eexists. Qed.
(** The manager reports an empty name for every workspace it has: the kubelet
    gets devices without an id. *)
Lemma empty_device_ids fuel nsm order l :
  srv_workspaces nsm ≠ ∅ → watch_turn fuel (Ok (EnumConnection nsm order)) = Ret (Some l) → "" ∈ l.
Proof.
  intros Hne. unfold watch_turn. destruct (free_ids _ _ _ _) as [ids|]; [|done]. intros [= <-].
  apply elem_of_app. right. unfold EnumConnection. apply elem_of_app. left.
  destruct (size (srv_workspaces nsm)) eqn:E; [by apply map_size_empty_inv in E|]. apply list_elem_of_here.
Qed.

(** ** Instances *)
Lemma allocated_sockets_reach_witness : ∃ nsm' rs,
  nsmdp_Allocate (mkProvider "/run/" "/run/" "/run/" "nsm.server.io.sock" "nsm.client.io.sock") (mkNsmServer ∅)
    (granted <$> [["nsm-1"]; ["nsm-2"]]) = Ret (nsm', rs) ∧
  Forall2 (λ id r, ∃ w, srv_workspaces nsm' !! id = Some w ∧ ws_name w = id ∧ ws_state w = WS_RUNNING ∧
                     reaches_sockets w r) ["nsm-1"; "nsm-2"] rs ∧
  ∀ id, id ∉ ["nsm-1"; "nsm-2"] → srv_workspaces nsm' !! id = srv_workspaces (mkNsmServer ∅) !! id.
Proof.
  apply (allocated_sockets_reach "/run" _ (mkNsmServer ∅) [["nsm-1"]; ["nsm-2"]] ["nsm-1"; "nsm-2"]); [reflexivity|reflexivity|].
  apply (bool_decide_unpack _). vm_compute. exact I.
Defined.
