(* ===== verification/Tools.v ===== *)
(** * Tools (pkg/tools/tools.go) and the service annotation

    Parsing the annotation that names the network services a pod asks for,
    the network namespace of the process, sockets and ports.  The answers of
    the operating system are arguments. *)
From S2P Require Import Prelude GoStrings GoText GoUrl.
From Stdlib Require Import Ascii.

(** ** The annotation *)
Record NsUrl := mkNsUrl { nu_NsName : string; nu_Intf : string; nu_Params : Values }.
Definition parseNsUrl (urlString : string) : result NsUrl :=
  match url_Parse urlString with
  | Err e => Err e
  | Ok url =>
      match Split (url_Path url) "/" with
      | [name] => Ok (mkNsUrl name "" (url_Query url))
      | [name; intf] =>
          if (15 <? String.length intf)%nat then Err (Errorf "Interface part cannot exceed 15 characters")
          else Ok (mkNsUrl name intf (url_Query url))
      | _ => Err (Errorf "Invalid nsurl format")
      end
  end.
Fixpoint parse_urls (urls : list string) : result (list NsUrl) :=
  match urls with
  | [] => Ok []
  | u :: urls =>
      match parseNsUrl u with
      | Err e => Err e
      | Ok nsurl => match parse_urls urls with Err e => Err e | Ok l => Ok (nsurl :: l) end
      end
  end.
Definition ParseAnnotationValue (value : string) : result (list NsUrl) := parse_urls (Split value ",").

(** ** The namespace of the process

    The link is matched against an expression for the text between [net:[] and
    a closing bracket: the match starts at the first [net:[] after which a
    bracket closes on the same line, and ends at the last such bracket. *)
Definition line_part (s : string) : string := (cut newline s).1.
Fixpoint find_namespace (link : string) : option string :=
  match (if HasPrefix link "net:[" then
           rest ← str_drop 5 link; p ← cut_last "]" (line_part rest); Some p.1
         else None) with
  | Some name => Some name
  | None => match link with EmptyString => None | String _ link => find_namespace link end
  end.
Definition GetCurrentNS (readlink : result string) : result string :=
  match readlink with
  | Err e => Err e
  | Ok link =>
      match find_namespace link with
      | Some name => Ok name
      | None => Err (Errorf "namespace is not found")
      end
  end.

(** ** Sockets and ports *)
Inductive socket_stat := SocketFile | OtherFile | NoFile | StatFailed (e : error).
(** Whether the file was removed, and the error. *)
Definition SocketCleanup (stat : socket_stat) (remove : option error) : bool * option error :=
  match stat with
  | SocketFile =>
      match remove with
      | Some e => (false, Some (Wrapf "cannot remove listen endpoint %s with error: %+v" e))
      | None => (true, None)
      end
  | OtherFile | NoFile => (false, None)
  | StatFailed e => (false, Some (Wrapf "failure stat of socket file %s with error: %+v" e))
  end.
(** [WaitForPortAvailable]: at each turn, whether the context is done, and
    the error of connecting; [None]: it still waits. *)
Fixpoint WaitForPortAvailable (interval : Z) (turns : list (bool * option error)) : option (option error) :=
  if interval <? 0 then Some (Some (Errorf "interval must be positive"))
  else match turns with
  | [] => None
  | (true, _) :: _ => Some (Some (Errorf "timeout waiting for: "))
  | (false, Some _) :: turns => WaitForPortAvailable interval turns
  | (false, None) :: _ => Some None
  end.
(** [InitJaeger]: the address of the agent and the name of the service. *)
Definition jaeger_config (host port service : string) (hostname : result string) : string * string :=
  (host +:+ ":" +:+ port,
   match hostname with Ok h => service +:+ "@" +:+ h | Err _ => service end).
