(* ===== verification/Webhook.v ===== *)
(** * The admission webhook (k8s/cmd/admission-webhook) and its reader

    Kubernetes shows the webhook the pods and deployments that are created;
    for those with the annotation it adds an init container that connects to
    the network services.  The init container reads the annotation back as a
    list of clients (sdk/client/clientlist.go). *)
From S2P Require Import Prelude GoStrings GoText GoUrl GoNet ConnectionContext Apis Vni Selector Model Cidr PrefixPool Converter Sdk Tools.
From Stdlib Require Import Ascii.

Definition nsmAnnotationKey : string := "ns.networkservicemesh.io".
Definition ignoredNamespaces : list string := ["kube-system"; "kube-public"].

Record ObjectMeta := mkObjectMeta { om_Name : string; om_Namespace : string; om_Annotations : option (gmap string string) }.
(** The index of the loop over the ignored namespaces is not kept. *)
Definition getAnnotationValue (ignoredList : list string) (metadata : ObjectMeta) : option string :=
  if existsb (λ ns, bool_decide (om_Namespace metadata = ns)) ignoredList then None
  else match om_Annotations metadata with None => None | Some annotations => annotations !! nsmAnnotationKey end.
Definition validateAnnotationValue (value : string) : option error :=
  match ParseAnnotationValue value with Ok _ => None | Err e => Some e end.

(** ** The patch: the value that is encoded as JSON *)
Record Container := mkContainer {
  ctr_name : string;
  ctr_image : string;
  ctr_imagePullPolicy : string;
  ctr_env : list (string * string);
  ctr_limits : gmap string Z
}.
Record patchOperation := mkPatch { patch_Op : string; patch_Path : string; patch_Value : list Container }.
Record settings := mkSettings { wh_repo : string; wh_initContainer : string; wh_tag : string }.
Definition createPatch (s : settings) (annotationValue path : string) : list patchOperation :=
  [mkPatch "add" path
     [mkContainer "nsc" (wh_repo s +:+ "/" +:+ wh_initContainer s +:+ ":" +:+ wh_tag s) "IfNotPresent"
        [("NS_NETWORKSERVICEMESH_IO", annotationValue)] {["networkservicemesh.io/socket" := 1]}]].

(** ** Requests and responses *)
Record AdmissionRequest := mkAdmissionRequest { ar_UID : string; ar_Kind : string; ar_Object : string }.
Record AdmissionResponse := mkAdmissionResponse {
  resp_UID : string;
  resp_Allowed : bool;
  resp_Message : option error;
  resp_Patch : option (list patchOperation)
}.
Definition rejected (e : error) : AdmissionResponse := mkAdmissionResponse "" false (Some e) None.
Definition allowed (patch : option (list patchOperation)) : AdmissionResponse := mkAdmissionResponse "" true None patch.

Section webhook.
Context (s : settings).
(** [json.Unmarshal] of an object of Kubernetes, its metadata kept. *)
Context (unmarshal : string → result ObjectMeta).

Definition patch_path (kind : string) : option string :=
  if decide (kind = "Deployment") then Some "/spec/template/spec/initContainers"
  else if decide (kind = "Pod") then Some "/spec/initContainers"
  else None.
Definition mutate (request : option AdmissionRequest) : outcome AdmissionResponse :=
  match request with
  | None => Panic "nil pointer dereference"
  | Some req =>
      match patch_path (ar_Kind req) with
      | None => Ret (allowed None)
      | Some path =>
          match unmarshal (ar_Object req) with
          | Err e => Ret (rejected e)
          | Ok meta =>
              match getAnnotationValue ignoredNamespaces meta with
              | None => Ret (allowed None)
              | Some value =>
                  match validateAnnotationValue value with
                  | Some e => Ret (rejected e)
                  | None => Ret (allowed (Some (createPatch s value path)))
                  end
              end
          end
      end
  end.

Inductive http_answer := HttpError (status : Z) | HttpReview (response : AdmissionResponse).
Definition with_UID (uid : string) (r : AdmissionResponse) : AdmissionResponse :=
  mkAdmissionResponse uid (resp_Allowed r) (resp_Message r) (resp_Patch r).
(** The body as it was read, the content type, and the decoder. *)
Definition serve (body : string) (contentType : string) (decode : string → result (option AdmissionRequest)) :
    outcome http_answer :=
  if decide (body = "") then Ret (HttpError 400)
  else if decide (contentType = "application/json") then
    match decode body with
    | Err e => Ret (HttpReview (rejected e))
    | Ok request =>
        match mutate request with
        | Panic w => Panic w
        | Ret r => Ret (HttpReview (match request with Some req => with_UID (ar_UID req) r | None => r end))
        end
    end
  else Ret (HttpError 415).
End webhook.
(** [main]: the settings from the environment. *)
Definition webhook_settings (getenv : string → string) : settings :=
  let get k d := if decide (getenv k = "") then d else getenv k in
  mkSettings (get "REPO" "networkservicemesh") (get "INITCONTAINER" "nsc") (get "TAG" "latest").

(** ** The init container: one client per URL of the annotation *)
Definition annotationEnv : string := "NS_NETWORKSERVICEMESH_IO".
Section clients.
Context (order : Values → list (string * list string)).
(** The environment, and the error of the connection for a configuration. *)
Context (getenv : string → option string) (connect : NSConfiguration → option error).

Definition label_turn (acc : list string) (kv : string * list string) : outcome (list string) :=
  match kv.2 with
  | [] => Panic "index out of range"
  | v :: _ => Ret (acc ++ [kv.1 +:+ "=" +:+ v])
  end.
Definition configFromUrl (configuration : NSConfiguration) (url : NsUrl) : outcome NSConfiguration :=
  match foldM label_turn [] (order (nu_Params url)) with
  | Panic w => Panic w
  | Ret labels =>
      Ret (mkNSConfiguration (cfg_NsmServerSocket configuration) (cfg_NsmClientSocket configuration)
             (cfg_Workspace configuration) (cfg_AdvertiseNseName configuration) (nu_NsName url)
             (cfg_AdvertiseNseLabels configuration) (joined "," labels) (cfg_TracerEnabled configuration)
             (cfg_MechanismType configuration) (cfg_IPAddress configuration))
  end.
(** [NewNSMClient] with the configuration it completes. *)
Definition new_client (configuration : NSConfiguration) : outcome (result NsmClient) :=
  match CompleteNSConfiguration getenv configuration with
  | Panic w => Panic w
  | Ret conf => Ret (NewNSMClient conf (connect conf))
  end.
Fixpoint clients_of (configuration : NSConfiguration) (urls : list NsUrl) : outcome (result (list NsmClient)) :=
  match urls with
  | [] => Ret (Ok [])
  | url :: urls =>
      match configFromUrl configuration url with
      | Panic w => Panic w
      | Ret conf =>
          match new_client conf with
          | Panic w => Panic w
          | Ret (Err e) => Ret (Err e)
          | Ret (Ok client) =>
              match clients_of configuration urls with
              | Panic w => Panic w
              | Ret (Err e) => Ret (Err e)
              | Ret (Ok clients) => Ret (Ok (client :: clients))
              end
          end
      end
  end.
Definition NewNSMClientList (configuration : NSConfiguration) : outcome (result (list NsmClient)) :=
  let annotationValue := default "" (getenv annotationEnv) in
  if decide (annotationValue = "") then
    match new_client configuration with
    | Panic w => Panic w
    | Ret (Err e) => Ret (Err e)
    | Ret (Ok client) => Ret (Ok [client])
    end
  else
    match ParseAnnotationValue annotationValue with
    | Err e => Ret (Err e)
    | Ok urls => clients_of configuration urls
    end.
End clients.
