(* ===== verification/WebhookProps.v ===== *)
(** * Properties of the webhook: annotations that are admitted are understood *)
From S2P Require Import Prelude GoStrings GoText GoUrl GoNet ConnectionContext Apis Converter ConverterProps Sdk Tools Webhook.
From Stdlib Require Import Ascii.

(** ** Bytes that need no escape *)
Definition safe_char (c : ascii) : bool := is_alnum c || one_of "-_.~" c.
Definition safe (s : string) : bool := str_all safe_char s.

Lemma safe_lacks c s : safe_char c = false → safe s = true → lacks c s = true.
Proof.
  intros Hc. apply str_all_impl. intros d Hd. destruct (Ascii.eqb_spec d c) as [->|]; [congruence|done].
Qed.
Lemma lacks_app c s t : lacks c (s +:+ t) = lacks c s && lacks c t.
Proof. apply str_all_app. Qed.
Lemma cut_lacks c s : lacks c s = true → cut c s = (s, None).
Proof.
  induction s as [|d s IH]; [done|]. unfold lacks. cbn. intros [Hd Hs]%andb_true_iff.
  destruct (Ascii.eqb d c); [done|]. by rewrite IH.
Qed.
Lemma cut_app c s t : lacks c s = true → cut c (s +:+ String c t) = (s, Some t).
Proof.
  induction s as [|d s IH]; intros H.
  - change ("" +:+ String c t) with (String c t). cbn. by rewrite Ascii.eqb_refl.
  - change (String d s +:+ String c t) with (String d (s +:+ String c t)). unfold lacks in H. cbn in H.
    apply andb_true_iff in H as [Hd Hs]. cbn. destruct (Ascii.eqb d c); [done|]. by rewrite IH.
Qed.
Lemma getscheme_none s : lacks ":" s = true → getscheme s = Ok ("", s).
Proof.
  intros H. unfold getscheme. assert (∀ first t, lacks ":" t = true → getscheme_go first t = Some None) as ->; [|done..].
  clear s H. intros first t. revert first. induction t as [|c t IH]; intros first; [done|].
  unfold lacks. cbn. intros [Hc Ht]%andb_true_iff. rewrite IH by done. by destruct (_ || _), (Ascii.eqb c ":").
Qed.

(** A path or a query of safe bytes is its own escape. *)
Definition plain_char (c : ascii) : bool := safe_char c || Ascii.eqb c "/".
Lemma plain_not_special c : plain_char c = true → c ≠ "%"%char ∧ c ≠ "+"%char.
Proof. intros H. split; intros ->; done. Qed.
Lemma unescape_plain s mode : host_mode mode = false → str_all plain_char s = true → unescape s mode = Ok s.
Proof.
  intros Hm. induction s as [|c s IH]; [done|]. cbn [str_all]. intros [Hc Hs]%andb_true_iff.
  apply plain_not_special in Hc as [H1 H2]. specialize (IH Hs).
  transitivity (if host_mode mode && (nat_of_ascii c <? 128)%nat && shouldEscape c mode then
        Err (Errorf "invalid character in host name")
      else
        let c := if bool_decide (mode = encodeQueryComponent) && Ascii.eqb c "+" then " "%char else c in
        match unescape s mode with Ok t => Ok (String c t) | Err e => Err e end).
  { destruct c as [[] [] [] [] [] [] [] []]; try reflexivity; by destruct H1. }
  rewrite Hm, IH. cbn. destruct (Ascii.eqb_spec c "+"); [done|]. by rewrite andb_false_r.
Qed.
Lemma unescape_safe s mode : host_mode mode = false → safe s = true → unescape s mode = Ok s.
Proof.
  intros Hm Hs. apply unescape_plain; [done|]. eapply str_all_impl; [|exact Hs]. intros c Hc. unfold plain_char. by rewrite Hc.
Qed.

(** ** Services and the annotation that names them *)
Record service := mkService { svc_name : string; svc_intf : string; svc_params : list (string * string) }.
Definition service_path (s : service) : string :=
  if decide (svc_intf s = "") then svc_name s else joined "/" [svc_name s; svc_intf s].
Definition service_query (s : service) : string := joined "&" (printed <$> svc_params s).
Definition service_url (s : service) : string :=
  if decide (svc_params s = []) then service_path s else service_path s +:+ String "?" (service_query s).
Definition annotation (services : list service) : string := joined "," (service_url <$> services).

Record service_ok (s : service) : Prop := {
  ok_name : svc_name s ≠ "" ∧ safe (svc_name s) = true;
  ok_intf : safe (svc_intf s) = true ∧ (String.length (svc_intf s) ≤ 15)%nat;
  ok_params : Forall (λ kv, kv.1 ≠ "" ∧ safe kv.1 = true ∧ safe kv.2 = true) (svc_params s);
  ok_keys : NoDup (svc_params s).*1
}.

Lemma lacks_joined c sep l : c ≠ sep → Forall (λ s, lacks c s = true) l → lacks c (joined sep l) = true.
Proof.
  intros Hne. induction 1 as [|s l Hs Hl IH]; [done|]. destruct l as [|s' l]; [done|].
  change (joined sep (s :: s' :: l)) with (s +:+ String sep (joined sep (s' :: l))).
  rewrite lacks_app, Hs. unfold lacks at 1. cbn [str_all]. destruct (Ascii.eqb_spec sep c); [done|]. exact IH.
Qed.
(** The bytes that do not occur in a URL of a service. *)
Definition never (c : ascii) : Prop := safe_char c = false ∧ c ≠ "/"%char ∧ c ≠ "?"%char ∧ c ≠ "&"%char ∧ c ≠ "="%char.
Lemma printed_lacks c kv : safe_char c = false → c ≠ "="%char → safe kv.1 = true → safe kv.2 = true → lacks c (printed kv) = true.
Proof.
  intros Hc Hne Hk Hv. unfold printed. rewrite lacks_app. unfold lacks at 2. cbn [str_all].
  rewrite (safe_lacks c kv.1) by done. destruct (Ascii.eqb_spec "=" c); [congruence|]. by apply (safe_lacks c kv.2).
Qed.
Lemma service_path_lacks c s : service_ok s → safe_char c = false → c ≠ "/"%char → lacks c (service_path s) = true.
Proof.
  intros [[_ Hn] [Hi _] _ _] Hc Hne. unfold service_path. case_decide; [by apply safe_lacks|].
  apply lacks_joined; [done|]. repeat constructor; by apply safe_lacks.
Qed.
Lemma service_query_lacks c s : service_ok s → safe_char c = false → c ≠ "&"%char → c ≠ "="%char → lacks c (service_query s) = true.
Proof.
  intros [_ _ Hp _] Hc H1 H2. unfold service_query. apply lacks_joined; [done|]. apply Forall_fmap.
  eapply Forall_impl; [exact Hp|]. intros kv (_ & Hk & Hv). by apply printed_lacks.
Qed.
Lemma service_url_lacks c s : service_ok s → never c → lacks c (service_url s) = true.
Proof.
  intros Hs (Hc & H1 & H2 & H3 & H4). unfold service_url. case_decide; [by apply service_path_lacks|].
  rewrite lacks_app, service_path_lacks by done. unfold lacks. cbn [str_all].
  destruct (Ascii.eqb_spec "?" c); [congruence|]. by apply (service_query_lacks c).
Qed.

(** ** Parsing it back *)
Lemma never_colon : never ":".
Proof. repeat split; done. Qed.
Lemma never_hash : never "#".
Proof. repeat split; done. Qed.
Lemma never_comma : never ",".
Proof. repeat split; done. Qed.

Lemma service_path_plain s : service_ok s → str_all plain_char (service_path s) = true.
Proof.
  intros [[_ Hn] [Hi _] _ _].
  assert (∀ t, safe t = true → str_all plain_char t = true) as Hplain.
  { intros t. apply str_all_impl. intros c Hc. unfold plain_char. by rewrite Hc. }
  unfold service_path. case_decide; [by apply Hplain|]. cbn [joined]. rewrite str_all_app. cbn [str_all].
  by rewrite !Hplain.
Qed.
(** It starts with a byte of the name. *)
Lemma service_path_start s : service_ok s → ∃ c t, service_path s = String c t ∧ safe_char c = true.
Proof.
  intros [[Hne Hn] _ _ _]. destruct (svc_name s) as [|c t] eqn:E; [done|]. cbn in Hn. apply andb_true_iff in Hn as [Hc _].
  unfold service_path. rewrite E. case_decide; [by exists c, t|]. exists c. eexists. split; [reflexivity|done].
Qed.
Lemma skip_authority_safe c t scheme : safe_char c = true → skip_authority (String c t) scheme = Ok (String c t).
Proof.
  intros Hc. assert (c ≠ "/"%char) as Hne by (by intros ->).
  destruct c as [[] [] [] [] [] [] [] []]; try reflexivity. by destruct Hne.
Qed.
Lemma HasPrefix_slash c t : safe_char c = true → HasPrefix (String c t) "/" = false.
Proof. intros Hc. cbn. destruct (Ascii.eqb_spec c "/"); [by subst|done]. Qed.
Lemma cut_off_query s : service_ok s →
  cut_off "?" (service_url s) = (service_path s, if decide (svc_params s = []) then "" else service_query s).
Proof.
  intros Hs. unfold cut_off, service_url. case_decide.
  - by rewrite cut_lacks by (by apply service_path_lacks).
  - by rewrite cut_app by (by apply service_path_lacks).
Qed.
Lemma url_Parse_service s : service_ok s →
  url_Parse (service_url s) = Ok (mkURL (service_path s) (if decide (svc_params s = []) then "" else service_query s)).
Proof.
  intros Hs. unfold url_Parse, cut_off. rewrite cut_lacks by (apply service_url_lacks; [done|apply never_hash]).
  unfold parse. rewrite decide_False.
  2:{ intros E. assert (lacks "*" (service_url s) = true) as H by (apply service_url_lacks; [done|repeat split; done]).
      by rewrite E in H. }
  rewrite getscheme_none by (apply service_url_lacks; [done|apply never_colon]). rewrite cut_off_query by done.
  destruct (service_path_start s Hs) as (c & t & Hp & Hc). pose proof (service_path_plain s Hs) as Hplain.
  assert (colon_in_first_segment (service_path s) = false) as Hcolon.
  { unfold colon_in_first_segment. apply negb_false_iff.
    assert (∀ u, lacks ":" u = true → lacks ":" (cut "/" u).1 = true) as Hcut.
    { intros u. induction u as [|d u IH]; [done|]. unfold lacks in *. cbn. intros [Hd Hu]%andb_true_iff.
      destruct (Ascii.eqb d "/"); [done|]. specialize (IH Hu). destruct (cut "/" u). cbn in *. by rewrite Hd. }
    by apply Hcut, service_path_lacks. }
  rewrite Hp in *. rewrite HasPrefix_slash, Hcolon, skip_authority_safe by done. cbn [negb andb bool_decide].
  rewrite bool_decide_eq_true_2 by done. cbn [negb]. by rewrite unescape_plain by done.
Qed.

Definition values_of (params : list (string * string)) : Values := (λ v, [v]) <$> (list_to_map params : gmap string string).
Lemma query_pieces_service s : service_ok s → svc_params s ≠ [] → query_pieces (service_query s) = printed <$> svc_params s.
Proof.
  intros [_ _ Hp _] Hne. unfold query_pieces, service_query.
  assert (Forall (λ p, lacks "&" p = true ∧ lacks ";" p = true) (printed <$> svc_params s)) as Hl.
  { apply Forall_fmap. eapply Forall_impl; [exact Hp|]. intros kv (_ & Hk & Hv). split; by apply printed_lacks. }
  rewrite Split_joined.
  - clear Hne. induction Hl as [|p l [_ H] Hl IH]; [done|]. rewrite fmap_cons.
    assert (∀ a (b : list (list string)), mjoin (a :: b) = a ++ mjoin b) as -> by done. rewrite IH.
    pose proof (Split_joined ";" [p]) as Hsp. cbn [joined] in Hsp. rewrite Hsp; [done|done|by repeat constructor].
  - by destruct (svc_params s).
  - eapply Forall_impl; [exact Hl|]. by intros p [? _].
Qed.
Lemma query_turn_printed m kv : kv.1 ≠ "" → safe kv.1 = true → safe kv.2 = true → m !! kv.1 = None →
  query_turn m (printed kv) = <[kv.1 := [kv.2]]> m.
Proof.
  destruct kv as [k v]. cbn [fst snd]. intros Hne Hk Hv Hm. unfold query_turn, printed. cbn [fst snd].
  assert (∃ c t, k +:+ String "=" v = String c t) as (c & t & E) by (destruct k; [done|by eexists _, _]).
  rewrite E, <-E. unfold cut_off. rewrite cut_app by (by apply safe_lacks). cbn [default from_option].
  rewrite !unescape_safe by done. unfold add_value. by rewrite Hm.
Qed.
Lemma query_params params m :
  Forall (λ kv, kv.1 ≠ "" ∧ safe kv.1 = true ∧ safe kv.2 = true) params → NoDup params.*1 →
  (∀ k, k ∈ params.*1 → m !! k = None) →
  foldl query_turn m (printed <$> params) = values_of params ∪ m.
Proof.
  revert m. induction params as [|[k v] params IH]; intros m Hp Hnd Hm; cbn [fmap list_fmap foldl].
  { unfold values_of. cbn. by rewrite fmap_empty, map_empty_union. }
  apply list.Forall_cons in Hp as [(Hk & Sk & Sv) Hp]. apply NoDup_cons in Hnd as [Hnk Hnd].
  rewrite query_turn_printed by (try done; apply Hm; apply list_elem_of_here). cbn [fst snd].
  rewrite IH; [|done|done|].
  - unfold values_of. cbn [list_to_map foldr uncurry]. change (list_to_map ((k, v) :: params)) with (<[k := v]> (list_to_map params : gmap string string)).
    rewrite fmap_insert, <-insert_union_l, insert_union_r; [done|].
    rewrite lookup_fmap, not_elem_of_list_to_map_1; done.
  - intros k' Hk'. rewrite lookup_insert_ne; [apply Hm; by apply list_elem_of_further|]. by intros ->.
Qed.
Lemma parseNsUrl_service s : service_ok s →
  parseNsUrl (service_url s) = Ok (mkNsUrl (svc_name s) (svc_intf s) (values_of (svc_params s))).
Proof.
  intros Hs. unfold parseNsUrl. rewrite url_Parse_service by done. cbn [url_Path].
  assert (∀ q, url_Query (mkURL (service_path s) (if decide (svc_params s = []) then "" else service_query s)) = q ↔ q = values_of (svc_params s)) as Hq.
  { intros q. unfold url_Query. cbn [url_RawQuery]. case_decide as Hp.
    - rewrite Hp. cbn. unfold values_of. cbn. rewrite fmap_empty. done.
    - rewrite query_pieces_service, query_params, map_union_empty; try done; apply Hs. }
  pose proof (proj2 (Hq _) eq_refl) as ->. clear Hq.
  destruct Hs as [[_ Hn] [Hi Hl] _ _]. unfold service_path. case_decide as E.
  - pose proof (Split_joined "/" [svc_name s]) as Hsp. cbn [joined] in Hsp.
    rewrite Hsp, E; [done|done|]. repeat constructor. by apply safe_lacks.
  - rewrite Split_joined; [|done|repeat constructor; by apply safe_lacks].
    destruct (Nat.ltb_spec 15 (String.length (svc_intf s))); [lia|done].
Qed.
Lemma ParseAnnotationValue_annotation services : services ≠ [] → Forall service_ok services →
  ParseAnnotationValue (annotation services) =
    Ok ((λ s, mkNsUrl (svc_name s) (svc_intf s) (values_of (svc_params s))) <$> services).
Proof.
  intros Hne Hs. unfold ParseAnnotationValue, annotation. rewrite Split_joined.
  - clear Hne. induction Hs as [|s services Hs _ IH]; [done|]. cbn [fmap list_fmap parse_urls].
    by rewrite parseNsUrl_service, IH.
  - by destruct services.
  - apply Forall_fmap. eapply Forall_impl; [exact Hs|]. intros s H. apply service_url_lacks; [done|apply never_comma].
Qed.

(** ** The clients of the init container *)
Lemma trim_left_none p s : str_all (λ c, negb (p c)) s = true → trim_left p s = s.
Proof. destruct s as [|c s]; [done|]. cbn. by destruct (p c). Qed.
Lemma trim_right_none p s : str_all (λ c, negb (p c)) s = true → trim_right p s = s.
Proof.
  induction s as [|c s IH]; [done|]. cbn. intros [Hc Hs]%andb_true_iff. rewrite IH by done.
  destruct s; [|done]. by destruct (p c).
Qed.
Lemma safe_kv_ok s : safe s = true → kv_ok s.
Proof.
  intros Hs. split_and!; [by apply safe_lacks..|]. unfold Trim.
  assert (str_all (λ c, negb (is_blank c)) s = true) as Hb.
  { eapply str_all_impl; [|exact Hs]. intros c Hc. unfold is_blank. destruct (Ascii.eqb_spec c " "); [by subst|done]. }
  by rewrite trim_right_none, trim_left_none.
Qed.

(** A query never has a key without values. *)
Lemma add_value_filled m k v : map_Forall (λ _ vs, vs ≠ []) m → map_Forall (λ _ vs, vs ≠ []) (add_value m k v).
Proof. intros Hm. apply map_Forall_insert_2; [|done]. by destruct (default [] (m !! k)). Qed.
Lemma url_Query_filled u : map_Forall (λ _ vs, vs ≠ []) (url_Query u).
Proof.
  unfold url_Query. assert (∀ pieces (m : Values), map_Forall (λ _ vs, vs ≠ []) m →
    map_Forall (λ _ vs, vs ≠ []) (foldl query_turn m pieces)) as H; [|apply H, map_Forall_empty].
  induction pieces as [|piece pieces IH]; intros m Hm; cbn [foldl]; [done|]. apply IH.
  unfold query_turn. destruct piece; [done|]. destruct (cut_off _ _) as [key value].
  destruct (unescape key _); [|done]. destruct (unescape value _); [by apply add_value_filled|done].
Qed.
Lemma ParseAnnotationValue_filled value urls : ParseAnnotationValue value = Ok urls →
  Forall (λ u, map_Forall (λ _ vs, vs ≠ []) (nu_Params u)) urls.
Proof.
  unfold ParseAnnotationValue. generalize (Split value ","). intros pieces. revert urls.
  induction pieces as [|piece pieces IH]; cbn; [by intros ? [= <-]|]. intros urls.
  destruct (parseNsUrl piece) as [u|] eqn:Eu; [|done]. destruct (parse_urls pieces) as [us|]; [|done].
  intros [= <-]. constructor; [|by apply IH]. unfold parseNsUrl in Eu. destruct (url_Parse piece); [|done].
  destruct (Split _ "/") as [|n [|i [|]]]; try done; [|destruct (15 <? _)%nat; [done|]];
    injection Eu as <-; apply url_Query_filled.
Qed.

Section client_list.
Context (getenv : string → option string).
Definition env (key : string) : string := default "" (getenv key).
Definition or_env (value key : string) : string := if decide (value = "") then env key else value.

(** The labels of a URL: the first value of each parameter. *)
Definition url_labels (u : NsUrl) : gmap string string := (λ vs, default "" (head vs)) <$> nu_Params u.
(** A client asks for the service of its URL, with its labels, which are sent
    as a text of pairs separated by commas and read back from it; a URL without
    a name or without labels leaves them to the environment. *)
Record client_of_url (u : NsUrl) (c : NsmClient) : Prop := {
  cu_name : nc_OutgoingNscName c = or_env (nu_NsName u) "OUTGOING_NSC_NAME";
  cu_unlabelled : nu_Params u = ∅ →
    nc_OutgoingNscLabels c = ParseKVStringToMap (env "OUTGOING_NSC_LABELS") "," "=";
  cu_text : nu_Params u ≠ ∅ → ∃ l, l ≡ₚ map_to_list (url_labels u) ∧
    nc_OutgoingNscLabels c = ParseKVStringToMap (joined "," (printed <$> l)) "," "=";
  cu_labels : nu_Params u ≠ ∅ → map_Forall (λ k v, kv_ok k ∧ kv_ok v) (url_labels u) →
    nc_OutgoingNscLabels c = url_labels u
}.
(** For a service of an annotation that was printed. *)
Definition client_for (s : service) (c : NsmClient) : Prop :=
  nc_OutgoingNscName c = svc_name s ∧
  nc_OutgoingNscLabels c =
    (if decide (svc_params s = []) then ParseKVStringToMap (env "OUTGOING_NSC_LABELS") "," "="
     else list_to_map (svc_params s)).

Lemma or_getEnv_value value key : or_getEnv getenv value key false = Ret (or_env value key).
Proof. unfold or_getEnv, or_env, env, getEnv. case_decide; [|done]. by destruct (getenv key). Qed.
Lemma or_getEnv_mandatory value key : is_Some (getenv key) → or_getEnv getenv value key true = Ret (or_env value key).
Proof. intros [v E]. unfold or_getEnv, or_env, env, getEnv. case_decide; [by rewrite E|done]. Qed.
Lemma foldM_labels (l : list (string * list string)) acc : Forall (λ kv, kv.2 ≠ []) l →
  foldM label_turn acc l = Ret (acc ++ (printed <$> ((λ kv, (kv.1, default "" (head kv.2))) <$> l))).
Proof.
  intros H; revert acc. induction H as [|[k [|v vs]] l Hkv _ IH]; intros acc; cbn [fmap list_fmap foldM];
    [by rewrite app_nil_r|done|].
  change (label_turn acc (k, v :: vs)) with (Ret (acc ++ [printed (k, v)])). cbn [mbind outcome_bind].
  by rewrite IH, <-app_assoc.
Qed.
Lemma joined_printed_empty l : joined "," (printed <$> l) = "" ↔ l = [].
Proof. split; [|by intros ->]. destruct l as [|[[|] v] [|]]; done. Qed.

Section completed.
Context (order : Values → list (string * list string)) (connect : NSConfiguration → option error).
Hypothesis order_ok : ∀ m, is_range_of (order m) m.
Hypothesis mandatory : Forall (λ k, is_Some (getenv k)) ["NSM_SERVER_SOCKET"; "NSM_CLIENT_SOCKET"; "WORKSPACE"].
Hypothesis connects : ∀ conf, connect conf = None.

Lemma new_client_fields conf : ∃ c, new_client getenv connect conf = Ret (Ok c) ∧
  nc_OutgoingNscName c = or_env (cfg_OutgoingNscName conf) "OUTGOING_NSC_NAME" ∧
  nc_OutgoingNscLabels c = ParseKVStringToMap (or_env (cfg_OutgoingNscLabels conf) "OUTGOING_NSC_LABELS") "," "=".
Proof.
  inversion mandatory as [|? ? Hm1 Hm']; subst. inversion Hm' as [|? ? Hm2 Hm'']; subst.
  inversion Hm'' as [|? ? Hm3 _]; subst. unfold new_client, CompleteNSConfiguration.
  rewrite !or_getEnv_mandatory, !or_getEnv_value by done. unfold getEnv.
  destruct (getenv "TRACER_ENABLED"); unfold NewNSMClient; rewrite connects; by eexists.
Qed.
Lemma client_for_url conf u : map_Forall (λ _ vs, vs ≠ []) (nu_Params u) →
  ∃ conf' c, configFromUrl order conf u = Ret conf' ∧ new_client getenv connect conf' = Ret (Ok c) ∧ client_of_url u c.
Proof.
  intros Hf. pose proof (order_ok (nu_Params u)) as Ho. unfold is_range_of in Ho.
  set (l := (λ kv : string * list string, (kv.1, default "" (head kv.2))) <$> order (nu_Params u)).
  assert (l ≡ₚ map_to_list (url_labels u)) as Hl.
  { unfold l, url_labels. rewrite Ho, map_to_list_fmap. apply reflexive_eq, list_fmap_ext. by intros ? [] _. }
  assert (l = [] ↔ nu_Params u = ∅) as Hnil.
  { rewrite <-(fmap_empty_iff (λ vs : list string, default "" (head vs))). fold (url_labels u). split.
    - intros E. rewrite E in Hl. apply Permutation_nil_l in Hl. by apply map_to_list_empty_iff.
    - intros E. rewrite E, map_to_list_empty in Hl. by apply Permutation_nil_r in Hl. }
  assert (NoDup l.*1) as HND by (rewrite Hl; apply NoDup_fst_map_to_list).
  unfold configFromUrl. rewrite foldM_labels.
  2:{ rewrite Ho. apply map_Forall_to_list in Hf. eapply Forall_impl; [exact Hf|]. by intros []. }
  fold l. cbn [app]. eexists.
  edestruct new_client_fields as (c & Hc & Hname & Hlabels). exists c. split; [reflexivity|]. split; [exact Hc|].
  cbn in Hname, Hlabels. unfold or_env at 1 in Hlabels. split.
  - exact Hname.
  - intros E%Hnil. by rewrite E in Hlabels.
  - intros Hne. exists l. split; [done|]. rewrite Hlabels, decide_False; [done|].
    by intros ?%joined_printed_empty%Hnil.
  - intros Hne Hok. rewrite Hlabels, decide_False by (by intros ?%joined_printed_empty%Hnil).
    rewrite ParseKV_roundtrip.
    + rewrite (list_to_map_proper _ _ HND Hl). apply list_to_map_to_list.
    + by intros ?%Hnil.
    + done.
    + rewrite Hl. apply map_Forall_to_list in Hok. eapply Forall_impl; [exact Hok|]. by intros [].
Qed.
Lemma clients_for_urls conf urls : Forall (λ u, map_Forall (λ _ vs, vs ≠ []) (nu_Params u)) urls →
  ∃ clients, clients_of order getenv connect conf urls = Ret (Ok clients) ∧ Forall2 client_of_url urls clients.
Proof.
  induction 1 as [|u urls Hu _ (clients & IH & Hc)]; cbn [clients_of]; [by exists []|].
  destruct (client_for_url conf u Hu) as (conf' & c & -> & -> & Hcu). rewrite IH.
  exists (c :: clients). split; [done|]. by constructor.
Qed.
End completed.

Lemma values_of_empty params : values_of params = ∅ ↔ params = [].
Proof.
  split; [|intros ->; unfold values_of; cbn; apply fmap_empty]. intros E%fmap_empty_iff.
  destruct params as [|[k v] params]; [done|]. rewrite list_to_map_cons in E. by apply insert_non_empty in E.
Qed.
Lemma client_of_service s c : service_ok s →
  client_of_url (mkNsUrl (svc_name s) (svc_intf s) (values_of (svc_params s))) c → client_for s c.
Proof.
  intros [[Hne _] _ Hp Hk] [Hname Hnone _ Hlabels]. cbn [nu_NsName nu_Params] in *. split.
  - rewrite Hname. unfold or_env. by rewrite decide_False.
  - case_decide as E; [apply Hnone; by apply values_of_empty|].
    assert (url_labels (mkNsUrl (svc_name s) (svc_intf s) (values_of (svc_params s))) = list_to_map (svc_params s)) as El.
    { unfold url_labels, values_of; cbn. rewrite <-map_fmap_compose. apply map_fmap_id. }
    rewrite El in Hlabels. apply Hlabels; [by rewrite values_of_empty|].
    intros k v Hkv%elem_of_list_to_map_2. rewrite list.Forall_forall in Hp. destruct (Hp _ Hkv) as (_ & ? & ?).
    split; by apply safe_kv_ok.
Qed.
End client_list.

(** The init container, and where the patch adds it. *)
Definition nsc_container (st : settings) (value : string) : Container :=
  mkContainer "nsc" (wh_repo st +:+ "/" +:+ wh_initContainer st +:+ ":" +:+ wh_tag st) "IfNotPresent"
    [(annotationEnv, value)] {["networkservicemesh.io/socket" := 1]}.
Definition init_containers (kind path : string) : Prop :=
  (kind = "Deployment" ∧ path = "/spec/template/spec/initContainers") ∨ (kind = "Pod" ∧ path = "/spec/initContainers").
(** In a container with the value and with the variables that the device
    plugin gives, and when the manager can be reached, the clients are made
    and are as [P] says. *)
Definition makes_clients (value : string) (P : (string → option string) → list NsmClient → Prop) : Prop :=
  ∀ getenv order connect conf, getenv annotationEnv = Some value →
    Forall (λ k, is_Some (getenv k)) ["NSM_SERVER_SOCKET"; "NSM_CLIENT_SOCKET"; "WORKSPACE"] →
    (∀ m, is_range_of (order m) m) → (∀ conf, connect conf = None) →
    ∃ clients, NewNSMClientList order getenv connect conf = Ret (Ok clients) ∧ P getenv clients.

Lemma value_makes_clients value urls : value ≠ "" → ParseAnnotationValue value = Ok urls →
  makes_clients value (λ getenv, Forall2 (client_of_url getenv) urls).
Proof.
  intros Hne Eu getenv order connect conf Hg Hm Ho Hc. unfold NewNSMClientList. rewrite Hg. cbn zeta.
  change (default "" (Some value)) with value. rewrite decide_False, Eu by done.
  apply clients_for_urls; [done..|]. by apply ParseAnnotationValue_filled in Eu.
Qed.
Lemma services_make_clients services : services ≠ [] → Forall service_ok services → annotation services ≠ "" →
  makes_clients (annotation services) (λ getenv, Forall2 (client_for getenv) services).
Proof.
  intros Hne Hs Hv getenv order connect conf Hg Hm Ho Hc.
  destruct (value_makes_clients _ _ Hv (ParseAnnotationValue_annotation services Hne Hs) getenv order connect conf)
    as (clients & E & HF); [done..|]. exists clients. split; [done|]. clear E Hne Hv Hg.
  rewrite Forall2_fmap_l in HF. revert Hs. induction HF as [|s c ss cs Hsc _ IH]; intros Hs; [constructor|].
  apply list.Forall_cons in Hs as [Hs Hss]. constructor; [by apply client_of_service|by apply IH].
Qed.

(** C22: A pod or deployment outside the system namespaces with an annotation
    that is not empty is refused with the error of its parsing, or admitted
    with one patch, which adds the container nsc to the init containers of the
    pod, or of the pods of the deployment, with the annotation in its
    environment and one socket of the device plugin in its limits.  For any
    annotation that is admitted, when that container runs with the variables
    of the device plugin and the manager can be reached, it makes one client
    per URL, in order, for the service of the URL and with its parameters as
    labels: they go through a text of pairs separated by commas, so they are
    these labels where no name or value has a comma, an equality sign or
    blanks around it; without parameters the labels are those of the
    environment.  An annotation printed from services, with names and
    parameters of letters, digits and -_.~, is admitted, and the clients ask for
    these services with these labels. *)
Theorem annotated_services_connected st unmarshal req path meta annotations value :
  init_containers (ar_Kind req) path → unmarshal (ar_Object req) = Ok meta →
  om_Namespace meta ∉ ignoredNamespaces → om_Annotations meta = Some annotations →
  annotations !! nsmAnnotationKey = Some value → value ≠ "" →
  match ParseAnnotationValue value with
  | Err e => mutate st unmarshal (Some req) = Ret (rejected e)
  | Ok urls =>
      mutate st unmarshal (Some req) = Ret (allowed (Some [mkPatch "add" path [nsc_container st value]])) ∧
      makes_clients value (λ getenv, Forall2 (client_of_url getenv) urls)
  end ∧
  (∀ services, services ≠ [] → Forall service_ok services → value = annotation services →
     mutate st unmarshal (Some req) = Ret (allowed (Some [mkPatch "add" path [nsc_container st value]])) ∧
     makes_clients value (λ getenv, Forall2 (client_for getenv) services)).
Proof.
  intros Hpath Hu Hns Ha Hv Hne.
  assert (mutate st unmarshal (Some req) = Ret (match ParseAnnotationValue value with
    | Err e => rejected e | Ok _ => allowed (Some [mkPatch "add" path [nsc_container st value]]) end)) as ->.
  { unfold mutate. assert (patch_path (ar_Kind req) = Some path) as -> by (by destruct Hpath as [[-> ->]|[-> ->]]).
    rewrite Hu. unfold getAnnotationValue.
    assert (existsb (λ ns, bool_decide (om_Namespace meta = ns)) ignoredNamespaces = false) as ->.
    { apply not_true_is_false. intros (ns & Hin & E%bool_decide_eq_true)%existsb_exists. apply Hns. rewrite E.
      by apply list_elem_of_In. }
    rewrite Ha, Hv. unfold validateAnnotationValue. by destruct (ParseAnnotationValue value). }
  split.
  - destruct (ParseAnnotationValue value) as [urls|e] eqn:Eu; [|done]. split; [done|]. by apply value_makes_clients.
  - intros services Hs HF ->. rewrite ParseAnnotationValue_annotation by done. split; [done|].
    by apply services_make_clients.
Qed.

(** ** Behaviours that deserve attention *)
(** A request without its body of the review panics. *)
Lemma empty_review_panics st unmarshal : mutate st unmarshal None = Panic "nil pointer dereference".
Proof. done. Qed.
(** A client whose URL has no parameters sends a label with an empty name. *)
Lemma no_labels_empty_label conf : cfg_OutgoingNscLabels conf = "" →
  ∃ c, NewNSMClient conf None = Ok c ∧ nc_OutgoingNscLabels c = {["" := ""]}.
Proof. intros E. unfold NewNSMClient. rewrite E. by eexists. Qed.

(** ** Instances *)
Module Annotated.
Definition services : list service :=
  [mkService "icmp-responder" "nsm0" [("app", "icmp"); ("tier", "2")]; mkService "firewall" "" []].
Definition pod : AdmissionRequest := mkAdmissionRequest "uid-1" "Pod" "raw".
Definition meta : ObjectMeta :=
  mkObjectMeta "web" "default" (Some {[nsmAnnotationKey := "icmp-responder/nsm0?app=icmp&tier=2,firewall"]}).
Lemma services_ok : Forall service_ok services.
Proof.
  repeat constructor; cbn; try done; try lia; set_solver.
Qed.
Lemma annotated_services_connected_witness :
  mutate (webhook_settings (λ _, "")) (λ _, Ok meta) (Some pod) =
    Ret (allowed (Some [mkPatch "add" "/spec/initContainers"
      [nsc_container (webhook_settings (λ _, "")) "icmp-responder/nsm0?app=icmp&tier=2,firewall"]])) ∧
  makes_clients "icmp-responder/nsm0?app=icmp&tier=2,firewall" (λ getenv, Forall2 (client_for getenv) services).
Proof.
  apply (annotated_services_connected (webhook_settings (λ _, "")) (λ _, Ok meta) pod "/spec/initContainers" meta
           {[nsmAnnotationKey := "icmp-responder/nsm0?app=icmp&tier=2,firewall"]}
           "icmp-responder/nsm0?app=icmp&tier=2,firewall").
  - by right.
  - reflexivity.
  - cbn. intros H. apply list_elem_of_In in H as [H|[H|[]]]; discriminate H.
  - reflexivity.
  - vm_compute. reflexivity.
  - discriminate.
  - discriminate.
  - exact services_ok.
  - reflexivity.
Defined.
End Annotated.
