(* ===== verification/Utils.v ===== *)
(** * Utilities (utils/idempotent, utils/fs)

    Plugins that are initialized and closed once however often they are asked
    to, and the network namespaces of the processes of a host. *)
From S2P Require Import Prelude GoStrings GoText.

(** ** Idempotent plugins (idempotent_impl.go) *)
Inductive State := NEW | RUNNING | CLOSED.
#[global] Instance State_eq_dec : EqDecision State.
Proof. solve_decision. Defined.
Record Impl := mkImpl { im_refCount : Z; im_initErr : option error; im_closeErr : option error; im_state : State }.
Definition new_Impl : Impl := mkImpl 0 None None NEW.
Definition ReinitErrorStr : error := Errorf "true Close() has already occurred, plugin can no longer be Init() ed".

(** The plugin's own functions, as far as they were called, latest first. *)
Inductive own_call := OwnInit | OwnClose.
#[global] Instance own_call_eq_dec : EqDecision own_call.
Proof. solve_decision. Defined.
Definition plugin_state : Type := Impl * list own_call.

(** [init] is what the plugin's own function returns if it is called. *)
Definition IdempotentInit (init : option error) (st : plugin_state) : plugin_state * option error :=
  let '(i, calls) := st in
  if decide (im_state i = CLOSED) then (st, Some ReinitErrorStr)
  else
    let refCount := wrap_i64 (im_refCount i + 1) in
    if decide (refCount = 1) then
      (mkImpl refCount init (im_closeErr i) (match init with None => RUNNING | Some _ => im_state i end), OwnInit :: calls, init)
    else (mkImpl refCount (im_initErr i) (im_closeErr i) (im_state i), calls, im_initErr i).
Definition IdempotentClose (close : option error) (st : plugin_state) : plugin_state * option error :=
  let '(i, calls) := st in
  if decide (im_state i = CLOSED) then (st, im_closeErr i)
  else
    let refCount := wrap_i64 (im_refCount i - 1) in
    if decide (refCount = 0) then (mkImpl refCount (im_initErr i) close CLOSED, OwnClose :: calls, close)
    else (mkImpl refCount (im_initErr i) (im_closeErr i) (im_state i), calls, im_closeErr i).
Definition State_String (s : State) : string :=
  match s with NEW => "NEW" | RUNNING => "RUNNING" | CLOSED => "CLOSED" end.

(** A use of a plugin: what it is asked, and what its own function would return. *)
Inductive use := UseInit (init : option error) | UseClose (close : option error).
Definition use_plugin (st : plugin_state) (u : use) : plugin_state * option error :=
  match u with UseInit e => IdempotentInit e st | UseClose e => IdempotentClose e st end.
(** A sequence of uses, and what each returns. *)
Fixpoint use_all {S} (step : S → use → S * option error) (s : S) (us : list use) : S * list (option error) :=
  match us with
  | [] => (s, [])
  | u :: us => let '(s, r) := step s u in let '(s, rs) := use_all step s us in (s, r :: rs)
  end.

(** ** Network namespaces (fsutils.go) *)
Record proc := mkProc {
  proc_ReadDir : result (list string);
  proc_inode : string → result Z;         (* of a file *)
  proc_cmdline : string → result string   (* of a process *)
}.
Definition isDigits (s : string) : bool := str_all is_digit s.
Definition GetInode (p : proc) (file : string) : result Z :=
  match proc_inode p file with Ok i => Ok i | Err e => Err (Wrapf "error stat file: %+v" e) end.
Definition ns_file (name : string) : string := path_Join ["/proc"; name; "/ns/net"].
Definition is_pause (p : proc) (name : string) : bool :=
  match proc_cmdline p name with Ok cmdline => str_Contains cmdline "pause" | Err _ => false end.
Fixpoint resolve_in (p : proc) (inode : Z) (names : list string) : result string :=
  match names with
  | [] => Err (Errorf "not found")
  | name :: names =>
      if isDigits name then
        match GetInode p (ns_file name) with
        | Err _ => resolve_in p inode names
        | Ok tryInode =>
            if (tryInode =? inode) && is_pause p name then Ok (ns_file name) else resolve_in p inode names
        end
      else resolve_in p inode names
  end.
Definition ResolvePodNsByInode (p : proc) (inode : Z) : result string :=
  match proc_ReadDir p with
  | Err e => Err (Wrapf "can't read /proc directory: %+v" e)
  | Ok names => resolve_in p inode names
  end.
Definition all_inodes (p : proc) (names : list string) : list Z :=
  omap (λ name, if isDigits name then match GetInode p (ns_file name) with Ok i => Some i | Err _ => None end else None) names.
Definition GetAllNetNs (p : proc) : result (list Z) :=
  match proc_ReadDir p with
  | Err e => Err (Wrapf "can't read /proc directory: %+v" e)
  | Ok names => Ok (all_inodes p names)
  end.

(** ** Properties of plugins *)
(** What a plugin promises: it has users between the initialization that the
    first one starts and the closing that the last one starts, each with its
    result.  Before it has any, [owed] closings were too many, and as many
    initializations make up for them. *)
Inductive phase :=
  | Idle (owed : nat)
  | Up (others : nat) (init : option error)
  | Down (close : option error).
Definition use_phase (p : phase) (u : use) : phase * option error :=
  match p, u with
  | Idle 0, UseInit e => (Up 0 e, e)
  | Idle (S n), UseInit _ => (Idle n, None)
  | Idle n, UseClose _ => (Idle (S n), None)
  | Up n e, UseInit _ => (Up (S n) e, e)
  | Up 0 _, UseClose e => (Down e, e)
  | Up (S n) e, UseClose _ => (Up n e, None)
  | Down _, UseInit _ => (p, Some ReinitErrorStr)
  | Down e, UseClose _ => (p, e)
  end.
Definition phase_calls (p : phase) : list own_call :=
  match p with Idle _ => [] | Up _ _ => [OwnInit] | Down _ => [OwnClose; OwnInit] end.
Definition phase_State (p : phase) : State :=
  match p with Up _ None => RUNNING | Idle _ | Up _ (Some _) => NEW | Down _ => CLOSED end.

(** The fields of a plugin in a phase. *)
Definition in_phase (p : phase) (st : plugin_state) : Prop :=
  let '(i, calls) := st in
  calls = phase_calls p ∧ im_state i = phase_State p ∧
  match p with
  | Idle n => im_refCount i = - Z.of_nat n ∧ im_initErr i = None ∧ im_closeErr i = None
  | Up n e => im_refCount i = Z.of_nat n + 1 ∧ im_initErr i = e ∧ im_closeErr i = None
  | Down e => im_closeErr i = e
  end.
Definition phase_count (p : phase) : Z := match p with Idle n | Up n _ => Z.of_nat n + 1 | Down _ => 0 end.
Ltac phase_simpl := cbn -[Z.of_nat wrap_i64 Z.add Z.sub Z.opp].
Lemma use_plugin_phase p st u : phase_count p < 2 ^ 63 - 1 → in_phase p st →
  in_phase (use_phase p u).1 (use_plugin st u).1 ∧ (use_plugin st u).2 = (use_phase p u).2 ∧
  phase_count (use_phase p u).1 ≤ phase_count p + 1.
Proof.
  destruct st as [[c ie ce s] calls]. intros Hp (-> & Hs & Hf). cbn in Hs, Hf. subst s.
  destruct p as [n|n e|e]; cbn in Hp; [destruct Hf as (-> & -> & ->)|destruct Hf as (-> & -> & ->)|subst ce].
  - destruct u as [x|x]; phase_simpl; rewrite wrap_i64_small by lia; [destruct n; [destruct x|]|destruct n];
      repeat case_decide; phase_simpl; split_and!; (done || lia).
  - assert (phase_State (Up n e) ≠ CLOSED) as Hs by (by destruct e).
    destruct u as [x|x]; unfold use_plugin, IdempotentInit, IdempotentClose; cbn [im_state im_refCount];
      rewrite (decide_False (P := phase_State (Up n e) = CLOSED)), wrap_i64_small by (done || lia); destruct n;
      repeat case_decide; phase_simpl; split_and!; (done || lia).
  - by destruct u; phase_simpl; split_and!; try lia.
Qed.
Lemma use_all_phase us : ∀ p st, phase_count p + Z.of_nat (length us) < 2 ^ 63 → in_phase p st →
  in_phase (use_all use_phase p us).1 (use_all use_plugin st us).1 ∧
  (use_all use_plugin st us).2 = (use_all use_phase p us).2.
Proof.
  induction us as [|u us IH]; intros p st Hn Hp; [done|]. cbn [length] in Hn.
  destruct (use_plugin_phase p st u) as (H1 & H2 & H3); [lia|done|]. cbn [use_all].
  destruct (use_phase p u) as [p' r], (use_plugin st u) as [st' r']. cbn in H1, H2, H3. subst r'.
  destruct (IH p' st') as (H4 & H5); [lia|done|].
  destruct (use_all use_phase p' us), (use_all use_plugin st' us). cbn in *. by subst.
Qed.

(** C39: However a plugin is used, by fewer than 2^63 - 1 calls, every call
    returns what the promise of the plugin says: the first user starts its
    initialization and the others get the result of it, the last one to leave
    starts its closing, and afterwards initializing is an error and closing
    has that result; closing too often before is made up for by as many
    initializations.  The plugin's own functions ran as the phase says, so
    each at most once and closing only after initialization.  It is RUNNING
    exactly between a successful initialization and its closing, CLOSED exactly
    afterwards, and NEW otherwise: before its initialization or, until it is
    closed, when that has failed. *)
Theorem plugin_runs_once us :
  Z.of_nat (length us) < 2 ^ 63 - 1 →
  let '((i, calls), replies) := use_all use_plugin (new_Impl, []) us in
  let '(p, promised) := use_all use_phase (Idle 0) us in
  replies = promised ∧ calls = phase_calls p ∧ im_state i = phase_State p.
Proof.
  intros Hus. destruct (use_all_phase us (Idle 0) (new_Impl, [])) as (H1 & H2); [cbn; lia|done|].
  destruct (use_all use_plugin _ us) as [[i calls] replies], (use_all use_phase _ us) as [p promised].
  cbn in H1, H2. destruct H1 as (? & ? & _). done.
Qed.

(** ** Behaviours that deserve attention *)
(** After a closing too many the next initialization succeeds without running. *)
Lemma init_skipped close init :
  use_all use_plugin (new_Impl, []) [UseClose close; UseInit init] = ((new_Impl, []), [None; None]).
Proof. done. Qed.
(** A plugin whose initialization ran and failed is NEW. *)
Lemma failed_init_is_new e :
  let '((i, calls), _) := use_all use_plugin (new_Impl, []) [UseInit (Some e)] in im_state i = NEW ∧ calls = [OwnInit].
Proof. done. Qed.

(** ** Properties of namespaces *)
(** The file that is found belongs to a pause process in the namespace. *)
Lemma ResolvePodNsByInode_sound p inode file :
  ResolvePodNsByInode p inode = Ok file →
  ∃ names name, proc_ReadDir p = Ok names ∧ name ∈ names ∧ file = ns_file name ∧ isDigits name = true ∧
    proc_inode p file = Ok inode ∧ is_pause p name = true.
Proof.
  unfold ResolvePodNsByInode. destruct (proc_ReadDir p) as [names|]; [|done]. intros H. exists names.
  cut (∃ name, name ∈ names ∧ file = ns_file name ∧ isDigits name = true ∧ proc_inode p file = Ok inode ∧ is_pause p name = true).
  { intros (name & ?). by exists name. }
  induction names as [|name names IH]; [done|]. cbn [resolve_in] in H.
  assert (resolve_in p inode names = Ok file → ∃ name0, name0 ∈ name :: names ∧ file = ns_file name0 ∧
    isDigits name0 = true ∧ proc_inode p file = Ok inode ∧ is_pause p name0 = true) as Hrest.
  { intros (n & ? & ?)%IH. exists n. split; [by apply list_elem_of_further|done]. }
  destruct (isDigits name) eqn:Hd; [|by apply Hrest]. unfold GetInode in H.
  destruct (proc_inode p (ns_file name)) as [i|] eqn:Hi; [|by apply Hrest].
  destruct (Z.eqb_spec i inode) as [->|]; [|by apply Hrest]. destruct (is_pause p name) eqn:Hp; [|by apply Hrest].
  injection H as <-. exists name. split; [apply list_elem_of_here|]. by split_and!.
Qed.
(** The namespace of a pause process is among all namespaces. *)
Lemma resolved_is_listed p inode file inodes :
  ResolvePodNsByInode p inode = Ok file → GetAllNetNs p = Ok inodes → inode ∈ inodes.
Proof.
  intros (names & name & Hr & Hin & -> & Hd & Hi & _)%ResolvePodNsByInode_sound. unfold GetAllNetNs. rewrite Hr.
  intros [= <-]. unfold all_inodes. apply list_elem_of_omap. exists name. split; [done|].
  rewrite Hd. unfold GetInode. by rewrite Hi.
Qed.

Lemma plugin_runs_once_witness :
  let us := [UseInit None; UseInit None; UseClose None; UseClose (Some (Errorf "busy")); UseClose None; UseInit None] in
  let '((i, calls), replies) := use_all use_plugin (new_Impl, []) us in
  let '(p, promised) := use_all use_phase (Idle 0) us in
  replies = promised ∧ calls = phase_calls p ∧ im_state i = phase_State p.
Proof.
  apply (plugin_runs_once [UseInit None; UseInit None; UseClose None; UseClose (Some (Errorf "busy")); UseClose None; UseInit None]).
  reflexivity.
Defined.
