(* ===== verification/Daemon.v ===== *)
(** * Clients and start-up of the daemon (controlplane/pkg/nsm, controlplane/pkg/nsmd,
      controlplane/cmd/nsmd, k8s/cmd/crossconnect-monitor)

    The wrappers around the gRPC clients of endpoints and managers, the
    connection to the registry that is dialled again when it is lost, the
    order in which the daemon starts, and the command that prints the cross
    connects of every manager.  What dialling and serving meet are arguments. *)
From S2P Require Import Prelude GoStrings GoNet ConnectionContext Apis Vni Selector Model NsmState Nsm NsmHeal Nsmd.

(** ** Clients (endpoint_client.go, remote_nsm_client.go)

    A nil pointer is [None]; the fields tell whether the client and the
    connection are set. *)
Record grpc_client := mkGrpcClient { gc_client : bool; gc_connection : bool }.
Definition cleaned : grpc_client := mkGrpcClient false false.
Section grpc_clients.
Context {Q C : Type}.

Definition endpoint_Request (c : option grpc_client) (request : Q) (answer : Q → result C) : result C :=
  match c with
  | Some (mkGrpcClient true _) => answer request
  | _ => Err (Errorf "NSE Connection is not initialized...")
  end.
(** [close] is the error of closing the connection. *)
Definition endpoint_Cleanup (c : option grpc_client) (close : option error) : option grpc_client * option error :=
  match c with
  | Some (mkGrpcClient true connection) => (Some cleaned, if connection then close else None)
  | _ => (c, Some (Errorf "NSE Connection is not initialized..."))
  end.
Definition endpoint_Close (c : option grpc_client) (conn : C) (answer : C → option error) (close : option error) :
    outcome (option grpc_client * option error) :=
  match c with
  | None => Panic "nil pointer dereference"
  | Some (mkGrpcClient true connection) => Ret ((endpoint_Cleanup c close).1, answer conn)
  | Some _ => Ret (c, Some (Errorf "Remote NSM Connection is already cleaned..."))
  end.

Definition nsm_client_Request (c : option grpc_client) (request : Q) (answer : Q → result C) : result C :=
  match c with
  | Some (mkGrpcClient true _) => answer request
  | _ => Err (Errorf "Remote NSM Connection is not initialized...")
  end.
Definition nsm_client_Cleanup (c : option grpc_client) (close : option error) : outcome (option grpc_client * option error) :=
  match c with
  | None => Panic "nil pointer dereference"
  | Some (mkGrpcClient true connection) => Ret (Some cleaned, if connection then close else None)
  | Some _ => Ret (c, Some (Errorf "Remote NSM Connection is already cleaned..."))
  end.
Definition nsm_client_Close (c : option grpc_client) (conn : C) (answer : C → option error) (close : option error) :
    outcome (option grpc_client * option error) :=
  match c with
  | Some (mkGrpcClient true _) =>
      match nsm_client_Cleanup c close with
      | Panic w => Panic w
      | Ret (c, _) => Ret (c, answer conn)
      end
  | _ => Ret (c, Some (Errorf "Remote NSM Connection is not initialized..."))
  end.
End grpc_clients.

(** ** The connection to the registry (serviceregistry.go)

    Connections are numbered in the order in which they were opened. *)
Inductive conn_state := ConnReady | ConnLost | ConnClosed.
#[global] Instance conn_state_eq_dec : EqDecision conn_state.
Proof. solve_decision. Defined.
Record nsmdServiceRegistry := mkServiceRegistry {
  rg_connections : list conn_state;    (* all that were opened, the latest first *)
  rg_stopRedial : bool;
  rg_registryAddress : string
}.
(** The field holds the latest connection. *)
Definition registryClientConnection (r : nsmdServiceRegistry) : option conn_state := head (rg_connections r).
Definition NewServiceRegistryAt (nsmAddress : string) : nsmdServiceRegistry := mkServiceRegistry [] true nsmAddress.
Definition NewServiceRegistry (env : string) : nsmdServiceRegistry :=
  NewServiceRegistryAt (if decide (TrimSpace env = "") then "127.0.0.1:5000" else TrimSpace env).
Fixpoint redial (dials : list (option error)) (r : nsmdServiceRegistry) : option nsmdServiceRegistry :=
  if rg_stopRedial r then
    match dials with
    | [] => None
    | Some _ :: dials => redial dials r
    | None :: _ => Some (mkServiceRegistry (ConnReady :: rg_connections r) (rg_stopRedial r) (rg_registryAddress r))
    end
  else Some r.
(** The errors of the dials it makes; [None] while they all fail. *)
Definition initRegistryClient (dials : list (option error)) (r : nsmdServiceRegistry) : option nsmdServiceRegistry :=
  if decide (registryClientConnection r = Some ConnReady) then Some r else redial dials r.
(** The connection the client is made for. *)
Definition RegistryClient (dials : list (option error)) (r : nsmdServiceRegistry) :
    option (nsmdServiceRegistry * result conn_state) :=
  match initRegistryClient dials r with
  | None => None
  | Some r =>
      Some (r, match registryClientConnection r with
               | Some c => Ok c
               | None => Err (Errorf "Connection to Network Registry Server is not available")
               end)
  end.
Definition NetworkServiceDiscovery := RegistryClient.
Definition rg_Stop (r : nsmdServiceRegistry) : nsmdServiceRegistry :=
  mkServiceRegistry (match rg_connections r with [] => [] | _ :: l => ConnClosed :: l end) false (rg_registryAddress r).
(** The connection is lost. *)
Definition rg_lose (r : nsmdServiceRegistry) : nsmdServiceRegistry :=
  mkServiceRegistry (match rg_connections r with ConnReady :: l => ConnLost :: l | l => l end) (rg_stopRedial r) (rg_registryAddress r).
(** The address of the public listener. *)
Definition NewPublicListener_address (env : string) : string :=
  if decide (TrimSpace env = "") then "0.0.0.0:5001" else env.
(** [WaitForDataplaneAvailable]: at each turn, whether the model has a
    dataplane and whether the time is over; it never reports an error. *)
Fixpoint WaitForDataplaneAvailable (turns : list (bool * bool)) : option (option error) :=
  match turns with
  | [] => None
  | (found, expired) :: turns => if found || expired then Some None else WaitForDataplaneAvailable turns
  end.

(** ** Starting the daemon (nsmd.go, cmd/nsmd/nsmd.go) *)
Section start.
Context `{Environment}.

(** The errors of the old socket, of listening, and of the check. *)
Definition StartNSMServer (cleanup listen check : option error) (publicAPI : string) : M (option error) :=
  match cleanup with
  | Some e => mret (Some e)
  | None =>
      match listen with
      | Some e => mret (Some e)
      | None =>
          e ← setLocalNSM publicAPI;
          match e with Some e => mret (Some e) | None => mret check end
      end
  end.
Definition StartAPIServer (listen : option error) : option error := listen.
(** The server is started in a goroutine whose error the caller does not see. *)
Definition StartDataplaneRegistrarServer (start : option error) : option error := None.

(** [main]: a failed step ends the process with [Fatalf], so that the probe
    it would set is never set. *)
Definition fatal_or {A} (e : option error) (mark : probes → probes) (p : probes) (k : probes → outcome A) : outcome A :=
  match e with Some _ => Panic "exit" | None => k p end.
Definition nsmd_main (registrar : option error) (nsm_server : option error) (api : option error) : outcome probes :=
  fatal_or (StartDataplaneRegistrarServer registrar) SetDPServerFailed (mkProbes true true true) (λ p,
  fatal_or nsm_server SetNSMServerFailed p (λ p,
  fatal_or (StartAPIServer api) SetAPIServerFailed p (λ p, Ret p))).
End start.

(** ** The command that prints cross connects (crossconnect_monitor.go) *)
Record xcm_state := mkXcm {
  xcm_managers : gmap string string;    (* by address *)
  xcm_running : list string             (* the addresses of the monitors that run *)
}.
Definition xcm_init : xcm_state := mkXcm ∅ [].
Definition xcm_found (s : xcm_state) (url : string) : xcm_state :=
  match xcm_managers s !! url with
  | Some _ => s
  | None => mkXcm (<[url := "true"]> (xcm_managers s)) (url :: xcm_running s)
  end.
(** One turn of the loop: the addresses of the managers that are listed. *)
Definition lookForNSMServers (urls : list string) (s : xcm_state) : xcm_state := foldl xcm_found s urls.
(** What ends a monitor: dialling, opening the stream or receiving fails, or
    an event when the monitor is to stop after one. *)
Inductive monitor_end := DialFailed | StreamFailed | RecvFailed | OneEvent.
Definition monitorCrossConnects_ends (address : string) (why : monitor_end) (s : xcm_state) : xcm_state :=
  mkXcm (match why with OneEvent => delete address (xcm_managers s) | _ => xcm_managers s end)
    (filter (λ a, a ≠ address) (xcm_running s)).

(** ** Properties *)
Lemma xcm_one_monitor_each : ∀ (steps : list (list string + string)) s,
  NoDup (xcm_running s) → (∀ a, a ∈ xcm_running s → is_Some (xcm_managers s !! a)) →
  let s' := foldl (λ s step, match step with
                             | inl urls => lookForNSMServers urls s
                             | inr a => monitorCrossConnects_ends a RecvFailed s
                             end) s steps in
  NoDup (xcm_running s') ∧ ∀ a, a ∈ xcm_running s' → is_Some (xcm_managers s' !! a).
Proof.
  intros steps. induction steps as [|[urls|a] steps IH]; intros s Hnd Hin; cbn; [done| |].
  - assert (∀ urls s, NoDup (xcm_running s) → (∀ a, a ∈ xcm_running s → is_Some (xcm_managers s !! a)) →
      NoDup (xcm_running (lookForNSMServers urls s)) ∧
      ∀ a, a ∈ xcm_running (lookForNSMServers urls s) → is_Some (xcm_managers (lookForNSMServers urls s) !! a)) as Hl.
    { clear. intros urls. induction urls as [|u urls IH]; intros s Hnd Hin; [done|]. cbn. apply IH.
      - unfold xcm_found. destruct (xcm_managers s !! u) eqn:E; [done|]. constructor; [|done].
        intros [? ?]%Hin. congruence.
      - unfold xcm_found. destruct (xcm_managers s !! u) eqn:E; [done|]. cbn. intros a [->|Ha]%elem_of_cons.
        + rewrite lookup_insert_eq. by eexists.
        + destruct (decide (a = u)) as [->|]; [rewrite lookup_insert_eq; by eexists|]. rewrite lookup_insert_ne by done. by apply Hin. }
    destruct (Hl urls s Hnd Hin). by apply IH.
  - apply IH; cbn; [by apply NoDup_filter|]. intros b [_ Hb]%list_elem_of_filter. by apply Hin.
Qed.
(** A manager whose stream failed is not monitored again while the command runs. *)
Lemma lost_manager_forgotten url why urls s : why ≠ OneEvent → is_Some (xcm_managers s !! url) →
  Forall (λ u, u = url) urls →
  lookForNSMServers urls (monitorCrossConnects_ends url why s) = monitorCrossConnects_ends url why s.
Proof.
  intros Hwhy [v Hv] Hurls. unfold lookForNSMServers. induction Hurls as [|u urls -> _ IH]; [done|]. cbn.
  assert (xcm_found (monitorCrossConnects_ends url why s) url = monitorCrossConnects_ends url why s) as ->; [|exact IH].
  unfold xcm_found. cbn. destruct why; try done; by rewrite Hv.
Qed.
(** The daemon is never reported as not ready: a failed step ends it. *)
Lemma probes_never_fail registrar nsm_server api p : nsmd_main registrar nsm_server api = Ret p → readiness p = 200.
Proof. unfold nsmd_main, fatal_or. repeat case_match; try done. by intros [= <-]. Qed.
(** A lost connection to the registry is replaced but never closed. *)
Lemma lost_connection_leaks address : ∃ r r', RegistryClient [None] (NewServiceRegistryAt address) = Some (r, Ok ConnReady) ∧
  RegistryClient [None] (rg_lose r) = Some (r', Ok ConnReady) ∧ rg_connections (rg_Stop r') = [ConnClosed; ConnLost].
Proof. by eexists _, _. Qed.
(** After [Stop] clients are still made, for the connection that was closed. *)
Lemma stopped_client address : ∃ r, RegistryClient [None] (NewServiceRegistryAt address) = Some (r, Ok ConnReady) ∧
  ∀ dials, RegistryClient dials (rg_Stop r) = Some (rg_Stop r, Ok ConnClosed).
Proof. eexists. split; [reflexivity|]. intros dials. by destruct dials. Qed.
