(* ===== verification/Startup.v ===== *)
(** * Starting the other processes
    (dataplane/vppagent/cmd, dataplane/pkg/memifproxy, k8s/pkg/registryserver,
    sdk/common, sdk/endpoint, controllers/sriov-controller)

    What the operating system, Kubernetes and the peers answer are arguments;
    what is opened and closed on the way is kept. *)
From S2P Require Import Prelude GoStrings GoNet ConnectionContext Apis Converter Monitor InodeMonitor VppAgent Node RegistrarClient Sdk.

(** ** The dataplane (vppagent-dataplane.go) *)
(** [net.IP.Equal]: an address of four bytes equals the same one as sixteen. *)
Definition IP_Equal (ip x : IP) : bool :=
  match decide (length ip = length x) with
  | left _ => bool_decide (ip = x)
  | right _ =>
      if bool_decide (length ip = 4%nat ∧ length x = 16%nat) then bool_decide (x = v4InV6Prefix ++ ip)
      else if bool_decide (length ip = 16%nat ∧ length x = 4%nat) then bool_decide (ip = v4InV6Prefix ++ x)
      else false
  end.
Inductive net_Addr := AddrIPNet (n : IPNet) | AddrOther.
(** The addresses of one interface: a network, an error, or nothing found. *)
Fixpoint addr_in (srcIp : IP) (addrs : list net_Addr) : result (option IPNet) :=
  match addrs with
  | [] => Ok None
  | AddrIPNet v :: addrs => if IP_Equal (net_IP v) srcIp then Ok (Some v) else addr_in srcIp addrs
  | AddrOther :: _ => Err (Errorf "Type of addr not net.IPNET")
  end.
Fixpoint iface_of (srcIp : IP) (ifaces : list (string * result (list net_Addr))) : result (string * option IPNet) :=
  match ifaces with
  | [] => Ok ("", None)
  | (name, Err e) :: _ => Err e
  | (name, Ok addrs) :: ifaces =>
      match addr_in srcIp addrs with
      | Err e => Err e
      | Ok (Some v) => Ok (name, Some v)
      | Ok None => iface_of srcIp ifaces
      end
  end.
Definition MgmtIface (ifaces : result (list (string * result (list net_Addr)))) (srcIp : IP) : result (string * option IPNet) :=
  match ifaces with Err e => Err e | Ok ifaces => iface_of srcIp ifaces end.

Section dataplane.
Context (getenv : string → option string) (ifaces : result (list (string * result (list net_Addr)))).
Context (cleanup listen : option error) (dial : list agent_call → option error).

Definition env_or (key default_ : string) : string := default default_ (getenv key).
(** The server, which is none when its set-up blocks, and the registration
    that was begun, with the name and the socket it carries. *)
Definition dataplane_main :
    outcome (option (VPPAgent * monitorServerImpl CrossConnectEvent * MonitorNetNsInodeServer)
             * dataplaneRegistration * (string * string)) :=
  let nsmBaseDir := env_or "NSM_BASEDIR" "/var/lib/networkservicemesh/" in
  let dataplaneSocket := env_or "DATAPLANE_SOCKET" "/var/lib/networkservicemesh/nsm-vppagent.dataplane.sock" in
  let dataplaneName := env_or "DATAPLANE_NAME" "vppagent" in
  match getenv "NSM_DATAPLANE_SRC_IP" with
  | None => Panic "exit"
  | Some srcIpStr =>
      match ParseIP srcIpStr with
      | [] => Panic "exit"
      | srcIp =>
          match MgmtIface ifaces srcIp with
          | Err _ => Panic "exit"
          | Ok (ifaceName, srcIpNet) =>
              match cleanup, listen with
              | Some _, _ | _, Some _ => Panic "exit"
              | None, None =>
                  match srcIpNet with
                  | None => Panic "nil pointer dereference"
                  | Some n => Ret (NewServer dial nsmBaseDir srcIp n ifaceName, Register false false, (dataplaneName, dataplaneSocket))
                  end
              end
          end
      end
  end.
(** A signal ends the wait of [main]: the registration is closed, and the
    manager, when it answers, is asked to forget the dataplane. *)
Definition dataplane_signal (check : option error) : outcome (dataplaneRegistration * bool) :=
  '(_, registration, _) ← dataplane_main; Ret (dr_Close check registration).
End dataplane.

(** ** The proxy of two sockets (memif_proxy.go)
    [listen], [accept], [dial] and the two descriptors may fail; then the
    packets in both directions, the descriptors that are closed, and the
    listener and connections that stay open. *)
Inductive px_resource := PxListener | PxSource | PxTarget | PxSourceFd | PxTargetFd.
Record px_run := mkPxRun { pr_to_target : list packet; pr_to_source : list packet; pr_opened : list px_resource; pr_closed : list px_resource }.
Definition proxy (listen accept dial source_fd target_fd : option error) (from_source from_target : list turn) : px_run :=
  match listen, accept, dial, source_fd, target_fd with
  | Some _, _, _, _, _ => mkPxRun [] [] [] []
  | _, Some _, _, _, _ => mkPxRun [] [] [PxListener] []
  | _, _, Some _, _, _ => mkPxRun [] [] [PxListener; PxSource] []
  | _, _, _, Some _, _ => mkPxRun [] [] [PxListener; PxSource; PxTarget] []
  | _, _, _, _, Some _ => mkPxRun [] [] [PxListener; PxSource; PxTarget; PxSourceFd] [PxSourceFd]
  | _, _, _, _, _ =>
      mkPxRun (run_transfer from_source).1 (run_transfer from_target).1
        [PxListener; PxSource; PxTarget; PxSourceFd; PxTargetFd] [PxTargetFd; PxSourceFd]
  end.

(** ** The caches of the registry (registry_cache.go, resource_cache.go)
    A cache that runs has an informer and a goroutine, and its stop function
    closes the channel of each. *)
Record cache_run := mkCacheRun { cr_informer : channel; cr_cache : channel }.
Definition cache_start (forResource : option error) : result cache_run :=
  match forResource with Some e => Err e | None => Ok (mkCacheRun ChanOpen ChanOpen) end.
Definition cache_stop (c : cache_run) : outcome cache_run :=
  match cr_informer c, cr_cache c with
  | ChanOpen, ChanOpen => Ret (mkCacheRun ChanClosed ChanClosed)
  | _, _ => Panic "close of closed channel"
  end.
(** [Stop] calls the functions in their order. *)
Fixpoint caches_Stop (stopFuncs : list cache_run) : outcome (list cache_run) :=
  match stopFuncs with
  | [] => Ret []
  | c :: stopFuncs =>
      match cache_stop c with
      | Panic w => Panic w
      | Ret c => match caches_Stop stopFuncs with Panic w => Panic w | Ret l => Ret (c :: l) end
      end
  end.
(** [Start], for the caches that are still to be started. *)
Fixpoint caches_Start (forResource : list (option error)) (stopFuncs : list cache_run) : outcome (list cache_run * option error) :=
  match forResource with
  | [] => Ret (stopFuncs, None)
  | r :: forResource =>
      match cache_start r with
      | Ok c => caches_Start forResource (stopFuncs ++ [c])
      | Err e => match caches_Stop stopFuncs with Panic w => Panic w | Ret l => Ret (l, Some e) end
      end
  end.
Definition registry_cache_Start (services endpoints managers : option error) : outcome (list cache_run * option error) :=
  caches_Start [services; endpoints; managers] [].

(** ** Connections of the SDK (sdk/common/connection.go, endpoint.go)
    The first connection is a test and closed at once; what is left open. *)
Definition NewNSMConnection (check stat check_again : option error) : nat * option error :=
  match check, stat, check_again with
  | Some e, _, _ | _, Some e, _ | _, _, Some e => (0%nat, Some e)
  | None, None, None => (1%nat, None)
  end.
(** An absent chain is the base composite alone. *)
Definition NewNSMEndpoint (getenv : string → option string) (configuration : option NSConfiguration)
    (chain : option (list composite)) (connection : option error) : outcome (result nsmEndpoint) :=
  match CompleteNSConfiguration getenv (default (mkNSConfiguration "" "" "" "" "" "" "" false "" "") configuration) with
  | Panic w => Panic w
  | Ret conf =>
      match connection with
      | Some e => Ret (Err e)
      | None => Ret (Ok (mkNsmEndpoint conf (default [BaseComposite] chain) "" false []))
      end
  end.

(** ** The controller of virtual functions (sriov-controller.go)
    [main] up to the two goroutines: the folder, the client and the name of
    the node, which selects the config maps. *)
Inductive stat_answer := StatOk | StatNotExist | StatError.
Definition sriov_main (folder : stat_answer) (client : option error) (node : string) : outcome string :=
  match folder with
  | StatError => Panic "exit"
  | StatOk | StatNotExist =>
      match client with
      | Some _ => Panic "exit"
      | None => if decide (node = "") then Panic "exit" else Ret ("networkservicemesh.io/sriov-node-name=" +:+ node)
      end
  end.

(** ** Theorems *)
(** The interface that is found has the address of the tunnels. *)
Lemma addr_in_sound srcIp addrs n : addr_in srcIp addrs = Ok (Some n) →
  AddrIPNet n ∈ addrs ∧ IP_Equal (net_IP n) srcIp = true.
Proof.
  induction addrs as [|[v|] addrs IH]; cbn; [done| |done]. destruct (IP_Equal (net_IP v) srcIp) eqn:E.
  - intros [= ->]. split; [by left|done].
  - intros [? ?]%IH. split; [by right|done].
Qed.
Lemma MgmtIface_sound ifaces srcIp name n : MgmtIface (Ok ifaces) srcIp = Ok (name, Some n) →
  ∃ addrs, (name, Ok addrs) ∈ ifaces ∧ AddrIPNet n ∈ addrs ∧ IP_Equal (net_IP n) srcIp = true.
Proof.
  cbn. induction ifaces as [|[name' [addrs|e]] ifaces IH]; cbn; [done| |done].
  destruct (addr_in srcIp addrs) as [[v|]|] eqn:E; [| |done].
  - intros [= -> ->]. apply addr_in_sound in E as [??]. exists addrs. split_and!; [by left|done..].
  - intros (addrs' & ? & ?)%IH. exists addrs'. split; [by right|done].
Qed.

(** A dataplane that starts serves tunnels from the address it was given, and
    its vpp gets exactly one interface, which carries that address. *)
Lemma dataplane_starts getenv ifaces cleanup listen dial server r names :
  dataplane_main getenv (Ok ifaces) cleanup listen dial = Ret (server, r, names) → (∀ log, dial log = None) →
  ∃ v monitor srcIpStr name n addrs, server = Some (v, monitor, NewMonitorNetNsInodeServer) ∧
    getenv "NSM_DATAPLANE_SRC_IP" = Some srcIpStr ∧ ParseIP srcIpStr ≠ [] ∧
    (name, Ok addrs) ∈ ifaces ∧ AddrIPNet n ∈ addrs ∧ IP_Equal (net_IP n) (ParseIP srcIpStr) = true ∧
    va_mechanisms v = initial_mechanisms (ParseIP srcIpStr) ∧ va_log v = [AgentPut (mgmt_request n name); AgentResync].
Proof.
  unfold dataplane_main. intros H Hdial. destruct (getenv "NSM_DATAPLANE_SRC_IP") as [s|]; [|done].
  destruct (ParseIP s) as [|b bs] eqn:Hip; [done|]. destruct (MgmtIface _ _) as [[name [n|]]|] eqn:Hm; [| |done].
  2: by destruct cleanup, listen.
  destruct cleanup; [done|]. destruct listen; [done|]. injection H as <- <- <-.
  apply MgmtIface_sound in Hm as (addrs & ? & ? & ?). eexists _, _, s, name, n, addrs. split; [done|].
  split_and!; [done|congruence|done..|by rewrite Hip| |]; unfold NewVPPAgent, programMgmtInterface, reset; by rewrite !Hdial, ?Hip.
Qed.

(** When no interface has the address, no error is reported and the missing
    network is dereferenced. *)
Lemma unknown_source_panics getenv srcIpStr ifaces dial :
  getenv "NSM_DATAPLANE_SRC_IP" = Some srcIpStr → ParseIP srcIpStr ≠ [] →
  MgmtIface ifaces (ParseIP srcIpStr) = Ok ("", None) →
  dataplane_main getenv ifaces None None dial = Panic "nil pointer dereference".
Proof. unfold dataplane_main. intros -> Hip Hm. destruct (ParseIP srcIpStr); [done|]. by rewrite Hm. Qed.

(** The caches run together or not at all. *)
Lemma caches_Stop_open n : caches_Stop (replicate n (mkCacheRun ChanOpen ChanOpen)) = Ret (replicate n (mkCacheRun ChanClosed ChanClosed)).
Proof. induction n as [|n IH]; cbn; [done|by rewrite IH]. Qed.
Lemma caches_all_or_none services endpoints managers : ∃ runs e,
  registry_cache_Start services endpoints managers = Ret (runs, e) ∧
  match e with
  | None => runs = replicate 3 (mkCacheRun ChanOpen ChanOpen)
  | Some _ => Forall (λ c, c = mkCacheRun ChanClosed ChanClosed) runs
  end.
Proof. destruct services, endpoints, managers; eexists _, _; (split; [reflexivity|]); cbn; by repeat constructor. Qed.
(** A second [Stop], for instance after a [Start] that failed, panics. *)
Lemma stop_twice_panics e : ∃ c, registry_cache_Start None (Some e) None = Ret ([c], Some e) ∧
  caches_Stop [c] = Panic "close of closed channel".
Proof. by eexists. Qed.

(** However the proxy ends, the listener and both connections stay open. *)
Lemma proxy_leaks source_fd target_fd t1 t2 r : r ∈ [PxListener; PxSource; PxTarget] →
  let run := proxy None None None source_fd target_fd t1 t2 in r ∈ pr_opened run ∧ r ∉ pr_closed run.
Proof. intros Hr. destruct source_fd, target_fd; cbn; set_solver. Qed.
