(* ===== verification/K8sRegistry.v ===== *)
(** * The registry over the generated clients and informers

    The caches of the registry (k8s/pkg/registryserver) get their objects
    from the informers of one factory and create objects with the typed
    clients; here the two meet.  The listers are shown to find what they
    list. *)
From S2P Require Import Prelude GoStrings Apis K8sClient K8sClientset K8sInformers RegistryServer VppAgent Startup.

Section start.
Context {Svc Ept Mgr ListOptions GetOptions DeleteOptions ListMeta W Server Handler Stop : Type}.
Notation world := (list (@SharedIndexInformer Svc Ept Mgr ListOptions ListMeta W Server Handler Stop)).
Notation factory := (@sharedInformerFactory Svc Ept Mgr ListOptions GetOptions DeleteOptions ListMeta W Server).

(** [stopCh] is the channel that the call makes. *)
Definition startInformer (resourceType : string) (handler : Handler) (stopCh : Stop) (f : factory) (w : world) :
    result Stop * factory * world :=
  match ForResource (WithResource SchemeGroupVersion resourceType) f w with
  | (Err err, f, w) => (Err err, f, w)
  | (Ok generic, f, w) =>
      let w := alter (AddEventHandler handler) (g_informer generic) w in
      (Ok stopCh, f, alter (Run stopCh) (g_informer generic) w)
  end.
(** The caches still to be started, with the stop functions so far. *)
Fixpoint start_caches (caches : list (string * Handler * Stop)) (stopFuncs : list cache_run) (f : factory) (w : world) :
    outcome (list cache_run * option error) * factory * world :=
  match caches with
  | [] => (Ret (stopFuncs, None), f, w)
  | (resourceType, handler, stopCh) :: caches =>
      let '(r, f, w) := startInformer resourceType handler stopCh f w in
      match cache_start (match r with Err e => Some e | Ok _ => None end) with
      | Ok c => start_caches caches (stopFuncs ++ [c]) f w
      | Err e => (match caches_Stop stopFuncs with Panic p => Panic p | Ret l => Ret (l, Some e) end, f, w)
      end
  end.
Definition registry_Start (clientset : versioned_Interface) (services endpoints managers : Handler) (s1 s2 s3 : Stop) :
    outcome (list cache_run * option error) * factory * world :=
  start_caches [("networkservices", services, s1); ("networkserviceendpoints", endpoints, s2);
                ("networkservicemanagers", managers, s3)] [] (NewSharedInformerFactory clientset 100000000) [].

(** The start is the one of the caches with the answers of the factory. *)
Lemma start_caches_refines caches stopFuncs f w : ∃ errs,
  (start_caches caches stopFuncs f w).1.1 = caches_Start errs stopFuncs.
Proof.
  revert stopFuncs f w; induction caches as [|[[t h] s] caches IH]; intros stopFuncs f w; simpl; [by exists []|].
  destruct (startInformer t h s f w) as [[[st|e] f'] w']; simpl.
  - destruct (IH (stopFuncs ++ [mkCacheRun ChanOpen ChanOpen]) f' w') as [errs E]. by exists (None :: errs).
  - by exists [Some e].
Qed.

(** The registry starts: its factory knows the three resources.  Each has one
    informer, over all namespaces, that feeds the cache of the resource and
    runs until the stop function of this cache closes its channel. *)
Lemma registry_starts clientset services endpoints managers s1 s2 s3 :
  let '(r, f, w) := registry_Start clientset services endpoints managers s1 s2 s3 in
  r = Ret (replicate 3 (mkCacheRun ChanOpen ChanOpen), None) ∧
  w = [Run s1 (AddEventHandler services (NewNetworkServiceInformer clientset NamespaceAll 100000000 [NamespaceIndex]));
       Run s2 (AddEventHandler endpoints (NewNetworkServiceEndpointInformer clientset NamespaceAll 100000000 [NamespaceIndex]));
       Run s3 (AddEventHandler managers (NewNetworkServiceManagerInformer clientset NamespaceAll 100000000 [NamespaceIndex]))].
Proof. done. Qed.
(** The factory does not know that the caches run its informers: its own
    [Start] would run each of them a second time. *)
Lemma factory_start_runs_again clientset h1 h2 h3 s1 s2 s3 s :
  let '(_, f, w) := registry_Start clientset h1 h2 h3 s1 s2 s3 in
  si_runs <$> (Start (map_to_list (f_informers f)) s f w).2 = [[s1; s]; [s2; s]; [s3; s]].
Proof. done. Qed.
End start.

(** ** Creation through the typed client

    The REST client decodes an answer into the empty object of the call, and
    leaves it alone when there is an error. *)
Section create.
Context {A ListOptions GetOptions DeleteOptions ListMeta W Server : Type}.
Context (TimeoutSeconds : ListOptions → option Z) (set_Watch : ListOptions → ListOptions).
Context (object_Name : A → string) (zero : A) (zero_ListMeta : ListMeta).
Notation rest := (@rest_Interface ListOptions GetOptions DeleteOptions A ListMeta W Server).
Context (r : rest) (answer : result A) (s s' : Server).
Definition decodes (rq : Request) : Prop :=
  rest_Into r rq zero s = match answer with Ok o => (o, None, s') | Err e => (zero, Some e, s') end.
Lemma Create_refines (create : A → Server → outcome (option A * option error * Server)) ns o :
  create ∈ [Create _ (K8sClient.networkServices TimeoutSeconds set_Watch object_Name zero zero_ListMeta (mkTypedClient (Some r) ns));
            Create _ (K8sClient.networkServiceEndpoints TimeoutSeconds set_Watch object_Name zero zero_ListMeta (mkTypedClient (Some r) ns));
            Create _ (K8sClient.networkServiceManagers TimeoutSeconds set_Watch object_Name zero zero_ListMeta (mkTypedClient (Some r) ns))] →
  (∀ rq, decodes rq) → create o s = Ret (client_Create zero answer, s').
Proof.
  intros Hc Hd. unfold decodes in Hd.
  assert (∀ v steps, into zero (mkTypedClient (Some r) ns) v steps s = Ret (client_Create zero answer, s')) as Hinto.
  { intros v steps. unfold into; simpl. rewrite Hd. by destruct answer. }
  repeat (apply elem_of_cons in Hc as [->|Hc]; [apply Hinto|]). by apply elem_of_nil in Hc.
Qed.
End create.

(** ** The command (k8s/cmd/nsmd-k8s/main.go) and its server (server.go)

    The configuration of the cluster, the clientset, the listener and
    [Serve], which ends the process, are arguments. *)
Section command.
Context {Rest Discovery Config A ListOptions GetOptions DeleteOptions ListMeta W Server Handler Stop : Type}.
Context (TimeoutSeconds : ListOptions → option Z) (set_Watch : ListOptions → ListOptions).
Context (object_Name : A → string) (zero : A) (zero_ListMeta : ListMeta).
Context (as_rest : Rest → @rest_Interface ListOptions GetOptions DeleteOptions A ListMeta W Server).
Notation clientset := (@Clientset Rest Discovery).

(** A nil clientset has no client to call. *)
Definition clientset_Interface (c : option clientset) : versioned_Interface :=
  let v1 := NetworkservicemeshV1 <$> c in {|
    v_NetworkServices := λ namespace,
      K8sClient.networkServices TimeoutSeconds set_Watch object_Name zero zero_ListMeta (newNetworkServices as_rest v1 namespace);
    v_NetworkServiceEndpoints := λ namespace,
      K8sClient.networkServiceEndpoints TimeoutSeconds set_Watch object_Name zero zero_ListMeta (newNetworkServiceEndpoints as_rest v1 namespace);
    v_NetworkServiceManagers := λ namespace,
      K8sClient.networkServiceManagers TimeoutSeconds set_Watch object_Name zero zero_ListMeta (newNetworkServiceManagers as_rest v1 namespace)
  |}.
Notation world := (list (@SharedIndexInformer A A A ListOptions ListMeta W Server Handler Stop)).

Record registry_server := mkRegistryServer {
  srv_nsmName : string; srv_cache : registryCacheImpl; srv_runs : list cache_run; srv_informers : world
}.
(** An error of the start is only logged. *)
Definition registryserver_New (c : option clientset) (nsmName : string) (services endpoints managers : Handler) (s1 s2 s3 : Stop) :
    outcome registry_server :=
  match registry_Start (clientset_Interface c) services endpoints managers s1 s2 s3 with
  | (Panic p, _, _) => Panic p
  | (Ret (runs, _), _, w) => Ret (mkRegistryServer nsmName NewRegistryCache runs w)
  end.
Definition nsmd_k8s_main (getenv : string → option string) (home : string) (InClusterConfig : result Config)
    (BuildConfigFromFlags : string → result Config) (NewForConfig : Config → result clientset)
    (listen : string → option error) (services endpoints managers : Handler) (s1 s2 s3 : Stop) : outcome (string * registry_server) :=
  let address := default "" (getenv "NSMD_K8S_ADDRESS") in
  let address := if decide (TrimSpace address = "") then "127.0.0.1:5000" else address in
  match getenv "NODE_NAME" with
  | None => Panic "exit"
  | Some nsmName =>
      let kubeconfig := if decide (home = "") then "" else path_Join [home; ".kube"; "config"] in
      match (match InClusterConfig with Ok config => Ok config | Err _ => BuildConfigFromFlags kubeconfig end) with
      | Err _ => Panic "exit"
      | Ok config =>
          let nsmClientSet := match NewForConfig config with Ok c => Some c | Err _ => None end in
          match listen address with
          | Some _ => Panic "exit"
          | None => match registryserver_New nsmClientSet nsmName services endpoints managers s1 s2 s3 with
                    | Panic p => Panic p
                    | Ret server => Ret (address, server)
                    end
          end
      end
  end.

(** The error of the clientset is overwritten by the next call: the command
    goes on with a nil clientset, and the first list of any informer panics. *)
Lemma clientset_error_ignored getenv home config build new listen h1 h2 h3 s1 s2 s3 nsmName e :
  getenv "NODE_NAME" = Some nsmName → new config = Err e → (∀ a, listen a = None) →
  ∃ address server, nsmd_k8s_main getenv home (Ok config) build new listen h1 h2 h3 s1 s2 s3 = Ret (address, server) ∧
    length (srv_informers server) = 3%nat ∧
    Forall (λ i, ∀ opts s, ListFunc (si_lw i) opts s = Panic "nil pointer dereference") (srv_informers server).
Proof.
  unfold nsmd_k8s_main. intros -> -> Hl. rewrite Hl. eexists _, _. split; [reflexivity|].
  split; [done|]. by repeat constructor.
Qed.
End command.
