(* ===== verification/Examples.v ===== *)
(** * Endpoints and clients on vpp (examples/cmd)

    The firewall endpoint cross connects what its client composite connects
    to and filters the traffic; the responder endpoint and the client end a
    shared memory interface in their own vpp.  All drive a vpp-agent, whose
    answers are arguments. *)
From S2P Require Import Prelude GoStrings GoNet ConnectionContext Apis Cidr PrefixPool Converter Sdk Webhook.
From Stdlib Require Import Ascii.

(** ** What the agent is sent, latest first *)
Inductive agent_call := CallPut (rv : option DataRequest) | CallDel (rv : option DataRequest) | CallResync.
Record agent := mkAgent {
  ag_dial : option error;
  ag_put : list agent_call → option DataRequest → option error;
  ag_del : list agent_call → option DataRequest → option error
}.

Section examples.
Context (env : sdk_env) (h : Host) (a : agent).
(** The values of the agent's enumeration of actions, and the order of the
    loop over the rules. *)
Context (AclAction_value : gmap string Z) (rule_order : list (string * string)).

(** ** Agents (vppagent.go of the three examples) *)
(** The cross connect and the request that were sent, unless that failed before. *)
Definition crossConnecVppInterfaces (log : list agent_call) (x : CrossConnect) (connect : bool) (baseDir : string) :
    outcome (list agent_call * option (CrossConnect * option DataRequest) * option error) :=
  match ag_dial a with
  | Some e => Ret (log, None, Some e)
  | None =>
      match xcon_ToDataRequest h baseDir x None connect with
      | Panic w => Panic w
      | Ret (_, Some e) => Ret (log, None, Some e)
      | Ret (rv, None) =>
          if connect then Ret (CallPut rv :: log, Some (x, rv), ag_put a log rv)
          else Ret (CallDel rv :: log, Some (x, rv), ag_del a log rv)
      end
  end.
(** Resetting the agent: only the error of dialling is returned. *)
Definition agent_Reset (log : list agent_call) : list agent_call * option error :=
  match ag_dial a with Some e => (log, Some e) | None => (CallResync :: log, None) end.
(** A put that is undone when it fails. *)
Definition put_or_undo (log : list agent_call) (rv : option DataRequest) : list agent_call * option error :=
  match ag_put a log rv with
  | None => (CallPut rv :: log, None)
  | Some e => (CallDel rv :: CallPut rv :: log, Some e)
  end.
Definition applyAclOnVppInterface (log : list agent_call) (aclname ifname : string) (rules : gmap string string) :
    list agent_call * option error :=
  match ag_dial a with
  | Some e => (log, Some e)
  | None =>
      match acl_ToDataRequest AclAction_value (Some (mkAclConverter aclname rules ifname)) rule_order None with
      | (_, Some e) => (log, Some e)
      | (rv, None) => put_or_undo log rv
      end
  end.
(** The end of a shared memory interface of an endpoint and of a client. *)
Definition end_parameters (prefix id baseDir : string) (side : ConnectionContextSide) : ConnectionConversionParameters :=
  mkParameters true side (prefix +:+ id) baseDir.
Definition create_interface (log : list agent_call) (c : LocalConnection) (p : ConnectionConversionParameters) :
    outcome (list agent_call * option error) :=
  match ag_dial a with
  | Some e => Ret (log, Some e)
  | None =>
      match memif_ToDataRequest h c p None true with
      | Panic w => Panic w
      | Ret (_, Some e) => Ret (log, Some e)
      | Ret (rv, None) => Ret (put_or_undo log rv)
      end
  end.
Definition nse_CreateVppInterface (log : list agent_call) (c : LocalConnection) (baseDir : string) :
    outcome (list agent_call * option error) :=
  create_interface log c (end_parameters "DST-" (lc_Id c) baseDir DESTINATION).
Definition nsc_CreateVppInterface (log : list agent_call) (c : LocalConnection) (baseDir : string) :
    outcome (list agent_call * option error) :=
  create_interface log c (end_parameters "SRC-" (lc_Id c) baseDir SOURCE).

(** ** The firewall (vppagent-firewall-nse): the chain monitor, access list,
    cross connect, client, connection *)
Record firewall := mkFirewall {
  fw_monitor : list monitor_call;
  fw_crossConnects : gmap string (CrossConnect * string);
  fw_workspace : string;
  fw_next : list composite;        (* client and connection *)
  fw_log : list agent_call
}.
Definition fw_answer : Type := outcome (firewall * result (option LocalConnection)).
Definition opaque_of (chain : list composite) (id : string) : option LocalConnection :=
  match chain with
  | ClientComposite client _ ioConnMap :: _ => ioConnMap !! id ≫= λ p, nc_heap client !! p
  | _ => None
  end.
Definition conn_id (c : option LocalConnection) : string := default "" (lc_Id <$> c).

(** The cross connect of the incoming and the outgoing connection. *)
Definition firewall_xcon (incoming outgoing : LocalConnection) : CrossConnect :=
  mkCrossConnect (lc_Id incoming) "IP" (Some (LocalConn incoming)) (Some (LocalConn outgoing)).
Definition xconn_connect (f : firewall) (incoming outgoing : LocalConnection) : fw_answer :=
  let incoming := lc_SetContext incoming (lc_Context outgoing) in
  match crossConnecVppInterfaces (fw_log f) (firewall_xcon incoming outgoing) true (fw_workspace f) with
  | Panic w => Panic w
  | Ret (log, sent, Some e) => Ret (mkFirewall (fw_monitor f) (fw_crossConnects f) (fw_workspace f) (fw_next f) log, Err e)
  | Ret (log, Some (x, Some rv), None) =>
      match dr_XCons rv with
      | [] => Panic "index out of range"
      | xc :: _ =>
          Ret (mkFirewall (fw_monitor f) (<[lc_Id incoming := (x, xc_Receive xc)]> (fw_crossConnects f))
                 (fw_workspace f) (fw_next f) log, Ok (Some incoming))
      end
  | Ret _ => Panic "nil pointer dereference"
  end.
Definition xconn_Request (f : firewall) (request : LocalRequest) : fw_answer :=
  match chain_Request env (fw_next f) request with
  | Panic w => Panic w
  | Ret (next, r) =>
      let f := mkFirewall (fw_monitor f) (fw_crossConnects f) (fw_workspace f) next (fw_log f) in
      match r with
      | Err e => Ret (f, Err e)
      | Ok incoming =>
          match opaque_of next (conn_id incoming), incoming with
          | None, _ => Ret (f, Err (Errorf "Backend: Unable to find the outgoing connection"))
          | Some _, None => Panic "nil pointer dereference"
          | Some outgoing, Some incoming => xconn_connect f incoming outgoing
          end
      end
  end.
Definition xconn_GetOpaque (f : firewall) (incoming : option LocalConnection) : option string :=
  snd <$> fw_crossConnects f !! conn_id incoming.
Definition aclRules : gmap string string :=
  {["Allow ICMP" := "action=reflect,icmptype=8"; "Allow TCP 80" := "action=reflect,tcplowport=80,tcpupport=80"]}.
Definition acl_Request (f : firewall) (request : LocalRequest) : fw_answer :=
  match xconn_Request f request with
  | Panic w => Panic w
  | Ret (f, Err e) => Ret (f, Err e)
  | Ret (f, Ok incoming) =>
      match xconn_GetOpaque f incoming with
      | None => Ret (f, Err (Errorf "Backend: Unable to find the ingressIfName"))
      | Some ingressIfName =>
          let (log, err) := applyAclOnVppInterface (fw_log f) "IngressACL" ingressIfName aclRules in
          let f := mkFirewall (fw_monitor f) (fw_crossConnects f) (fw_workspace f) (fw_next f) log in
          Ret (f, match err with Some e => Err e | None => Ok incoming end)
      end
  end.
Definition firewall_Request (f : firewall) (request : LocalRequest) : fw_answer :=
  match acl_Request f request with
  | Ret (f, Ok incoming) =>
      Ret (mkFirewall (ConnUpdate incoming :: fw_monitor f) (fw_crossConnects f) (fw_workspace f) (fw_next f) (fw_log f), Ok incoming)
  | other => other
  end.
(** [Close] of the cross connect: an error keeps the rest of the chain open. *)
Definition xconn_Close (f : firewall) (conn : LocalConnection) : outcome (firewall * option error) :=
  let finish f :=
    match chain_Close env (fw_next f) conn with
    | Panic w => Panic w
    | Ret next => Ret (mkFirewall (fw_monitor f) (fw_crossConnects f) (fw_workspace f) next (fw_log f), None)
    end in
  match fw_crossConnects f !! lc_Id conn with
  | None => finish f
  | Some (x, _) =>
      match crossConnecVppInterfaces (fw_log f) x false (fw_workspace f) with
      | Panic w => Panic w
      | Ret (log, _, err) =>
          let f := mkFirewall (fw_monitor f) (fw_crossConnects f) (fw_workspace f) (fw_next f) log in
          match err with Some e => Ret (f, Some e) | None => finish f end
      end
  end.
(** The access list composite closes only the rest of the chain. *)
Definition firewall_Close (f : firewall) (conn : LocalConnection) : outcome (firewall * option error) :=
  xconn_Close (mkFirewall (ConnDelete conn :: fw_monitor f) (fw_crossConnects f) (fw_workspace f) (fw_next f) (fw_log f)) conn.

(** ** The responder (vppagent-icmp-responder-nse) *)
(** [Request] answers without a connection; [Close] does not go on. *)
Definition responder_Request (next : list composite) (workspace : string) (log : list agent_call) (request : LocalRequest) :
    outcome (list composite * list agent_call * result (option LocalConnection)) :=
  match chain_Request env next request with
  | Panic w => Panic w
  | Ret (next, Err e) => Ret (next, log, Err e)
  | Ret (next, Ok None) => Panic "nil pointer dereference"
  | Ret (next, Ok (Some incoming)) =>
      match nse_CreateVppInterface log incoming workspace with
      | Panic w => Panic w
      | Ret (log, Some e) => Ret (next, log, Err e)
      | Ret (log, None) => Ret (next, log, Ok None)
      end
  end.
Definition responder_Close (next : list composite) (conn : LocalConnection) : list composite := next.

(** ** The client (vppagent-nsc): reset, connect, create the interface *)
Definition nsc_backend_New (log : list agent_call) : outcome (list agent_call) :=
  match agent_Reset log with (_, Some _) => Panic "exit" | (log, None) => Ret log end.
Definition nsc_main (client : result NsmClient) (workspace : option string) : outcome (NsmClient * list agent_call) :=
  match workspace, client with
  | None, _ | _, Err _ => Panic "exit"
  | Some workspace, Ok client =>
      match nsc_backend_New [] with
      | Panic w => Panic w
      | Ret log =>
          match sdk_Connect env client "if1" "mem" "Primary interface" with
          | (_, Err _) => Panic "exit"
          | (client, Ok p) =>
              match nc_heap client !! p with
              | None => Panic "nil pointer dereference"
              | Some conn =>
                  match nsc_CreateVppInterface log conn workspace with
                  | Panic w => Panic w
                  | Ret (_, Some _) => Panic "exit"
                  | Ret (log, None) => Ret (client, log)
                  end
              end
          end
      end
  end.

(** ** Starting the endpoints and the clients (nse.go, nsc.go)
    [getenv] is the environment; every constructor completes the same
    configuration from it, which after the first time changes nothing. *)
Context (getenv : string → option string).
Definition no_configuration : NSConfiguration := mkNSConfiguration "" "" "" "" "" "" "" false "" "".
Definition mem_configuration : NSConfiguration := mkNSConfiguration "" "" "" "" "" "" "" false "mem" "".
(** The interface of the cross connects: their table and the workspace, once
    the agent is reset; an error of the reset is dropped. *)
Definition newVppAgentXConnComposite (conf : NSConfiguration) :
    outcome (gmap string (CrossConnect * string) * string * list agent_call) :=
  match CompleteNSConfiguration getenv conf with
  | Panic w => Panic w
  | Ret conf => Ret (∅, cfg_Workspace conf, (agent_Reset []).1)
  end.
Definition new_firewall (connection : option error) : outcome firewall :=
  match newVppAgentXConnComposite mem_configuration, CompleteNSConfiguration getenv mem_configuration with
  | Ret (crossConnects, workspace, log), Ret conf =>
      match NewClientCompositeEndpoint conf connection with
      | Panic w => Panic w
      | Ret client => Ret (mkFirewall [] crossConnects workspace [client; NewConnectionCompositeEndpoint conf] log)
      end
  | _, _ => Panic "exit"
  end.
(** The workspace of the responder, the composites after it, and the agent. *)
Definition newVppAgentComposite (conf : NSConfiguration) : outcome (string * list agent_call) :=
  match CompleteNSConfiguration getenv conf with
  | Panic w => Panic w
  | Ret conf => Ret (cfg_Workspace conf, (agent_Reset []).1)
  end.
Definition new_responder : outcome (list composite * string * list agent_call) :=
  match newVppAgentComposite mem_configuration, CompleteNSConfiguration getenv mem_configuration with
  | Ret (workspace, log), Ret conf => Ret ([NewConnectionCompositeEndpoint conf], workspace, log)
  | _, _ => Panic "exit"
  end.
(** The endpoint on kernel interfaces (icmp-responder-nse). *)
Definition icmp_responder : outcome (list composite) :=
  match CompleteNSConfiguration getenv no_configuration with
  | Panic w => Panic w
  | Ret conf => Ret [NewMonitorCompositeEndpoint; NewIpamCompositeEndpoint conf; NewConnectionCompositeEndpoint conf]
  end.
(** The client on kernel interfaces (nsc): the clients, and what they are
    connected to. *)
Definition nsc_kernel_main (order : gmap string (list string) → list (string * list string))
    (connect : NSConfiguration → option error) :
    outcome (list NsmClient * list positive) :=
  match NewNSMClientList order getenv connect no_configuration with
  | Panic w => Panic w
  | Ret (Err _) => Panic "exit"
  | Ret (Ok clients) =>
      match list_Connect env clients "nsm" "kernel" "Primary interface" with
      | (_, _, Some _) => Panic "exit"
      | (clients, ps, None) => Ret (clients, ps)
      end
  end.
End examples.
