(* ===== verification/Commands.v ===== *)
(** * The commands of the repository

    What is left of the [main] functions once their parts are modelled: the
    endpoints of the examples from their start to the signal that ends them,
    the device plugin, the monitor of cross connects, the admission webhook,
    the config controller, and the sockets the manager is reached at.  What
    the operating system, Kubernetes and gRPC answer are arguments. *)
From S2P Require Import Prelude GoStrings GoText GoNet ConnectionContext Apis Cidr PrefixPool Converter Sdk Webhook Examples Tools Monitor SriovConfigmap SriovController DevicePlugin Daemon Startup.

(** ** Endpoints until a signal (nse.go of the three examples)

    [Start]'s error is not read.  At the signal the deferred [Delete] removes
    the endpoint through the client that [Start] made last, and panics when
    there is none. *)
Record endpoint_run (C : Type) := mkEndpointRun {
  er_chain : C;
  er_name : option string;                  (* of the registered endpoint *)
  er_signal : outcome (option error)        (* what [Delete] gives *)
}.
Arguments mkEndpointRun {C} _ _ _.
Arguments er_chain {C} _.
Arguments er_name {C} _.
Arguments er_signal {C} _.

Section endpoints.
Context (getenv : string → option string) (connection cleanup listen : option error).
Context (register : NSERegistration → result NSERegistration) (remove : string → option error).

Definition run_endpoint {C} (configuration : option NSConfiguration) (chain : C) : outcome (endpoint_run C) :=
  match NewNSMEndpoint getenv configuration None connection with
  | Panic w => Panic w
  | Ret (Err _) => Panic "exit"
  | Ret (Ok endpoint) =>
      match ep_Start cleanup listen register endpoint with
      | Panic w => Panic w
      | Ret (endpoint, None) => Ret (mkEndpointRun chain (Some (ep_endpointName endpoint)) (Ret (ep_Delete remove endpoint).2))
      | Ret (_, Some _) => Ret (mkEndpointRun chain None (Panic "nil pointer dereference"))
      end
  end.
Definition icmp_responder_main : outcome (endpoint_run (list composite)) :=
  chain ← icmp_responder getenv; run_endpoint None chain.
Definition vppagent_responder_main (a : agent) : outcome (endpoint_run (list composite * string * list agent_call)) :=
  chain ← new_responder a getenv; run_endpoint (Some mem_configuration) chain.
Definition vppagent_firewall_main (a : agent) (client : option error) : outcome (endpoint_run firewall) :=
  chain ← new_firewall a getenv client; run_endpoint (Some mem_configuration) chain.

(** An endpoint that runs is removed under the name it was registered with. *)
Lemma run_endpoint_removes {C} conf (chain : C) run name :
  run_endpoint conf chain = Ret run → er_name run = Some name → er_signal run = Ret (remove name).
Proof.
  unfold run_endpoint. intros E Hn.
  destruct (NewNSMEndpoint getenv conf None connection) as [[e|]|]; [|done..].
  destruct (ep_Start cleanup listen register e) as [[e' [err|]]|]; [| |done]; inv_ret; cbn in *; inv_ret. done.
Qed.
(** When the socket cannot be set up the process runs on without an endpoint,
    and its end is a panic. *)
Lemma start_error_ignored {C} conf (chain : C) e e' : NewNSMEndpoint getenv conf None connection = Ret (Ok e') →
  cleanup = Some e ∨ cleanup = None ∧ listen = Some e →
  run_endpoint conf chain = Ret (mkEndpointRun chain None (Panic "nil pointer dereference")).
Proof. unfold run_endpoint. intros -> [->|[-> ->]]; done. Qed.
End endpoints.

(** ** The backend of the vpp client (vppagent-nsc/nsc.go): the error is
    logged and returned. *)
Definition nsc_backend_Connect (h : Host) (a : agent) (log : list agent_call) (c : LocalConnection) (workspace : string) :
    outcome (list agent_call * option error) := nsc_CreateVppInterface h a log c workspace.

(** ** The device plugin (k8s/cmd/nsmdp)

    [waits] are the results of waiting for the socket of the manager; each
    wait ends only when the socket answers, see [WaitForPortAvailable]. *)
Fixpoint waitForNsmdAvailable (waits : list (option error)) : option () :=
  match waits with
  | [] => None
  | None :: _ => Some ()
  | Some _ :: waits => waitForNsmdAvailable waits
  end.
(** [None] while it still waits; a failed start ends the process. *)
Definition nsmdp_main (waits : list (option error)) (cleanup listen check dial register : option error) : option (outcome ()) :=
  match waitForNsmdAvailable waits with
  | None => None
  | Some _ => Some (match NewNSMDeviceServer cleanup listen check dial register with
                    | Some _ => Panic "exit"
                    | None => Ret ()
                    end)
  end.
Lemma waitForNsmdAvailable_iff waits : waitForNsmdAvailable waits = Some () ↔ None ∈ waits.
Proof.
  induction waits as [|[e|] waits IH]; cbn; [split; [done|by intros ?%elem_of_nil]|rewrite IH; set_solver|set_solver].
Qed.

(** ** The monitor of cross connects (k8s/cmd/crossconnect-monitor)

    The configuration of the cluster, the clientset, and the lists of
    managers until the process is told to end. *)
Fixpoint watch_managers (lists : list (result (list string))) (s : xcm_state) : outcome xcm_state :=
  match lists with
  | [] => Ret s
  | Err _ :: _ => Panic "exit"
  | Ok urls :: lists => watch_managers lists (lookForNSMServers urls s)
  end.
Definition crossconnect_monitor_main {Config Clientset} (home : string) (InClusterConfig : result Config)
    (BuildConfigFromFlags : string → result Config) (NewForConfig : Config → result Clientset)
    (managers : Clientset → list (result (list string))) : outcome xcm_state :=
  let kubeconfig := if decide (home = "") then "" else path_Join [home; ".kube"; "config"] in
  match (match InClusterConfig with Ok config => Ok config | Err _ => BuildConfigFromFlags kubeconfig end) with
  | Err _ => Panic "exit"
  | Ok config =>
      match NewForConfig config with
      | Err _ => Panic "exit"
      | Ok clientset => watch_managers (managers clientset) xcm_init
      end
  end.

(** ** The webhook (k8s/cmd/admission-webhook): the settings, the address
    and the path it serves, or a fatal error of the certificate. *)
Definition webhook_main (getenv : string → string) (LoadX509KeyPair : string → string → option error) :
    outcome (settings * string * string) :=
  match LoadX509KeyPair "/etc/webhook/certs/cert.pem" "/etc/webhook/certs/key.pem" with
  | Some _ => Panic "exit"
  | None => Ret (webhook_settings getenv, ":443", "/mutate")
  end.

(** ** The config controller (controllers/sriov-controller): the label that
    selects the config maps of the node, and the messages of the informer's
    events.  A cache that does not fill is only logged. *)
Definition newVFs : gmap string VF := ∅.
Definition initConfigController (y : yaml) (data_order : gmap string string → list (string * string))
    (vf_order : gmap string VF → list (string * VF)) (node : string) (synced : bool) (events : list informer_event) :
    string * (gmap string VF * list configMessage) :=
  ("networkservicemesh.io/sriov-node-name=" +:+ node,
   workforever y data_order vf_order newVFs (concat (setupInformer <$> events))).
(** An event that does not change the version of the map is not seen. *)
Lemma same_version_unseen y d v node synced pre post version cm :
  initConfigController y d v node synced (pre ++ Updated version version cm :: post)
    = initConfigController y d v node synced (pre ++ post).
Proof.
  unfold initConfigController. f_equal. f_equal. rewrite !fmap_app, fmap_cons, !concat_app. cbn.
  by rewrite decide_True.
Qed.

(** ** Clients of Kubernetes (buildClient of two commands) *)
Definition buildClient {Config Clientset} (BuildConfigFromFlags : string → result Config)
    (NewForConfig : Config → result Clientset) (kubeconfig : string) : result Clientset :=
  match BuildConfigFromFlags kubeconfig with
  | Err e => Err e
  | Ok config => match NewForConfig config with Err e => Err e | Ok c => Ok c end
  end.

(** ** The sockets of the manager (serviceregistry.go) *)
Definition ServerSock : string := "/var/lib/networkservicemesh/nsm.io.sock".
Definition NewNSMServerListener (stat : socket_stat) (remove : option error) (listen : string → option error) : result string :=
  match SocketCleanup stat remove with
  | (_, Some e) => Err e
  | (_, None) => match listen ServerSock with Some e => Err e | None => Ok ServerSock end
  end.
Definition NSMDApiClient (stat check : string → option error) : result string :=
  match stat ServerSock with
  | Some e => Err e
  | None => match check ServerSock with Some e => Err e | None => Ok ServerSock end
  end.
(** The socket of an endpoint (sdk/endpoint/endpoint.go). *)
Definition setupNSEServerConnection (conf : NSConfiguration) (stat : socket_stat) (remove : option error)
    (listen : string → option error) : result string :=
  match SocketCleanup stat remove with
  | (_, Some e) => Err e
  | (_, None) => match listen (cfg_NsmClientSocket conf) with Some e => Err e | None => Ok (cfg_NsmClientSocket conf) end
  end.
(** A client that connects finds the listener of the manager. *)
Lemma manager_listens_where_clients_look stat remove listen s1 check s2 :
  NewNSMServerListener stat remove listen = Ok s1 → NSMDApiClient check check = Ok s2 → s1 = s2.
Proof.
  unfold NewNSMServerListener, NSMDApiClient. destruct (SocketCleanup stat remove) as [b [e|]]; [done|].
  destruct (listen ServerSock), (check ServerSock); intros; inv_ret. done.
Qed.

(** ** The listener of a workspace (utils.go)

    A connection is kept with what its [RemoteAddr] gives: the server's own
    socket, which tells the workspaces of the clients apart. *)
Record customListener := mkCustomListener { serverSocket : string }.
Definition NewCustomListener (stat : socket_stat) (remove : option error) (listen : string → option error)
    (socket : string) : result customListener :=
  match SocketCleanup stat remove with
  | (_, Some e) => Err e
  | (_, None) => match listen socket with None => Ok (mkCustomListener socket) | Some e => Err e end
  end.
Record customConn (C : Type) := mkCustomConn { cc_Conn : C; cc_RemoteAddr : string * string }.
Arguments mkCustomConn {C} _ _.
Arguments cc_Conn {C} _.
Arguments cc_RemoteAddr {C} _.
Definition listener_Accept {C} (accept : result C) (l : customListener) : result (customConn C) :=
  match accept with
  | Err e => Err e
  | Ok conn => Ok (mkCustomConn conn ("unix", serverSocket l))
  end.

(** Connections to listeners on different sockets have different addresses. *)
Lemma listeners_told_apart {C} stat stat' remove remove' listen listen' s s' l l' (a a' : result C) c c' :
  NewCustomListener stat remove listen s = Ok l → NewCustomListener stat' remove' listen' s' = Ok l' →
  listener_Accept a l = Ok c → listener_Accept a' l' = Ok c' →
  cc_RemoteAddr c = cc_RemoteAddr c' ↔ s = s'.
Proof.
  unfold NewCustomListener, listener_Accept. intros E E' Ha Ha'.
  destruct (SocketCleanup stat remove) as [? [|]], (SocketCleanup stat' remove') as [? [|]]; try done.
  destruct (listen s), (listen' s'), a, a'; inv_ret. cbn. split; [by intros [= ->]|by intros ->].
Qed.
