(* ===== verification/ExamplesProps.v ===== *)
(** * Properties of the endpoints and clients on vpp *)
From S2P Require Import Prelude GoStrings GoNet ConnectionContext Apis Cidr PrefixPool Converter ConverterProps Sdk Examples.
From Stdlib Require Import Ascii.

Section firewall.
Context (env : sdk_env) (h : Host) (a : agent) (AclAction_value : gmap string Z) (rule_order : list (string * string)).

(** The chain keeps its shape. *)
Lemma tail_shape client t m mt request next r :
  chain_Request env [ClientComposite client t m; ConnectionComposite mt] request = Ret (next, r) →
  ∃ client' m', next = [ClientComposite client' t m'; ConnectionComposite mt].
Proof.
  cbn [chain_Request]. unfold composite_client_Request, with_next, connection_Request, client_answer.
  repeat case_match; intros; simplify_eq; by eexists _, _.
Qed.
Lemma tail_closes client t m mt conn :
  ∃ next, chain_Close env [ClientComposite client t m; ConnectionComposite mt] conn = Ret next.
Proof. by eexists. Qed.

Lemma crossConnec_sent log x connect dir log' r err :
  crossConnecVppInterfaces h a log x connect dir = Ret (log', r, err) → err = None →
  ∃ rv, xcon_ToDataRequest h dir x None connect = Ret (rv, None) ∧ ag_dial a = None ∧ r = Some (x, rv) ∧
    log' = (if connect then CallPut rv else CallDel rv) :: log.
Proof.
  unfold crossConnecVppInterfaces. destruct (ag_dial a); [by intros [= <- <- <-]|].
  destruct (xcon_ToDataRequest h dir x None connect) as [[rv [e|]]|]; [by intros [= <- <- <-]| |done].
  destruct connect; intros [= <- <- <-] _; by exists rv.
Qed.
Lemma xconn_connect_Ok f incoming outgoing f' conn :
  xconn_connect h a f incoming outgoing = Ret (f', Ok conn) →
  ∃ rv x rest, let conn' := lc_SetContext incoming (lc_Context outgoing) in
    conn = Some conn' ∧ ag_dial a = None ∧
    xcon_ToDataRequest h (fw_workspace f) (firewall_xcon conn' outgoing) None true = Ret (Some rv, None) ∧ dr_XCons rv = x :: rest ∧
    f' = mkFirewall (fw_monitor f) (<[lc_Id incoming := (firewall_xcon conn' outgoing, xc_Receive x)]> (fw_crossConnects f))
           (fw_workspace f) (fw_next f) (CallPut (Some rv) :: fw_log f).
Proof.
  unfold xconn_connect. destruct (crossConnecVppInterfaces _ _ _ _ _ _) as [[[log sent] [e|]]|] eqn:Hc; [by destruct sent as [[? [?|]]|]| |done].
  apply crossConnec_sent in Hc as (rv & Hrv & Hd & -> & ->); [|done]. destruct rv as [rv|]; [|done].
  destruct (dr_XCons rv) as [|x rest] eqn:Hx; [done|]. intros [= <- <-]. by exists rv, x, rest.
Qed.
Lemma xconn_Request_Ok f request f' conn :
  xconn_Request env h a f request = Ret (f', Ok conn) →
  ∃ next incoming outgoing, chain_Request env (fw_next f) request = Ret (next, Ok (Some incoming)) ∧
    opaque_of next (lc_Id incoming) = Some outgoing ∧
    xconn_connect h a (mkFirewall (fw_monitor f) (fw_crossConnects f) (fw_workspace f) next (fw_log f)) incoming outgoing = Ret (f', Ok conn).
Proof.
  unfold xconn_Request. destruct (chain_Request _ _ _) as [[next [incoming|e]]|]; [|done|done].
  destruct (opaque_of next (conn_id incoming)) as [outgoing|] eqn:Ho; [|done]. destruct incoming as [incoming|]; [|done].
  intros H. by exists next, incoming, outgoing.
Qed.
Lemma applyAcl_Ok log name ifname rules log' :
  applyAclOnVppInterface a AclAction_value rule_order log name ifname rules = (log', None) →
  ∃ rv, acl_ToDataRequest AclAction_value (Some (mkAclConverter name rules ifname)) rule_order None = (rv, None) ∧
    log' = CallPut rv :: log.
Proof.
  unfold applyAclOnVppInterface, put_or_undo. destruct (ag_dial a); [done|].
  destruct (acl_ToDataRequest _ _ _ _) as [rv [e|]]; [done|]. destruct (ag_put a log rv); [done|].
  intros [= <-]. by exists rv.
Qed.

Lemma acl_Ok_Some c order : acl_ToDataRequest AclAction_value (Some c) order None ≠ (None, None).
Proof.
  cbn. generalize (@nil AclRule) empty_DataRequest. induction order as [|[n r] order IH]; intros acc rv; cbn; [done|].
  destruct (getRule _ _ _); [apply IH|done].
Qed.

(** A converted cross connect has ends that the converter knows. *)
Lemma local_supported host c p rv connect o :
  local_ToDataRequest host c p rv connect = Ret o → supported (LocalConn c) = true.
Proof. unfold local_ToDataRequest, supported. by destruct (lm_Type <$> lc_Mechanism c) as [[]|]. Qed.
Lemma firewall_xcon_supported host dir incoming outgoing connect rv :
  xcon_ToDataRequest host dir (firewall_xcon incoming outgoing) None connect = Ret (Some rv, None) →
  supported (LocalConn incoming) = true ∧ supported (LocalConn outgoing) = true.
Proof.
  intros (m1 & m2 & ? & ? & E1 & E2 & _)%xcon_returns. cbn [convert_end firewall_xcon xcon_Source xcon_Destination] in *.
  split; by eapply local_supported.
Qed.

(** The two rules of the firewall: echo requests and port 80, with the value
    that the agent's enumeration has for the action. *)
Definition firewall_rules (reflect : Z) : list AclRule :=
  [mkAclRule "Allow ICMP" reflect (mkIpRule None (Some (mkIcmpRule (0, 65535) (8, 8))) None None);
   mkAclRule "Allow TCP 80" reflect (mkIpRule None None (Some (mkPortRange 80 80, mkPortRange 0 65535)) None)].
Lemma aclRules_order : is_range_of rule_order aclRules →
  let icmp := ("Allow ICMP", "action=reflect,icmptype=8") in
  let tcp := ("Allow TCP 80", "action=reflect,tcplowport=80,tcpupport=80") in
  rule_order = [icmp; tcp] ∨ rule_order = [tcp; icmp].
Proof.
  unfold is_range_of, aclRules. intros Hr. apply Permutation_length_2_inv. symmetry. rewrite Hr.
  rewrite map_to_list_insert by done. by rewrite map_to_list_singleton.
Qed.
Lemma rule_parsed reflect name rule m :
  AclAction_value !! "REFLECT" = Some reflect → ParseKVStringToMap rule "," "=" !! "action" = Some "reflect" →
  getMatch (ParseKVStringToMap rule "," "=") = Ok m → getRule AclAction_value name rule = Ok (mkAclRule name reflect m).
Proof.
  intros Hr Ha Hm. unfold getRule, getAction. rewrite Ha. change (ToUpper "reflect") with "REFLECT". by rewrite Hr, Hm.
Qed.
Lemma firewall_lists reflect ifname acl :
  is_range_of rule_order aclRules → AclAction_value !! "REFLECT" = Some reflect →
  acl_ToDataRequest AclAction_value (Some (mkAclConverter "IngressACL" aclRules ifname)) rule_order None = (Some acl, None) →
  ∃ rules, rules ≡ₚ firewall_rules reflect ∧
    dr_AccessLists acl = [mkAcl "IngressACL" (take 1 rules) [] [ifname]; mkAcl "IngressACL" rules [] [ifname]].
Proof.
  intros Ho Hr. cbn [acl_ToDataRequest default]. intros (rules & HF & E)%acl_loop_spec.
  cbn [aclc_Name aclc_IngressInterface] in E. exists rules.
  pose proof (rule_parsed reflect "Allow ICMP" "action=reflect,icmptype=8" _ Hr eq_refl eq_refl) as R1.
  pose proof (rule_parsed reflect "Allow TCP 80" "action=reflect,tcplowport=80,tcpupport=80" _ Hr eq_refl eq_refl) as R2.
  destruct (aclRules_order Ho) as [Eo|Eo]; rewrite Eo in HF, E; cbn [length seq fmap list_fmap] in E;
    apply Forall2_cons_inv_l in HF as (r1 & rest & H1 & HF & ->); apply Forall2_cons_inv_l in HF as (r2 & rest' & H2 & HF & ->);
    apply Forall2_nil_inv_l in HF as ->; cbn [fst snd] in H1, H2; rewrite R1 in *; rewrite R2 in *;
    injection H1 as <-; injection H2 as <-; (split; [|exact E]); [done|apply Permutation_swap].
Qed.

(** C29: when the firewall answers a request, on a host with the ids of the
    library xid, the connection it returns has the addresses of the connection
    it made itself; the agent was sent the cross connect of the two and then
    two access lists on the interface towards the client, the second one with
    exactly the rules for echo requests and for port 80.  Closing the
    connection, while /dev/vhost-net has not come or gone, sends one deletion
    that names all interfaces, cross connects, routes, neighbors and Linux
    interfaces in pods that the cross connect had set up, and with
    /dev/vhost-net the same Linux interfaces at all; it returns what the agent
    answered.  When the socket directory of the client cannot be made again,
    closing returns that error and sends nothing. *)
Theorem firewall_request_close h2 f client t m mt request f' conn reflect :
  xid_ok h → xid_ok h2 → host_vhost_net h = host_vhost_net h2 →
  is_range_of rule_order aclRules → AclAction_value !! "REFLECT" = Some reflect →
  fw_next f = [ClientComposite client t m; ConnectionComposite mt] →
  firewall_Request env h a AclAction_value rule_order f request = Ret (f', Ok (Some conn)) →
  ∃ outgoing rv acl rules,
    opaque_of (fw_next f') (lc_Id conn) = Some outgoing ∧ lc_Context conn = lc_Context outgoing ∧
    fw_log f' = [CallPut (Some acl); CallPut (Some rv)] ++ fw_log f ∧
    xcon_ToDataRequest h (fw_workspace f) (firewall_xcon conn outgoing) None true = Ret (Some rv, None) ∧
    rules ≡ₚ firewall_rules reflect ∧
    dr_AccessLists acl = [mkAcl "IngressACL" (take 1 rules) [] ["SRC-" +:+ lc_Id conn]; mkAcl "IngressACL" rules [] ["SRC-" +:+ lc_Id conn]] ∧
    match xcon_error h2 (fw_workspace f) false (LocalConn conn) (LocalConn outgoing) with
    | Some e => ∃ f'', firewall_Close env h2 a f' conn = Ret (f'', Some (Wrapf "Error Converting CrossConnect %v: %s" e)) ∧
        fw_log f'' = fw_log f'
    | None => ∃ rv' f'', firewall_Close env h2 a f' conn = Ret (f'', ag_del a (fw_log f') (Some rv')) ∧
        fw_log f'' = CallDel (Some rv') :: fw_log f' ∧ keys rv = keys rv' ∧ pod_keys rv = pod_keys rv' ∧
        (host_vhost_net h = true → linux_keys rv = linux_keys rv')
    end.
Proof.
  intros Hh Hh2 Hv Ho Hr Hnext. unfold firewall_Request.
  destruct (acl_Request _ _ _ _ _ _ _) as [[f1 [c|]]|] eqn:Ha; [|done|done]. intros [= <- ->]. cbn [fw_next fw_log] in *.
  unfold acl_Request in Ha. destruct (xconn_Request _ _ _ _ _) as [[f0 [inc|]]|] eqn:Hx; [|done|done].
  destruct (xconn_GetOpaque f0 inc) as [ifname|] eqn:Hop; [|done].
  destruct (applyAclOnVppInterface _ _ _ _ _ _ _) as [log [e|]] eqn:Hacl; [done|]. injection Ha as <- ->. cbn [fw_next fw_log] in *.
  apply xconn_Request_Ok in Hx as (next & incoming & outgoing & Hchain & Hout & Hc).
  rewrite Hnext in Hchain. apply tail_shape in Hchain as (client' & m' & ->).
  apply xconn_connect_Ok in Hc as (rv & x & rest & [= ->] & Hd & Hrv & Hxc & ->).
  cbn [fw_next fw_log fw_crossConnects fw_workspace fw_monitor] in *.
  set (conn' := lc_SetContext incoming (lc_Context outgoing)) in *.
  assert (xcon_IsComplete (Some (firewall_xcon conn' outgoing)) = None) as Hcomplete.
  { unfold xcon_ToDataRequest in Hrv. by destruct (xcon_IsComplete _). }
  destruct (firewall_xcon_supported _ _ _ _ _ _ Hrv) as [Hs1 Hs2].
  pose proof (xcon_converts h (fw_workspace f) _ _ _ true Hh Hcomplete eq_refl eq_refl Hs1 Hs2) as C1.
  pose proof (xcon_converts h2 (fw_workspace f) _ _ _ false Hh2 Hcomplete eq_refl eq_refl Hs1 Hs2) as C2.
  destruct (xcon_error h _ _ _ _) as [e|]; [congruence|]. destruct C1 as (rv1 & E1 & _ & Hxs & _).
  rewrite Hrv in E1. injection E1 as <-. rewrite Hxs in Hxc. injection Hxc as <- <-.
  unfold xconn_GetOpaque in Hop. cbn in Hop. rewrite lookup_insert_eq in Hop. injection Hop as <-.
  apply applyAcl_Ok in Hacl as (acl & Hacl & ->). destruct acl as [acl|]; [|by apply acl_Ok_Some in Hacl].
  destruct (firewall_lists _ _ _ Ho Hr Hacl) as (rules & Hrules & Hlists).
  exists outgoing, rv, acl, rules. split_and!; [done|done|done|done|done|exact Hlists|].
  unfold firewall_Close, xconn_Close. cbn [fw_crossConnects fw_log fw_workspace fw_next fw_monitor].
  change (lc_Id conn') with (lc_Id incoming). rewrite lookup_insert_eq. unfold crossConnecVppInterfaces. rewrite Hd.
  destruct (xcon_error h2 _ _ _ _) as [e|]; [rewrite C2; by eexists|]. destruct C2 as (rv' & E' & _). rewrite E'.
  pose proof (teardown_names_setup h h2 (fw_workspace f) _ rv rv' Hv Hrv E') as Hk.
  exists rv'. destruct (ag_del a _ _); (eexists; split; [reflexivity|]; by split).
Qed.
End firewall.

(** ** Starting *)
Lemma or_getEnv_again getenv value key mandatory value' :
  or_getEnv getenv value key mandatory = Ret value' → or_getEnv getenv value' key mandatory = Ret value'.
Proof. unfold or_getEnv. case_decide; intros E; [by case_decide|]. injection E as <-. by rewrite decide_False. Qed.
(** The fields of a completed configuration, one after the other. *)
Ltac complete_fields H :=
  unfold CompleteNSConfiguration in H;
  repeat match type of H with
  | context [or_getEnv ?e ?v ?k ?m] => let E := fresh "E" in destruct (or_getEnv e v k m) eqn:E; [|discriminate H]
  | context [getEnv ?e ?k ?m] => let E := fresh "E" in destruct (getEnv e k m) eqn:E; [|discriminate H]
  end; injection H as <-.
(** A complete configuration stays as it is, so that the constructors, which
    all complete the one they share, agree on it. *)
Lemma complete_idempotent getenv c c' :
  CompleteNSConfiguration getenv c = Ret c' → CompleteNSConfiguration getenv c' = Ret c'.
Proof.
  intros H. complete_fields H. unfold CompleteNSConfiguration.
  cbn [cfg_NsmServerSocket cfg_NsmClientSocket cfg_Workspace cfg_AdvertiseNseName cfg_OutgoingNscName
       cfg_AdvertiseNseLabels cfg_OutgoingNscLabels cfg_MechanismType cfg_IPAddress].
  by repeat match goal with
  | E : or_getEnv _ _ ?k _ = Ret _ |- _ => apply or_getEnv_again in E; rewrite E; clear E
  | E : getEnv _ _ _ = Ret _ |- _ => rewrite E; clear E
  end.
Qed.
Lemma complete_mem getenv conf : CompleteNSConfiguration getenv mem_configuration = Ret conf → cfg_MechanismType conf = "mem".
Proof. intros H. complete_fields H. cbn. unfold or_getEnv in *. by simplify_eq/=. Qed.
(** The firewall starts with the chain that the theorem above speaks
    about, without cross connects, and with an agent that was reset. *)
Lemma new_firewall_chain a getenv connection f :
  new_firewall a getenv connection = Ret f →
  ∃ client, fw_next f = [ClientComposite client "mem" ∅; ConnectionComposite MEM_INTERFACE] ∧
    nc_OutgoingConnections client = [] ∧ fw_crossConnects f = ∅ ∧
    fw_log f = match ag_dial a with None => [CallResync] | Some _ => [] end.
Proof.
  unfold new_firewall, newVppAgentXConnComposite. destruct (CompleteNSConfiguration getenv mem_configuration) as [conf|] eqn:Hc; [|done].
  apply complete_mem in Hc as Hm.
  unfold NewClientCompositeEndpoint, NewNSMClient, NewConnectionCompositeEndpoint. rewrite Hm. destruct connection; [done|].
  intros [= <-]. eexists. split; [done|]. unfold agent_Reset. by destruct (ag_dial a).
Qed.

(** ** Shared memory interfaces
    An end that terminates an interface and the dataplane's end of the same
    side have opposite roles on the socket. *)
Lemma memif_roles prefix id dir side name dir' : side ≠ NEITHER →
  memif_isMaster (end_parameters prefix id dir side) = negb (memif_isMaster (mkParameters false side name dir')).
Proof. by destruct side. Qed.

(** ** Behaviours that deserve attention *)
(** The responder sets up the interface and then answers without a connection. *)
Lemma responder_answers_nothing env h a next dir log request next' log' c :
  responder_Request env h a next dir log request = Ret (next', log', Ok c) → c = None.
Proof.
  unfold responder_Request. destruct (chain_Request _ _ _) as [[? [[?|]|]]|]; try done.
  destruct (nse_CreateVppInterface _ _ _ _ _) as [[? [?|]]|]; try done. by intros [= _ _ <-].
Qed.

(** ** Instances *)
Module Firewall.
Definition memif : LocalMechanism :=
  match NewMechanism (Ok "4026") MEM_INTERFACE "nsm0" "memory" with Ok m => m | Err _ => mkLocalMechanism MEM_INTERFACE None end.
Definition outgoing : LocalConnection := mkLocalConnection "2" "icmp" (Some memif) (Some Conversion.ctx) ∅ State_UP.
Definition rc : LocalConnection := mkLocalConnection "1" "icmp" None (Some empty_ConnectionContext) ∅ State_UP.
Definition request : LocalRequest := mkLocalRequest (Some rc) [memif].
Definition env : sdk_env := mkSdkEnv (Ok "4026") (λ _, "a-b_c") (Ok []) default_order (λ _ _, Ok outgoing).
Definition h : Host := Conversion.host Conversion.guid1.
Definition fine : agent := mkAgent None (λ _ _, None) (λ _ _, None).
Definition client : NsmClient := mkNsmClient "icmp" ∅ [] ∅ 1 [].
Definition start : firewall :=
  mkFirewall [] ∅ "/var/lib/networkservicemesh/" [ClientComposite client "mem" ∅; ConnectionComposite MEM_INTERFACE] [].
Definition rules : list (string * string) := map_to_list aclRules.
Definition answer : firewall * option LocalConnection :=
  match firewall_Request env h fine Conversion.actions rules start request with
  | Ret (f, Ok c) => (f, c)
  | _ => (start, None)
  end.
Definition conn : LocalConnection := default rc answer.2.
Lemma firewall_answers : firewall_Request env h fine Conversion.actions rules start request = Ret (answer.1, Ok (Some conn)).
Proof. by vm_compute. Qed.
End Firewall.
Lemma firewall_request_close_witness : ∃ outgoing rv acl rules,
  opaque_of (fw_next Firewall.answer.1) (lc_Id Firewall.conn) = Some outgoing ∧
  lc_Context Firewall.conn = lc_Context outgoing ∧
  fw_log Firewall.answer.1 = [CallPut (Some acl); CallPut (Some rv)] ++ [] ∧
  xcon_ToDataRequest Firewall.h "/var/lib/networkservicemesh/" (firewall_xcon Firewall.conn outgoing) None true = Ret (Some rv, None) ∧
  rules ≡ₚ firewall_rules 2 ∧
  dr_AccessLists acl = [mkAcl "IngressACL" (take 1 rules) [] ["SRC-" +:+ lc_Id Firewall.conn];
                        mkAcl "IngressACL" rules [] ["SRC-" +:+ lc_Id Firewall.conn]] ∧
  match xcon_error Firewall.h "/var/lib/networkservicemesh/" false (LocalConn Firewall.conn) (LocalConn outgoing) with
  | Some e => ∃ f'', firewall_Close Firewall.env Firewall.h Firewall.fine Firewall.answer.1 Firewall.conn =
                Ret (f'', Some (Wrapf "Error Converting CrossConnect %v: %s" e)) ∧ fw_log f'' = fw_log Firewall.answer.1
  | None => ∃ rv' f'', firewall_Close Firewall.env Firewall.h Firewall.fine Firewall.answer.1 Firewall.conn = Ret (f'', None) ∧
      fw_log f'' = CallDel (Some rv') :: fw_log Firewall.answer.1 ∧ keys rv = keys rv' ∧ pod_keys rv = pod_keys rv' ∧
      (true = true → linux_keys rv = linux_keys rv')
  end.
Proof.
  apply (firewall_request_close Firewall.env Firewall.h Firewall.fine Conversion.actions Firewall.rules Firewall.h Firewall.start
           Firewall.client "mem" ∅ MEM_INTERFACE Firewall.request).
  - by apply Conversion.host_xid_ok.
  - by apply Conversion.host_xid_ok.
  - reflexivity.
  - unfold is_range_of, Firewall.rules. reflexivity.
  - vm_compute. reflexivity.
  - reflexivity.
  - exact Firewall.firewall_answers.
Defined.
